(** * Mindurka Reworked: the authoritative world model of [main.py]

    A shallow embedding of the simulation core of [src/main.py]: the
    structure classes, the world registry with its tile grid, the player
    actions, the power-distribution engine, the wave director and the
    snapshot protocol, followed by the properties proved about them.

    Conventions of the embedding.
    - Python [int] is [Z]; Python [float] is [Q] (exact rationals: the
      idealisation of IEEE doubles without rounding error).  Comparisons
      are the boolean tests [Qleb]/[Qltb]; [min]/[max] are [pymin]/[pymax],
      which return the same argument as Python does on ties.
    - A Python [dict] held by the world is a [gmap]; a dict received in a
      snapshot is an association list in iteration order.
    - Structure objects are shared between the id registry, the tile grid,
      [self.core] and the power lists.  They live in an object store
      ([heap], a list indexed by allocation order) and every reference is
      an index into it, so that a mutation through one reference is seen
      through all of them.  [ResourcePatch] objects are only ever held by
      one grid cell and never mutated; a cell stores them by value.
    - Attributes that a constructor assigns once from the class's constant
      table and that no code reassigns ([cost], [max_tier], [upgrade_cost],
      [is_power_node], [is_power_storage], the battery rates, the centre
      coordinates derived from the grid coordinates) are functions of the
      variant or of the grid position, not record fields.
    - Drawing, sound, sockets and broadcasts have no effect on the world
      state and are left out. *)

From Stdlib Require Import QArith Qabs Qround Lqa ZArith Lia Ascii String.
From stdpp Require Import gmap strings list fin_maps pretty.

Open Scope Z_scope.

(** ** Python arithmetic on floats *)

Definition Qleb (x y : Q) : bool := Qle_bool x y.
Definition Qltb (x y : Q) : bool := negb (Qle_bool y x).

(** [min(a, b)] and [max(a, b)]: the first argument wins a tie. *)
Definition pymin (a b : Q) : Q := if Qltb b a then b else a.
Definition pymax (a b : Q) : Q := if Qltb a b then b else a.

(** [int(x)] on a float truncates toward zero. *)
Definition py_int (x : Q) : Z := Z.quot (Qnum x) (Z.pos (Qden x)).

(** [d.get(k, default)] on an optional snapshot field. *)
Definition get_or {A} (field : option A) (dflt : A) : A :=
  match field with Some v => v | None => dflt end.

(** Lookup in a constant table written as an association list. *)
Fixpoint assoc {V} (k : Z) (l : list (Z * V)) : option V :=
  match l with
  | [] => None
  | (k', v) :: l' => if Z.eqb k k' then Some v else assoc k l'
  end.

(** ** Constants *)

Definition TILE_SIZE : Z := 32.

Definition RES_COPPER : string := "copper".
Definition RES_COAL : string := "coal".

Definition STARTING_COPPER : Z := 200.
Definition STARTING_COAL : Z := 100.
Definition CORE_HP : Q := 1500.
Definition PLAYER_SPEED : Q := 160.
Definition PLAYER_BUILD_RADIUS : Q := 256.

Definition ENEMY_SPAWN_RATE : Q := 3.
Definition ENEMY_START_HP : Z := 50.
Definition ENEMY_HP_INCREASE_PER_WAVE : Z := 20.
Definition ENEMY_SPEED : Q := 272 # 5.
Definition ENEMY_DAMAGE : Q := 20.
Definition ENEMY_ATTACK_COOLDOWN : Q := 9 # 10.
Definition WAVE_DURATION : Q := 40.
Definition WAVE_COOLDOWN : Q := 30.
Definition MAX_WAVES : Z := 20.

Definition MAX_TIER : Z := 3.

Definition Cost := list (string * Z).

Definition DRILL_COST : Cost := [(RES_COPPER, 15)].
Definition DRILL_STATS : list (Q * Q) :=
  [(18 # 10, 100); (14 # 10, 140); (1, 180)]%Q.
Definition DRILL_UPGRADE_COST : list (Z * Cost) :=
  [(2, [(RES_COPPER, 40)]); (3, [(RES_COPPER, 75); (RES_COAL, 20)])].
Definition DRILL_OUTPUT_COOLDOWN : Q := 1 # 10.

Definition CONVEYOR_COST : Cost := [(RES_COPPER, 5)].
Definition CONVEYOR_STATS : list (Q * Q * Z) :=
  [((8 # 10)%Q, 50%Q, 1); ((55 # 100)%Q, 70%Q, 2); ((35 # 100)%Q, 90%Q, 3)].
Definition CONVEYOR_UPGRADE_COST : list (Z * Cost) :=
  [(2, [(RES_COPPER, 15)]); (3, [(RES_COPPER, 30); (RES_COAL, 5)])].

Definition TURRET_COST : Cost := [(RES_COPPER, 30)].
(** (range, damage, fire_rate, max_hp) per tier. *)
Definition TURRET_STATS : list (Q * Q * Q * Q) :=
  [(160, 30, 45 # 100, 150); (176, 40, 40 # 100, 220); (192, 55, 30 # 100, 300)]%Q.
Definition TURRET_UPGRADE_COST : list (Z * Cost) :=
  [(2, [(RES_COPPER, 50); (RES_COAL, 20)]); (3, [(RES_COPPER, 80); (RES_COAL, 50)])].
Definition TURRET_AMMO_CAPACITY : Z := 12.
Definition TURRET_AMMO_CONSUMPTION : Z := 1.
Definition PROJECTILE_SPEED : Q := 240.
Definition TURRET_T3_POWER_CONSUMPTION : Q := 15.

Definition WALL_COST : Cost := [(RES_COPPER, 10)].
Definition WALL_HP : Q := 400.
Definition COALGENERATOR_COST : Cost := [(RES_COPPER, 40); (RES_COAL, 25)].
Definition COALGENERATOR_HP : Q := 200.
Definition COALGENERATOR_INPUT_CAP : Z := 10.
Definition COALGENERATOR_CONSUMPTION_RATE : Q := 3.
Definition COALGENERATOR_POWER_OUTPUT : Q := 30.
Definition POWERPOLE_COST : Cost := [(RES_COPPER, 15)].
Definition POWERPOLE_HP : Q := 80.
Definition POWER_RADIUS : Q := 160.
Definition POWER_SEARCH_DEPTH_LIMIT : Z := 15.
Definition POWER_NETWORK_STATS_UPDATE_INTERVAL : Q := 3 # 10.
Definition BATTERY_COST : Cost := [(RES_COPPER, 50); (RES_COAL, 15)].
Definition BATTERY_HP : Q := 250.
Definition BATTERY_CAPACITY : Q := 3000.
Definition BATTERY_CHARGE_RATE : Q := 40.
Definition BATTERY_DISCHARGE_RATE : Q := 40.
Definition RECONSTRUCTOR_COST : Cost := [(RES_COPPER, 70); (RES_COAL, 40)].
Definition RECONSTRUCTOR_HP : Q := 300.
Definition RECONSTRUCTOR_POWER_CONSUMPTION : Q := 10.

Definition DELETE_REFUND_RATIO : Q := 1 # 2.

(** The small tolerance [1e-9] of the float comparisons. *)
Definition EPS : Q := 1 # 1000000000.

Definition BUILDING_NONE : Z := 0.
Definition BUILDING_DRILL : Z := 1.
Definition BUILDING_CONVEYOR : Z := 2.
Definition BUILDING_TURRET : Z := 3.
Definition BUILDING_WALL : Z := 4.
Definition BUILDING_COALGENERATOR : Z := 5.
Definition BUILDING_POWERPOLE : Z := 6.
Definition BUILDING_CORE : Z := 7.
Definition BUILDING_RESOURCE : Z := 8.
Definition BUILDING_BATTERY : Z := 9.
Definition BUILDING_RECONSTRUCTOR : Z := 10.

Definition ORIENTATIONS : list (Z * Z) := [(0, -1); (1, 0); (0, 1); (-1, 0)].
Definition NORTH : Z := 0.
Definition EAST : Z := 1.
Definition SOUTH : Z := 2.
Definition WEST : Z := 3.

Definition COLOR_PLAYER_OPTIONS_LEN : Z := 11.

(** ** Helper functions *)

Definition grid_to_world_center (gx gy : Z) : Q * Q :=
  ((inject_Z gx + (1 # 2)) * inject_Z TILE_SIZE,
   (inject_Z gy + (1 # 2)) * inject_Z TILE_SIZE)%Q.

Definition distance_sq (x1 y1 x2 y2 : Q) : Q :=
  (let dx := x1 - x2 in let dy := y1 - y2 in dx * dx + dy * dy)%Q.

(** ** Structures

    One record for the attributes of [class Structure]; the subclass and
    its own attributes are the [kind]. *)

Module Drill.
Record data := Data {
    mining_timer : Q;
    output_timer : Q;
    resource_held_count : Z;
    resource_type_held : option string;
    is_on_patch : bool;
    speed : Q;
}.
End Drill.

Module Conveyor.
Record data := Data {
    orientation : Z;
    item_progress : Q;
    item_type : option string;
    item_count : Z;
    transfer_time : Q;
    capacity : Z;
}.
Definition set_item_progress (v : Q) (c : data) : data :=
    Data (orientation c) v (item_type c) (item_count c) (transfer_time c) (capacity c).
Definition set_item_type (v : option string) (c : data) : data :=
    Data (orientation c) (item_progress c) v (item_count c) (transfer_time c) (capacity c).
Definition set_item_count (v : Z) (c : data) : data :=
    Data (orientation c) (item_progress c) (item_type c) v (transfer_time c) (capacity c).
Definition set_orientation (v : Z) (c : data) : data :=
    Data v (item_progress c) (item_type c) (item_count c) (transfer_time c) (capacity c).
End Conveyor.

Module Turret.
Record data := Data {
    fire_timer : Q;
    ammo : Z;
    target_id : option string;
    angle : Q;
    range : Q;
    range_sq : Q;
    damage : Q;
    fire_rate : Q;
}.
Definition set_ammo (v : Z) (t : data) : data :=
    Data (fire_timer t) v (target_id t) (angle t) (range t) (range_sq t) (damage t) (fire_rate t).
Definition set_angle (v : Q) (t : data) : data :=
    Data (fire_timer t) (ammo t) (target_id t) v (range t) (range_sq t) (damage t) (fire_rate t).
End Turret.

Module CoalGenerator.
Record data := Data {
    coal_buffer : Z;
    consume_timer : Q;
}.
End CoalGenerator.

Module Battery.
Record data := Data {
    charge : Q;
    is_charging : bool;
    is_discharging : bool;
}.
  (** [self.capacity], [self.charge_rate] and [self.discharge_rate] are
      the module constants for every battery. *)
Definition capacity : Q := BATTERY_CAPACITY.
Definition charge_rate : Q := BATTERY_CHARGE_RATE.
Definition discharge_rate : Q := BATTERY_DISCHARGE_RATE.
End Battery.

Module Reconstructor.
Record data := Data {
    repair_timer : Q;
}.
End Reconstructor.

Inductive Kind :=
  | KCore
  | KResourcePatch (resource_type : string)
  | KDrill (d : Drill.data)
  | KConveyor (c : Conveyor.data)
  | KTurret (t : Turret.data)
  | KWall
  | KCoalGenerator (g : CoalGenerator.data)
  | KPowerPole
  | KBattery (b : Battery.data)
  | KReconstructor (r : Reconstructor.data).

Definition Coords := (Q * Q)%type.

Record Structure := MkStructure {
  grid_x : Z;
  grid_y : Z;
  max_hp : Q;
  hp : Q;
  destroyed : bool;
  is_power_source : bool;
  is_power_consumer : bool;
  power_consumption : Q;
  is_on_grid : bool;
  is_powered : bool;
  power_source_coords : option Coords;
  connected_nodes_coords : list Coords;
  tier : Z;
  network_id : string;
  kind : Kind;
}.

Definition set_max_hp (v : Q) (s : Structure) : Structure :=
  MkStructure (grid_x s) (grid_y s) v (hp s) (destroyed s) (is_power_source s)
    (is_power_consumer s) (power_consumption s) (is_on_grid s) (is_powered s)
    (power_source_coords s) (connected_nodes_coords s) (tier s) (network_id s) (kind s).
Definition set_hp (v : Q) (s : Structure) : Structure :=
  MkStructure (grid_x s) (grid_y s) (max_hp s) v (destroyed s) (is_power_source s)
    (is_power_consumer s) (power_consumption s) (is_on_grid s) (is_powered s)
    (power_source_coords s) (connected_nodes_coords s) (tier s) (network_id s) (kind s).
Definition set_destroyed (v : bool) (s : Structure) : Structure :=
  MkStructure (grid_x s) (grid_y s) (max_hp s) (hp s) v (is_power_source s)
    (is_power_consumer s) (power_consumption s) (is_on_grid s) (is_powered s)
    (power_source_coords s) (connected_nodes_coords s) (tier s) (network_id s) (kind s).
Definition set_is_power_source (v : bool) (s : Structure) : Structure :=
  MkStructure (grid_x s) (grid_y s) (max_hp s) (hp s) (destroyed s) v
    (is_power_consumer s) (power_consumption s) (is_on_grid s) (is_powered s)
    (power_source_coords s) (connected_nodes_coords s) (tier s) (network_id s) (kind s).
Definition set_is_power_consumer (v : bool) (s : Structure) : Structure :=
  MkStructure (grid_x s) (grid_y s) (max_hp s) (hp s) (destroyed s) (is_power_source s)
    v (power_consumption s) (is_on_grid s) (is_powered s)
    (power_source_coords s) (connected_nodes_coords s) (tier s) (network_id s) (kind s).
Definition set_power_consumption (v : Q) (s : Structure) : Structure :=
  MkStructure (grid_x s) (grid_y s) (max_hp s) (hp s) (destroyed s) (is_power_source s)
    (is_power_consumer s) v (is_on_grid s) (is_powered s)
    (power_source_coords s) (connected_nodes_coords s) (tier s) (network_id s) (kind s).
Definition set_is_on_grid (v : bool) (s : Structure) : Structure :=
  MkStructure (grid_x s) (grid_y s) (max_hp s) (hp s) (destroyed s) (is_power_source s)
    (is_power_consumer s) (power_consumption s) v (is_powered s)
    (power_source_coords s) (connected_nodes_coords s) (tier s) (network_id s) (kind s).
Definition set_is_powered (v : bool) (s : Structure) : Structure :=
  MkStructure (grid_x s) (grid_y s) (max_hp s) (hp s) (destroyed s) (is_power_source s)
    (is_power_consumer s) (power_consumption s) (is_on_grid s) v
    (power_source_coords s) (connected_nodes_coords s) (tier s) (network_id s) (kind s).
Definition set_power_source_coords (v : option Coords) (s : Structure) : Structure :=
  MkStructure (grid_x s) (grid_y s) (max_hp s) (hp s) (destroyed s) (is_power_source s)
    (is_power_consumer s) (power_consumption s) (is_on_grid s) (is_powered s)
    v (connected_nodes_coords s) (tier s) (network_id s) (kind s).
Definition set_connected_nodes_coords (v : list Coords) (s : Structure) : Structure :=
  MkStructure (grid_x s) (grid_y s) (max_hp s) (hp s) (destroyed s) (is_power_source s)
    (is_power_consumer s) (power_consumption s) (is_on_grid s) (is_powered s)
    (power_source_coords s) v (tier s) (network_id s) (kind s).
Definition set_tier (v : Z) (s : Structure) : Structure :=
  MkStructure (grid_x s) (grid_y s) (max_hp s) (hp s) (destroyed s) (is_power_source s)
    (is_power_consumer s) (power_consumption s) (is_on_grid s) (is_powered s)
    (power_source_coords s) (connected_nodes_coords s) v (network_id s) (kind s).
Definition set_network_id (v : string) (s : Structure) : Structure :=
  MkStructure (grid_x s) (grid_y s) (max_hp s) (hp s) (destroyed s) (is_power_source s)
    (is_power_consumer s) (power_consumption s) (is_on_grid s) (is_powered s)
    (power_source_coords s) (connected_nodes_coords s) (tier s) v (kind s).
Definition set_kind (v : Kind) (s : Structure) : Structure :=
  MkStructure (grid_x s) (grid_y s) (max_hp s) (hp s) (destroyed s) (is_power_source s)
    (is_power_consumer s) (power_consumption s) (is_on_grid s) (is_powered s)
    (power_source_coords s) (connected_nodes_coords s) (tier s) (network_id s) v.

(** [self.building_type], fixed by the class. *)
Definition kind_type (k : Kind) : Z :=
  match k with
  | KCore => BUILDING_CORE
  | KResourcePatch _ => BUILDING_RESOURCE
  | KDrill _ => BUILDING_DRILL
  | KConveyor _ => BUILDING_CONVEYOR
  | KTurret _ => BUILDING_TURRET
  | KWall => BUILDING_WALL
  | KCoalGenerator _ => BUILDING_COALGENERATOR
  | KPowerPole => BUILDING_POWERPOLE
  | KBattery _ => BUILDING_BATTERY
  | KReconstructor _ => BUILDING_RECONSTRUCTOR
  end.
Definition building_type (s : Structure) : Z := kind_type (kind s).

Definition center_x (s : Structure) : Q := fst (grid_to_world_center (grid_x s) (grid_y s)).
Definition center_y (s : Structure) : Q := snd (grid_to_world_center (grid_x s) (grid_y s)).
Definition center (s : Structure) : Coords := (center_x s, center_y s).

(** [self.cost], the constructor's [cost_dict]. *)
Definition cost (s : Structure) : Cost :=
  match kind s with
  | KCore | KResourcePatch _ => []
  | KDrill _ => DRILL_COST
  | KConveyor _ => CONVEYOR_COST
  | KTurret _ => TURRET_COST
  | KWall => WALL_COST
  | KCoalGenerator _ => COALGENERATOR_COST
  | KPowerPole => POWERPOLE_COST
  | KBattery _ => BATTERY_COST
  | KReconstructor _ => RECONSTRUCTOR_COST
  end.

Definition max_tier (s : Structure) : Z :=
  match kind s with
  | KDrill _ | KConveyor _ | KTurret _ => MAX_TIER
  | _ => 1
  end.

Definition upgrade_cost (s : Structure) : list (Z * Cost) :=
  match kind s with
  | KDrill _ => DRILL_UPGRADE_COST
  | KConveyor _ => CONVEYOR_UPGRADE_COST
  | KTurret _ => TURRET_UPGRADE_COST
  | _ => []
  end.

Definition is_power_node (s : Structure) : bool :=
  match kind s with
  | KCoalGenerator _ | KPowerPole | KBattery _ => true
  | _ => false
  end.

Definition is_power_storage (s : Structure) : bool :=
  match kind s with
  | KBattery _ => true
  | _ => false
  end.

(** [Structure.__init__]; the id is [f"{gx}_{gy}_{b_type}"]. *)
Definition structure_id (gx gy b_type : Z) : string :=
  pretty gx +:+ "_" +:+ pretty gy +:+ "_" +:+ pretty b_type.

Definition Structure_init (gx gy : Z) (hp0 : Q) (k : Kind) : Structure :=
  {| grid_x := gx; grid_y := gy; max_hp := hp0; hp := hp0; destroyed := false;
     is_power_source := false; is_power_consumer := false; power_consumption := 0;
     is_on_grid := false; is_powered := false; power_source_coords := None;
     connected_nodes_coords := []; tier := 1;
     network_id := structure_id gx gy (kind_type k); kind := k |}.

(** *** Subclass constructors and [update_stats] *)

Definition valid_index {A} (i : Z) (l : list A) : bool :=
  (0 <=? i) && (i <? Z.of_nat (length l)).

Definition Drill_update_stats (s : Structure) (d : Drill.data) : Structure :=
  if valid_index (tier s - 1) DRILL_STATS then
    match DRILL_STATS !! Z.to_nat (tier s - 1) with
    | Some (sp, mh) =>
        set_kind (KDrill (Drill.Data (Drill.mining_timer d) (Drill.output_timer d)
                            (Drill.resource_held_count d) (Drill.resource_type_held d)
                            (Drill.is_on_patch d) sp))
          (set_max_hp mh s)
    | None => s
    end
  else s.

Definition Conveyor_update_stats (s : Structure) (c : Conveyor.data) : Structure :=
  let c1 :=
    if valid_index (tier s - 1) CONVEYOR_STATS then
      match CONVEYOR_STATS !! Z.to_nat (tier s - 1) with
      | Some (ttime, mh, cap) =>
          (Conveyor.Data (Conveyor.orientation c) (Conveyor.item_progress c)
             (Conveyor.item_type c) (Conveyor.item_count c) ttime cap, mh)
      | None => (c, max_hp s)
      end
    else (c, max_hp s) in
  let c2 := Conveyor.set_item_count
              (Z.min (Conveyor.item_count (fst c1)) (Conveyor.capacity (fst c1))) (fst c1) in
  let c3 := if Conveyor.item_count c2 =? 0 then Conveyor.set_item_type None c2 else c2 in
  set_kind (KConveyor c3) (set_max_hp (snd c1) s).

Definition Turret_update_stats (s : Structure) (t : Turret.data) : Structure :=
  let s1 :=
    if valid_index (tier s - 1) TURRET_STATS then
      match TURRET_STATS !! Z.to_nat (tier s - 1) with
      | Some (rg, dmg, fr, mh) =>
          set_kind (KTurret (Turret.Data (Turret.fire_timer t) 0 (Turret.target_id t)
                               (Turret.angle t) rg (rg * rg)%Q dmg fr))
            (set_max_hp mh s)
      | None => s
      end
    else s in
  if tier s1 =? 3 then
    set_power_consumption TURRET_T3_POWER_CONSUMPTION (set_is_power_consumer true s1)
  else
    set_is_powered false (set_power_consumption 0 (set_is_power_consumer false s1)).

(** [hasattr(self, 'update_stats')] *)
Definition has_update_stats (s : Structure) : bool :=
  match kind s with
  | KDrill _ | KConveyor _ | KTurret _ => true
  | _ => false
  end.

Definition update_stats (s : Structure) : Structure :=
  match kind s with
  | KDrill d => Drill_update_stats s d
  | KConveyor c => Conveyor_update_stats s c
  | KTurret t => Turret_update_stats s t
  | _ => s
  end.

Definition Core_init (gx gy : Z) : Structure := Structure_init gx gy CORE_HP KCore.

Definition ResourcePatch_init (gx gy : Z) (resource_type : string) : Structure :=
  set_network_id ("res_" +:+ pretty gx +:+ "_" +:+ pretty gy)
    (Structure_init gx gy 99999 (KResourcePatch resource_type)).

Definition Drill_init (gx gy : Z) : Structure :=
  update_stats (Structure_init gx gy 100 (KDrill (Drill.Data 0 0 0 None false (18 # 10)))).

Definition Conveyor_init (gx gy orientation : Z) : Structure :=
  update_stats
    (Structure_init gx gy 50 (KConveyor (Conveyor.Data orientation 0 None 0 (8 # 10) 1))).

(** [fire_timer0] is the draw of [random.uniform(0, TURRET_STATS[0][2])]. *)
Definition Turret_init (gx gy : Z) (fire_timer0 : Q) : Structure :=
  update_stats
    (Structure_init gx gy 150
       (KTurret (Turret.Data fire_timer0 0 None 0 160 (160 * 160) 30 (45 # 100)))).

Definition Wall_init (gx gy : Z) : Structure := Structure_init gx gy WALL_HP KWall.

Definition CoalGenerator_init (gx gy : Z) : Structure :=
  Structure_init gx gy COALGENERATOR_HP (KCoalGenerator (CoalGenerator.Data 0 0)).

Definition PowerPole_init (gx gy : Z) : Structure :=
  Structure_init gx gy POWERPOLE_HP KPowerPole.

Definition Battery_init (gx gy : Z) : Structure :=
  Structure_init gx gy BATTERY_HP (KBattery (Battery.Data 0 false false)).

Definition Reconstructor_init (gx gy : Z) : Structure :=
  set_power_consumption RECONSTRUCTOR_POWER_CONSUMPTION
    (set_is_power_consumer true
       (Structure_init gx gy RECONSTRUCTOR_HP (KReconstructor (Reconstructor.Data 0)))).

(** *** Upgrades *)

Definition can_upgrade (s : Structure) : bool :=
  let more_tiers := tier s <? max_tier s in
  let next_cost_exists :=
    if more_tiers then bool_decide (is_Some (assoc (tier s + 1) (upgrade_cost s)))
    else false in
  more_tiers && next_cost_exists.

Definition get_next_upgrade_cost (s : Structure) : option Cost :=
  if can_upgrade s then assoc (tier s + 1) (upgrade_cost s) else None.

(** [Structure.apply_upgrade]: the upgraded structure and the returned flag. *)
Definition apply_upgrade (s : Structure) : Structure * bool :=
  if negb (can_upgrade s) then (s, false)
  else
    let hp_ratio := if Qltb 0 (max_hp s) then (hp s / max_hp s)%Q else 1%Q in
    let s1 := set_tier (tier s + 1) s in
    let s2 := if has_update_stats s1 then update_stats s1 else s1 in
    let s3 := set_hp (pymin (max_hp s2) (max_hp s2 * hp_ratio)%Q) s2 in
    let s4 := if Qltb 0 (max_hp s3) && Qltb (hp s3) 1 then set_hp 1 s3 else s3 in
    (s4, true).


(** ** Players, enemies and projectiles *)

Module Player.
Record t := Make {
  player_id : Z;
  world_x : Q;
  world_y : Q;
  move_x : Q;
  move_y : Q;
  name : string;
  color_index : Z;
  color : Z;
  last_input_processed : Z;
}.
Definition set_world_x (v : Q) (x : t) : t :=
  Make (player_id x) v (world_y x) (move_x x) (move_y x) (name x) (color_index x)
    (color x) (last_input_processed x).
Definition set_world_y (v : Q) (x : t) : t :=
  Make (player_id x) (world_x x) v (move_x x) (move_y x) (name x) (color_index x)
    (color x) (last_input_processed x).
Definition set_name (v : string) (x : t) : t :=
  Make (player_id x) (world_x x) (world_y x) (move_x x) (move_y x) v (color_index x)
    (color x) (last_input_processed x).
Definition set_color_index (v : Z) (x : t) : t :=
  Make (player_id x) (world_x x) (world_y x) (move_x x) (move_y x) (name x) v (color x)
    (last_input_processed x).
Definition set_color (v : Z) (x : t) : t :=
  Make (player_id x) (world_x x) (world_y x) (move_x x) (move_y x) (name x)
    (color_index x) v (last_input_processed x).
End Player.

Module Enemy.
Record t := Make {
  network_id : string;
  world_x : Q;
  world_y : Q;
  target_core_coords : Coords;
  current_attack_target_id : option string;
  max_hp : Q;
  hp : Q;
  speed : Q;
  damage : Q;
  attack_cooldown : Q;
  attack_timer : Q;
  destroyed : bool;
}.
Definition set_world_x (v : Q) (x : t) : t :=
  Make (network_id x) v (world_y x) (target_core_coords x) (current_attack_target_id x)
    (max_hp x) (hp x) (speed x) (damage x) (attack_cooldown x) (attack_timer x)
    (destroyed x).
Definition set_world_y (v : Q) (x : t) : t :=
  Make (network_id x) (world_x x) v (target_core_coords x) (current_attack_target_id x)
    (max_hp x) (hp x) (speed x) (damage x) (attack_cooldown x) (attack_timer x)
    (destroyed x).
Definition set_max_hp (v : Q) (x : t) : t :=
  Make (network_id x) (world_x x) (world_y x) (target_core_coords x)
    (current_attack_target_id x) v (hp x) (speed x) (damage x) (attack_cooldown x)
    (attack_timer x) (destroyed x).
Definition set_hp (v : Q) (x : t) : t :=
  Make (network_id x) (world_x x) (world_y x) (target_core_coords x)
    (current_attack_target_id x) (max_hp x) v (speed x) (damage x) (attack_cooldown x)
    (attack_timer x) (destroyed x).
End Enemy.

Module Projectile.
Record t := Make {
  network_id : string;
  world_x : Q;
  world_y : Q;
  target_enemy_id : option string;
  speed : Q;
  damage : Q;
  destroyed : bool;
  lifetime : Q;
  vx : Q;
  vy : Q;
}.
Definition set_world_x (v : Q) (x : t) : t :=
  Make (network_id x) v (world_y x) (target_enemy_id x) (speed x) (damage x) (destroyed x)
    (lifetime x) (vx x) (vy x).
Definition set_world_y (v : Q) (x : t) : t :=
  Make (network_id x) (world_x x) v (target_enemy_id x) (speed x) (damage x) (destroyed x)
    (lifetime x) (vx x) (vy x).
Definition set_vx (v : Q) (x : t) : t :=
  Make (network_id x) (world_x x) (world_y x) (target_enemy_id x) (speed x) (damage x)
    (destroyed x) (lifetime x) v (vy x).
Definition set_vy (v : Q) (x : t) : t :=
  Make (network_id x) (world_x x) (world_y x) (target_enemy_id x) (speed x) (damage x)
    (destroyed x) (lifetime x) (vx x) v.
End Projectile.

(** ** The world *)

Inductive Mode := ModeSp | ModeHost | ModeClient.

(** A reference to a structure object: an index into the object store. *)
Definition Ref := nat.

(** What a grid cell holds: a [ResourcePatch] visual (by value) or a
    reference to a structure object. *)
Inductive Cell :=
  | CellPatch (p : Structure)
  | CellObj (a : Ref).

Record Game := MkGame {
  grid_width : Z;
  grid_height : Z;
  map_width_px : Z;
  map_height_px : Z;
  network_mode : Mode;
  running : bool;
  resources : gmap string Z;
  wave_number : Z;
  wave_timer : Q;
  in_wave : bool;
  game_over : bool;
  game_won : bool;
  heap : list Structure;
  grid : gmap (Z * Z) Cell;
  structures : gmap string Ref;
  enemies : gmap string Enemy.t;
  projectiles : gmap string Projectile.t;
  core : option Ref;
  base_terrain : gmap (Z * Z) string;
  players : gmap Z Player.t;
  local_player_id : option Z;
  dt : Q;
  power_nodes : list Ref;
  power_consumers : list Ref;
  power_grid_update_timer : Q;
  enemies_to_spawn_this_wave : Z;
  enemies_spawned_this_wave : Z;
  enemy_spawn_timer : Q;
  current_enemy_hp : Z;
  max_waves : Z;
  next_enemy_id : Z;
  next_projectile_id : Z;
}.
Definition with_resources (v : gmap string Z) (x : Game) : Game :=
  MkGame (grid_width x) (grid_height x) (map_width_px x) (map_height_px x)
    (network_mode x) (running x) v (wave_number x) (wave_timer x) (in_wave x)
    (game_over x) (game_won x) (heap x) (grid x) (structures x) (enemies x)
    (projectiles x) (core x) (base_terrain x) (players x) (local_player_id x) (dt x)
    (power_nodes x) (power_consumers x) (power_grid_update_timer x)
    (enemies_to_spawn_this_wave x) (enemies_spawned_this_wave x) (enemy_spawn_timer x)
    (current_enemy_hp x) (max_waves x) (next_enemy_id x) (next_projectile_id x).
Definition with_wave_number (v : Z) (x : Game) : Game :=
  MkGame (grid_width x) (grid_height x) (map_width_px x) (map_height_px x)
    (network_mode x) (running x) (resources x) v (wave_timer x) (in_wave x) (game_over x)
    (game_won x) (heap x) (grid x) (structures x) (enemies x) (projectiles x) (core x)
    (base_terrain x) (players x) (local_player_id x) (dt x) (power_nodes x)
    (power_consumers x) (power_grid_update_timer x) (enemies_to_spawn_this_wave x)
    (enemies_spawned_this_wave x) (enemy_spawn_timer x) (current_enemy_hp x) (max_waves x)
    (next_enemy_id x) (next_projectile_id x).
Definition with_wave_timer (v : Q) (x : Game) : Game :=
  MkGame (grid_width x) (grid_height x) (map_width_px x) (map_height_px x)
    (network_mode x) (running x) (resources x) (wave_number x) v (in_wave x) (game_over x)
    (game_won x) (heap x) (grid x) (structures x) (enemies x) (projectiles x) (core x)
    (base_terrain x) (players x) (local_player_id x) (dt x) (power_nodes x)
    (power_consumers x) (power_grid_update_timer x) (enemies_to_spawn_this_wave x)
    (enemies_spawned_this_wave x) (enemy_spawn_timer x) (current_enemy_hp x) (max_waves x)
    (next_enemy_id x) (next_projectile_id x).
Definition with_in_wave (v : bool) (x : Game) : Game :=
  MkGame (grid_width x) (grid_height x) (map_width_px x) (map_height_px x)
    (network_mode x) (running x) (resources x) (wave_number x) (wave_timer x) v
    (game_over x) (game_won x) (heap x) (grid x) (structures x) (enemies x)
    (projectiles x) (core x) (base_terrain x) (players x) (local_player_id x) (dt x)
    (power_nodes x) (power_consumers x) (power_grid_update_timer x)
    (enemies_to_spawn_this_wave x) (enemies_spawned_this_wave x) (enemy_spawn_timer x)
    (current_enemy_hp x) (max_waves x) (next_enemy_id x) (next_projectile_id x).
Definition with_game_over (v : bool) (x : Game) : Game :=
  MkGame (grid_width x) (grid_height x) (map_width_px x) (map_height_px x)
    (network_mode x) (running x) (resources x) (wave_number x) (wave_timer x) (in_wave x)
    v (game_won x) (heap x) (grid x) (structures x) (enemies x) (projectiles x) (core x)
    (base_terrain x) (players x) (local_player_id x) (dt x) (power_nodes x)
    (power_consumers x) (power_grid_update_timer x) (enemies_to_spawn_this_wave x)
    (enemies_spawned_this_wave x) (enemy_spawn_timer x) (current_enemy_hp x) (max_waves x)
    (next_enemy_id x) (next_projectile_id x).
Definition with_game_won (v : bool) (x : Game) : Game :=
  MkGame (grid_width x) (grid_height x) (map_width_px x) (map_height_px x)
    (network_mode x) (running x) (resources x) (wave_number x) (wave_timer x) (in_wave x)
    (game_over x) v (heap x) (grid x) (structures x) (enemies x) (projectiles x) (core x)
    (base_terrain x) (players x) (local_player_id x) (dt x) (power_nodes x)
    (power_consumers x) (power_grid_update_timer x) (enemies_to_spawn_this_wave x)
    (enemies_spawned_this_wave x) (enemy_spawn_timer x) (current_enemy_hp x) (max_waves x)
    (next_enemy_id x) (next_projectile_id x).
Definition with_heap (v : list Structure) (x : Game) : Game :=
  MkGame (grid_width x) (grid_height x) (map_width_px x) (map_height_px x)
    (network_mode x) (running x) (resources x) (wave_number x) (wave_timer x) (in_wave x)
    (game_over x) (game_won x) v (grid x) (structures x) (enemies x) (projectiles x)
    (core x) (base_terrain x) (players x) (local_player_id x) (dt x) (power_nodes x)
    (power_consumers x) (power_grid_update_timer x) (enemies_to_spawn_this_wave x)
    (enemies_spawned_this_wave x) (enemy_spawn_timer x) (current_enemy_hp x) (max_waves x)
    (next_enemy_id x) (next_projectile_id x).
Definition with_grid (v : gmap (Z * Z) Cell) (x : Game) : Game :=
  MkGame (grid_width x) (grid_height x) (map_width_px x) (map_height_px x)
    (network_mode x) (running x) (resources x) (wave_number x) (wave_timer x) (in_wave x)
    (game_over x) (game_won x) (heap x) v (structures x) (enemies x) (projectiles x)
    (core x) (base_terrain x) (players x) (local_player_id x) (dt x) (power_nodes x)
    (power_consumers x) (power_grid_update_timer x) (enemies_to_spawn_this_wave x)
    (enemies_spawned_this_wave x) (enemy_spawn_timer x) (current_enemy_hp x) (max_waves x)
    (next_enemy_id x) (next_projectile_id x).
Definition with_structures (v : gmap string Ref) (x : Game) : Game :=
  MkGame (grid_width x) (grid_height x) (map_width_px x) (map_height_px x)
    (network_mode x) (running x) (resources x) (wave_number x) (wave_timer x) (in_wave x)
    (game_over x) (game_won x) (heap x) (grid x) v (enemies x) (projectiles x) (core x)
    (base_terrain x) (players x) (local_player_id x) (dt x) (power_nodes x)
    (power_consumers x) (power_grid_update_timer x) (enemies_to_spawn_this_wave x)
    (enemies_spawned_this_wave x) (enemy_spawn_timer x) (current_enemy_hp x) (max_waves x)
    (next_enemy_id x) (next_projectile_id x).
Definition with_enemies (v : gmap string Enemy.t) (x : Game) : Game :=
  MkGame (grid_width x) (grid_height x) (map_width_px x) (map_height_px x)
    (network_mode x) (running x) (resources x) (wave_number x) (wave_timer x) (in_wave x)
    (game_over x) (game_won x) (heap x) (grid x) (structures x) v (projectiles x) (core x)
    (base_terrain x) (players x) (local_player_id x) (dt x) (power_nodes x)
    (power_consumers x) (power_grid_update_timer x) (enemies_to_spawn_this_wave x)
    (enemies_spawned_this_wave x) (enemy_spawn_timer x) (current_enemy_hp x) (max_waves x)
    (next_enemy_id x) (next_projectile_id x).
Definition with_projectiles (v : gmap string Projectile.t) (x : Game) : Game :=
  MkGame (grid_width x) (grid_height x) (map_width_px x) (map_height_px x)
    (network_mode x) (running x) (resources x) (wave_number x) (wave_timer x) (in_wave x)
    (game_over x) (game_won x) (heap x) (grid x) (structures x) (enemies x) v (core x)
    (base_terrain x) (players x) (local_player_id x) (dt x) (power_nodes x)
    (power_consumers x) (power_grid_update_timer x) (enemies_to_spawn_this_wave x)
    (enemies_spawned_this_wave x) (enemy_spawn_timer x) (current_enemy_hp x) (max_waves x)
    (next_enemy_id x) (next_projectile_id x).
Definition with_core (v : option Ref) (x : Game) : Game :=
  MkGame (grid_width x) (grid_height x) (map_width_px x) (map_height_px x)
    (network_mode x) (running x) (resources x) (wave_number x) (wave_timer x) (in_wave x)
    (game_over x) (game_won x) (heap x) (grid x) (structures x) (enemies x)
    (projectiles x) v (base_terrain x) (players x) (local_player_id x) (dt x)
    (power_nodes x) (power_consumers x) (power_grid_update_timer x)
    (enemies_to_spawn_this_wave x) (enemies_spawned_this_wave x) (enemy_spawn_timer x)
    (current_enemy_hp x) (max_waves x) (next_enemy_id x) (next_projectile_id x).
Definition with_base_terrain (v : gmap (Z * Z) string) (x : Game) : Game :=
  MkGame (grid_width x) (grid_height x) (map_width_px x) (map_height_px x)
    (network_mode x) (running x) (resources x) (wave_number x) (wave_timer x) (in_wave x)
    (game_over x) (game_won x) (heap x) (grid x) (structures x) (enemies x)
    (projectiles x) (core x) v (players x) (local_player_id x) (dt x) (power_nodes x)
    (power_consumers x) (power_grid_update_timer x) (enemies_to_spawn_this_wave x)
    (enemies_spawned_this_wave x) (enemy_spawn_timer x) (current_enemy_hp x) (max_waves x)
    (next_enemy_id x) (next_projectile_id x).
Definition with_players (v : gmap Z Player.t) (x : Game) : Game :=
  MkGame (grid_width x) (grid_height x) (map_width_px x) (map_height_px x)
    (network_mode x) (running x) (resources x) (wave_number x) (wave_timer x) (in_wave x)
    (game_over x) (game_won x) (heap x) (grid x) (structures x) (enemies x)
    (projectiles x) (core x) (base_terrain x) v (local_player_id x) (dt x) (power_nodes x)
    (power_consumers x) (power_grid_update_timer x) (enemies_to_spawn_this_wave x)
    (enemies_spawned_this_wave x) (enemy_spawn_timer x) (current_enemy_hp x) (max_waves x)
    (next_enemy_id x) (next_projectile_id x).
Definition with_power_nodes (v : list Ref) (x : Game) : Game :=
  MkGame (grid_width x) (grid_height x) (map_width_px x) (map_height_px x)
    (network_mode x) (running x) (resources x) (wave_number x) (wave_timer x) (in_wave x)
    (game_over x) (game_won x) (heap x) (grid x) (structures x) (enemies x)
    (projectiles x) (core x) (base_terrain x) (players x) (local_player_id x) (dt x) v
    (power_consumers x) (power_grid_update_timer x) (enemies_to_spawn_this_wave x)
    (enemies_spawned_this_wave x) (enemy_spawn_timer x) (current_enemy_hp x) (max_waves x)
    (next_enemy_id x) (next_projectile_id x).
Definition with_power_consumers (v : list Ref) (x : Game) : Game :=
  MkGame (grid_width x) (grid_height x) (map_width_px x) (map_height_px x)
    (network_mode x) (running x) (resources x) (wave_number x) (wave_timer x) (in_wave x)
    (game_over x) (game_won x) (heap x) (grid x) (structures x) (enemies x)
    (projectiles x) (core x) (base_terrain x) (players x) (local_player_id x) (dt x)
    (power_nodes x) v (power_grid_update_timer x) (enemies_to_spawn_this_wave x)
    (enemies_spawned_this_wave x) (enemy_spawn_timer x) (current_enemy_hp x) (max_waves x)
    (next_enemy_id x) (next_projectile_id x).
Definition with_power_grid_update_timer (v : Q) (x : Game) : Game :=
  MkGame (grid_width x) (grid_height x) (map_width_px x) (map_height_px x)
    (network_mode x) (running x) (resources x) (wave_number x) (wave_timer x) (in_wave x)
    (game_over x) (game_won x) (heap x) (grid x) (structures x) (enemies x)
    (projectiles x) (core x) (base_terrain x) (players x) (local_player_id x) (dt x)
    (power_nodes x) (power_consumers x) v (enemies_to_spawn_this_wave x)
    (enemies_spawned_this_wave x) (enemy_spawn_timer x) (current_enemy_hp x) (max_waves x)
    (next_enemy_id x) (next_projectile_id x).
Definition with_enemies_to_spawn_this_wave (v : Z) (x : Game) : Game :=
  MkGame (grid_width x) (grid_height x) (map_width_px x) (map_height_px x)
    (network_mode x) (running x) (resources x) (wave_number x) (wave_timer x) (in_wave x)
    (game_over x) (game_won x) (heap x) (grid x) (structures x) (enemies x)
    (projectiles x) (core x) (base_terrain x) (players x) (local_player_id x) (dt x)
    (power_nodes x) (power_consumers x) (power_grid_update_timer x) v
    (enemies_spawned_this_wave x) (enemy_spawn_timer x) (current_enemy_hp x) (max_waves x)
    (next_enemy_id x) (next_projectile_id x).
Definition with_enemies_spawned_this_wave (v : Z) (x : Game) : Game :=
  MkGame (grid_width x) (grid_height x) (map_width_px x) (map_height_px x)
    (network_mode x) (running x) (resources x) (wave_number x) (wave_timer x) (in_wave x)
    (game_over x) (game_won x) (heap x) (grid x) (structures x) (enemies x)
    (projectiles x) (core x) (base_terrain x) (players x) (local_player_id x) (dt x)
    (power_nodes x) (power_consumers x) (power_grid_update_timer x)
    (enemies_to_spawn_this_wave x) v (enemy_spawn_timer x) (current_enemy_hp x)
    (max_waves x) (next_enemy_id x) (next_projectile_id x).
Definition with_enemy_spawn_timer (v : Q) (x : Game) : Game :=
  MkGame (grid_width x) (grid_height x) (map_width_px x) (map_height_px x)
    (network_mode x) (running x) (resources x) (wave_number x) (wave_timer x) (in_wave x)
    (game_over x) (game_won x) (heap x) (grid x) (structures x) (enemies x)
    (projectiles x) (core x) (base_terrain x) (players x) (local_player_id x) (dt x)
    (power_nodes x) (power_consumers x) (power_grid_update_timer x)
    (enemies_to_spawn_this_wave x) (enemies_spawned_this_wave x) v (current_enemy_hp x)
    (max_waves x) (next_enemy_id x) (next_projectile_id x).
Definition with_current_enemy_hp (v : Z) (x : Game) : Game :=
  MkGame (grid_width x) (grid_height x) (map_width_px x) (map_height_px x)
    (network_mode x) (running x) (resources x) (wave_number x) (wave_timer x) (in_wave x)
    (game_over x) (game_won x) (heap x) (grid x) (structures x) (enemies x)
    (projectiles x) (core x) (base_terrain x) (players x) (local_player_id x) (dt x)
    (power_nodes x) (power_consumers x) (power_grid_update_timer x)
    (enemies_to_spawn_this_wave x) (enemies_spawned_this_wave x) (enemy_spawn_timer x) v
    (max_waves x) (next_enemy_id x) (next_projectile_id x).
Definition with_next_enemy_id (v : Z) (x : Game) : Game :=
  MkGame (grid_width x) (grid_height x) (map_width_px x) (map_height_px x)
    (network_mode x) (running x) (resources x) (wave_number x) (wave_timer x) (in_wave x)
    (game_over x) (game_won x) (heap x) (grid x) (structures x) (enemies x)
    (projectiles x) (core x) (base_terrain x) (players x) (local_player_id x) (dt x)
    (power_nodes x) (power_consumers x) (power_grid_update_timer x)
    (enemies_to_spawn_this_wave x) (enemies_spawned_this_wave x) (enemy_spawn_timer x)
    (current_enemy_hp x) (max_waves x) v (next_projectile_id x).
Definition with_next_projectile_id (v : Z) (x : Game) : Game :=
  MkGame (grid_width x) (grid_height x) (map_width_px x) (map_height_px x)
    (network_mode x) (running x) (resources x) (wave_number x) (wave_timer x) (in_wave x)
    (game_over x) (game_won x) (heap x) (grid x) (structures x) (enemies x)
    (projectiles x) (core x) (base_terrain x) (players x) (local_player_id x) (dt x)
    (power_nodes x) (power_consumers x) (power_grid_update_timer x)
    (enemies_to_spawn_this_wave x) (enemies_spawned_this_wave x) (enemy_spawn_timer x)
    (current_enemy_hp x) (max_waves x) (next_enemy_id x) v.
Definition with_network_mode (v : Mode) (x : Game) : Game :=
  MkGame (grid_width x) (grid_height x) (map_width_px x) (map_height_px x) v (running x)
    (resources x) (wave_number x) (wave_timer x) (in_wave x) (game_over x) (game_won x)
    (heap x) (grid x) (structures x) (enemies x) (projectiles x) (core x) (base_terrain x)
    (players x) (local_player_id x) (dt x) (power_nodes x) (power_consumers x)
    (power_grid_update_timer x) (enemies_to_spawn_this_wave x)
    (enemies_spawned_this_wave x) (enemy_spawn_timer x) (current_enemy_hp x) (max_waves x)
    (next_enemy_id x) (next_projectile_id x).
Definition with_local_player_id (v : option Z) (x : Game) : Game :=
  MkGame (grid_width x) (grid_height x) (map_width_px x) (map_height_px x)
    (network_mode x) (running x) (resources x) (wave_number x) (wave_timer x) (in_wave x)
    (game_over x) (game_won x) (heap x) (grid x) (structures x) (enemies x)
    (projectiles x) (core x) (base_terrain x) (players x) v (dt x) (power_nodes x)
    (power_consumers x) (power_grid_update_timer x) (enemies_to_spawn_this_wave x)
    (enemies_spawned_this_wave x) (enemy_spawn_timer x) (current_enemy_hp x) (max_waves x)
    (next_enemy_id x) (next_projectile_id x).
Definition with_dt (v : Q) (x : Game) : Game :=
  MkGame (grid_width x) (grid_height x) (map_width_px x) (map_height_px x)
    (network_mode x) (running x) (resources x) (wave_number x) (wave_timer x) (in_wave x)
    (game_over x) (game_won x) (heap x) (grid x) (structures x) (enemies x)
    (projectiles x) (core x) (base_terrain x) (players x) (local_player_id x) v
    (power_nodes x) (power_consumers x) (power_grid_update_timer x)
    (enemies_to_spawn_this_wave x) (enemies_spawned_this_wave x) (enemy_spawn_timer x)
    (current_enemy_hp x) (max_waves x) (next_enemy_id x) (next_projectile_id x).

(** *** The object store *)

(** A constructor call allocates the new object. *)
Definition alloc (s : Structure) (g : Game) : Game * Ref :=
  (with_heap (heap g ++ [s]) g, length (heap g)).

(** In-place mutation of the object behind a reference. *)
Definition modify (a : Ref) (f : Structure -> Structure) (g : Game) : Game :=
  match heap g !! a with
  | Some s => with_heap (<[a := f s]> (heap g)) g
  | None => g
  end.

(** The object a grid occupant is. *)
Definition cell_structure (g : Game) (c : Cell) : option Structure :=
  match c with
  | CellPatch p => Some p
  | CellObj a => heap g !! a
  end.

(** [x is obj] for a grid occupant [x] and an object reference. *)
Definition cell_is (c : option Cell) (a : Ref) : bool :=
  match c with
  | Some (CellObj b) => Nat.eqb b a
  | _ => false
  end.

(** [obj in some_list] compares by identity. *)
Definition ref_in (a : Ref) (l : list Ref) : bool := existsb (Nat.eqb a) l.

(** [some_list.remove(obj)]: drops the first occurrence. *)
Fixpoint list_remove (a : Ref) (l : list Ref) : list Ref :=
  match l with
  | [] => []
  | b :: l' => if Nat.eqb a b then l' else b :: list_remove a l'
  end.

(** *** Resources *)

(** [all(self.resources.get(res, 0) >= amount for res, amount in cost.items())] *)
Definition affordable (res : gmap string Z) (c : Cost) : bool :=
  forallb (fun '(r, amount) => amount <=? default 0 (res !! r)) c.

(** [for res, amount in cost.items(): self.resources[res] -= amount].  The
    key is present whenever the entry was affordable at a positive amount
    (lemma [affordable_key_present]). *)
Definition deduct_cost (c : Cost) (res : gmap string Z) : gmap string Z :=
  foldl (fun m '(r, amount) => alter (fun v => v - amount) r m) res c.

(** [for res, amount in cost.items(): self.resources[res] += amount] *)
Definition refund_cost (c : Cost) (res : gmap string Z) : gmap string Z :=
  foldl (fun m '(r, amount) => alter (fun v => v + amount) r m) res c.

(** [self.resources[res] = self.resources.get(res, 0) + int(amount * DELETE_REFUND_RATIO)] *)
Definition refund_removed (c : Cost) (res : gmap string Z) : gmap string Z :=
  foldl (fun m '(r, amount) =>
           <[r := default 0 (m !! r) + py_int (inject_Z amount * DELETE_REFUND_RATIO)]> m)
        res c.

(** *** Grid and registry *)

Definition in_bounds (g : Game) (gx gy : Z) : bool :=
  (0 <=? gx) && (gx <? grid_width g) && (0 <=? gy) && (gy <? grid_height g).

Definition get_structure_at (g : Game) (gx gy : Z) : option Cell :=
  if in_bounds g gx gy then grid g !! (gx, gy) else None.

Definition get_structure_by_id (g : Game) (network_id : string) : option Ref :=
  structures g !! network_id.

Definition is_client (g : Game) : bool :=
  match network_mode g with ModeClient => true | _ => false end.

Definition _update_power_lists_add (g : Game) (a : Ref) : Game :=
  if is_client g then g
  else
    match heap g !! a with
    | None => g
    | Some obj =>
        let g1 := if is_power_node obj && negb (ref_in a (power_nodes g))
                  then with_power_nodes (power_nodes g ++ [a]) g else g in
        if is_power_consumer obj && negb (ref_in a (power_consumers g1))
        then with_power_consumers (power_consumers g1 ++ [a]) g1 else g1
    end.

Definition _update_power_lists_remove (g : Game) (a : Ref) : Game :=
  if is_client g then g
  else
    match heap g !! a with
    | None => g
    | Some obj =>
        let g1 := if is_power_node obj && ref_in a (power_nodes g)
                  then with_power_nodes (list_remove a (power_nodes g)) g else g in
        if is_power_consumer obj && ref_in a (power_consumers g1)
        then with_power_consumers (list_remove a (power_consumers g1)) g1 else g1
    end.

Definition _rebuild_power_lists (g : Game) : Game :=
  if is_client g then g
  else
    let objs := (map_to_list (structures g)).*2 in
    let has (p : Structure -> bool) (a : Ref) :=
      match heap g !! a with Some s => p s | None => false end in
    with_power_consumers (List.filter (has is_power_consumer) objs)
      (with_power_nodes (List.filter (has is_power_node) objs) g).

(** [if base_type:] -- a missing entry and the empty string are falsy. *)
Definition truthy (r : option string) : option string :=
  match r with
  | Some s => if String.eqb s "" then None else Some s
  | None => None
  end.

(** The grid cell of a departed structure: the patch visual comes back
    where base terrain exists, otherwise the cell is cleared. *)
Definition restore_cell (g : Game) (gx gy : Z) : Game :=
  match truthy (base_terrain g !! (gx, gy)) with
  | Some base_type =>
      with_grid (<[(gx, gy) := CellPatch (ResourcePatch_init gx gy base_type)]> (grid g)) g
  | None => with_grid (delete (gx, gy) (grid g)) g
  end.

Definition _remove_structure_from_game (g : Game) (a : Ref) : Game :=
  match heap g !! a with
  | None => g
  | Some structure_obj =>
      let gx := grid_x structure_obj in
      let gy := grid_y structure_obj in
      let removed_id := network_id structure_obj in
      let g1 := with_structures (delete removed_id (structures g)) g in
      let g2 := if is_client g1 then g1 else _update_power_lists_remove g1 a in
      if in_bounds g2 gx gy && cell_is (grid g2 !! (gx, gy)) a
      then restore_cell g2 gx gy
      else g2
  end.

Definition is_Drill (s : Structure) : bool :=
  match kind s with KDrill _ => true | _ => false end.
Definition is_ResourcePatch (s : Structure) : bool :=
  match kind s with KResourcePatch _ => true | _ => false end.

(** [isinstance(existing, ResourcePatch)] for a grid occupant *)
Definition cell_is_patch (g : Game) (c : option Cell) : bool :=
  match c with
  | Some c' => match cell_structure g c' with Some s => is_ResourcePatch s | None => false end
  | None => false
  end.

(** [Drill.setup_on_patch] *)
Definition setup_on_patch (g : Game) (s : Structure) : Structure :=
  match kind s with
  | KDrill d =>
      let patch_type := base_terrain g !! (grid_x s, grid_y s) in
      match patch_type with
      | Some p =>
          if String.eqb p RES_COPPER || String.eqb p RES_COAL then
            set_kind (KDrill (Drill.Data (Drill.mining_timer d) (Drill.output_timer d)
                                (Drill.resource_held_count d) (Some p) true (Drill.speed d))) s
          else
            set_kind (KDrill (Drill.Data (Drill.mining_timer d) (Drill.output_timer d)
                                (Drill.resource_held_count d) (Drill.resource_type_held d)
                                false (Drill.speed d))) s
      | None =>
          set_kind (KDrill (Drill.Data (Drill.mining_timer d) (Drill.output_timer d)
                              (Drill.resource_held_count d) (Drill.resource_type_held d)
                              false (Drill.speed d))) s
      end
  | _ => s
  end.

(** [_add_structure_to_game], called with the freshly constructed object. *)
Definition _add_structure_to_game (g : Game) (a : Ref) : Game * bool :=
  match heap g !! a with
  | None => (g, false)
  | Some structure_obj =>
      let gx := grid_x structure_obj in
      let gy := grid_y structure_obj in
      if negb (in_bounds g gx gy) then (g, false)
      else
        let existing_on_grid := grid g !! (gx, gy) in
        let is_drill_on_patch := is_Drill structure_obj && cell_is_patch g existing_on_grid in
        let g1 :=
          match existing_on_grid with
          | Some (CellObj b) =>
              match heap g !! b with
              | Some ex =>
                  if negb is_drill_on_patch && negb (building_type ex =? BUILDING_RESOURCE)
                  then _remove_structure_from_game g b else g
              | None => g
              end
          | _ => g
          end in
        let g2 := with_grid (<[(gx, gy) := CellObj a]> (grid g1)) g1 in
        let g3 := with_structures (<[network_id structure_obj := a]> (structures g2)) g2 in
        let g4 := if is_client g3 then g3 else _update_power_lists_add g3 a in
        let g5 := if is_Drill structure_obj && negb (is_client g4)
                  then modify a (setup_on_patch g4) g4 else g4 in
        (g5, true)
  end.

(** *** Player actions *)

Inductive BuildingClass :=
  | ClsDrill | ClsConveyor | ClsTurret | ClsWall
  | ClsCoalGenerator | ClsPowerPole | ClsBattery | ClsReconstructor.

(** [self.building_info]: the cost and the class of each buildable type. *)
Definition building_info (building_type : Z) : option (Cost * BuildingClass) :=
  if building_type =? BUILDING_DRILL then Some (DRILL_COST, ClsDrill)
  else if building_type =? BUILDING_CONVEYOR then Some (CONVEYOR_COST, ClsConveyor)
  else if building_type =? BUILDING_TURRET then Some (TURRET_COST, ClsTurret)
  else if building_type =? BUILDING_WALL then Some (WALL_COST, ClsWall)
  else if building_type =? BUILDING_COALGENERATOR then Some (COALGENERATOR_COST, ClsCoalGenerator)
  else if building_type =? BUILDING_POWERPOLE then Some (POWERPOLE_COST, ClsPowerPole)
  else if building_type =? BUILDING_BATTERY then Some (BATTERY_COST, ClsBattery)
  else if building_type =? BUILDING_RECONSTRUCTOR then Some (RECONSTRUCTOR_COST, ClsReconstructor)
  else None.

(** [BuildingClass(gx, gy, orientation)] for a conveyor given an
    orientation, [BuildingClass(gx, gy)] otherwise; [rnd] is the random
    draw of the turret constructor. *)
Definition construct (cls : BuildingClass) (gx gy : Z) (orientation : option Z) (rnd : Q)
  : Structure :=
  match cls with
  | ClsDrill => Drill_init gx gy
  | ClsConveyor => Conveyor_init gx gy (default EAST orientation)
  | ClsTurret => Turret_init gx gy rnd
  | ClsWall => Wall_init gx gy
  | ClsCoalGenerator => CoalGenerator_init gx gy
  | ClsPowerPole => PowerPole_init gx gy
  | ClsBattery => Battery_init gx gy
  | ClsReconstructor => Reconstructor_init gx gy
  end.

Definition is_ClsDrill (cls : BuildingClass) : bool :=
  match cls with ClsDrill => true | _ => false end.

(** The build-radius test shared by the three actions:
    [distance_sq(player, tile centre) > PLAYER_BUILD_RADIUS ** 2]. *)
Definition out_of_build_radius (p : Player.t) (gx gy : Z) : bool :=
  let '(tcx, tcy) := grid_to_world_center gx gy in
  Qltb (PLAYER_BUILD_RADIUS * PLAYER_BUILD_RADIUS)
       (distance_sq (Player.world_x p) (Player.world_y p) tcx tcy).

Section Placement.

(** The instantiation inside the action's [try]: [None] stands for a
    constructor that raised.  The constructors of the source never do
    ([instantiate_real]); the action is stated for any behaviour, so that
    the refund paths after the deduction are part of the model. *)
Variable instantiate : BuildingClass -> Z -> Z -> Z -> option Structure.

Definition action_place_structure_with
    (g : Game) (player_id building_type gx gy orientation : Z) : Game * bool :=
  if is_client g then (g, false)
  else
    match players g !! player_id, building_info building_type with
    | Some player, Some (cost, cls) =>
        if building_type =? BUILDING_NONE then (g, false)
        else if negb (in_bounds g gx gy) then (g, false)
        else if negb (affordable (resources g) cost) then (g, false)
        else if out_of_build_radius player gx gy then (g, false)
        else
          let existing := get_structure_at g gx gy in
          let is_drill_on_patch := is_ClsDrill cls && cell_is_patch g existing in
          let is_empty := bool_decide (existing = None) in
          if negb (is_drill_on_patch || (is_empty && negb (is_ClsDrill cls))) then (g, false)
          else
            let g1 := with_resources (deduct_cost cost (resources g)) g in
            match instantiate cls gx gy orientation with
            | None => (with_resources (refund_cost cost (resources g1)) g1, false)
            | Some new_structure =>
                let '(g2, a) := alloc new_structure g1 in
                let '(g3, added) := _add_structure_to_game g2 a in
                if added then (g3, true)
                else
                  (* the unreferenced new object is garbage *)
                  (with_resources (refund_cost cost (resources g1)) g1, false)
            end
    | _, _ => (g, false)
    end.

End Placement.

Definition instantiate_real (rnd : Q) (cls : BuildingClass) (gx gy orientation : Z)
  : option Structure :=
  Some (construct cls gx gy (Some orientation) rnd).

(** [Game.action_place_structure]; [rnd] is the turret constructor's draw. *)
Definition action_place_structure
    (g : Game) (player_id building_type gx gy orientation : Z) (rnd : Q) : Game * bool :=
  action_place_structure_with (instantiate_real rnd) g player_id building_type gx gy orientation.

(** [Game.action_remove_structure] *)
Definition action_remove_structure (g : Game) (player_id gx gy : Z) : Game * bool :=
  if is_client g then (g, false)
  else
    match players g !! player_id, get_structure_at g gx gy with
    | Some player, Some (CellObj a) =>
        match heap g !! a with
        | None => (g, false)
        | Some struct_to_remove =>
            if (building_type struct_to_remove =? BUILDING_CORE)
               || (building_type struct_to_remove =? BUILDING_RESOURCE)
            then (g, false)
            else if out_of_build_radius player gx gy then (g, false)
            else
              let g1 := with_resources (refund_removed (cost struct_to_remove) (resources g)) g in
              (_remove_structure_from_game g1 a, true)
        end
    | Some player, Some (CellPatch p) =>
        (* a patch visual: building_type is BUILDING_RESOURCE *)
        (g, false)
    | _, _ => (g, false)
    end.

(** [Game.action_upgrade_structure] *)
Definition action_upgrade_structure (g : Game) (player_id gx gy : Z) : Game * bool :=
  if is_client g then (g, false)
  else
    match players g !! player_id, get_structure_at g gx gy with
    | Some player, Some (CellObj a) =>
        match heap g !! a with
        | None => (g, false)
        | Some target =>
            if out_of_build_radius player gx gy then (g, false)
            else if negb (can_upgrade target) then (g, false)
            else
              match get_next_upgrade_cost target with
              | None => (g, false)
              | Some cost =>
                  if negb (affordable (resources g) cost) then (g, false)
                  else
                    let g1 := with_resources (deduct_cost cost (resources g)) g in
                    let was_consumer := is_power_consumer target in
                    let '(target', success) := apply_upgrade target in
                    let g2 := modify a (fun _ => target') g1 in
                    if success then
                      if negb (is_client g2)
                         && negb (eqb (is_power_consumer target') was_consumer)
                      then (_update_power_lists_add (_update_power_lists_remove g2 a) a, true)
                      else (g2, true)
                    else (with_resources (refund_cost cost (resources g2)) g2, false)
              end
        end
    | Some player, Some (CellPatch p) =>
        (* a patch visual cannot be upgraded: max_tier is 1 *)
        (g, false)
    | _, _ => (g, false)
    end.

(** *** Construction of the world *)

(** [Player.__init__] *)
Definition Player_init (start_x start_y : Q) (player_id : Z) (name : string) (color_index : Z)
  : Player.t :=
  Player.Make player_id start_x start_y 0 0 name color_index
    (color_index mod COLOR_PLAYER_OPTIONS_LEN) 0.

Definition UI_HEIGHT : Z := 140.

(** [Game.__init__] up to the mode-specific setup: the containers are
    empty and the counters at their new-game defaults. *)
Definition Game_init (screen_width screen_height : Z) (mode : Mode) : Game :=
  let gw := screen_width / TILE_SIZE in
  let gh := (screen_height - UI_HEIGHT) / TILE_SIZE in
  {| grid_width := gw; grid_height := gh;
     map_width_px := screen_width; map_height_px := gh * TILE_SIZE;
     network_mode := mode; running := true;
     resources := <[RES_COPPER := STARTING_COPPER]> (<[RES_COAL := STARTING_COAL]> ∅);
     wave_number := 0; wave_timer := WAVE_COOLDOWN; in_wave := false;
     game_over := false; game_won := false;
     heap := []; grid := ∅; structures := ∅; enemies := ∅; projectiles := ∅;
     core := None; base_terrain := ∅; players := ∅; local_player_id := None; dt := 0;
     power_nodes := []; power_consumers := []; power_grid_update_timer := 0;
     enemies_to_spawn_this_wave := 0; enemies_spawned_this_wave := 0;
     enemy_spawn_timer := 0; current_enemy_hp := ENEMY_START_HP; max_waves := MAX_WAVES;
     next_enemy_id := 0; next_projectile_id := 0 |}.

(** The part of [setup_world] that does not draw random numbers: the
    core near the bottom middle and player 0 two tiles above it. *)
Definition setup_world_core (g : Game) (player_name : string) (color_index : Z) : Game :=
  if is_client g then g
  else
    let g0 := with_players ∅ (with_projectiles ∅ (with_enemies ∅ (with_structures ∅
                (with_base_terrain ∅ (with_grid ∅ g))))) in
    let core_gx := Z.max 0 (Z.min (grid_width g / 2) (grid_width g - 1)) in
    let core_gy := Z.max 0 (Z.min (grid_height g - 4) (grid_height g - 1)) in
    let '(g1, c) := alloc (Core_init core_gx core_gy) g0 in
    let g2 := with_core (Some c) g1 in
    let g3 := fst (_add_structure_to_game g2 c) in
    let '(px, py) := grid_to_world_center core_gx (core_gy - 2) in
    let ts := inject_Z TILE_SIZE in
    let px' := pymax ts (pymin px (inject_Z (map_width_px g) - ts)) in
    let py' := pymax ts (pymin py (inject_Z (map_height_px g) - ts)) in
    with_players (<[0 := Player_init px' py' 0 player_name color_index]> (players g3)) g3.

(** A patch put down by the resource-generation loop of [setup_world]. *)
Definition place_patch (g : Game) (gx gy : Z) (res_type : string) : Game :=
  let g1 := with_base_terrain (<[(gx, gy) := res_type]> (base_terrain g)) g in
  if in_bounds g1 gx gy
  then with_grid (<[(gx, gy) := CellPatch (ResourcePatch_init gx gy res_type)]> (grid g1)) g1
  else g1.

(** ** Item transport *)

(** [l[i]] with Python's negative indices; [None] is an [IndexError]. *)
Definition py_index {A} (l : list A) (i : Z) : option A :=
  let n := Z.of_nat (length l) in
  if (0 <=? i) && (i <? n) then l !! Z.to_nat i
  else if (- n <=? i) && (i <? 0) then l !! Z.to_nat (n + i)
  else None.

(** [Structure.get_neighbor]; the outer [None] is the [IndexError] of
    [ORIENTATIONS[direction_index]]. *)
Definition get_neighbor (g : Game) (s : Structure) (direction_index : Z)
  : option (option Cell) :=
  match py_index ORIENTATIONS direction_index with
  | Some (dx, dy) => Some (get_structure_at g (grid_x s + dx) (grid_y s + dy))
  | None => None
  end.

(** [target.try_accept_item(source, game, item_type)], dispatched on the
    class of the target. *)
Definition try_accept_item (g : Game) (target : Cell) (item : string) : Game * bool :=
  match target with
  | CellPatch _ => (g, false)
  | CellObj b =>
      match heap g !! b with
      | None => (g, false)
      | Some t =>
          match kind t with
          | KCore =>
              if bool_decide (is_Some (resources g !! item))
              then (with_resources (alter (fun v => v + 1) item (resources g)) g, true)
              else (g, false)
          | KConveyor c =>
              if Conveyor.item_count c <? Conveyor.capacity c then
                if Conveyor.item_count c =? 0 then
                  (modify b (set_kind (KConveyor
                     (Conveyor.set_item_count (Conveyor.item_count c + 1)
                        (Conveyor.set_item_progress 0
                           (Conveyor.set_item_type (Some item) c))))) g, true)
                else if bool_decide (Conveyor.item_type c = Some item) then
                  (modify b (set_kind (KConveyor
                     (Conveyor.set_item_count (Conveyor.item_count c + 1) c))) g, true)
                else (g, false)
              else (g, false)
          | KTurret tu =>
              if String.eqb item RES_COPPER && (tier t <? 3) then
                if (tier t <? 3) && (Turret.ammo tu <? TURRET_AMMO_CAPACITY)
                then (modify b (set_kind (KTurret (Turret.set_ammo (Turret.ammo tu + 1) tu))) g,
                      true)
                else (g, false)
              else (g, false)
          | KCoalGenerator cg =>
              if String.eqb item RES_COAL then
                if CoalGenerator.coal_buffer cg <? COALGENERATOR_INPUT_CAP
                then (modify b (set_kind (KCoalGenerator
                        (CoalGenerator.Data (CoalGenerator.coal_buffer cg + 1)
                           (CoalGenerator.consume_timer cg)))) g, true)
                else (g, false)
              else (g, false)
          | _ => (g, false)
          end
      end
  end.

(** [Conveyor.try_push_item]; [None] is the [IndexError] of an
    orientation outside [-4 .. 3]. *)
Definition Conveyor_try_push_item (g : Game) (a : Ref) : option (Game * bool) :=
  match heap g !! a with
  | Some s =>
      match kind s with
      | KConveyor c =>
          match Conveyor.item_type c with
          | Some item =>
              if Conveyor.item_count c <=? 0 then Some (g, false)
              else
                match get_neighbor g s (Conveyor.orientation c) with
                | None => None
                | Some None => Some (g, false)
                | Some (Some target) => Some (try_accept_item g target item)
                end
          | None => Some (g, false)
          end
      | _ => Some (g, false)
      end
  | None => Some (g, false)
  end.

Definition map_conveyor (f : Conveyor.data -> Conveyor.data) (s : Structure) : Structure :=
  match kind s with
  | KConveyor c => set_kind (KConveyor (f c)) s
  | _ => s
  end.

(** [Conveyor.update] together with the result of the push it attempted
    ([None] when the item has not reached the end of the belt).  The
    conveyor is read again after the push, as the source reads [self]. *)
Definition Conveyor_update_traced (g : Game) (a : Ref) : option (Game * option bool) :=
  match heap g !! a with
  | Some s =>
      match kind s with
      | KConveyor c =>
          if (0 <? Conveyor.item_count c) && Qltb 0 (Conveyor.transfer_time c) then
            let delta_progress := (dt g / Conveyor.transfer_time c)%Q in
            let g1 := modify a (map_conveyor (fun c =>
                        Conveyor.set_item_progress
                          (Conveyor.item_progress c + delta_progress)%Q c)) g in
            if Qleb 1 (Conveyor.item_progress c + delta_progress)%Q then
              match Conveyor_try_push_item g1 a with
              | None => None
              | Some (g2, true) =>
                  let g3 := modify a (map_conveyor (fun c =>
                              Conveyor.set_item_count (Conveyor.item_count c - 1) c)) g2 in
                  let g4 := modify a (map_conveyor (fun c =>
                              if 0 <? Conveyor.item_count c
                              then Conveyor.set_item_progress
                                     (pymax 0 (Conveyor.item_progress c - 1)%Q) c
                              else Conveyor.set_item_type None
                                     (Conveyor.set_item_progress 0 c))) g3 in
                  Some (g4, Some true)
              | Some (g2, false) =>
                  Some (modify a (map_conveyor (Conveyor.set_item_progress 1)) g2, Some false)
              end
            else Some (g1, None)
          else Some (g, None)
      | _ => Some (g, None)
      end
  | None => Some (g, None)
  end.

(** [Conveyor.update] *)
Definition Conveyor_update (g : Game) (a : Ref) : option Game :=
  fst <$> Conveyor_update_traced g a.

(** The conveyor behind a reference, if it is one. *)
Definition conveyor_at (g : Game) (a : Ref) : option Conveyor.data :=
  match heap g !! a with
  | Some s => match kind s with KConveyor c => Some c | _ => None end
  | None => None
  end.


(** ** The wave director *)

(** [Enemy.__init__] *)
Definition Enemy_init (sx sy : Q) (target_core_coords : Coords) (hp0 speed dmg atk_cd : Q)
    (network_id : string) : Enemy.t :=
  Enemy.Make network_id sx sy target_core_coords None hp0 hp0 speed dmg atk_cd 0 false.

Inductive Edge := EdgeTop | EdgeLeft | EdgeRight.

(** The random draws of one tick of the wave director: the edge and the
    coordinate along it for a spawn, and the jitter factor of the next
    spawn interval. *)
Record Draws := MkDraws {
  draw_edge : Edge;
  draw_along : Q;
  draw_jitter : Q;
}.

(** [Game.get_next_enemy_id] formats the incremented counter. *)
Definition enemy_id_of (n : Z) : string := "e_" +:+ pretty n.

(** [Game.spawn_enemy] *)
Definition spawn_enemy (g : Game) (d : Draws) : Game :=
  if is_client g then g
  else
    match core g with
    | None => g
    | Some c =>
        match heap g !! c with
        | None => g
        | Some core_obj =>
            let margin : Q := 48%Q in
            let '(sx, sy) :=
              match draw_edge d with
              | EdgeTop => (draw_along d, - margin)%Q
              | EdgeLeft => (- margin, draw_along d)%Q
              | EdgeRight => (inject_Z (map_width_px g) + margin, draw_along d)%Q
              end in
            let n := next_enemy_id g + 1 in
            let new_enemy :=
              Enemy_init sx sy (center core_obj) (inject_Z (current_enemy_hp g))
                ENEMY_SPEED ENEMY_DAMAGE ENEMY_ATTACK_COOLDOWN (enemy_id_of n) in
            with_enemies (<[enemy_id_of n := new_enemy]> (enemies g)) (with_next_enemy_id n g)
        end
    end.

(** [not self.enemies] *)
Definition no_enemies (g : Game) : bool := bool_decide (enemies g = ∅).

(** The wave-management block of [Game.update]. *)
Definition wave_management (g : Game) (d : Draws) : Game :=
  if negb (game_over g) && negb (game_won g) then
    let g1 := with_wave_timer (wave_timer g - dt g)%Q g in
    (* start a new wave when the cooldown has run out *)
    let g2 :=
      if negb (in_wave g1) && Qleb (wave_timer g1) 0 && (wave_number g1 <? max_waves g1) then
        let n := wave_number g1 + 1 in
        with_enemy_spawn_timer 0%Q
          (with_wave_timer WAVE_DURATION
             (with_current_enemy_hp (ENEMY_START_HP + (n - 1) * ENEMY_HP_INCREASE_PER_WAVE)
                (with_enemies_spawned_this_wave 0
                   (with_enemies_to_spawn_this_wave (10 + n * 5)
                      (with_wave_number n (with_in_wave true g1))))))
      else g1 in
    (* spawn enemies during a wave *)
    let g3 :=
      if in_wave g2 && (enemies_spawned_this_wave g2 <? enemies_to_spawn_this_wave g2) then
        let g2a := with_enemy_spawn_timer (enemy_spawn_timer g2 - dt g2)%Q g2 in
        if Qleb (enemy_spawn_timer g2a) 0 then
          let g2b := spawn_enemy g2a d in
          let g2c := with_enemies_spawned_this_wave (enemies_spawned_this_wave g2b + 1) g2b in
          let base_interval :=
            if 0 <? enemies_to_spawn_this_wave g2c
            then (WAVE_DURATION / inject_Z (enemies_to_spawn_this_wave g2c))%Q
            else ENEMY_SPAWN_RATE in
          with_enemy_spawn_timer (pymax (1 # 10) (base_interval * draw_jitter d)%Q) g2c
        else g2a
      else g2 in
    (* end of the wave *)
    let wave_ended_naturally := in_wave g3 && Qleb (wave_timer g3) 0 in
    let wave_cleared :=
      in_wave g3 && (enemies_to_spawn_this_wave g3 <=? enemies_spawned_this_wave g3)
      && no_enemies g3 in
    if wave_ended_naturally || wave_cleared
    then with_wave_timer WAVE_COOLDOWN (with_in_wave false g3)
    else g3
  else g.

Section Tick.

(** The first phases of the tick -- players, structures, enemies,
    projectiles, the throttled power update and the cleanup of destroyed
    entities -- involve square roots, angles and random choices; they are
    taken as given, together with the flag [core_destroyed_this_frame]
    that the cleanup computes.  None of them writes a field of the wave
    director ([wave_fields_kept]). *)
Variable simulate_entities : Game -> Game * bool.

(** The client branch of the tick: cosmetic interpolation only. *)
Variable client_animate : Game -> Game.

(** [Game.update] *)
Definition update (g : Game) (d : Draws) : Game :=
  if negb (running g) then g
  else
    match network_mode g with
    | ModeClient => client_animate g
    | _ =>
        let '(g1, core_destroyed_this_frame) := simulate_entities g in
        let g2 := wave_management g1 d in
        let g3 := if core_destroyed_this_frame && negb (game_over g2)
                  then with_game_over true g2 else g2 in
        if negb (game_over g3) && negb (game_won g3) then
          if (max_waves g3 <=? wave_number g3) && negb (in_wave g3) && no_enemies g3
          then with_game_won true g3 else g3
        else g3
    end.

End Tick.

(** The entity phases leave the wave director's fields and the tick
    length alone. *)
Definition wave_fields_kept (simulate_entities : Game -> Game * bool) : Prop :=
  forall g,
    let g1 := fst (simulate_entities g) in
    wave_number g1 = wave_number g /\ wave_timer g1 = wave_timer g
    /\ in_wave g1 = in_wave g /\ game_over g1 = game_over g /\ game_won g1 = game_won g
    /\ max_waves g1 = max_waves g /\ dt g1 = dt g
    /\ enemies_to_spawn_this_wave g1 = enemies_to_spawn_this_wave g
    /\ enemies_spawned_this_wave g1 = enemies_spawned_this_wave g
    /\ enemy_spawn_timer g1 = enemy_spawn_timer g.

(** ** Power distribution *)

(** [battery.charge] of a power-storage node. *)
Definition charge (s : Structure) : Q :=
  match kind s with KBattery b => Battery.charge b | _ => 0%Q end.

Definition map_battery (f : Battery.data -> Battery.data) (s : Structure) : Structure :=
  match kind s with
  | KBattery b => set_kind (KBattery (f b)) s
  | _ => s
  end.

(** Step 1 of [update_power_grid]: what the reset does to a node and to a
    consumer. *)
Definition reset_node (n : Structure) : Structure :=
  let n1 := set_connected_nodes_coords [] (set_is_on_grid false n) in
  if is_power_storage n1
  then map_battery (fun b => Battery.Data (Battery.charge b) false false) n1
  else n1.

Definition reset_consumer (c : Structure) : Structure :=
  set_power_source_coords None (set_is_powered false c).

(** A seed of the search: an active generator or a battery holding charge. *)
Definition is_seed (n : Structure) : bool :=
  is_power_source n || (is_power_storage n && Qltb EPS (charge n)).

(** Equality of coordinate tuples, as [in] on a list of tuples tests it. *)
Definition coords_eqb (c1 c2 : Coords) : bool :=
  Qeq_bool (fst c1) (fst c2) && Qeq_bool (snd c1) (snd c2).
Definition coords_in (c : Coords) (l : list Coords) : bool := existsb (coords_eqb c) l.

(** [some_set.add(obj)] on a set kept in insertion order. *)
Definition set_add (a : Ref) (l : list Ref) : list Ref :=
  if ref_in a l then l else l ++ [a].

(** [range(lo, hi)] *)
Definition zrange (lo hi : Z) : list Z :=
  (fun i : nat => lo + Z.of_nat i) <$> seq 0 (Z.to_nat (hi - lo)).

Definition radius_grid_search : Z := py_int (POWER_RADIUS / inject_Z TILE_SIZE) + 1.

(** The [(dx, dy)] pairs of the two nested [for] loops, in loop order. *)
Definition search_offsets : list (Z * Z) :=
  dx ← zrange (- radius_grid_search) (radius_grid_search + 1);
  dy ← zrange (- radius_grid_search) (radius_grid_search + 1);
  [(dx, dy)].

Definition append_coords (c : Coords) (s : Structure) : Structure :=
  set_connected_nodes_coords (connected_nodes_coords s ++ [c]) s.

(** The body of the neighbour loop for the node [cur] taken from the
    queue at depth [depth]. *)
Definition visit_neighbor (cur : Ref) (depth : Z)
    (acc : Game * list (Ref * Z) * list Ref) (off : Z * Z)
  : Game * list (Ref * Z) * list Ref :=
  let '(g, queue, visited_in_bfs) := acc in
  let '(dx, dy) := off in
  if (dx =? 0) && (dy =? 0) then acc
  else
    match heap g !! cur with
    | None => acc
    | Some current_node =>
        match get_structure_at g (grid_x current_node + dx) (grid_y current_node + dy) with
        | Some (CellObj b) =>
            match heap g !! b with
            | Some neighbor =>
                if is_power_node neighbor && negb (ref_in b visited_in_bfs)
                   && Qleb (distance_sq (center_x current_node) (center_y current_node)
                              (center_x neighbor) (center_y neighbor))
                           (POWER_RADIUS * POWER_RADIUS)
                then
                  let curr_coords := center current_node in
                  let neighbor_coords := center neighbor in
                  let g1 := if coords_in neighbor_coords (connected_nodes_coords current_node)
                            then g else modify cur (append_coords neighbor_coords) g in
                  let g2 :=
                    match heap g1 !! b with
                    | Some nb =>
                        if coords_in curr_coords (connected_nodes_coords nb)
                        then g1 else modify b (append_coords curr_coords) g1
                    | None => g1
                    end in
                  (g2, queue ++ [(b, depth + 1)], set_add b visited_in_bfs)
                else acc
            | None => acc
            end
        | _ => acc
        end
    end.

(** The [while queue:] loop of one search.  Every node enters the queue
    at most once, so [S (length (heap g))] rounds empty the queue
    (lemma [bfs_fuel_enough]). *)
Fixpoint bfs (fuel : nat) (g : Game) (queue : list (Ref * Z))
    (visited_in_bfs current_network_nodes processed_nodes : list Ref)
  : Game * list Ref * list Ref :=
  match fuel with
  | O => (g, current_network_nodes, processed_nodes)
  | S fuel' =>
      match queue with
      | [] => (g, current_network_nodes, processed_nodes)
      | (cur, depth) :: rest =>
          let network' := set_add cur current_network_nodes in
          let processed' := set_add cur processed_nodes in
          let g1 := modify cur (set_is_on_grid true) g in
          if POWER_SEARCH_DEPTH_LIMIT <=? depth
          then bfs fuel' g1 rest visited_in_bfs network' processed'
          else
            let '(g2, queue', visited') :=
              foldl (visit_neighbor cur depth) (g1, rest, visited_in_bfs) search_offsets in
            bfs fuel' g2 queue' visited' network' processed'
      end
  end.

Definition bfs_fuel (g : Game) : nat := S (length (heap g)).

(** Step 2 for one seed. *)
Definition discover (acc : Game * list Ref * list (list Ref)) (seed_node : Ref)
  : Game * list Ref * list (list Ref) :=
  let '(g, processed_nodes, all_networks) := acc in
  if ref_in seed_node processed_nodes then acc
  else
    let '(g', network, processed') :=
      bfs (bfs_fuel g) g [(seed_node, 0)] [seed_node] [] processed_nodes in
    (g', processed', match network with [] => all_networks | _ => all_networks ++ [network] end).

(** [Game.find_closest_node_in_set] *)
Definition find_closest_node_in_set (g : Game) (consumer : Structure) (node_set : list Ref)
  : option Ref :=
  fst (foldl (fun '(closest_node, min_dist_sq) n =>
                match heap g !! n with
                | Some node =>
                    let d_sq := distance_sq (center_x consumer) (center_y consumer)
                                  (center_x node) (center_y node) in
                    if Qleb d_sq (POWER_RADIUS * POWER_RADIUS) && Qltb d_sq min_dist_sq
                    then (Some n, d_sq) else (closest_node, min_dist_sq)
                | None => (closest_node, min_dist_sq)
                end)
             (None, (POWER_RADIUS * POWER_RADIUS + 1)%Q) node_set).

Definition Qsum (l : list Q) : Q := foldl Qplus 0%Q l.

(** The objects behind a list of references. *)
Definition objects (g : Game) (refs : list Ref) : list Structure :=
  omap (fun a => heap g !! a) refs.

(** The consumers attached to a network, each with its closest node. *)
Definition consumers_in_network (g : Game) (network : list Ref) : list (Ref * Ref) :=
  omap (fun c =>
          match heap g !! c with
          | Some consumer =>
              (fun n => (c, n)) <$> find_closest_node_in_set g consumer network
          | None => None
          end) (power_consumers g).

Definition total_generation_rate (g : Game) (network : list Ref) : Q :=
  Qsum ((fun _ => COALGENERATOR_POWER_OUTPUT)
        <$> List.filter (fun n => (building_type n =? BUILDING_COALGENERATOR) && is_power_source n)
              (objects g network)).

Definition total_consumption_rate (g : Game) (network : list Ref) : Q :=
  Qsum (power_consumption <$> objects g (fst <$> consumers_in_network g network)).

Definition batteries_in_network (g : Game) (network : list Ref) : list Ref :=
  List.filter (fun a => match heap g !! a with Some n => is_power_storage n | None => false end)
    network.

Definition max_possible_discharge_rate (g : Game) (network : list Ref) : Q :=
  Qsum ((fun _ => Battery.discharge_rate)
        <$> List.filter (fun b => Qltb EPS (charge b))
              (objects g (batteries_in_network g network))).

Definition discharge_capability (dt : Q) (b : Structure) : Q :=
  pymin (charge b) (Battery.discharge_rate * dt)%Q.
Definition charge_headroom (dt : Q) (b : Structure) : Q :=
  pymin (Battery.capacity - charge b)%Q (Battery.charge_rate * dt)%Q.

Definition total_available_discharge_amount (g : Game) (network : list Ref) : Q :=
  Qsum (discharge_capability (dt g) <$> objects g (batteries_in_network g network)).
Definition total_available_charge_room (g : Game) (network : list Ref) : Q :=
  Qsum (charge_headroom (dt g) <$> objects g (batteries_in_network g network)).

(** Step 4: [generation + max_discharge >= demand - 1e-9]. *)
Definition is_power_sufficient (g : Game) (network : list Ref) : bool :=
  Qleb (total_consumption_rate g network - EPS)%Q
       (total_generation_rate g network + max_possible_discharge_rate g network)%Q.

Definition set_charge (v : Q) (flag_charging flag_discharging : option bool) (s : Structure)
  : Structure :=
  map_battery (fun b => Battery.Data v (get_or flag_charging (Battery.is_charging b))
                          (get_or flag_discharging (Battery.is_discharging b))) s.

(** The two loops that apply the discharge and the charge to the
    batteries in proportion. *)
Definition apply_discharge (fraction : Q) (g : Game) (a : Ref) : Game :=
  match heap g !! a with
  | Some battery =>
      let provide := (discharge_capability (dt g) battery * fraction)%Q in
      if Qltb EPS provide
      then modify a (set_charge (charge battery - provide)%Q None (Some true)) g
      else g
  | None => g
  end.

Definition apply_charge (fraction : Q) (g : Game) (a : Ref) : Game :=
  match heap g !! a with
  | Some battery =>
      let absorb := (charge_headroom (dt g) battery * fraction)%Q in
      if Qltb EPS absorb
      then modify a (set_charge (charge battery + absorb)%Q (Some true) None) g
      else g
  | None => g
  end.

(** The amounts of steps 5 and 6: (charge, discharge). *)
Definition settle_amounts (g : Game) (network : list Ref) : Q * Q :=
  let generation := total_generation_rate g network in
  let consumption := total_consumption_rate g network in
  if is_power_sufficient g network then
    let power_balance := (generation - consumption)%Q in
    if Qltb power_balance (- EPS)%Q then
      (0%Q, pymin (Qabs power_balance * dt g)%Q (total_available_discharge_amount g network))
    else if Qltb EPS power_balance then
      (pymin (power_balance * dt g)%Q (total_available_charge_room g network), 0%Q)
    else (0%Q, 0%Q)
  else
    (pymin (generation * dt g)%Q (total_available_charge_room g network), 0%Q).

(** Steps 3 to 6 for one network. *)
Definition settle_network (g : Game) (network : list Ref) : Game :=
  let attached := consumers_in_network g network in
  let batteries := batteries_in_network g network in
  let available_discharge := total_available_discharge_amount g network in
  let available_room := total_available_charge_room g network in
  let '(actual_charge_amount, actual_discharge_amount) := settle_amounts g network in
  let g1 :=
    if is_power_sufficient g network then
      foldl (fun g '(c, n) =>
               match heap g !! n with
               | Some source_node =>
                   modify c (fun consumer =>
                     set_power_source_coords (Some (center source_node))
                       (set_is_powered true consumer)) g
               | None => g
               end) g attached
    else
      foldl (fun g '(c, n) =>
               modify c (fun consumer =>
                 set_power_source_coords None (set_is_powered false consumer)) g) g attached in
  let g2 :=
    if Qltb EPS actual_discharge_amount && Qltb EPS available_discharge
    then foldl (apply_discharge (actual_discharge_amount / available_discharge)%Q) g1 batteries
    else g1 in
  if Qltb EPS actual_charge_amount && Qltb EPS available_room
  then foldl (apply_charge (actual_charge_amount / available_room)%Q) g2 batteries
  else g2.

(** Steps 1 and 2 of [update_power_grid]: the reset and the discovery of
    the networks, in the order of their seeds. *)
Definition power_networks (g : Game) : Game * list (list Ref) :=
  let g1 := foldl (fun g a => modify a reset_node g) g (power_nodes g) in
  let g2 := foldl (fun g a => modify a reset_consumer g) g1 (power_consumers g) in
  let potential_seeds :=
    List.filter (fun a => match heap g2 !! a with Some n => is_seed n | None => false end)
      (power_nodes g2) in
  let '(g3, _, all_networks) := foldl discover (g2, [], []) potential_seeds in
  (g3, all_networks).

(** [Game.update_power_grid] *)
Definition update_power_grid (g : Game) : Game :=
  if is_client g then g
  else
    let '(g3, all_networks) := power_networks g in
    foldl settle_network g3 all_networks.

(** *** Vocabulary of the properties of the power topology *)

Definition within_power_radius (c1 c2 : Coords) : Prop :=
  (distance_sq (fst c1) (snd c1) (fst c2) (snd c2) <= POWER_RADIUS * POWER_RADIUS)%Q.

(** Every recorded neighbour coordinate of [s] lies within the power
    radius of the centre of [s]. *)
Definition links_ok (s : Structure) : Prop :=
  Forall (within_power_radius (center s)) (connected_nodes_coords s).

Definition links_inv (nodes : list Ref) (g : Game) : Prop :=
  forall a s, a ∈ nodes -> heap g !! a = Some s -> links_ok s.

(** A mutation that touches neither the position nor the neighbour list. *)
Definition keeps_links (f : Structure -> Structure) : Prop :=
  forall s, grid_x (f s) = grid_x s /\ grid_y (f s) = grid_y s
            /\ connected_nodes_coords (f s) = connected_nodes_coords s.

(** The nodes that a search has not visited yet. *)
Definition unvisited (g : Game) (visited : list Ref) : nat :=
  length (List.filter (fun a => negb (ref_in a visited)) (seq 0 (length (heap g)))).

(** [CoalGenerator.update] *)
Definition CoalGenerator_update (g : Game) (a : Ref) : Game :=
  modify a (fun s =>
    match kind s with
    | KCoalGenerator cg =>
        let s1 := set_is_power_source (0 <? CoalGenerator.coal_buffer cg) s in
        if is_power_source s1 then
          let t := (CoalGenerator.consume_timer cg + dt g)%Q in
          if Qleb COALGENERATOR_CONSUMPTION_RATE t
          then set_kind (KCoalGenerator
                 (CoalGenerator.Data (CoalGenerator.coal_buffer cg - 1)
                    (t - COALGENERATOR_CONSUMPTION_RATE)%Q)) s1
          else set_kind (KCoalGenerator (CoalGenerator.Data (CoalGenerator.coal_buffer cg) t)) s1
        else set_kind (KCoalGenerator (CoalGenerator.Data (CoalGenerator.coal_buffer cg) 0)) s1
    | _ => s
    end) g.

(** [Battery.update] *)
Definition Battery_update (g : Game) (a : Ref) : Game :=
  modify a (map_battery (fun b =>
    Battery.Data (pymax 0 (pymin (Battery.charge b) Battery.capacity))
      (Battery.is_charging b) (Battery.is_discharging b))) g.

(** ** Serialised state *)

Module StructState.
(** The dictionary of [Structure.get_state]; a key that is absent from a
    received dictionary is [None]. *)
Record t := Make {
  net_id : option string;
  type_ : option Z;
  gx : option Z;
  gy : option Z;
  hp : option Q;
  max_hp : option Q;
  tier : option Z;
  is_powered : option bool;
  is_on_grid : option bool;
  connected_nodes_coords : option (list Coords);
  power_source_coords : option Coords;
  orientation : option Z;
  item_type : option (option string);
  item_count : option Z;
  item_progress : option Q;
  ammo : option Z;
  angle : option Q;
  res_held : option Z;
  res_type : option (option string);
  coal_buffer : option Z;
  is_generating : option bool;
  charge : option Q;
  is_charging : option bool;
  is_discharging : option bool;
}.
End StructState.

Module PlayerState.
Record t := Make {
  id : option Z;
  x : option Q;
  y : option Q;
  name : option string;
  color_idx : option Z;
}.
End PlayerState.

Module EnemyState.
Record t := Make {
  net_id : option string;
  x : option Q;
  y : option Q;
  hp : option Q;
  max_hp : option Q;
}.
End EnemyState.

Module ProjectileState.
Record t := Make {
  net_id : option string;
  x : option Q;
  y : option Q;
  vx : option Q;
  vy : option Q;
}.
End ProjectileState.

(** [Structure.get_state] *)
Definition get_state (s : Structure) : StructState.t :=
  let base :=
    StructState.Make (Some (network_id s)) (Some (building_type s))
      (Some (grid_x s)) (Some (grid_y s)) (Some (hp s)) (Some (max_hp s)) (Some (tier s))
      (Some (is_powered s)) (Some (is_on_grid s)) (Some (connected_nodes_coords s))
      (power_source_coords s) in
  match kind s with
  | KConveyor c =>
      base (Some (Conveyor.orientation c)) (Some (Conveyor.item_type c))
        (Some (Conveyor.item_count c)) (Some (Conveyor.item_progress c))
        None None None None None None None None None
  | KTurret t =>
      base None None None None (Some (Turret.ammo t)) (Some (Turret.angle t))
        None None None None None None None
  | KDrill d =>
      base None None None None None None
        (Some (Drill.resource_held_count d)) (Some (Drill.resource_type_held d))
        None None None None None
  | KCoalGenerator cg =>
      base None None None None None None None None
        (Some (CoalGenerator.coal_buffer cg)) (Some (is_power_source s)) None None None
  | KBattery b =>
      base None None None None None None None None None None
        (Some (Battery.charge b)) (Some (Battery.is_charging b)) (Some (Battery.is_discharging b))
  | _ => base None None None None None None None None None None None None None
  end.

(** [Structure.apply_state]; [ResourcePatch] overrides it with [pass]. *)
Definition apply_state (s : Structure) (d : StructState.t) : Structure :=
  match kind s with
  | KResourcePatch _ => s
  | _ =>
      let new_tier := get_or (StructState.tier d) (tier s) in
      let tier_changed := negb (new_tier =? tier s) in
      let s1 := set_tier new_tier s in
      let s2 := set_hp (get_or (StructState.hp d) (hp s1)) s1 in
      let s3 := set_is_powered (get_or (StructState.is_powered d) (is_powered s2)) s2 in
      let s4 := set_is_on_grid (get_or (StructState.is_on_grid d) (is_on_grid s3)) s3 in
      let s5 := set_connected_nodes_coords
                  (get_or (StructState.connected_nodes_coords d) []) s4 in
      let s6 := set_power_source_coords (StructState.power_source_coords d) s5 in
      let s7 := if tier_changed && has_update_stats s6 then update_stats s6 else s6 in
      let s8 := set_max_hp (get_or (StructState.max_hp d) (max_hp s7)) s7 in
      match kind s8 with
      | KConveyor c =>
          set_kind (KConveyor
            (Conveyor.Data
               (get_or (StructState.orientation d) (Conveyor.orientation c))
               (get_or (StructState.item_progress d) (Conveyor.item_progress c))
               (get_or (StructState.item_type d) (Conveyor.item_type c))
               (get_or (StructState.item_count d) (Conveyor.item_count c))
               (Conveyor.transfer_time c) (Conveyor.capacity c))) s8
      | KTurret t =>
          set_kind (KTurret
            (Turret.set_angle (get_or (StructState.angle d) (Turret.angle t))
               (Turret.set_ammo (get_or (StructState.ammo d) (Turret.ammo t)) t))) s8
      | KDrill dr =>
          set_kind (KDrill
            (Drill.Data (Drill.mining_timer dr) (Drill.output_timer dr)
               (get_or (StructState.res_held d) (Drill.resource_held_count dr))
               (get_or (StructState.res_type d) (Drill.resource_type_held dr))
               (Drill.is_on_patch dr) (Drill.speed dr))) s8
      | KCoalGenerator cg =>
          set_is_power_source (get_or (StructState.is_generating d) (is_power_source s8))
            (set_kind (KCoalGenerator
               (CoalGenerator.Data
                  (get_or (StructState.coal_buffer d) (CoalGenerator.coal_buffer cg))
                  (CoalGenerator.consume_timer cg))) s8)
      | KBattery b =>
          set_kind (KBattery
            (Battery.Data (get_or (StructState.charge d) (Battery.charge b))
               (get_or (StructState.is_charging d) (Battery.is_charging b))
               (get_or (StructState.is_discharging d) (Battery.is_discharging b)))) s8
      | _ => s8
      end
  end.

(** [Player.get_state] and [Player.apply_state] *)
Definition Player_get_state (p : Player.t) : PlayerState.t :=
  PlayerState.Make (Some (Player.player_id p)) (Some (Player.world_x p))
    (Some (Player.world_y p)) (Some (Player.name p)) (Some (Player.color_index p)).

Definition Player_apply_state (p : Player.t) (d : PlayerState.t) : Player.t :=
  let p1 := Player.set_world_x (get_or (PlayerState.x d) (Player.world_x p)) p in
  let p2 := Player.set_world_y (get_or (PlayerState.y d) (Player.world_y p1)) p1 in
  let p3 := Player.set_name (get_or (PlayerState.name d) (Player.name p2)) p2 in
  let new_color_index := get_or (PlayerState.color_idx d) (Player.color_index p3) in
  if negb (new_color_index =? Player.color_index p3) then
    Player.set_color (new_color_index mod COLOR_PLAYER_OPTIONS_LEN)
      (Player.set_color_index new_color_index p3)
  else p3.

(** [Enemy.get_state] and [Enemy.apply_state] *)
Definition Enemy_get_state (e : Enemy.t) : EnemyState.t :=
  EnemyState.Make (Some (Enemy.network_id e)) (Some (Enemy.world_x e))
    (Some (Enemy.world_y e)) (Some (Enemy.hp e)) (Some (Enemy.max_hp e)).

Definition Enemy_apply_state (e : Enemy.t) (d : EnemyState.t) : Enemy.t :=
  let e1 := Enemy.set_world_x (get_or (EnemyState.x d) (Enemy.world_x e)) e in
  let e2 := Enemy.set_world_y (get_or (EnemyState.y d) (Enemy.world_y e1)) e1 in
  let e3 := Enemy.set_hp (get_or (EnemyState.hp d) (Enemy.hp e2)) e2 in
  Enemy.set_max_hp (get_or (EnemyState.max_hp d) (Enemy.max_hp e3)) e3.

(** [Projectile.__init__] given a velocity and no target, [get_state] and
    [apply_state] *)
Definition Projectile_init_with_velocity (sx sy speed dmg : Q) (network_id : string)
    (vx vy : Q) : Projectile.t :=
  Projectile.Make network_id sx sy None speed dmg false 2 vx vy.

Definition Projectile_get_state (p : Projectile.t) : ProjectileState.t :=
  ProjectileState.Make (Some (Projectile.network_id p)) (Some (Projectile.world_x p))
    (Some (Projectile.world_y p)) (Some (Projectile.vx p)) (Some (Projectile.vy p)).

Definition Projectile_apply_state (p : Projectile.t) (d : ProjectileState.t) : Projectile.t :=
  let p1 := Projectile.set_world_x (get_or (ProjectileState.x d) (Projectile.world_x p)) p in
  let p2 := Projectile.set_world_y (get_or (ProjectileState.y d) (Projectile.world_y p1)) p1 in
  let p3 := Projectile.set_vx (get_or (ProjectileState.vx d) (Projectile.vx p2)) p2 in
  Projectile.set_vy (get_or (ProjectileState.vy d) (Projectile.vy p3)) p3.

(** ** Full snapshots *)

Module Snapshot.
(** The dictionary of [get_full_snapshot].  The four entity dictionaries
    and the terrain are association lists in iteration order; a missing
    one reads as empty, as [snapshot.get(key, {})] does. *)
Record t := Make {
  resources : option (gmap string Z);
  wave_number : option Z;
  wave_timer : option Q;
  in_wave : option bool;
  game_over : option bool;
  game_won : option bool;
  players : list (Z * PlayerState.t);
  structures : list (string * StructState.t);
  enemies : list (string * EnemyState.t);
  projectiles : list (string * ProjectileState.t);
  base_terrain : list (string * string);
  core_hp : option Q;
  core_max_hp : option Q;
  next_enemy_id : option Z;
  next_projectile_id : option Z;
  game_mode_for_save : option Mode;
}.
End Snapshot.

(** The string key [f"{gx},{gy}"] of a terrain entry. *)
Definition terrain_key (gx gy : Z) : string := pretty gx +:+ "," +:+ pretty gy.

(** The objects of the registry that go into a snapshot: every entry but
    the [ResourcePatch] ones. *)
Definition snapshot_structures (g : Game) : list (string * StructState.t) :=
  omap (fun '(sid, a) =>
          match heap g !! a with
          | Some s => if building_type s =? BUILDING_RESOURCE then None
                      else Some (sid, get_state s)
          | None => None
          end) (map_to_list (structures g)).

(** [Game.get_full_snapshot]; [None] on a client. *)
Definition get_full_snapshot (g : Game) : option Snapshot.t :=
  if is_client g then None
  else
    let core_obj := core g ≫= fun c => heap g !! c in
    Some {|
      Snapshot.resources := Some (resources g);
      Snapshot.wave_number := Some (wave_number g);
      Snapshot.wave_timer := Some (wave_timer g);
      Snapshot.in_wave := Some (in_wave g);
      Snapshot.game_over := Some (game_over g);
      Snapshot.game_won := Some (game_won g);
      Snapshot.players := (fun '(pid, p) => (pid, Player_get_state p)) <$> map_to_list (players g);
      Snapshot.structures := snapshot_structures g;
      Snapshot.enemies := (fun '(eid, e) => (eid, Enemy_get_state e)) <$> map_to_list (enemies g);
      Snapshot.projectiles :=
        (fun '(pid, p) => (pid, Projectile_get_state p)) <$> map_to_list (projectiles g);
      Snapshot.base_terrain :=
        (fun '((gx, gy), r) => (terrain_key gx gy, r)) <$> map_to_list (base_terrain g);
      Snapshot.core_hp := Some (match core_obj with Some c => hp c | None => 0%Q end);
      Snapshot.core_max_hp := Some (match core_obj with Some c => max_hp c | None => CORE_HP end);
      Snapshot.next_enemy_id := Some (next_enemy_id g);
      Snapshot.next_projectile_id := Some (next_projectile_id g);
      Snapshot.game_mode_for_save := Some (network_mode g);
    |}.

(** The loop shared by the players, enemies and projectiles sections of
    [apply_full_snapshot]: an id known locally has its object updated in
    place and kept, an unknown id gets a new object when the received
    state allows one, and the new dictionary replaces the local one.  The
    accumulator is the local dictionary and the dictionary under
    construction. *)
Section SyncDict.

Context {K V D : Type} `{Countable K}.
Variable apply : V -> D -> V.
Variable create : K -> D -> option V.

Definition sync_entry (acc : gmap K V * gmap K V) (entry : K * D) : gmap K V * gmap K V :=
  let '(local, new_dict) := acc in
  let '(k, d) := entry in
  match local !! k with
  | Some v => let v' := apply v d in (<[k := v']> local, <[k := v']> new_dict)
  | None =>
      match create k d with
      | Some v => (local, <[k := v]> new_dict)
      | None => acc
      end
  end.

Definition sync_dict (local : gmap K V) (received : list (K * D)) : gmap K V :=
  snd (foldl sync_entry (local, ∅) received).

End SyncDict.

Section ApplySnapshot.

(** [str_key.split(',')] followed by [int] on the first two parts; [None]
    when either raises. *)
Variable parse_terrain_key : string -> option (Z * Z).

(** The draw of [random.uniform] in the constructor of a turret created
    for a given id. *)
Variable fire_timer_draw : string -> Q.

(** The scalar fields. *)
Definition apply_basic_state (g : Game) (snap : Snapshot.t) : Game :=
  with_next_projectile_id (get_or (Snapshot.next_projectile_id snap) (next_projectile_id g))
    (with_next_enemy_id (get_or (Snapshot.next_enemy_id snap) (next_enemy_id g))
       (with_game_won (get_or (Snapshot.game_won snap) (game_won g))
          (with_game_over (get_or (Snapshot.game_over snap) (game_over g))
             (with_in_wave (get_or (Snapshot.in_wave snap) (in_wave g))
                (with_wave_timer (get_or (Snapshot.wave_timer snap) (wave_timer g))
                   (with_wave_number (get_or (Snapshot.wave_number snap) (wave_number g))
                      (with_resources (get_or (Snapshot.resources snap) (resources g)) g))))))).

(** The new terrain map and the new grid with its patch visuals. *)
Definition build_terrain (g : Game) (entries : list (Z * Z * string))
  : gmap (Z * Z) string * gmap (Z * Z) Cell :=
  foldl (fun '(bt, gr) '(gx, gy, r) =>
           (<[(gx, gy) := r]> bt,
            if in_bounds g gx gy
            then <[(gx, gy) := CellPatch (ResourcePatch_init gx gy r)]> gr else gr))
        (∅, ∅) entries.

Definition apply_base_terrain (g : Game) (snap : Snapshot.t) : Game :=
  let is_loading_from_save := bool_decide (is_Some (Snapshot.game_mode_for_save snap)) in
  if bool_decide (base_terrain g = ∅) || is_loading_from_save then
    match Snapshot.base_terrain snap with
    | [] => with_grid ∅ (with_base_terrain ∅ g)
    | received =>
        match mapM (fun '(k, r) => (fun p => (p, r)) <$> parse_terrain_key k) received with
        | Some entries =>
            let '(bt, gr) := build_terrain g entries in
            with_grid gr (with_base_terrain bt g)
        | None => with_grid ∅ (with_base_terrain ∅ g)
        end
    end
  else g.

(** A player created for an id that is not known locally. *)
Definition create_player (g : Game) (pid : Z) (player_data : PlayerState.t) : option Player.t :=
  let start_x := get_or (PlayerState.x player_data) (inject_Z (map_width_px g) / 2)%Q in
  let start_y := get_or (PlayerState.y player_data) (inject_Z (map_height_px g) / 2)%Q in
  let name := get_or (PlayerState.name player_data) ("Player" +:+ pretty pid) in
  let color_idx := get_or (PlayerState.color_idx player_data)
                     (pid mod COLOR_PLAYER_OPTIONS_LEN) in
  Some (Player_init start_x start_y pid name color_idx).

Definition sync_players (g : Game) (snap : Snapshot.t) : Game :=
  with_players
    (sync_dict Player_apply_state (create_player g) (players g) (Snapshot.players snap)) g.

(** [self.grid[gx][gy] = obj] under the bounds test. *)
Definition place_on_grid (g : Game) (gx gy : Z) (a : Ref) : Game :=
  if in_bounds g gx gy then with_grid (<[(gx, gy) := CellObj a]> (grid g)) g else g.

(** One round of the structures loop.  [registry] is [self.structures],
    which the loop only reads; the accumulator holds the world, the new
    dictionary and the core entry seen last. *)
Definition sync_structure (registry : gmap string Ref)
    (acc : Game * gmap string Ref * option (string * StructState.t))
    (entry : string * StructState.t)
  : Game * gmap string Ref * option (string * StructState.t) :=
  let '(g, new_structure_dict, core_entry) := acc in
  let '(sid, struct_data) := entry in
  if bool_decide (StructState.type_ struct_data = Some BUILDING_CORE)
  then (g, new_structure_dict, Some (sid, struct_data))
  else
    match registry !! sid with
    | Some a =>
        match heap g !! a with
        | Some s =>
            let g1 := modify a (fun s => apply_state s struct_data) g in
            (place_on_grid g1 (grid_x s) (grid_y s) a, <[sid := a]> new_structure_dict,
             core_entry)
        | None => acc
        end
    | None =>
        match StructState.type_ struct_data ≫= building_info,
              StructState.gx struct_data, StructState.gy struct_data with
        | Some (_, cls), Some gx, Some gy =>
            let orientation :=
              if bool_decide (StructState.type_ struct_data = Some BUILDING_CONVEYOR)
              then Some (get_or (StructState.orientation struct_data) EAST) else None in
            let new_struct :=
              apply_state
                (set_network_id sid (construct cls gx gy orientation (fire_timer_draw sid)))
                struct_data in
            let '(g1, a) := alloc new_struct g in
            (place_on_grid g1 gx gy a, <[sid := a]> new_structure_dict, core_entry)
        | _, _, _ => acc
        end
    end.

(** The core, handled after the loop. *)
Definition sync_core (g : Game) (new_structure_dict : gmap string Ref)
    (core_entry : option (string * StructState.t)) : Game * gmap string Ref :=
  match core_entry with
  | Some (core_id, core_data) =>
      let local_core :=
        core g ≫= fun c => heap g !! c ≫= fun s =>
          if bool_decide (network_id s = core_id) then Some (c, s) else None in
      match local_core with
      | Some (c, s) =>
          let g1 := modify c (fun s => apply_state s core_data) g in
          (place_on_grid g1 (grid_x s) (grid_y s) c, <[core_id := c]> new_structure_dict)
      | None =>
          match StructState.gx core_data, StructState.gy core_data with
          | Some gx, Some gy =>
              let new_core := apply_state (set_network_id core_id (Core_init gx gy)) core_data in
              let '(g1, c) := alloc new_core g in
              (place_on_grid (with_core (Some c) g1) gx gy c,
               <[core_id := c]> new_structure_dict)
          | _, _ => (g, new_structure_dict)
          end
      end
  | None =>
      match core g with
      | Some c =>
          let g1 :=
            match heap g !! c with
            | Some s =>
                if in_bounds g (grid_x s) (grid_y s)
                   && cell_is (grid g !! (grid_x s, grid_y s)) c
                then restore_cell g (grid_x s) (grid_y s) else g
            | None => g
            end in
          (with_core None g1, new_structure_dict)
      | None => (g, new_structure_dict)
      end
  end.

(** The grid clean-up for the ids that are known locally and absent
    from the snapshot, the current core's id excepted. *)
Definition clean_removed (registry : gmap string Ref) (received_ids : list string) (g : Game)
  : Game :=
  let core_id := core g ≫= fun c => network_id <$> heap g !! c in
  foldl (fun g '(sid, a) =>
           if bool_decide (sid ∈ received_ids) || bool_decide (core_id = Some sid) then g
           else
             match heap g !! a with
             | Some old_struct =>
                 if in_bounds g (grid_x old_struct) (grid_y old_struct)
                    && cell_is (grid g !! (grid_x old_struct, grid_y old_struct)) a
                 then restore_cell g (grid_x old_struct) (grid_y old_struct) else g
             | None => g
             end)
        g (map_to_list registry).

(** [self.core.hp] and [self.core.max_hp] are set from the snapshot once
    more at the end. *)
Definition override_hp (snap : Snapshot.t) (s : Structure) : Structure :=
  let s1 := set_hp (get_or (Snapshot.core_hp snap) (hp s)) s in
  set_max_hp (get_or (Snapshot.core_max_hp snap) (max_hp s1)) s1.

Definition override_core_hp (g : Game) (snap : Snapshot.t) : Game :=
  match core g with
  | Some c => modify c (override_hp snap) g
  | None => g
  end.

Definition sync_structures (g : Game) (snap : Snapshot.t) : Game :=
  let registry := structures g in
  let '(g1, dict1, core_entry) :=
    foldl (sync_structure registry) (g, ∅, None) (Snapshot.structures snap) in
  let '(g2, dict2) := sync_core g1 dict1 core_entry in
  let g3 := clean_removed registry (Snapshot.structures snap).*1 g2 in
  override_core_hp (with_structures dict2 g3) snap.

(** An enemy created for an id that is not known locally; the target
    coordinates are a placeholder, the middle of the map. *)
Definition create_enemy (g : Game) (eid : string) (enemy_data : EnemyState.t)
  : option Enemy.t :=
  let pos_x := get_or (EnemyState.x enemy_data) 0%Q in
  let pos_y := get_or (EnemyState.y enemy_data) 0%Q in
  let hp0 := get_or (EnemyState.hp enemy_data) (inject_Z ENEMY_START_HP) in
  let target_coords :=
    ((inject_Z (map_width_px g) / 2)%Q, (inject_Z (map_height_px g) / 2)%Q) in
  Some (Enemy_apply_state
          (Enemy_init pos_x pos_y target_coords hp0 ENEMY_SPEED ENEMY_DAMAGE
             ENEMY_ATTACK_COOLDOWN eid) enemy_data).

Definition sync_enemies (g : Game) (snap : Snapshot.t) : Game :=
  with_enemies
    (sync_dict Enemy_apply_state (create_enemy g) (enemies g) (Snapshot.enemies snap)) g.

(** A projectile created for an id that is not known locally: it needs
    its position and velocity, has no target and damage 0. *)
Definition create_projectile (pid : string) (proj_data : ProjectileState.t)
  : option Projectile.t :=
  match ProjectileState.x proj_data, ProjectileState.y proj_data,
        ProjectileState.vx proj_data, ProjectileState.vy proj_data with
  | Some px, Some py, Some vx, Some vy =>
      Some (Projectile_apply_state
              (Projectile_init_with_velocity px py PROJECTILE_SPEED 0 pid vx vy) proj_data)
  | _, _, _, _ => None
  end.

Definition sync_projectiles (g : Game) (snap : Snapshot.t) : Game :=
  with_projectiles
    (sync_dict Projectile_apply_state create_projectile (projectiles g)
       (Snapshot.projectiles snap)) g.

(** [Game.apply_full_snapshot] *)
Definition apply_full_snapshot (g : Game) (snap : Snapshot.t) : Game :=
  let g1 := apply_basic_state g snap in
  let g2 := apply_base_terrain g1 snap in
  let g3 := sync_players g2 snap in
  let g4 := sync_structures g3 snap in
  let g5 := sync_enemies g4 snap in
  sync_projectiles g5 snap.

End ApplySnapshot.

(** *** Decimal terrain keys

    A reading of the keys that [get_full_snapshot] writes: two decimal
    integers separated by a comma.  [apply_full_snapshot] is stated for
    any key parser; this one serves the sample runs. *)

Definition digit_of (c : ascii) : option Z :=
  let n := Z.of_nat (nat_of_ascii c) in
  if (48 <=? n) && (n <=? 57) then Some (n - 48) else None.

Fixpoint parse_digits (s : string) (acc : Z) : option Z :=
  match s with
  | EmptyString => Some acc
  | String c s' =>
      match digit_of c with
      | Some d => parse_digits s' (10 * acc + d)
      | None => None
      end
  end.

Definition parse_int (s : string) : option Z :=
  match s with
  | EmptyString => None
  | String c s' =>
      if Ascii.eqb c "-"%char then
        match s' with
        | EmptyString => None
        | _ => Z.opp <$> parse_digits s' 0
        end
      else parse_digits s 0
  end.

(** [s.split(',')] *)
Fixpoint split_comma (s : string) : list string :=
  match s with
  | EmptyString => [EmptyString]
  | String c s' =>
      if Ascii.eqb c ","%char then EmptyString :: split_comma s'
      else
        match split_comma s' with
        | h :: t => String c h :: t
        | [] => [String c EmptyString]
        end
  end.

Definition parse_decimal_key (k : string) : option (Z * Z) :=
  match split_comma k with
  | p0 :: p1 :: _ =>
      match parse_int p0, parse_int p1 with
      | Some gx, Some gy => Some (gx, gy)
      | _, _ => None
      end
  | _ => None
  end.

(** ** Vocabulary of the snapshot properties *)

(** The object registered under an id, [self.structures.get(sid)], and
    its serialised state. *)
Definition structure_of (g : Game) (sid : string) : option Structure :=
  structures g !! sid ≫= fun a => heap g !! a.

Definition structure_state (g : Game) (sid : string) : option StructState.t :=
  get_state <$> structure_of g sid.

(** A Python dictionary has each key once. *)
Definition snapshot_keys_distinct (snap : Snapshot.t) : Prop :=
  NoDup (Snapshot.players snap).*1 /\ NoDup (Snapshot.structures snap).*1
  /\ NoDup (Snapshot.enemies snap).*1 /\ NoDup (Snapshot.projectiles snap).*1.

(** Every registered id leads to a live object that carries this id. *)
Definition registry_ok (g : Game) : Prop :=
  forall sid a, structures g !! sid = Some a ->
    exists s, heap g !! a = Some s /\ network_id s = sid.

(** [self.core], when set, is a live [Core]. *)
Definition core_ok (g : Game) : Prop :=
  forall c, core g = Some c -> exists s, heap g !! c = Some s /\ kind s = KCore.

(** Every object on the grid is live and sits in the cell of its own
    coordinates: [_add_structure_to_game] stores an object at
    [self.grid[structure.grid_x][structure.grid_y]], and the player
    actions write objects into the grid nowhere else.
    [_remove_structure_from_game] relies on it when it looks for the
    object at the object's coordinates. *)
Definition grid_coords_ok (g : Game) : Prop :=
  forall gx gy a, grid g !! (gx, gy) = Some (CellObj a) ->
    exists s, heap g !! a = Some s /\ grid_x s = gx /\ grid_y s = gy.

(** The same as a check that runs. *)
Definition grid_coords_ok_b (g : Game) : bool :=
  forallb (fun '(k, c) =>
             match c with
             | CellObj a =>
                 match heap g !! a with
                 | Some s => (grid_x s =? k.1) && (grid_y s =? k.2)
                 | None => false
                 end
             | CellPatch _ => true
             end) (map_to_list (grid g)).

(** A local object whose id is in the snapshot has the type the snapshot
    gives for this id. *)
Definition types_agree (g : Game) (snap : Snapshot.t) : Prop :=
  forall sid d a s,
    (sid, d) ∈ Snapshot.structures snap -> structures g !! sid = Some a ->
    heap g !! a = Some s -> StructState.type_ d = Some (building_type s).

(** What [Turret.update_stats] maintains: a turret entry flagged as
    powered is at tier 3. *)
Definition powered_turrets_tier3 (snap : Snapshot.t) : Prop :=
  forall sid d,
    (sid, d) ∈ Snapshot.structures snap ->
    StructState.type_ d = Some BUILDING_TURRET ->
    StructState.is_powered d = Some true ->
    StructState.tier d = Some 3 \/ StructState.tier d = None.

(** The two halves of [apply_state], before and after the call of
    [update_stats]: the fields every structure has, then [max_hp] and the
    fields of the type. *)
Definition common_state (d : StructState.t) (s : Structure) : Structure :=
  let s1 := set_tier (get_or (StructState.tier d) (tier s)) s in
  let s2 := set_hp (get_or (StructState.hp d) (hp s1)) s1 in
  let s3 := set_is_powered (get_or (StructState.is_powered d) (is_powered s2)) s2 in
  let s4 := set_is_on_grid (get_or (StructState.is_on_grid d) (is_on_grid s3)) s3 in
  let s5 := set_connected_nodes_coords
              (get_or (StructState.connected_nodes_coords d) []) s4 in
  set_power_source_coords (StructState.power_source_coords d) s5.

Definition own_state (d : StructState.t) (s7 : Structure) : Structure :=
  let s8 := set_max_hp (get_or (StructState.max_hp d) (max_hp s7)) s7 in
  match kind s8 with
  | KConveyor c =>
      set_kind (KConveyor
        (Conveyor.Data
           (get_or (StructState.orientation d) (Conveyor.orientation c))
           (get_or (StructState.item_progress d) (Conveyor.item_progress c))
           (get_or (StructState.item_type d) (Conveyor.item_type c))
           (get_or (StructState.item_count d) (Conveyor.item_count c))
           (Conveyor.transfer_time c) (Conveyor.capacity c))) s8
  | KTurret t =>
      set_kind (KTurret
        (Turret.set_angle (get_or (StructState.angle d) (Turret.angle t))
           (Turret.set_ammo (get_or (StructState.ammo d) (Turret.ammo t)) t))) s8
  | KDrill dr =>
      set_kind (KDrill
        (Drill.Data (Drill.mining_timer dr) (Drill.output_timer dr)
           (get_or (StructState.res_held d) (Drill.resource_held_count dr))
           (get_or (StructState.res_type d) (Drill.resource_type_held dr))
           (Drill.is_on_patch dr) (Drill.speed dr))) s8
  | KCoalGenerator cg =>
      set_is_power_source (get_or (StructState.is_generating d) (is_power_source s8))
        (set_kind (KCoalGenerator
           (CoalGenerator.Data
              (get_or (StructState.coal_buffer d) (CoalGenerator.coal_buffer cg))
              (CoalGenerator.consume_timer cg))) s8)
  | KBattery b =>
      set_kind (KBattery
        (Battery.Data (get_or (StructState.charge d) (Battery.charge b))
           (get_or (StructState.is_charging d) (Battery.is_charging b))
           (get_or (StructState.is_discharging d) (Battery.is_discharging b)))) s8
  | _ => s8
  end.

(** The case in which [apply_state] is not idempotent: a turret whose
    tier changes to one below 3 while the state says powered. *)
Definition resets_power (s : Structure) (d : StructState.t) : bool :=
  match kind s, StructState.tier d, StructState.is_powered d with
  | KTurret _, Some t, Some true => negb (t =? tier s) && negb (t =? 3)
  | _, _, _ => false
  end.

(** The grid writes of the structures loop, read off a registry and a
    heap: one per entry that is not a core entry and whose id is
    registered, at the position of the registered object. *)
Definition entry_write (g : Game) (registry : gmap string Ref) (h : list Structure)
    (entry : string * StructState.t) : option (Z * Z * Ref) :=
  if bool_decide (StructState.type_ entry.2 = Some BUILDING_CORE) then None
  else
    registry !! entry.1 ≫= fun a =>
    h !! a ≫= fun s =>
    if in_bounds g (grid_x s) (grid_y s) then Some (grid_x s, grid_y s, a) else None.

Definition writes_of (g : Game) (registry : gmap string Ref) (h : list Structure)
    (entries : list (string * StructState.t)) : list (Z * Z * Ref) :=
  omap (entry_write g registry h) entries.

Definition apply_writes (writes : list (Z * Z * Ref)) (gr : gmap (Z * Z) Cell)
  : gmap (Z * Z) Cell :=
  foldl (fun gr '(k, a) => <[k := CellObj a]> gr) gr writes.

(** The tests of one round of the structures loop: the entry is the
    core's; the entry has what it takes to create an object. *)
Definition is_core_entry (d : StructState.t) : bool :=
  bool_decide (StructState.type_ d = Some BUILDING_CORE).

Definition creatable (d : StructState.t) : option (BuildingClass * Z * Z) :=
  match StructState.type_ d ≫= building_info, StructState.gx d, StructState.gy d with
  | Some (_, cls), Some gx, Some gy => Some (cls, gx, gy)
  | _, _, _ => None
  end.

(** The object the loop creates for an id that is not registered. *)
Definition new_struct (fire_timer_draw : string -> Q) (sid : string) (d : StructState.t)
    (cls : BuildingClass) (gx gy : Z) : Structure :=
  let orientation :=
    if bool_decide (StructState.type_ d = Some BUILDING_CONVEYOR)
    then Some (get_or (StructState.orientation d) EAST) else None in
  apply_state (set_network_id sid (construct cls gx gy orientation (fire_timer_draw sid))) d.

(** What holds in the structures loop started in [g], of the world [g1]
    and the new dictionary once the entries [done] are handled: only the
    heap and the grid differ; the objects of [g] that no entry addressed
    are as they were; an id of the new dictionary leads to an object that
    carries this id, has the type of its entry and already shows the
    state of the entry; an entry without an object could not be created;
    the grid is the one of [g] after the writes of the entries. *)
Definition loop_inv (g : Game) (done : list (string * StructState.t)) (g1 : Game)
    (new_dict : gmap string Ref) : Prop :=
  g1 = with_grid (grid g1) (with_heap (heap g1) g)
  /\ (length (heap g) <= length (heap g1))%nat
  /\ (forall a, (a < length (heap g))%nat ->
        (forall sid d, (sid, d) ∈ done -> is_core_entry d = false ->
                       structures g !! sid <> Some a) ->
        heap g1 !! a = heap g !! a)
  /\ (forall sid a, new_dict !! sid = Some a ->
        exists d s,
          (sid, d) ∈ done /\ is_core_entry d = false /\ heap g1 !! a = Some s
          /\ network_id s = sid /\ apply_state s d = s
          /\ StructState.type_ d = Some (building_type s)
          /\ (structures g !! sid = Some a
              \/ (structures g !! sid = None /\ StructState.gx d = Some (grid_x s)
                  /\ StructState.gy d = Some (grid_y s))))
  /\ (forall sid d, (sid, d) ∈ done -> is_core_entry d = false -> new_dict !! sid = None ->
        structures g !! sid = None /\ creatable d = None)
  /\ grid g1 = apply_writes (writes_of g new_dict (heap g1) done) (grid g).

(** The core entry the loop ends with: the last one of the list. *)
Definition last_core_entry (entries : list (string * StructState.t))
  : option (string * StructState.t) :=
  last (List.filter (fun e => bool_decide (StructState.type_ e.2 = Some BUILDING_CORE)) entries).

(** A source world whose registry can be rebuilt from its snapshot: ids
    are the keys, resource patches are not registered, a registered core
    is [self.core], and the turrets below tier 3 are unpowered. *)
Record serialisable (g : Game) : Prop := {
  ser_registry : registry_ok g;
  ser_no_patch : forall sid a s,
      structures g !! sid = Some a -> heap g !! a = Some s ->
      building_type s <> BUILDING_RESOURCE;
  ser_core : forall sid a s,
      structures g !! sid = Some a -> heap g !! a = Some s ->
      building_type s = BUILDING_CORE -> core g = Some a;
  ser_turrets : forall sid a s,
      structures g !! sid = Some a -> heap g !! a = Some s ->
      building_type s = BUILDING_TURRET -> is_powered s = true -> tier s = 3;
  ser_players : forall pid p, players g !! pid = Some p -> Player.player_id p = pid;
  ser_enemies : forall eid e, enemies g !! eid = Some e -> Enemy.network_id e = eid;
  ser_projectiles : forall pid p,
      projectiles g !! pid = Some p -> Projectile.network_id p = pid;
}.


(** The grid write of the core section, read off the world it leaves:
    the core at its tile, when the core carries the id of the core entry. *)
Definition core_write (g : Game) (entries : list (string * StructState.t)) (g4 : Game)
  : list (Z * Z * Ref) :=
  match last_core_entry entries, core g4 with
  | Some (cid, _), Some c =>
      match heap g4 !! c with
      | Some s =>
          if bool_decide (network_id s = cid) && in_bounds g (grid_x s) (grid_y s)
          then [(grid_x s, grid_y s, c)] else []
      | None => []
      end
  | _, _ => []
  end.

(** What the structures section of [apply_full_snapshot], started in [g],
    leaves behind: a world [g4] that differs from [g] in the heap, the
    grid, the registry and the core only; whose registered objects already
    show the state of their entries, and whose unregistered entries could
    not be created; whose registry has the ids of the snapshot only; whose
    core, if the snapshot has a core entry that could be used, carries the
    id of this entry and shows its state and the hp of the snapshot; and
    whose grid is what the writes of the section make of the grid of [g4]
    itself, or of the grid of [g] where that one holds no object. *)
Definition settled_world (g : Game) (snap : Snapshot.t) (g4 : Game) : Prop :=
  let entries := Snapshot.structures snap in
  g4 = with_core (core g4)
         (with_structures (structures g4) (with_grid (grid g4) (with_heap (heap g4) g)))
  /\ (forall sid d, (sid, d) ∈ entries -> is_core_entry d = false ->
        match structures g4 !! sid with
        | Some a => exists s, heap g4 !! a = Some s /\ apply_state s d = s
        | None => creatable d = None
        end)
  /\ (forall sid a, structures g4 !! sid = Some a ->
        (exists d, (sid, d) ∈ entries /\ is_core_entry d = false)
        \/ (exists cd, last_core_entry entries = Some (sid, cd)))
  /\ match last_core_entry entries with
     | Some (cid, cd) =>
         (exists c s, core g4 = Some c /\ heap g4 !! c = Some s /\ network_id s = cid
                      /\ structures g4 !! cid = Some c
                      /\ override_hp snap (apply_state s cd) = s)
         \/ ((StructState.gx cd = None \/ StructState.gy cd = None)
             /\ structures g4 !! cid = None
             /\ forall c s, core g4 = Some c -> heap g4 !! c = Some s ->
                   network_id s <> cid /\ override_hp snap s = s)
     | None => core g4 = None
     end
  /\ (forall gr : gmap (Z * Z) Cell,
        (forall k, gr !! k = grid g4 !! k
                   \/ (gr !! k = grid g !! k /\ forall a, grid g !! k <> Some (CellObj a))) ->
        apply_writes (writes_of g (structures g4) (heap g4) entries ++ core_write g entries g4) gr
        = grid g4).

(** The terrain map and the grid that [apply_full_snapshot] rebuilds from
    the received terrain, when it does. *)
Definition rebuilt_terrain (parse_terrain_key : string -> option (Z * Z)) (g : Game)
    (snap : Snapshot.t) : gmap (Z * Z) string * gmap (Z * Z) Cell :=
  match Snapshot.base_terrain snap with
  | [] => (∅, ∅)
  | received =>
      match mapM (fun '(k, r) => (fun p => (p, r)) <$> parse_terrain_key k) received with
      | Some entries => build_terrain g entries
      | None => (∅, ∅)
      end
  end.

(** The scalar fields show what the snapshot says. *)
Definition basic_settled (snap : Snapshot.t) (g : Game) : Prop :=
  get_or (Snapshot.resources snap) (resources g) = resources g
  /\ get_or (Snapshot.wave_number snap) (wave_number g) = wave_number g
  /\ get_or (Snapshot.wave_timer snap) (wave_timer g) = wave_timer g
  /\ get_or (Snapshot.in_wave snap) (in_wave g) = in_wave g
  /\ get_or (Snapshot.game_over snap) (game_over g) = game_over g
  /\ get_or (Snapshot.game_won snap) (game_won g) = game_won g
  /\ get_or (Snapshot.next_enemy_id snap) (next_enemy_id g) = next_enemy_id g
  /\ get_or (Snapshot.next_projectile_id snap) (next_projectile_id g) = next_projectile_id g.


(** The fields the structures section of a snapshot leaves alone: all
    but the heap, the grid, the registry and [self.core]. *)
Definition structures_frame (g g' : Game) : Prop :=
  g' = with_core (core g')
         (with_structures (structures g') (with_grid (grid g') (with_heap (heap g') g))).

(** The test of [serialisable] on the entries of the dictionaries. *)
Definition serialisable_b (g : Game) : bool :=
  forallb (fun '(sid, a) =>
             match heap g !! a with
             | Some s =>
                 bool_decide (network_id s = sid)
                 && negb (building_type s =? BUILDING_RESOURCE)
                 && implb (building_type s =? BUILDING_CORE) (bool_decide (core g = Some a))
                 && implb ((building_type s =? BUILDING_TURRET) && is_powered s) (tier s =? 3)
             | None => false
             end) (map_to_list (structures g))
  && forallb (fun '(pid, p) => Player.player_id p =? pid) (map_to_list (players g))
  && forallb (fun '(eid, e) => bool_decide (Enemy.network_id e = eid)) (map_to_list (enemies g))
  && forallb (fun '(pid, p) => bool_decide (Projectile.network_id p = pid))
       (map_to_list (projectiles g)).


(** *** Counting items

    The items of one type that an object holds -- on a belt, as ammo
    (copper), as fuel (coal) or mined and waiting in a drill -- and the
    stock of the world: the resource counter plus what the objects hold. *)
Definition items_held (item : string) (s : Structure) : Z :=
  match kind s with
  | KDrill d =>
      if bool_decide (Drill.resource_type_held d = Some item)
      then Drill.resource_held_count d else 0
  | KConveyor c =>
      if bool_decide (Conveyor.item_type c = Some item) then Conveyor.item_count c else 0
  | KTurret t => if String.eqb item RES_COPPER then Turret.ammo t else 0
  | KCoalGenerator cg => if String.eqb item RES_COAL then CoalGenerator.coal_buffer cg else 0
  | _ => 0
  end.

Definition held_total (item : string) (objs : list Structure) : Z :=
  foldr (fun s acc => items_held item s + acc) 0 objs.

Definition stock (item : string) (g : Game) : Z :=
  default 0 (resources g !! item) + held_total item (heap g).

(** The object holds no more than its capacity. *)
Definition within_capacity (s : Structure) : Prop :=
  match kind s with
  | KConveyor c => Conveyor.item_count c <= Conveyor.capacity c
  | KTurret t => Turret.ammo t <= TURRET_AMMO_CAPACITY
  | KCoalGenerator cg => CoalGenerator.coal_buffer cg <= COALGENERATOR_INPUT_CAP
  | _ => True
  end.


(** A property that holds of every object of the world. *)
Definition all_objects (P : Structure -> Prop) (g : Game) : Prop :=
  forall a s, heap g !! a = Some s -> P s.

(** The charge lies between empty and full. *)
Definition charge_ok (s : Structure) : Prop :=
  (0 <= charge s /\ charge s <= Battery.capacity)%Q.


(** ** Positions, damage and projectiles *)

(** [world_to_grid]: [int(x // TILE_SIZE)] is the floor of the quotient;
    [grid_to_world] gives the corner of a tile. *)
Definition world_to_grid (x y : Q) : Z * Z :=
  (Qfloor (x / inject_Z TILE_SIZE), Qfloor (y / inject_Z TILE_SIZE)).

Definition grid_to_world (gx gy : Z) : Z * Z := (gx * TILE_SIZE, gy * TILE_SIZE).

(** [self.radius] of a player. *)
Definition PLAYER_RADIUS : Q := inject_Z TILE_SIZE * (4 # 10).

Section PlayerMotion.

(** [math.sqrt] *)
Variable sqrt : Q -> Q.

(** [Player.update]; [map_size] is [(map_width_px, map_height_px)] of the
    game instance, when one is passed.  [self.speed] and [self.radius]
    are assigned in [__init__] only, to [PLAYER_SPEED] and
    [TILE_SIZE * 0.4]. *)
Definition Player_update (dt : Q) (map_size : option (Z * Z)) (p : Player.t) : Player.t :=
  let dx := Player.move_x p in
  let dy := Player.move_y p in
  let mag_sq := (dx * dx + dy * dy)%Q in
  let '(norm_dx, norm_dy) :=
    if Qltb EPS mag_sq
    then let mag := sqrt mag_sq in ((dx / mag)%Q, (dy / mag)%Q)
    else (0%Q, 0%Q) in
  let potential_x := (Player.world_x p + norm_dx * PLAYER_SPEED * dt)%Q in
  let potential_y := (Player.world_y p + norm_dy * PLAYER_SPEED * dt)%Q in
  let '(map_width, map_height) :=
    match map_size with
    | Some (w, h) => (inject_Z w, inject_Z h)
    | None => (10000%Q, 10000%Q)
    end in
  Player.set_world_y (pymax PLAYER_RADIUS (pymin potential_y (map_height - PLAYER_RADIUS)%Q))
    (Player.set_world_x (pymax PLAYER_RADIUS (pymin potential_x (map_width - PLAYER_RADIUS)%Q))
       p).

End PlayerMotion.

(** [Structure.take_damage]: the object after the hit and the returned
    flag; [game_is_over] is [game.game_over]. *)
Definition take_damage (game_is_over : bool) (amount : Q) (s : Structure) : Structure * bool :=
  if (building_type s =? BUILDING_CORE) && game_is_over then (s, false)
  else
    let s1 := set_hp (hp s - amount)%Q s in
    if Qleb (hp s1) 0 then (set_destroyed true (set_hp 0 s1), true) else (s1, false).

(** A series of hits on one object. *)
Definition take_hits (game_is_over : bool) (amounts : list Q) (s : Structure) : Structure :=
  foldl (fun s amount => fst (take_damage game_is_over amount s)) s amounts.

Definition Enemy_set_destroyed (v : bool) (e : Enemy.t) : Enemy.t :=
  Enemy.Make (Enemy.network_id e) (Enemy.world_x e) (Enemy.world_y e)
    (Enemy.target_core_coords e) (Enemy.current_attack_target_id e) (Enemy.max_hp e)
    (Enemy.hp e) (Enemy.speed e) (Enemy.damage e) (Enemy.attack_cooldown e)
    (Enemy.attack_timer e) v.

(** [Enemy.take_damage] for the enemy [e] stored under [eid]; [None] is
    the [KeyError] of the reward on a resource map without copper. *)
Definition Enemy_take_damage (g : Game) (eid : string) (e : Enemy.t) (amount : Q)
  : option Game :=
  let e1 := Enemy.set_hp (Enemy.hp e - amount)%Q e in
  if Qleb (Enemy.hp e1) 0 then
    let e2 := Enemy_set_destroyed true (Enemy.set_hp 0 e1) in
    let g1 := with_enemies (<[eid := e2]> (enemies g)) g in
    if is_client g then Some g1
    else
      match resources g !! RES_COPPER with
      | Some v => Some (with_resources (<[RES_COPPER := v + 10]> (resources g)) g1)
      | None => None
      end
  else Some (with_enemies (<[eid := e1]> (enemies g)) g).

Definition Projectile_set_destroyed (v : bool) (p : Projectile.t) : Projectile.t :=
  Projectile.Make (Projectile.network_id p) (Projectile.world_x p) (Projectile.world_y p)
    (Projectile.target_enemy_id p) (Projectile.speed p) (Projectile.damage p) v
    (Projectile.lifetime p) (Projectile.vx p) (Projectile.vy p).

Definition Projectile_set_lifetime (v : Q) (p : Projectile.t) : Projectile.t :=
  Projectile.Make (Projectile.network_id p) (Projectile.world_x p) (Projectile.world_y p)
    (Projectile.target_enemy_id p) (Projectile.speed p) (Projectile.damage p)
    (Projectile.destroyed p) v (Projectile.vx p) (Projectile.vy p).

(** [(TILE_SIZE / 3 + 4) ** 2] *)
Definition HIT_RADIUS_SQ : Q :=
  (inject_Z TILE_SIZE / 3 + 4) * (inject_Z TILE_SIZE / 3 + 4).

(** The step of a live projectile: the move and the ageing. *)
Definition Projectile_advance (dt : Q) (p : Projectile.t) : Projectile.t :=
  Projectile_set_lifetime (Projectile.lifetime p - dt)%Q
    (Projectile.set_world_y (Projectile.world_y p + Projectile.vy p * dt)%Q
       (Projectile.set_world_x (Projectile.world_x p + Projectile.vx p * dt)%Q p)).

(** [game.get_enemy_by_id(self.target_enemy_id) if self.target_enemy_id
    else None]: a missing and an empty id are falsy. *)
Definition Projectile_target (g : Game) (p : Projectile.t) : option (string * Enemy.t) :=
  match Projectile.target_enemy_id p with
  | Some eid => if String.eqb eid "" then None else (fun e => (eid, e)) <$> enemies g !! eid
  | None => None
  end.

Definition inside_map (g : Game) (x y : Q) : bool :=
  Qleb 0 x && Qltb x (inject_Z (map_width_px g))
  && Qleb 0 y && Qltb y (inject_Z (map_height_px g)).

(** [Projectile.update] for the projectile stored under [pid]; [None] is
    the [KeyError] of [Enemy.take_damage]. *)
Definition Projectile_update (g : Game) (pid : string) : option Game :=
  match projectiles g !! pid with
  | None => Some g
  | Some p =>
      if Projectile.destroyed p then Some g
      else
        let p1 := Projectile_advance (dt g) p in
        let g1 := with_projectiles (<[pid := p1]> (projectiles g)) g in
        let hit :=
          match Projectile_target g1 p1 with
          | Some (eid, target) =>
              if negb (Enemy.destroyed target)
                 && Qltb (distance_sq (Projectile.world_x p1) (Projectile.world_y p1)
                            (Enemy.world_x target) (Enemy.world_y target)) HIT_RADIUS_SQ
              then Some (eid, target) else None
          | None => None
          end in
        match hit with
        | Some (eid, target) =>
            g2 ← Enemy_take_damage g1 eid target (Projectile.damage p1);
            Some (with_projectiles
                    (<[pid := Projectile_set_destroyed true p1]> (projectiles g2)) g2)
        | None =>
            if Qleb (Projectile.lifetime p1) 0
               || negb (inside_map g1 (Projectile.world_x p1) (Projectile.world_y p1))
            then Some (with_projectiles
                         (<[pid := Projectile_set_destroyed true p1]> (projectiles g1)) g1)
            else Some g1
        end
  end.


(** ** Sample worlds *)

(** A new single-player world on the default 1280x768 screen. *)
Definition demo_world : Game := setup_world_core (Game_init 1280 768 ModeSp) "Player0" 0.

(** A constructor that raises, as the action's [try] foresees. *)
Definition failing_constructor (cls : BuildingClass) (gx gy orientation : Z)
  : option Structure := None.

(** A tier-1 conveyor at (20, 12) facing east towards a free tile, holding
    one copper item at 90% of the belt, with a tick of 0.1 s. *)
Definition blocked_conveyor_world : Game :=
  let g1 := fst (action_place_structure demo_world 0 BUILDING_CONVEYOR 20 12 EAST 0) in
  let g2 := modify 1%nat (map_conveyor (fun c =>
              Conveyor.set_item_progress (9 # 10)
                (Conveyor.set_item_count 1 (Conveyor.set_item_type (Some RES_COPPER) c)))) g1 in
  with_dt (1 # 10) g2.

(** A conveyor at (20, 14) facing south into the core at (20, 15), holding
    two copper items (as a tier-2 belt can) with the first at the end. *)
Definition feeding_conveyor_world : Game :=
  let g1 := fst (action_place_structure demo_world 0 BUILDING_CONVEYOR 20 14 SOUTH 0) in
  let g2 := modify 1%nat (map_conveyor (fun c =>
              Conveyor.set_item_progress (99 # 100)
                (Conveyor.set_item_count 2 (Conveyor.set_item_type (Some RES_COPPER) c)))) g1 in
  with_dt (1 # 10) g2.

(** Entity phases in which nothing moves and nothing is destroyed. *)
Definition idle_entities (g : Game) : Game * bool := (g, false).

(** The new world once the first cooldown has run out. *)
Definition cooldown_over_world : Game := with_dt (1 # 60) (with_wave_timer 0%Q demo_world).

Definition sample_draws : Draws := MkDraws EdgeTop 100%Q 1%Q.

(** A world later in the game: two fuelled coal generators ten tiles
    apart, at (15, 13) and (25, 13), and four reconstructors -- one at
    (20, 13), five tiles from both generators, and three next to the first
    generator.  [first], [second] give the order in which the generators
    are built. *)
Definition place (g : Game) (building_type gx gy : Z) : Game :=
  fst (action_place_structure g 0 building_type gx gy EAST 0).

Definition feed_coal (g : Game) (gx gy : Z) : Game :=
  match get_structure_at g gx gy with
  | Some (CellObj a) => CoalGenerator_update (fst (try_accept_item g (CellObj a) RES_COAL)) a
  | _ => g
  end.

Definition two_generators (first second : Z * Z) : Game :=
  let g0 := with_dt (1 # 60)
              (with_resources (<[RES_COPPER := 1000]> (<[RES_COAL := 1000]> ∅)) demo_world) in
  let g1 := place g0 BUILDING_COALGENERATOR (fst first) (snd first) in
  let g2 := place g1 BUILDING_COALGENERATOR (fst second) (snd second) in
  let g3 := place g2 BUILDING_RECONSTRUCTOR 20 13 in
  let g4 := place g3 BUILDING_RECONSTRUCTOR 15 12 in
  let g5 := place g4 BUILDING_RECONSTRUCTOR 15 14 in
  let g6 := place g5 BUILDING_RECONSTRUCTOR 14 13 in
  feed_coal (feed_coal g6 15 13) 25 13.

Definition contested_world : Game := two_generators (15, 13) (25, 13).
Definition contested_world_reversed : Game := two_generators (25, 13) (15, 13).

(** A fuelled generator at (15, 13) and two poles at (19, 13) and
    (23, 13): each is within the power radius of the next, the generator
    and the second pole are eight tiles apart. *)
Definition power_line_world : Game :=
  let g0 := with_dt (1 # 60)
              (with_resources (<[RES_COPPER := 1000]> (<[RES_COAL := 1000]> ∅)) demo_world) in
  let g1 := place g0 BUILDING_COALGENERATOR 15 13 in
  let g2 := place g1 BUILDING_POWERPOLE 19 13 in
  let g3 := place g2 BUILDING_POWERPOLE 23 13 in
  feed_coal g3 15 13.

(** A world in the middle of a wave: a drill mining a copper patch at
    (18, 12), a turret at (22, 12), one enemy, and a projectile in flight
    with the 30 damage of a tier-1 turret. *)
Definition battle_world : Game :=
  let g0 := with_dt (1 # 60)
              (with_resources (<[RES_COPPER := 1000]> (<[RES_COAL := 1000]> ∅)) demo_world) in
  let g1 := place_patch g0 18 12 RES_COPPER in
  let g2 := place g1 BUILDING_DRILL 18 12 in
  let g3 := place g2 BUILDING_TURRET 22 12 in
  let g4 := spawn_enemy g3 sample_draws in
  with_next_projectile_id 1
    (with_projectiles
       {[ "p_1" := Projectile.Make "p_1" 720 400 (Some "e_1") PROJECTILE_SPEED 30 false 2
                     (-200) (-100) ]} g4).

(** The snapshot of a world, on the authoritative side. *)
Definition snapshot_of (g : Game) : Snapshot.t :=
  match get_full_snapshot g with
  | Some snap => snap
  | None => Snapshot.Make None None None None None None [] [] [] [] [] None None None None None
  end.

Definition no_draw (sid : string) : Q := 0.

(** The world of a client that has just joined [battle_world]. *)
Definition joined_world : Game :=
  apply_full_snapshot parse_decimal_key no_draw (Game_init 1280 768 ModeClient)
    (snapshot_of battle_world).

(** A snapshot with a single entry: a tier-2 turret flagged as powered. *)
Definition powered_tier2_turret : StructState.t :=
  StructState.Make (Some "5_5_3") (Some BUILDING_TURRET) (Some 5) (Some 5)
    (Some 220%Q) (Some 220%Q) (Some 2) (Some true) (Some false) (Some []) None
    None None None None (Some 0) (Some 0%Q) None None None None None None None.

Definition odd_snapshot : Snapshot.t :=
  Snapshot.Make None None None None None None [] [("5_5_3", powered_tier2_turret)] [] [] []
    None None None None None.

Definition applied_once : Game :=
  apply_full_snapshot parse_decimal_key no_draw (Game_init 1280 768 ModeClient) odd_snapshot.
Definition applied_twice : Game :=
  apply_full_snapshot parse_decimal_key no_draw applied_once odd_snapshot.


(** A turret entry at tier 3 flagged as powered, as the host sends it
    for a powered tier-3 turret. *)
Definition powered_tier3_turret : StructState.t :=
  StructState.Make (Some "5_5_3") (Some BUILDING_TURRET) (Some 5) (Some 5)
    (Some 300%Q) (Some 300%Q) (Some 3) (Some true) (Some true) (Some []) None
    None None None None (Some 0) (Some 0%Q) None None None None None None None.

(** A fuelled generator at (15, 13) next to an empty battery at (17, 13). *)
Definition battery_world : Game :=
  let g0 := with_dt (1 # 60)
              (with_resources (<[RES_COPPER := 1000]> (<[RES_COAL := 1000]> ∅)) demo_world) in
  let g1 := place g0 BUILDING_COALGENERATOR 15 13 in
  let g2 := place g1 BUILDING_BATTERY 17 13 in
  feed_coal g2 15 13.
(** * Properties *)

(** ** Arithmetic helpers *)

Lemma Qleb_iff (x y : Q) : Qleb x y = true <-> (x <= y)%Q.
Proof. apply Qle_bool_iff. Qed.

Lemma Qltb_iff (x y : Q) : Qltb x y = true <-> (x < y)%Q.
Proof.
  unfold Qltb. rewrite negb_true_iff.
  destruct (Qle_bool y x) eqn:E.
  - apply Qle_bool_iff in E. split; [discriminate | intros H; lra].
  - split; [intros _ | reflexivity].
    destruct (Qlt_le_dec x y) as [H | H]; [exact H |].
    apply Qle_bool_iff in H. congruence.
Qed.

Lemma Qltb_false_iff (x y : Q) : Qltb x y = false <-> (y <= x)%Q.
Proof.
  destruct (Qltb x y) eqn:E.
  - apply Qltb_iff in E. split; [discriminate | intros H; lra].
  - split; [intros _ | reflexivity].
    destruct (Qlt_le_dec x y) as [H | H]; [| exact H].
    apply Qltb_iff in H. congruence.
Qed.

Lemma pymin_le_r (a b : Q) : (b <= a)%Q -> (pymin a b == b)%Q.
Proof.
  intros H. unfold pymin. destruct (Qltb b a) eqn:E; [reflexivity |].
  apply Qltb_false_iff in E. lra.
Qed.

(** ** Upgrades *)

Lemma valid_index_spec {A} (i : Z) (l : list A) :
  valid_index i l = true -> exists x, l !! Z.to_nat i = Some x.
Proof.
  unfold valid_index. intros H. apply andb_true_iff in H as [H1 H2].
  apply Z.leb_le in H1. apply Z.ltb_lt in H2.
  apply lookup_lt_is_Some_2. lia.
Qed.

Lemma update_stats_tier (s : Structure) : tier (update_stats s) = tier s.
Proof.
  unfold update_stats. destruct (kind s) as [| |d|c|t| | | | |]; try reflexivity.
  - unfold Drill_update_stats. destruct (valid_index _ _); [|reflexivity].
    destruct (DRILL_STATS !! _) as [[? ?]|]; reflexivity.
  - unfold Turret_update_stats.
    destruct (valid_index _ _); [destruct (TURRET_STATS !! _) as [[[[? ?] ?] ?]|] |];
      cbn [tier set_kind set_max_hp]; destruct (tier s =? 3); reflexivity.
Qed.

Lemma update_stats_max_hp_pos (s : Structure) :
  (0 < max_hp s)%Q -> (0 < max_hp (update_stats s))%Q.
Proof.
  intros Hpos. unfold update_stats. destruct (kind s) as [| |d|c|t| | | | |]; try exact Hpos.
  - unfold Drill_update_stats. destruct (valid_index _ _); [|exact Hpos].
    destruct (Z.to_nat (tier s - 1)) as [|[|[|n]]]; cbn; try exact Hpos; reflexivity.
  - unfold Conveyor_update_stats. destruct (valid_index _ _); [|exact Hpos].
    destruct (Z.to_nat (tier s - 1)) as [|[|[|n]]]; cbn; try exact Hpos; reflexivity.
  - unfold Turret_update_stats.
    assert (Hs1 : (0 < max_hp
       (if valid_index (tier s - 1) TURRET_STATS
        then match TURRET_STATS !! Z.to_nat (tier s - 1) with
             | Some (rg, dmg, fr, mh) =>
                 set_kind (KTurret (Turret.Data (Turret.fire_timer t) 0 (Turret.target_id t)
                                      (Turret.angle t) rg (rg * rg)%Q dmg fr))
                   (set_max_hp mh s)
             | None => s
             end
        else s))%Q).
    { destruct (valid_index _ _); [|exact Hpos].
      destruct (Z.to_nat (tier s - 1)) as [|[|[|n]]]; cbn; try exact Hpos; reflexivity. }
    destruct (tier _ =? 3); exact Hs1.
Qed.

(** C4 -- a successful upgrade raises the tier by exactly one, keeps the
    ratio [hp / max_hp] (exactly when the proportional hp is at least one
    hit point, and otherwise within the one hit point that the floor at 1
    adds), and leaves at least 1 hp. *)
Theorem apply_upgrade_tier_ratio (s : Structure) :
  can_upgrade s = true ->
  (0 < max_hp s)%Q -> (0 <= hp s)%Q -> (hp s <= max_hp s)%Q ->
  let s' := fst (apply_upgrade s) in
  snd (apply_upgrade s) = true /\
  tier s' = tier s + 1 /\
  (0 < max_hp s')%Q /\
  (1 <= hp s')%Q /\
  ((1 <= max_hp s' * (hp s / max_hp s))%Q -> (hp s' / max_hp s' == hp s / max_hp s)%Q) /\
  (hp s / max_hp s <= hp s' / max_hp s')%Q /\
  (hp s' / max_hp s' <= hp s / max_hp s + 1 / max_hp s')%Q.
Proof.
  intros Hcan Hmax Hhp0 Hhp1. unfold apply_upgrade. rewrite Hcan. cbn [negb].
  assert (Hr : Qltb 0 (max_hp s) = true) by (apply Qltb_iff; exact Hmax).
  rewrite Hr.
  set (r := (hp s / max_hp s)%Q).
  assert (Hr0 : (0 <= r)%Q).
  { unfold r. apply Qle_shift_div_l; [exact Hmax | lra]. }
  assert (Hr1 : (r <= 1)%Q).
  { unfold r. apply Qle_shift_div_r; [exact Hmax | lra]. }
  set (s1 := set_tier (tier s + 1) s).
  set (s2 := if has_update_stats s1 then update_stats s1 else s1).
  assert (Ht2 : tier s2 = tier s + 1).
  { unfold s2. destruct (has_update_stats s1); [rewrite update_stats_tier|]; reflexivity. }
  assert (Hm2 : (0 < max_hp s2)%Q).
  { unfold s2. destruct (has_update_stats s1);
      [apply update_stats_max_hp_pos|]; exact Hmax. }
  set (m := max_hp s2) in *.
  assert (Hx0 : (0 <= m * r)%Q) by (apply Qmult_le_0_compat; lra).
  assert (Hx1 : (m * r <= m)%Q).
  { assert (H : (m * r <= m * 1)%Q) by (apply Qmult_le_l; [exact Hm2 | exact Hr1]). lra. }
  assert (Hh3 : (pymin m (m * r) == m * r)%Q) by (apply pymin_le_r; exact Hx1).
  set (s3 := set_hp (pymin m (m * r)%Q) s2).
  assert (Hm3 : max_hp s3 = m) by reflexivity.
  assert (Hhp3 : hp s3 = pymin m (m * r)%Q) by reflexivity.
  assert (Ht3 : tier s3 = tier s + 1) by exact Ht2.
  rewrite Hm3, Hhp3.
  assert (Hm : Qltb 0 m = true) by (apply Qltb_iff; exact Hm2).
  rewrite Hm. cbn [andb].
  assert (Hdiv : forall h, (h / m == h * / m)%Q) by (intros; reflexivity).
  assert (Hinv : (0 < / m)%Q) by (apply Qinv_lt_0_compat; exact Hm2).
  destruct (Qltb (pymin m (m * r)%Q) 1) eqn:Hlt; cbn [fst snd].
  - apply Qltb_iff in Hlt. rewrite Hh3 in Hlt.
    change (max_hp (set_hp 1 s3)) with m. change (hp (set_hp 1 s3)) with 1%Q.
    change (tier (set_hp 1 s3)) with (tier s3).
    split_and!; try assumption; try reflexivity.
    + lra.
    + intros Hge. lra.
    + apply Qle_shift_div_l; [exact Hm2 |]. lra.
    + assert (E : (r + 1 / m == (m * r + 1) / m)%Q) by (field; lra).
      rewrite E. apply Qle_shift_div_l; [exact Hm2 |].
      assert (E1 : (1 / m * m == 1)%Q) by (field; lra). lra.
  - apply Qltb_false_iff in Hlt. rewrite Hh3 in Hlt.
    rewrite Hm3, Hhp3.
    assert (Heq : (pymin m (m * r) / m == r)%Q) by (rewrite Hh3; field; lra).
    assert (H1m : (0 <= 1 / m)%Q) by (apply Qle_shift_div_l; [exact Hm2 | lra]).
    split_and!; try assumption; try reflexivity.
    + rewrite Hh3. exact Hlt.
    + intros _. exact Heq.
    + rewrite Heq. lra.
    + rewrite Heq. lra.
Qed.

(** The hypotheses of [apply_upgrade_tier_ratio] hold for a damaged
    tier-1 drill (hp 40 of 100), which comes out at tier 2 with hp 56 of
    140. *)
Lemma apply_upgrade_tier_ratio_witness :
  let s := set_hp 40 (Drill_init 3 4) in
  let s' := fst (apply_upgrade s) in
  snd (apply_upgrade s) = true /\
  tier s' = 2 /\
  (0 < max_hp s')%Q /\
  (1 <= hp s')%Q /\
  ((1 <= max_hp s' * (hp s / max_hp s))%Q -> (hp s' / max_hp s' == hp s / max_hp s)%Q) /\
  (hp s / max_hp s <= hp s' / max_hp s')%Q /\
  (hp s' / max_hp s' <= hp s / max_hp s + 1 / max_hp s')%Q.
Proof.
  apply (apply_upgrade_tier_ratio (set_hp 40 (Drill_init 3 4)));
    vm_compute; solve [reflexivity | discriminate].
Defined.

(** A turret that may be upgraded sits at tier 1 or 2: the next tier is a
    key of [TURRET_UPGRADE_COST]. *)
Lemma turret_can_upgrade_tier (s : Structure) (t : Turret.data) :
  kind s = KTurret t -> can_upgrade s = true -> tier s = 1 \/ tier s = 2.
Proof.
  intros Hk Hcan. unfold can_upgrade, max_tier, upgrade_cost in Hcan. rewrite Hk in Hcan.
  destruct (tier s <? MAX_TIER) eqn:Hlt; [|discriminate].
  cbn [andb] in Hcan. apply bool_decide_eq_true in Hcan as [c Hc].
  cbn in Hc.
  destruct (tier s + 1 =? 2) eqn:E2; [apply Z.eqb_eq in E2; lia |].
  destruct (tier s + 1 =? 3) eqn:E3; [apply Z.eqb_eq in E3; lia |].
  discriminate.
Qed.

(** C10 -- every successful upgrade of a turret leaves it with no ammo,
    whatever it held before. *)
Theorem turret_upgrade_resets_ammo (s : Structure) (t : Turret.data) :
  kind s = KTurret t ->
  can_upgrade s = true ->
  snd (apply_upgrade s) = true /\
  exists t', kind (fst (apply_upgrade s)) = KTurret t' /\ Turret.ammo t' = 0.
Proof.
  intros Hk Hcan. pose proof (turret_can_upgrade_tier s t Hk Hcan) as Ht.
  unfold apply_upgrade. rewrite Hcan. cbn [negb fst snd]. split; [reflexivity |].
  set (r := if Qltb 0 (max_hp s) then (hp s / max_hp s)%Q else 1%Q). clearbody r.
  assert (Hu : exists s2 t2,
             (if has_update_stats (set_tier (tier s + 1) s)
              then update_stats (set_tier (tier s + 1) s)
              else set_tier (tier s + 1) s) = s2 /\
             kind s2 = KTurret t2 /\ Turret.ammo t2 = 0).
  { unfold has_update_stats, update_stats. cbn [kind set_tier]. rewrite Hk.
    unfold Turret_update_stats. cbn [tier set_tier].
    destruct Ht as [Ht | Ht]; rewrite Ht; cbn; eauto. }
  destruct Hu as (s2 & t2 & -> & Hk2 & Ha2).
  exists t2. split; [| exact Ha2].
  destruct (Qltb 0 _ && Qltb _ 1); cbn [kind set_hp]; exact Hk2.
Qed.

(** The hypotheses of [turret_upgrade_resets_ammo] hold for a tier-1
    turret loaded with 12 rounds. *)
Lemma turret_upgrade_resets_ammo_witness :
  let t := Turret.Data 0 12 None 0 160 (160 * 160) 30 (45 # 100) in
  let s := set_kind (KTurret t) (Turret_init 5 5 0) in
  snd (apply_upgrade s) = true /\
  exists t', kind (fst (apply_upgrade s)) = KTurret t' /\ Turret.ammo t' = 0.
Proof.
  apply (turret_upgrade_resets_ammo
           (set_kind (KTurret (Turret.Data 0 12 None 0 160 (160 * 160) 30 (45 # 100)))
              (Turret_init 5 5 0))
           (Turret.Data 0 12 None 0 160 (160 * 160) 30 (45 # 100)));
    reflexivity.
Defined.

(** ** Resources *)

Lemma alter_add_commute (a b : Z) (r r' : string) (m : gmap string Z) :
  alter (fun v => v + a) r (alter (fun v => v + b) r' m)
  = alter (fun v => v + b) r' (alter (fun v => v + a) r m).
Proof.
  apply map_eq. intros k. rewrite !lookup_alter.
  repeat case_decide; subst; rewrite ?lookup_alter; repeat case_decide;
    try congruence; destruct (m !! _); cbn; f_equal; lia.
Qed.

Lemma refund_cost_alter (c : Cost) (a : Z) (r : string) (m : gmap string Z) :
  refund_cost c (alter (fun v => v + a) r m) = alter (fun v => v + a) r (refund_cost c m).
Proof.
  unfold refund_cost. revert m. induction c as [|[r' b] c IH]; intros m; [reflexivity |].
  cbn [foldl]. rewrite <- IH. f_equal. apply alter_add_commute.
Qed.

(** Refunding what was just deducted restores the resource map. *)
Lemma refund_deduct (c : Cost) (m : gmap string Z) : refund_cost c (deduct_cost c m) = m.
Proof.
  revert m. induction c as [|[r a] c IH]; intros m; [reflexivity |].
  change (deduct_cost ((r, a) :: c) m) with (deduct_cost c (alter (fun v => v - a) r m)).
  change (refund_cost ((r, a) :: c) ?x) with (refund_cost c (alter (fun v => v + a) r x)).
  rewrite refund_cost_alter, IH.
  apply map_eq. intros k. rewrite !lookup_alter.
  case_decide; [| reflexivity]. subst.
  rewrite decide_True by reflexivity.
  destruct (m !! k); cbn; f_equal; lia.
Qed.

(** An affordable entry with a positive amount names a resource that the
    map holds, so the deduction never meets a missing key. *)
Lemma affordable_key_present (m : gmap string Z) (c : Cost) (r : string) (amount : Z) :
  affordable m c = true -> (r, amount) ∈ c -> 0 < amount -> is_Some (m !! r).
Proof.
  unfold affordable. rewrite forallb_forall. intros Hall Hin Hpos.
  apply list_elem_of_In in Hin. specialize (Hall _ Hin). cbn in Hall.
  apply Z.leb_le in Hall. destruct (m !! r); [eauto | cbn in Hall; lia].
Qed.

Lemma with_resources_id (g : Game) : with_resources (resources g) g = g.
Proof. destruct g; reflexivity. Qed.

Lemma with_resources_twice (m m' : gmap string Z) (g : Game) :
  with_resources m (with_resources m' g) = with_resources m g.
Proof. destruct g; reflexivity. Qed.

(** ** Placement *)

(** C1 -- a rejected placement returns false and leaves the world as it
    was, resources included: whatever was deducted is refunded.  The
    statement covers every behaviour of the constructor, also one that
    raises or yields an object that cannot be added. *)
Theorem action_place_structure_rejected_unchanged
    (instantiate : BuildingClass -> Z -> Z -> Z -> option Structure)
    (g : Game) (player_id building_type gx gy orientation : Z) :
  snd (action_place_structure_with instantiate g player_id building_type gx gy orientation)
    = false ->
  fst (action_place_structure_with instantiate g player_id building_type gx gy orientation)
    = g
  /\ resources
       (fst (action_place_structure_with instantiate g player_id building_type gx gy orientation))
     = resources g.
Proof.
  intros Hfalse.
  assert (H : fst (action_place_structure_with instantiate g player_id building_type gx gy
                     orientation) = g); [| split; [exact H | rewrite H; reflexivity]].
  revert Hfalse. unfold action_place_structure_with.
  destruct (is_client g); [reflexivity |].
  destruct (players g !! player_id) as [player|]; [| reflexivity].
  destruct (building_info building_type) as [[cost cls]|]; [| reflexivity].
  destruct (building_type =? BUILDING_NONE); [reflexivity |].
  destruct (negb (in_bounds g gx gy)); [reflexivity |].
  destruct (negb (affordable (resources g) cost)); [reflexivity |].
  destruct (out_of_build_radius player gx gy); [reflexivity |].
  destruct (negb _); [reflexivity |].
  assert (Hrefund : with_resources
            (refund_cost cost (resources (with_resources (deduct_cost cost (resources g)) g)))
            (with_resources (deduct_cost cost (resources g)) g) = g).
  { rewrite with_resources_twice.
    replace (resources (with_resources (deduct_cost cost (resources g)) g))
      with (deduct_cost cost (resources g)) by (destruct g; reflexivity).
    rewrite refund_deduct. apply with_resources_id. }
  destruct (instantiate cls gx gy orientation) as [new_structure|]; [| intros _; exact Hrefund].
  destruct (alloc new_structure _) as [g2 a].
  destruct (_add_structure_to_game g2 a) as [g3 added].
  destruct added; [discriminate | intros _; exact Hrefund].
Qed.

(** The refund path: a wall on a free tile next to the player, with a
    constructor that raises after the cost was deducted. *)
Lemma action_place_structure_rejected_unchanged_witness :
  snd (action_place_structure_with failing_constructor demo_world 0 BUILDING_WALL 20 12 EAST)
    = false
  /\ fst (action_place_structure_with failing_constructor demo_world 0 BUILDING_WALL 20 12 EAST)
     = demo_world
  /\ resources
       (fst (action_place_structure_with failing_constructor demo_world 0 BUILDING_WALL 20 12 EAST))
     = resources demo_world.
Proof.
  split; [vm_compute; reflexivity |].
  apply (action_place_structure_rejected_unchanged failing_constructor demo_world
           0 BUILDING_WALL 20 12 EAST).
  vm_compute. reflexivity.
Defined.

(** The same placement with the real constructor succeeds and costs 10
    copper. *)
Example wall_placement_succeeds :
  snd (action_place_structure demo_world 0 BUILDING_WALL 20 12 EAST 0) = true
  /\ resources (fst (action_place_structure demo_world 0 BUILDING_WALL 20 12 EAST 0)) !! RES_COPPER
     = Some 190.
Proof. vm_compute. split; reflexivity. Qed.

(** End-to-end scenario 1: in a new world a drill on a tile without a
    resource patch is refused and the resources stay at 200 copper and
    100 coal. *)
Example drill_on_empty_tile_refused :
  snd (action_place_structure demo_world 0 BUILDING_DRILL 20 12 EAST 0) = false
  /\ resources (fst (action_place_structure demo_world 0 BUILDING_DRILL 20 12 EAST 0)) !! RES_COPPER
     = Some 200
  /\ resources (fst (action_place_structure demo_world 0 BUILDING_DRILL 20 12 EAST 0)) !! RES_COAL
     = Some 100.
Proof. vm_compute. repeat split; reflexivity. Qed.

(** ** Removal *)

(** [int(amount * 0.5)] is the floor of half the amount when the amount is
    not negative. *)
Lemma refund_amount_floor (amount : Z) :
  0 <= amount -> py_int (inject_Z amount * DELETE_REFUND_RATIO) = amount / 2.
Proof.
  intros H. unfold py_int, DELETE_REFUND_RATIO, inject_Z, Qmult. cbn [Qnum Qden].
  rewrite Z.mul_1_r. change (Z.pos (1 * 2)) with 2. apply Z.quot_div_nonneg; lia.
Qed.

Lemma refund_removed_notin (c : Cost) (m : gmap string Z) (r : string) :
  r ∉ c.*1 -> refund_removed c m !! r = m !! r.
Proof.
  unfold refund_removed. revert m. induction c as [|[r' a] c IH]; intros m Hnot; [reflexivity |].
  cbn [foldl]. rewrite IH.
  - apply lookup_insert_ne. intros ->. apply Hnot. cbn. left.
  - intros Hin. apply Hnot. cbn. right. exact Hin.
Qed.

Lemma refund_removed_in (c : Cost) (m : gmap string Z) (r : string) (amount : Z) :
  NoDup c.*1 -> (r, amount) ∈ c ->
  refund_removed c m !! r
  = Some (default 0 (m !! r) + py_int (inject_Z amount * DELETE_REFUND_RATIO)).
Proof.
  unfold refund_removed. revert m. induction c as [|[r' a] c IH]; intros m Hnd Hin.
  - inversion Hin.
  - cbn in Hnd. apply NoDup_cons in Hnd as [Hnot Hnd]. cbn [foldl].
    apply elem_of_cons in Hin as [Heq | Hin].
    + injection Heq as -> ->.
      change (foldl _ ?x c) with (refund_removed c x).
      rewrite refund_removed_notin by exact Hnot. apply lookup_insert_eq.
    + assert (r <> r').
      { intros ->. apply Hnot. apply list_elem_of_fmap. exists (r', amount). split; [reflexivity | exact Hin]. }
      rewrite (IH _ Hnd Hin). rewrite lookup_insert_ne by congruence. reflexivity.
Qed.

(** The build-cost tables name each resource once and hold no negative
    amount. *)
Lemma cost_NoDup (s : Structure) : NoDup (cost s).*1.
Proof.
  unfold cost. destruct (kind s); cbn;
    repeat (apply NoDup_cons_2; [cbn; rewrite ?elem_of_cons, elem_of_nil; intuition discriminate |]);
    apply NoDup_nil_2.
Qed.

Lemma cost_nonneg (s : Structure) (r : string) (amount : Z) :
  (r, amount) ∈ cost s -> 0 <= amount.
Proof.
  unfold cost. destruct (kind s); cbn; intros H;
    repeat (apply elem_of_cons in H as [H | H]; [simplify_eq; lia |]);
    by apply elem_of_nil in H.
Qed.

Lemma restore_cell_lookup (g : Game) (gx gy : Z) :
  grid (restore_cell g gx gy) !! (gx, gy)
  = (fun r => CellPatch (ResourcePatch_init gx gy r)) <$> truthy (base_terrain g !! (gx, gy)).
Proof.
  unfold restore_cell. destruct (truthy _); cbn.
  - destruct g; cbn. apply lookup_insert_eq.
  - destruct g; cbn. apply lookup_delete_eq.
Qed.

Lemma restore_cell_frame (g : Game) (gx gy : Z) :
  resources (restore_cell g gx gy) = resources g
  /\ structures (restore_cell g gx gy) = structures g.
Proof. unfold restore_cell. destruct (truthy _); split; reflexivity. Qed.

Lemma _update_power_lists_remove_frame (g : Game) (a : Ref) :
  let g' := _update_power_lists_remove g a in
  resources g' = resources g /\ structures g' = structures g /\ grid g' = grid g
  /\ base_terrain g' = base_terrain g /\ heap g' = heap g
  /\ grid_width g' = grid_width g /\ grid_height g' = grid_height g.
Proof.
  unfold _update_power_lists_remove. destruct (is_client g); [done |].
  destruct (heap g !! a) as [obj|]; [| done].
  destruct (is_power_node obj && _); destruct (is_power_consumer obj && _);
    destruct g; cbn; done.
Qed.

(** What [_remove_structure_from_game] does to the world: the registry
    entry goes, and the cell at the object's own coordinates is given
    back to the terrain if the object is what the cell holds. *)
Lemma _remove_structure_from_game_effect (g : Game) (a : Ref) (s : Structure) :
  heap g !! a = Some s ->
  let g' := _remove_structure_from_game g a in
  let k := (grid_x s, grid_y s) in
  resources g' = resources g
  /\ heap g' = heap g
  /\ structures g' = delete (network_id s) (structures g)
  /\ grid g' = if in_bounds g (grid_x s) (grid_y s) && cell_is (grid g !! k) a
               then match truthy (base_terrain g !! k) with
                    | Some base_type =>
                        <[k := CellPatch (ResourcePatch_init (grid_x s) (grid_y s) base_type)]>
                          (grid g)
                    | None => delete k (grid g)
                    end
               else grid g.
Proof.
  intros Hs. cbv zeta. unfold _remove_structure_from_game. rewrite Hs.
  cbv beta iota zeta.
  set (g1 := with_structures (delete (network_id s) (structures g)) g).
  set (g2 := if is_client g1 then g1 else _update_power_lists_remove g1 a).
  assert (F : resources g2 = resources g /\ heap g2 = heap g
               /\ structures g2 = delete (network_id s) (structures g)
               /\ grid g2 = grid g /\ base_terrain g2 = base_terrain g
               /\ grid_width g2 = grid_width g /\ grid_height g2 = grid_height g).
  { unfold g2. destruct (is_client g1).
    - split_and!; reflexivity.
    - destruct (_update_power_lists_remove_frame g1 a) as (Hr & Hst & Hg & Hbt & Hhp & Hw & Hh).
      rewrite Hr, Hst, Hg, Hbt, Hhp, Hw, Hh. split_and!; reflexivity. }
  clearbody g2. destruct F as (Hr & Hh & Hst & Hg & Hbt & Hw & Hht).
  assert (Hib : in_bounds g2 (grid_x s) (grid_y s) = in_bounds g (grid_x s) (grid_y s)).
  { unfold in_bounds. rewrite Hw, Hht. reflexivity. }
  rewrite Hib, Hg.
  destruct (in_bounds g (grid_x s) (grid_y s) && cell_is _ a).
  - unfold restore_cell. rewrite Hbt.
    destruct (truthy (base_terrain g !! (grid_x s, grid_y s))).
    + split_and!; [exact Hr | exact Hh | exact Hst |].
      change (grid (with_grid ?m _)) with m. rewrite Hg. reflexivity.
    + split_and!; [exact Hr | exact Hh | exact Hst |].
      change (grid (with_grid ?m _)) with m. rewrite Hg. reflexivity.
  - split_and!; assumption.
Qed.

Lemma grid_coords_ok_b_sound (g : Game) : grid_coords_ok_b g = true -> grid_coords_ok g.
Proof.
  unfold grid_coords_ok_b, grid_coords_ok. intros H gx gy a Hg.
  rewrite forallb_forall in H.
  assert (Hin : In ((gx, gy), CellObj a) (map_to_list (grid g))).
  { apply list_elem_of_In. apply elem_of_map_to_list. exact Hg. }
  specialize (H _ Hin). cbn beta iota in H.
  destruct (heap g !! a) as [s|]; [|discriminate].
  apply andb_true_iff in H as [Hx Hy]. apply Z.eqb_eq in Hx, Hy.
  exists s. split_and!; [reflexivity | exact Hx | exact Hy].
Qed.

(** A refused removal, whatever the reason. *)
Local Ltac refused :=
  split_and!;
  [ intros; reflexivity | intros; reflexivity | intros; reflexivity | intros; reflexivity
  | split;
    [ cbn; discriminate
    | intros (? & ? & ? & ? & ? & ? & ? & ? & ? & ?);
      rewrite ?Z.eqb_eq in *; unfold Ref in *; exfalso; congruence ]
  | cbn; intros; discriminate ].

(** C9 -- removal is refused without any change for a core, for a tile
    that only holds a resource patch and for a target outside the build
    radius, and so is every refused removal.  A removal succeeds exactly
    when the caller is not a client, the player is known, the tile holds
    a structure other than the core and a patch, and the tile is within
    the build radius of the player.  A successful removal adds the floor
    of half of every build-cost entry to the resources and leaves the
    other resources alone, deletes the structure from the id registry
    and, in a world whose objects sit in the cells of their coordinates,
    puts the patch visual back into the cell where base terrain exists
    and clears the cell otherwise, changing no other cell. *)
Theorem action_remove_structure_spec (g : Game) (player_id gx gy : Z) :
  let r := action_remove_structure g player_id gx gy in
  (forall a s, get_structure_at g gx gy = Some (CellObj a) -> heap g !! a = Some s ->
     building_type s = BUILDING_CORE \/ building_type s = BUILDING_RESOURCE -> r = (g, false))
  /\ (forall p, get_structure_at g gx gy = Some (CellPatch p) -> r = (g, false))
  /\ (forall player, players g !! player_id = Some player ->
        out_of_build_radius player gx gy = true -> r = (g, false))
  /\ (snd r = false -> r = (g, false))
  /\ (snd r = true <->
      is_client g = false
      /\ exists player a s,
           players g !! player_id = Some player
           /\ get_structure_at g gx gy = Some (CellObj a) /\ heap g !! a = Some s
           /\ building_type s <> BUILDING_CORE /\ building_type s <> BUILDING_RESOURCE
           /\ out_of_build_radius player gx gy = false)
  /\ (forall a s, get_structure_at g gx gy = Some (CellObj a) -> heap g !! a = Some s ->
      snd r = true ->
      (forall res amount, (res, amount) ∈ cost s ->
         resources (fst r) !! res = Some (default 0 (resources g !! res) + amount / 2))
      /\ (forall res, res ∉ (cost s).*1 -> resources (fst r) !! res = resources g !! res)
      /\ structures (fst r) = delete (network_id s) (structures g)
      /\ structures (fst r) !! network_id s = None
      /\ heap (fst r) = heap g
      /\ (grid_coords_ok g ->
          grid (fst r) !! (gx, gy)
          = (fun res => CellPatch (ResourcePatch_init gx gy res))
              <$> truthy (base_terrain g !! (gx, gy))
          /\ forall x y, (x, y) <> (gx, gy) -> grid (fst r) !! (x, y) = grid g !! (x, y))).
Proof.
  cbn zeta. unfold action_remove_structure.
  destruct (is_client g) eqn:Hcl; [refused |].
  destruct (players g !! player_id) as [player|] eqn:Hp; [| refused].
  destruct (get_structure_at g gx gy) as [[p | a]|] eqn:Hcell; [refused | | refused].
  destruct (heap g !! a) as [s|] eqn:Hs; [| refused].
  destruct (building_type s =? BUILDING_CORE) eqn:Hcore; cbn [orb]; [refused |].
  destruct (building_type s =? BUILDING_RESOURCE) eqn:Hres; [refused |].
  destruct (out_of_build_radius player gx gy) eqn:Hrad; [refused |].
  apply Z.eqb_neq in Hcore, Hres.
  split_and!.
  - intros a' s' [= <-] Hs'. unfold Ref in *. rewrite Hs in Hs'. injection Hs' as <-.
    intros [Hc | Hc]; contradiction.
  - discriminate.
  - intros player' [= <-]. congruence.
  - cbn. discriminate.
  - split; [| reflexivity]. intros _. split; [reflexivity |].
    exists player, a, s. split_and!; (reflexivity || assumption).
  - intros a' s' [= <-] Hs' _. unfold Ref in *. rewrite Hs in Hs'. injection Hs' as <-.
    cbn [fst].
    set (g1 := with_resources (refund_removed (cost s) (resources g)) g).
    assert (Hh1 : heap g1 !! a = Some s) by exact Hs.
    pose proof (_remove_structure_from_game_effect g1 a s Hh1) as He. cbv zeta in He.
    destruct He as (Hres' & Hheap' & Hst' & Hgrid').
    change (resources g1) with (refund_removed (cost s) (resources g)) in Hres'.
    change (heap g1) with (heap g) in Hheap'.
    change (structures g1) with (structures g) in Hst'.
    change (grid g1) with (grid g) in Hgrid'.
    change (base_terrain g1) with (base_terrain g) in Hgrid'.
    change (in_bounds g1) with (in_bounds g) in Hgrid'.
    split_and!.
    + intros res amount Hin. rewrite Hres'.
      rewrite (refund_removed_in _ _ _ amount (cost_NoDup s) Hin).
      rewrite refund_amount_floor by (eapply cost_nonneg; exact Hin). reflexivity.
    + intros res Hnot. rewrite Hres'. apply refund_removed_notin. exact Hnot.
    + exact Hst'.
    + rewrite Hst'. apply lookup_delete_eq.
    + exact Hheap'.
    + intros Hok.
      unfold get_structure_at in Hcell.
      destruct (in_bounds g gx gy) eqn:Hib; [| discriminate].
      destruct (Hok gx gy a Hcell) as (s0 & Hs0 & Hx & Hy).
      unfold Ref in *. rewrite Hs in Hs0. injection Hs0 as <-.
      rewrite Hx, Hy in Hgrid'. rewrite Hib, Hcell in Hgrid'.
      cbn [cell_is andb] in Hgrid'. rewrite Nat.eqb_refl in Hgrid'.
      rewrite Hgrid'.
      destruct (truthy (base_terrain g !! (gx, gy))) as [base_type|]; cbn [fmap option_fmap option_map].
      * split; [apply lookup_insert_eq |].
        intros x y Hne. apply lookup_insert_ne. congruence.
      * split; [apply lookup_delete_eq |].
        intros x y Hne. apply lookup_delete_ne. congruence.
Qed.

(** The wall that was just placed next to the core is removed: half of
    its 10 copper comes back, its id leaves the registry and its tile,
    which has no base terrain, is cleared. *)
Lemma action_remove_structure_spec_witness :
  let g1 := fst (action_place_structure demo_world 0 BUILDING_WALL 20 12 EAST 0) in
  let r := action_remove_structure g1 0 20 12 in
  grid_coords_ok g1
  /\ snd r = true
  /\ resources (fst r) !! RES_COPPER = Some (default 0 (resources g1 !! RES_COPPER) + 10 / 2)
  /\ structures (fst r) !! structure_id 20 12 BUILDING_WALL = None
  /\ grid (fst r) !! (20, 12) = None
  /\ grid (fst r) !! (20, 15) = grid g1 !! (20, 15).
Proof.
  intros g1 r.
  assert (Hok : grid_coords_ok g1) by (apply grid_coords_ok_b_sound; vm_compute; reflexivity).
  set (s := default (Wall_init 0 0) (heap g1 !! 1%nat)).
  assert (Hcell : get_structure_at g1 20 12 = Some (CellObj 1%nat)) by (vm_compute; reflexivity).
  assert (Hs : heap g1 !! 1%nat = Some s) by (vm_compute; reflexivity).
  destruct (action_remove_structure_spec g1 0 20 12) as (_ & _ & _ & _ & Hiff & Heff).
  assert (Htrue : snd r = true).
  { apply Hiff. split; [vm_compute; reflexivity |].
    exists (default (Player_init 0 0 0 "" 0) (players g1 !! 0)), 1%nat, s.
    split_and!; try (vm_compute; reflexivity); try exact Hcell; try exact Hs;
      vm_compute; discriminate. }
  destruct (Heff 1%nat s Hcell Hs Htrue) as (Hin & _ & _ & Hreg & _ & Hgrid).
  destruct (Hgrid Hok) as [Hc Hother].
  split_and!.
  - exact Hok.
  - exact Htrue.
  - apply (Hin RES_COPPER 10). vm_compute. apply list_elem_of_here.
  - replace (structure_id 20 12 BUILDING_WALL) with (network_id s) by (vm_compute; reflexivity).
    exact Hreg.
  - etransitivity; [exact Hc |]. vm_compute. reflexivity.
  - apply Hother. discriminate.
Defined.

(** Removing the wall that was just placed pays back 5 of its 10 copper
    and clears the tile; the core cannot be removed. *)
Example remove_wall_refunds_half :
  let g1 := fst (action_place_structure demo_world 0 BUILDING_WALL 20 12 EAST 0) in
  snd (action_remove_structure g1 0 20 12) = true
  /\ resources (fst (action_remove_structure g1 0 20 12)) !! RES_COPPER = Some 195
  /\ grid (fst (action_remove_structure g1 0 20 12)) !! (20, 12) = None
  /\ action_remove_structure g1 0 20 15 = (g1, false).
Proof. vm_compute. repeat split; reflexivity. Qed.

(** ** The object store *)

Lemma modify_lookup (g : Game) (a b : Ref) (f : Structure -> Structure) :
  heap (modify b f g) !! a = if decide (a = b) then f <$> heap g !! a else heap g !! a.
Proof.
  unfold modify. destruct (heap g !! b) as [s|] eqn:Hb; cbn.
  - case_decide as Hab.
    + subst. rewrite Hb. cbn. apply list_lookup_insert_eq. eapply lookup_lt_Some, Hb.
    + apply list_lookup_insert_ne. congruence.
  - case_decide as Hab; [subst; rewrite Hb |]; reflexivity.
Qed.

Lemma modify_lookup_eq (g : Game) (a : Ref) (f : Structure -> Structure) :
  heap (modify a f g) !! a = f <$> heap g !! a.
Proof. rewrite modify_lookup. rewrite decide_True by reflexivity. reflexivity. Qed.

Lemma modify_lookup_ne (g : Game) (a b : Ref) (f : Structure -> Structure) :
  a <> b -> heap (modify b f g) !! a = heap g !! a.
Proof. intros H. rewrite modify_lookup. rewrite decide_False by exact H. reflexivity. Qed.

(** ** Conveyors *)

Lemma conveyor_at_Some (g : Game) (a : Ref) (c : Conveyor.data) :
  conveyor_at g a = Some c <-> exists s, heap g !! a = Some s /\ kind s = KConveyor c.
Proof.
  unfold conveyor_at. split.
  - destruct (heap g !! a) as [s|]; [| discriminate].
    destruct (kind s) eqn:E; try discriminate. intros [= <-]. eauto.
  - intros (s & -> & ->). reflexivity.
Qed.

Lemma conveyor_at_modify (g : Game) (a : Ref) (f : Conveyor.data -> Conveyor.data) :
  conveyor_at (modify a (map_conveyor f) g) a = f <$> conveyor_at g a.
Proof.
  unfold conveyor_at. rewrite modify_lookup_eq.
  destruct (heap g !! a) as [s|]; [| reflexivity]. cbn.
  unfold map_conveyor. destruct (kind s) eqn:E; cbn; rewrite ?E; reflexivity.
Qed.

(** Whatever the target does with the item, a conveyor stays a conveyor. *)
Lemma try_accept_item_conveyor_at (g : Game) (target : Cell) (item : string) (a : Ref) :
  is_Some (conveyor_at g a) -> is_Some (conveyor_at (fst (try_accept_item g target item)) a).
Proof.
  intros Hc. unfold try_accept_item.
  destruct target as [p | b]; [exact Hc |].
  destruct (heap g !! b) as [t|] eqn:Hb; [| exact Hc].
  assert (Hsame : (forall k, kind t <> KConveyor k) -> forall f,
             is_Some (conveyor_at (modify b f g) a)).
  { intros Hk f. unfold conveyor_at. rewrite modify_lookup.
    case_decide as Hab; [| exact Hc]. subst. exfalso.
    destruct Hc as [c Hc]. apply conveyor_at_Some in Hc as (s & Hs & Hks).
    rewrite Hb in Hs. injection Hs as <-. exact (Hk c Hks). }
  assert (Hconv : forall f : Conveyor.data -> Conveyor.data, forall c, kind t = KConveyor c ->
             is_Some (conveyor_at (modify b (set_kind (KConveyor (f c))) g) a)).
  { intros f c Hk. unfold conveyor_at. rewrite modify_lookup.
    case_decide as Hab; [| exact Hc]. subst. rewrite Hb. cbn. eauto. }
  destruct (kind t) as [| |d|c|tu| |cg| | |] eqn:Hk; cbn [fst]; try exact Hc.
  - destruct (bool_decide _); exact Hc.
  - destruct (_ <? _); [| exact Hc].
    destruct (_ =? 0).
    + apply (Hconv (fun c => Conveyor.set_item_count (Conveyor.item_count c + 1)
                       (Conveyor.set_item_progress 0 (Conveyor.set_item_type (Some item) c)))).
      reflexivity.
    + destruct (bool_decide _); [| exact Hc].
      apply (Hconv (fun c => Conveyor.set_item_count (Conveyor.item_count c + 1) c)).
      reflexivity.
  - destruct (_ && _); [| exact Hc]. destruct (_ && _); [| exact Hc].
    cbn [fst]. apply Hsame. intros k; discriminate.
  - destruct (String.eqb _ _); [| exact Hc]. destruct (_ <? _); [| exact Hc].
    cbn [fst]. apply Hsame. intros k; discriminate.
Qed.

Lemma Conveyor_try_push_item_conveyor_at (g g2 : Game) (a : Ref) (b : bool) :
  Conveyor_try_push_item g a = Some (g2, b) ->
  is_Some (conveyor_at g a) -> is_Some (conveyor_at g2 a).
Proof.
  unfold Conveyor_try_push_item. intros Hpush Hc.
  destruct (heap g !! a) as [s|]; [| injection Hpush as <- <-; exact Hc].
  destruct (kind s) as [| |d|c|tu| |cg| | |]; try (injection Hpush as <- <-; exact Hc).
  destruct (Conveyor.item_type c) as [item|]; [| injection Hpush as <- <-; exact Hc].
  destruct (_ <=? 0); [injection Hpush as <- <-; exact Hc |].
  destruct (get_neighbor g s _) as [[target|]|]; try discriminate.
  - injection Hpush as Hpush.
    pose proof (try_accept_item_conveyor_at g target item a Hc) as H.
    rewrite Hpush in H. exact H.
  - injection Hpush as <- <-. exact Hc.
Qed.

(** C5 -- whenever [Conveyor.update] attempts the push and the push
    fails, the conveyor is left with progress exactly 1.0, never above;
    whenever the push succeeds and items remain queued, the progress
    carried over is not below 0.  The world before the call is arbitrary,
    so this holds at every call of every sequence of updates. *)
Theorem conveyor_progress_bounds (g g' : Game) (a : Ref) (pushed : bool) :
  Conveyor_update_traced g a = Some (g', Some pushed) ->
  exists c',
    conveyor_at g' a = Some c'
    /\ (pushed = false -> Conveyor.item_progress c' = 1%Q /\ (Conveyor.item_progress c' <= 1)%Q)
    /\ (pushed = true -> 0 < Conveyor.item_count c' -> (0 <= Conveyor.item_progress c')%Q).
Proof.
  unfold Conveyor_update_traced.
  destruct (heap g !! a) as [s|] eqn:Hs; [| discriminate].
  destruct (kind s) as [| |d|c|tu| |cg| | |] eqn:Hk; try discriminate.
  destruct (_ && _); [| discriminate].
  set (g1 := modify a _ g).
  destruct (Qleb 1 _); [| discriminate].
  assert (Hc1 : is_Some (conveyor_at g1 a)).
  { unfold g1. rewrite conveyor_at_modify. unfold conveyor_at. rewrite Hs, Hk. cbn. eauto. }
  destruct (Conveyor_try_push_item g1 a) as [[g2 [|]]|] eqn:Hpush; [| | discriminate].
  - intros [= <- <-].
    destruct (Conveyor_try_push_item_conveyor_at _ _ _ _ Hpush Hc1) as [c2 Hc2].
    rewrite !conveyor_at_modify, Hc2. cbn.
    eexists. split; [reflexivity |]. split; [discriminate |].
    intros _. destruct (0 <? Conveyor.item_count c2 - 1) eqn:Hpos; cbn.
    + intros _. unfold pymax. destruct (Qltb 0 _) eqn:E.
      * apply Qltb_iff in E. lra.
      * lra.
    + apply Z.ltb_ge in Hpos. lia.
  - intros [= <- <-].
    destruct (Conveyor_try_push_item_conveyor_at _ _ _ _ Hpush Hc1) as [c2 Hc2].
    rewrite conveyor_at_modify, Hc2. cbn.
    eexists. split; [reflexivity |]. split; [| discriminate].
    intros _. split; [reflexivity | cbn; lra].
Qed.

(** A blocked conveyor: the push towards the free tile fails and the
    progress is held at 1. *)
Lemma conveyor_progress_bounds_witness :
  exists g',
    Conveyor_update_traced blocked_conveyor_world 1%nat = Some (g', Some false)
    /\ exists c',
         conveyor_at g' 1%nat = Some c'
         /\ (false = false ->
             Conveyor.item_progress c' = 1%Q /\ (Conveyor.item_progress c' <= 1)%Q)
         /\ (false = true -> 0 < Conveyor.item_count c' -> (0 <= Conveyor.item_progress c')%Q).
Proof.
  eexists. split; [vm_compute; reflexivity |].
  eapply (conveyor_progress_bounds blocked_conveyor_world _ 1%nat false).
  vm_compute. reflexivity.
Defined.

(** A conveyor feeding the core: the first item is delivered (copper goes
    from 195 to 196), one item stays queued and the excess progress
    0.99 + 0.1 / 0.8 - 1 is carried over. *)
Example conveyor_feeds_core :
  exists g' c',
    Conveyor_update_traced feeding_conveyor_world 1%nat = Some (g', Some true)
    /\ conveyor_at g' 1%nat = Some c'
    /\ Conveyor.item_count c' = 1
    /\ (Conveyor.item_progress c' == 23 # 200)%Q
    /\ resources g' !! RES_COPPER = Some 196.
Proof.
  eexists. eexists. split; [vm_compute; reflexivity |].
  split; [vm_compute; reflexivity |]. repeat split.
Qed.

(** ** The wave director *)

Lemma spawn_enemy_wave_fields (g : Game) (d : Draws) :
  let g' := spawn_enemy g d in
  in_wave g' = in_wave g /\ wave_number g' = wave_number g
  /\ current_enemy_hp g' = current_enemy_hp g /\ wave_timer g' = wave_timer g
  /\ enemies_to_spawn_this_wave g' = enemies_to_spawn_this_wave g
  /\ enemies_spawned_this_wave g' = enemies_spawned_this_wave g
  /\ game_over g' = game_over g /\ game_won g' = game_won g /\ max_waves g' = max_waves g.
Proof.
  unfold spawn_enemy. destruct (is_client g); [done |].
  destruct (core g) as [c|]; [| done]. destruct (heap g !! c); [| done].
  destruct (draw_edge d); done.
Qed.

(** C7 -- a tick that starts outside a wave with the cooldown run out,
    waves left and no terminal state latched ends inside the next wave:
    [in_wave] is set, [wave_number] is one higher and the enemy hp of the
    wave is the base plus the increment per earlier wave; from wave 0 this
    is wave 1 at the base hp. *)
Theorem update_starts_next_wave
    (simulate_entities : Game -> Game * bool) (client_animate : Game -> Game)
    (g : Game) (d : Draws) :
  wave_fields_kept simulate_entities ->
  running g = true -> network_mode g <> ModeClient ->
  in_wave g = false -> (wave_timer g <= 0)%Q -> wave_number g < max_waves g ->
  game_over g = false -> game_won g = false ->
  (0 <= dt g)%Q -> 0 <= wave_number g ->
  let g' := update simulate_entities client_animate g d in
  in_wave g' = true
  /\ wave_number g' = wave_number g + 1
  /\ current_enemy_hp g'
     = ENEMY_START_HP + ENEMY_HP_INCREASE_PER_WAVE * (wave_number g' - 1)
  /\ (wave_number g = 0 -> wave_number g' = 1 /\ current_enemy_hp g' = ENEMY_START_HP).
Proof.
  intros Hkept Hrun Hmode Hin Htimer Hwaves Hover Hwon Hdt Hnum. cbn zeta.
  unfold update. rewrite Hrun. cbn [negb].
  destruct (simulate_entities g) as [g1 core_destroyed] eqn:Hsim.
  specialize (Hkept g). rewrite Hsim in Hkept. cbn [fst] in Hkept.
  destruct Hkept as (Kn & Kt & Ki & Ko & Kw & Km & Kd & Kts & Ksp & Kst).
  assert (Hwm : let g2 := wave_management g1 d in
                in_wave g2 = true /\ wave_number g2 = wave_number g + 1
                /\ current_enemy_hp g2
                   = ENEMY_START_HP + ENEMY_HP_INCREASE_PER_WAVE * (wave_number g + 1 - 1)
                /\ game_won g2 = false /\ max_waves g2 = max_waves g).
  { cbn zeta. unfold wave_management. rewrite Ko, Kw, Hover, Hwon. cbn [negb andb].
    set (ga := with_wave_timer _ g1).
    assert (Ea : in_wave ga = false) by (cbn; congruence).
    assert (Eb : Qleb (wave_timer ga) 0 = true).
    { apply Qleb_iff. cbn. rewrite Kt, Kd. lra. }
    assert (Ec : (wave_number ga <? max_waves ga) = true).
    { apply Z.ltb_lt. cbn. rewrite Kn, Km. exact Hwaves. }
    rewrite Ea, Eb, Ec. cbn [negb andb].
    set (gb := with_enemy_spawn_timer 0 _).
    assert (Fb : in_wave gb = true /\ wave_number gb = wave_number g + 1
                 /\ current_enemy_hp gb
                    = ENEMY_START_HP + ENEMY_HP_INCREASE_PER_WAVE * (wave_number g + 1 - 1)
                 /\ (wave_timer gb == WAVE_DURATION)%Q
                 /\ enemies_to_spawn_this_wave gb = 10 + (wave_number g + 1) * 5
                 /\ enemies_spawned_this_wave gb = 0
                 /\ game_won gb = false /\ max_waves gb = max_waves g).
    { cbn. rewrite Kn, Kw, Km. split_and!; try reflexivity; try assumption. lia. }
    destruct Fb as (F1 & F2 & F3 & F4 & F5 & F6 & F7 & F8).
    set (gc := if in_wave gb && _ then _ else gb).
    assert (Fc : in_wave gc = true /\ wave_number gc = wave_number g + 1
                 /\ current_enemy_hp gc
                    = ENEMY_START_HP + ENEMY_HP_INCREASE_PER_WAVE * (wave_number g + 1 - 1)
                 /\ (wave_timer gc == WAVE_DURATION)%Q
                 /\ enemies_to_spawn_this_wave gc = 10 + (wave_number g + 1) * 5
                 /\ (enemies_spawned_this_wave gc = 0 \/ enemies_spawned_this_wave gc = 1)
                 /\ game_won gc = false /\ max_waves gc = max_waves g).
    { unfold gc. destruct (in_wave gb && _); [| split_and!; auto].
      set (gd := with_enemy_spawn_timer _ gb).
      destruct (Qleb (enemy_spawn_timer gd) 0).
      - destruct (spawn_enemy_wave_fields gd d) as (S1 & S2 & S3 & S4 & S5 & S6 & S7 & S8 & S9).
        cbn. rewrite S1, S2, S3, S4, S5, S6, S8, S9. cbn.
        split_and!; auto; try (right; lia).
      - cbn. split_and!; auto. }
    destruct Fc as (G1 & G2 & G3 & G4 & G5 & G6 & G7 & G8).
    assert (Ended : in_wave gc && Qleb (wave_timer gc) 0 = false).
    { rewrite G1. cbn [andb]. destruct (Qleb (wave_timer gc) 0) eqn:E; [| reflexivity].
      apply Qleb_iff in E. rewrite G4 in E. unfold WAVE_DURATION in E. lra. }
    assert (Cleared : in_wave gc
                      && (enemies_to_spawn_this_wave gc <=? enemies_spawned_this_wave gc)
                      && no_enemies gc = false).
    { rewrite G1, G5. cbn [andb].
      replace (10 + (wave_number g + 1) * 5 <=? enemies_spawned_this_wave gc) with false;
        [reflexivity |].
      symmetry. apply Z.leb_gt. lia. }
    rewrite Ended, Cleared. cbn [orb]. split_and!; assumption. }
  cbn zeta in Hwm. destruct Hwm as (W1 & W2 & W3 & W4 & W5).
  set (g2 := wave_management g1 d) in *.
  assert (Hfinal : forall g3, in_wave g3 = true -> wave_number g3 = wave_number g + 1 ->
            current_enemy_hp g3
            = ENEMY_START_HP + ENEMY_HP_INCREASE_PER_WAVE * (wave_number g + 1 - 1) ->
            in_wave g3 = true
            /\ wave_number g3 = wave_number g + 1
            /\ current_enemy_hp g3
               = ENEMY_START_HP + ENEMY_HP_INCREASE_PER_WAVE * (wave_number g3 - 1)
            /\ (wave_number g = 0 -> wave_number g3 = 1 /\ current_enemy_hp g3 = ENEMY_START_HP)).
  { intros g3 A B C. split_and!; [exact A | exact B | rewrite B; exact C |].
    intros Hz. rewrite B, C, Hz. split; reflexivity. }
  set (g3 := if core_destroyed && negb (game_over g2) then with_game_over true g2 else g2).
  assert (H3 : in_wave g3 = true /\ wave_number g3 = wave_number g + 1
               /\ current_enemy_hp g3
                  = ENEMY_START_HP + ENEMY_HP_INCREASE_PER_WAVE * (wave_number g + 1 - 1)).
  { unfold g3. destruct (core_destroyed && _); cbn; auto. }
  destruct H3 as (A & B & C).
  assert (Hres : forall r,
            r = (if negb (game_over g3) && negb (game_won g3)
                 then if (max_waves g3 <=? wave_number g3) && negb (in_wave g3) && no_enemies g3
                      then with_game_won true g3 else g3
                 else g3) ->
            in_wave r = true /\ wave_number r = wave_number g + 1
            /\ current_enemy_hp r
               = ENEMY_START_HP + ENEMY_HP_INCREASE_PER_WAVE * (wave_number g + 1 - 1)).
  { intros r ->. rewrite A. cbn [negb andb]. rewrite andb_false_r. cbn [andb].
    destruct (negb (game_over g3) && negb (game_won g3)); auto. }
  destruct (network_mode g); [| | congruence];
    destruct (Hres _ eq_refl) as (A' & B' & C'); apply Hfinal; assumption.
Qed.

(** End-to-end scenario 4 as an instance: a new world whose cooldown has
    run out, with wave_number 0. *)
Lemma update_starts_next_wave_witness :
  let g' := update idle_entities (fun g => g) cooldown_over_world sample_draws in
  in_wave g' = true
  /\ wave_number g' = wave_number cooldown_over_world + 1
  /\ current_enemy_hp g'
     = ENEMY_START_HP + ENEMY_HP_INCREASE_PER_WAVE * (wave_number g' - 1)
  /\ (wave_number cooldown_over_world = 0 ->
      wave_number g' = 1 /\ current_enemy_hp g' = ENEMY_START_HP).
Proof.
  apply (update_starts_next_wave idle_entities (fun g => g) cooldown_over_world sample_draws);
    try (vm_compute; solve [reflexivity | discriminate | congruence]).
  intros g. cbn. repeat split; reflexivity.
Defined.

(** ** Power topology *)

Lemma keeps_links_ok (f : Structure -> Structure) (s : Structure) :
  keeps_links f -> links_ok s -> links_ok (f s).
Proof.
  intros H Hs. destruct (H s) as (Hx & Hy & Hc).
  unfold links_ok, center, center_x, center_y. rewrite Hx, Hy, Hc. exact Hs.
Qed.

Lemma modify_links_inv (nodes : list Ref) (g : Game) (b : Ref) (f : Structure -> Structure) :
  (forall s, heap g !! b = Some s -> links_ok s -> links_ok (f s)) ->
  links_inv nodes g -> links_inv nodes (modify b f g).
Proof.
  intros Hf Hinv a s Ha Hs. rewrite modify_lookup in Hs. case_decide as Hab.
  - subst. destruct (heap g !! b) as [s0|] eqn:E; [| discriminate].
    cbn in Hs. injection Hs as <-. apply Hf; [reflexivity |]. eapply Hinv; eauto.
  - eapply Hinv; eauto.
Qed.

Lemma modify_keeps_links_inv (nodes : list Ref) (g : Game) (b : Ref)
    (f : Structure -> Structure) :
  keeps_links f -> links_inv nodes g -> links_inv nodes (modify b f g).
Proof. intros Hk. apply modify_links_inv. intros s _. apply keeps_links_ok, Hk. Qed.

Lemma foldl_modify_keeps_links_inv (nodes l : list Ref) (f : Structure -> Structure) :
  keeps_links f -> forall g, links_inv nodes g ->
  links_inv nodes (foldl (fun g a => modify a f g) g l).
Proof.
  intros Hk. induction l as [|a l IH]; intros g Hinv; [exact Hinv |].
  cbn [foldl]. apply IH. apply modify_keeps_links_inv; assumption.
Qed.

Lemma keeps_links_set_is_on_grid (v : bool) : keeps_links (set_is_on_grid v).
Proof. intros s. repeat split. Qed.

Lemma keeps_links_reset_consumer : keeps_links reset_consumer.
Proof. intros s. repeat split. Qed.

Lemma keeps_links_map_battery (f : Battery.data -> Battery.data) : keeps_links (map_battery f).
Proof. intros s. unfold map_battery. destruct (kind s); repeat split. Qed.

Lemma keeps_links_set_charge (v : Q) (c d : option bool) : keeps_links (set_charge v c d).
Proof. apply keeps_links_map_battery. Qed.

Lemma links_ok_reset_node (s : Structure) : links_ok (reset_node s).
Proof.
  unfold reset_node, links_ok.
  destruct (is_power_storage _).
  - destruct (keeps_links_map_battery (fun b => Battery.Data (Battery.charge b) false false)
                (set_connected_nodes_coords [] (set_is_on_grid false s))) as (_ & _ & ->).
    apply Forall_nil_2.
  - apply Forall_nil_2.
Qed.

Lemma reset_nodes_links_inv (l : list Ref) :
  forall (nodes : list Ref) (g : Game),
    links_inv nodes g ->
    links_inv (nodes ++ l) (foldl (fun g a => modify a reset_node g) g l).
Proof.
  induction l as [|a l IH]; intros nodes g Hinv.
  - rewrite app_nil_r. exact Hinv.
  - cbn [foldl]. replace (nodes ++ a :: l) with ((nodes ++ [a]) ++ l)
      by (rewrite <- app_assoc; reflexivity).
    apply IH. intros x s Hx Hs. rewrite modify_lookup in Hs. case_decide as Hxa.
    + subst. destruct (heap g !! a) as [s0|]; [| discriminate].
      cbn in Hs. injection Hs as <-. apply links_ok_reset_node.
    + apply elem_of_app in Hx as [Hx | Hx].
      * eapply Hinv; eauto.
      * apply list_elem_of_singleton in Hx. contradiction.
Qed.

Lemma distance_sq_sym (x1 y1 x2 y2 : Q) :
  (distance_sq x1 y1 x2 y2 == distance_sq x2 y2 x1 y1)%Q.
Proof. unfold distance_sq. ring. Qed.

Lemma links_ok_append (s : Structure) (c : Coords) :
  within_power_radius (center s) c -> links_ok s -> links_ok (append_coords c s).
Proof.
  intros Hc Hs. unfold links_ok, append_coords. cbn.
  change (center (set_connected_nodes_coords _ s)) with (center s).
  apply Forall_app. split; [exact Hs |]. apply Forall_singleton. exact Hc.
Qed.

Lemma visit_neighbor_links_inv (nodes : list Ref) (cur : Ref) (depth : Z)
    (acc : Game * list (Ref * Z) * list Ref) (off : Z * Z) :
  links_inv nodes acc.1.1 -> links_inv nodes (visit_neighbor cur depth acc off).1.1.
Proof.
  destruct acc as [[g q] v]. destruct off as [dx dy]. cbn [fst]. intros Hinv.
  unfold visit_neighbor.
  destruct ((dx =? 0) && (dy =? 0)); [exact Hinv |].
  destruct (heap g !! cur) as [current_node|] eqn:Hcur; [| exact Hinv].
  destruct (get_structure_at g _ _) as [[p | b]|]; try exact Hinv.
  destruct (heap g !! b) as [neighbor|] eqn:Hb; [| exact Hinv].
  destruct (is_power_node neighbor && negb (ref_in b v) && Qleb _ _) eqn:Hcond;
    [| exact Hinv].
  apply andb_true_iff in Hcond as [_ Hdist]. apply Qleb_iff in Hdist.
  cbn [fst].
  set (g1 := if coords_in (center neighbor) (connected_nodes_coords current_node)
             then g else modify cur (append_coords (center neighbor)) g).
  assert (Hinv1 : links_inv nodes g1).
  { unfold g1. destruct (coords_in (center neighbor) (connected_nodes_coords current_node));
      [exact Hinv |].
    apply modify_links_inv; [| exact Hinv].
    intros s Hs. rewrite Hcur in Hs. injection Hs as <-.
    apply links_ok_append. exact Hdist. }
  assert (Hcenter : forall nb, heap g1 !! b = Some nb -> center nb = center neighbor).
  { intros nb Hnb. unfold g1 in Hnb.
    destruct (coords_in (center neighbor) (connected_nodes_coords current_node)).
    - rewrite Hb in Hnb. injection Hnb as <-. reflexivity.
    - rewrite modify_lookup in Hnb. case_decide as Hbc.
      + subst. rewrite Hb in Hnb. cbn in Hnb. injection Hnb as <-.
        rewrite Hb in Hcur. injection Hcur as <-. reflexivity.
      + rewrite Hb in Hnb. injection Hnb as <-. reflexivity. }
  clearbody g1.
  destruct (heap g1 !! b) as [nb|] eqn:Hnb; [| exact Hinv1].
  destruct (coords_in (center current_node) (connected_nodes_coords nb)); [exact Hinv1 |].
  apply modify_links_inv; [| exact Hinv1].
  intros s Hs. rewrite Hnb in Hs. injection Hs as <-.
  apply links_ok_append.
  rewrite (Hcenter nb eq_refl). unfold within_power_radius. cbn [fst snd center].
  rewrite distance_sq_sym. exact Hdist.
Qed.

Lemma foldl_visit_neighbor_links_inv (nodes : list Ref) (cur : Ref) (depth : Z)
    (offs : list (Z * Z)) :
  forall acc, links_inv nodes acc.1.1 ->
              links_inv nodes (foldl (visit_neighbor cur depth) acc offs).1.1.
Proof.
  induction offs as [|off offs IH]; intros acc Hinv; [exact Hinv |].
  cbn [foldl]. apply IH. apply visit_neighbor_links_inv. exact Hinv.
Qed.

Lemma bfs_links_inv (nodes : list Ref) (fuel : nat) :
  forall g queue visited network processed,
    links_inv nodes g ->
    links_inv nodes (bfs fuel g queue visited network processed).1.1.
Proof.
  induction fuel as [|fuel IH]; intros g queue visited network processed Hinv;
    [exact Hinv |].
  cbn [bfs]. destruct queue as [|[cur depth] rest]; [exact Hinv |].
  assert (H1 : links_inv nodes (modify cur (set_is_on_grid true) g))
    by (apply modify_keeps_links_inv; [apply keeps_links_set_is_on_grid | exact Hinv]).
  destruct (POWER_SEARCH_DEPTH_LIMIT <=? depth); [apply IH; exact H1 |].
  pose proof (foldl_visit_neighbor_links_inv nodes cur depth search_offsets
                (modify cur (set_is_on_grid true) g, rest, visited) H1) as H2.
  destruct (foldl _ _ search_offsets) as [[g2 queue'] visited']. apply IH. exact H2.
Qed.

Lemma discover_links_inv (nodes : list Ref) (acc : Game * list Ref * list (list Ref))
    (seed : Ref) :
  links_inv nodes acc.1.1 -> links_inv nodes (discover acc seed).1.1.
Proof.
  destruct acc as [[g processed] nets]. cbn [fst]. intros Hinv. unfold discover.
  destruct (ref_in seed processed); [exact Hinv |].
  pose proof (bfs_links_inv nodes (bfs_fuel g) g [(seed, 0)] [seed] [] processed Hinv) as H.
  destruct (bfs _ _ _ _ _ _) as [[g' network] processed']. exact H.
Qed.

Lemma foldl_discover_links_inv (nodes seeds : list Ref) :
  forall acc, links_inv nodes acc.1.1 -> links_inv nodes (foldl discover acc seeds).1.1.
Proof.
  induction seeds as [|seed seeds IH]; intros acc Hinv; [exact Hinv |].
  cbn [foldl]. apply IH. apply discover_links_inv. exact Hinv.
Qed.

Lemma power_networks_links_inv (g : Game) : links_inv (power_nodes g) (power_networks g).1.
Proof.
  unfold power_networks.
  set (g1 := foldl (fun g a => modify a reset_node g) g (power_nodes g)).
  set (g2 := foldl (fun g a => modify a reset_consumer g) g1 (power_consumers g)).
  assert (H1 : links_inv (power_nodes g) g1).
  { apply (reset_nodes_links_inv (power_nodes g) [] g). intros a s Ha. inversion Ha. }
  assert (H2 : links_inv (power_nodes g) g2).
  { apply foldl_modify_keeps_links_inv; [apply keeps_links_reset_consumer | exact H1]. }
  pose proof (foldl_discover_links_inv (power_nodes g)
    (List.filter (fun a => match heap g2 !! a with Some n => is_seed n | None => false end)
       (power_nodes g2)) (g2, [], []) H2) as H3.
  destruct (foldl discover _ _) as [[g3 processed] nets]. exact H3.
Qed.

Lemma foldl_links_inv {A} (nodes : list Ref) (step : Game -> A -> Game) :
  (forall g x, links_inv nodes g -> links_inv nodes (step g x)) ->
  forall l g, links_inv nodes g -> links_inv nodes (foldl step g l).
Proof.
  intros Hstep. induction l as [|x l IH]; intros g Hinv; [exact Hinv |].
  cbn [foldl]. apply IH, Hstep, Hinv.
Qed.

Lemma apply_discharge_links_inv (nodes : list Ref) (fraction : Q) (g : Game) (b : Ref) :
  links_inv nodes g -> links_inv nodes (apply_discharge fraction g b).
Proof.
  intros H. unfold apply_discharge.
  destruct (heap g !! b); [| exact H]. destruct (Qltb EPS _); [| exact H].
  apply modify_keeps_links_inv; [apply keeps_links_set_charge | exact H].
Qed.

Lemma apply_charge_links_inv (nodes : list Ref) (fraction : Q) (g : Game) (b : Ref) :
  links_inv nodes g -> links_inv nodes (apply_charge fraction g b).
Proof.
  intros H. unfold apply_charge.
  destruct (heap g !! b); [| exact H]. destruct (Qltb EPS _); [| exact H].
  apply modify_keeps_links_inv; [apply keeps_links_set_charge | exact H].
Qed.

Lemma settle_network_links_inv (nodes : list Ref) (g : Game) (network : list Ref) :
  links_inv nodes g -> links_inv nodes (settle_network g network).
Proof.
  intros Hinv. unfold settle_network.
  destruct (settle_amounts g network) as [actual_charge actual_discharge].
  set (g1 := if is_power_sufficient g network then _ else _).
  assert (H1 : links_inv nodes g1).
  { unfold g1. destruct (is_power_sufficient g network).
    - apply foldl_links_inv; [| exact Hinv]. intros g' [c n] H'.
      destruct (heap g' !! n); [| exact H'].
      apply modify_keeps_links_inv; [| exact H']. intros ?. repeat split.
    - apply foldl_links_inv; [| exact Hinv]. intros g' [c n] H'.
      apply modify_keeps_links_inv; [| exact H']. intros ?. repeat split. }
  clearbody g1.
  set (g2 := if Qltb EPS actual_discharge && _ then _ else g1).
  assert (H2 : links_inv nodes g2).
  { unfold g2. destruct (_ && _); [| exact H1].
    apply foldl_links_inv; [| exact H1]. intros g' b. apply apply_discharge_links_inv. }
  clearbody g2.
  destruct (_ && _); [| exact H2].
  apply foldl_links_inv; [| exact H2]. intros g' b. apply apply_charge_links_inv.
Qed.

Lemma update_power_grid_links_inv (g : Game) :
  is_client g = false -> links_inv (power_nodes g) (update_power_grid g).
Proof.
  intros Hc. unfold update_power_grid. rewrite Hc.
  pose proof (power_networks_links_inv g) as H.
  destruct (power_networks g) as [g3 nets]. cbn [fst] in H.
  revert g3 H. induction nets as [|net nets IH]; intros g3 H; [exact H |].
  cbn [foldl]. apply IH. apply settle_network_links_inv. exact H.
Qed.

Lemma coords_in_within (c c' : Coords) (l : list Coords) :
  coords_in c' l = true -> Forall (within_power_radius c) l -> within_power_radius c c'.
Proof.
  unfold coords_in. rewrite existsb_exists. intros (x & Hin & Heq) Hall.
  rewrite Forall_forall in Hall. specialize (Hall x (proj2 (list_elem_of_In _ _) Hin)).
  unfold coords_eqb in Heq. apply andb_true_iff in Heq as [H1 H2].
  apply Qeq_bool_iff in H1, H2. unfold within_power_radius, distance_sq in *.
  rewrite H1, H2. exact Hall.
Qed.

(** C6 -- after a run of the power update on the authoritative side, two
    power nodes whose centres are further apart than the power radius do
    not list each other's centre among their connected neighbours. *)
Theorem far_nodes_never_linked (g : Game) (a b : Ref) (sa sb : Structure) :
  is_client g = false ->
  a ∈ power_nodes g -> b ∈ power_nodes g ->
  heap (update_power_grid g) !! a = Some sa ->
  heap (update_power_grid g) !! b = Some sb ->
  (POWER_RADIUS * POWER_RADIUS
   < distance_sq (center_x sa) (center_y sa) (center_x sb) (center_y sb))%Q ->
  coords_in (center sb) (connected_nodes_coords sa) = false
  /\ coords_in (center sa) (connected_nodes_coords sb) = false.
Proof.
  intros Hc Ha Hb Hsa Hsb Hfar.
  pose proof (update_power_grid_links_inv g Hc) as Hinv.
  pose proof (Hinv a sa Ha Hsa) as Hla. pose proof (Hinv b sb Hb Hsb) as Hlb.
  split.
  - destruct (coords_in (center sb) (connected_nodes_coords sa)) eqn:E; [| reflexivity].
    pose proof (coords_in_within _ _ _ E Hla) as Hw.
    unfold within_power_radius in Hw. cbn [fst snd center] in Hw. lra.
  - destruct (coords_in (center sa) (connected_nodes_coords sb)) eqn:E; [| reflexivity].
    pose proof (coords_in_within _ _ _ E Hlb) as Hw.
    unfold within_power_radius in Hw. cbn [fst snd center] in Hw.
    rewrite distance_sq_sym in Hw. lra.
Qed.

(** The generator and the second pole of [power_line_world] are eight
    tiles apart: both are on the grid after the update, linked through the
    first pole only. *)
Lemma far_nodes_never_linked_witness :
  exists sa sb,
    heap (update_power_grid power_line_world) !! 1%nat = Some sa
    /\ heap (update_power_grid power_line_world) !! 3%nat = Some sb
    /\ is_on_grid sa = true /\ is_on_grid sb = true
    /\ coords_in (center sb) (connected_nodes_coords sa) = false
    /\ coords_in (center sa) (connected_nodes_coords sb) = false.
Proof.
  eexists. eexists.
  split; [vm_compute; reflexivity |]. split; [vm_compute; reflexivity |].
  split; [reflexivity |]. split; [reflexivity |].
  eapply (far_nodes_never_linked power_line_world 1%nat 3%nat).
  - reflexivity.
  - apply list_elem_of_In. vm_compute. auto.
  - apply list_elem_of_In. vm_compute. auto.
  - vm_compute. reflexivity.
  - vm_compute. reflexivity.
  - vm_compute. reflexivity.
Defined.

(** ** Settlement of the networks *)

(** C3 -- the run of the power update on [contested_world].  The search
    finds two networks, one per generator.  The first generates 30 with no
    battery behind it against a demand of 40 from the four reconstructors
    in its reach: it is insufficient.  The reconstructor at (20, 13),
    reference 3, is attached to it and also to the second network, which
    is settled later, is sufficient and marks it powered.  With the
    generators built in the other order the same reconstructor ends
    unpowered. *)
Lemma shared_consumer_powered_by_later_network :
  let g := contested_world in
  snd (power_networks g) = [[1%nat]; [2%nat]]
  /\ (total_generation_rate (fst (power_networks g)) [1%nat] == 30)%Q
  /\ (max_possible_discharge_rate (fst (power_networks g)) [1%nat] == 0)%Q
  /\ (total_consumption_rate (fst (power_networks g)) [1%nat] == 40)%Q
  /\ is_power_sufficient (fst (power_networks g)) [1%nat] = false
  /\ (3%nat, 1%nat) ∈ consumers_in_network (fst (power_networks g)) [1%nat]
  /\ is_powered <$> heap (update_power_grid g) !! 3%nat = Some true
  /\ is_powered <$> heap (update_power_grid contested_world_reversed) !! 3%nat = Some false.
Proof.
  cbn zeta. split_and!; try (vm_compute; reflexivity).
  apply list_elem_of_In. vm_compute. auto.
Qed.

(** ** The dictionary loops of the snapshot protocol *)

Section SyncDictFacts.

Context {K V D : Type} `{Countable K}.
Variable apply : V -> D -> V.
Variable create : K -> D -> option V.

(** The entry of a received dictionary for a key. *)
Local Notation "'received_at' l k" := ((list_to_map l : gmap K D) !! k) (at level 10, l at level 9, k at level 9, only parsing).

Lemma sync_fold_lookup (l : list (K * D)) :
  NoDup l.*1 ->
  forall (local new_dict : gmap K V) (k : K),
    (foldl (sync_entry apply create) (local, new_dict) l).1 !! k
    = match received_at l k with
      | Some d => (fun v => apply v d) <$> local !! k
      | None => local !! k
      end
    /\ (foldl (sync_entry apply create) (local, new_dict) l).2 !! k
       = match received_at l k with
         | Some d =>
             match local !! k with
             | Some v => Some (apply v d)
             | None => match create k d with Some v => Some v | None => new_dict !! k end
             end
         | None => new_dict !! k
         end.
Proof.
  induction l as [|[k0 d0] l IH]; intros Hnd local new_dict k.
  - cbn. rewrite lookup_empty. split; reflexivity.
  - cbn in Hnd. apply NoDup_cons in Hnd as [Hk0 Hnd].
    assert (Hnone : received_at l k0 = None) by (apply not_elem_of_list_to_map_1; exact Hk0).
    assert (Hstep : sync_entry apply create (local, new_dict) (k0, d0)
                    = match local !! k0 with
                      | Some v => (<[k0 := apply v d0]> local, <[k0 := apply v d0]> new_dict)
                      | None =>
                          match create k0 d0 with
                          | Some v => (local, <[k0 := v]> new_dict)
                          | None => (local, new_dict)
                          end
                      end) by reflexivity.
    cbn [foldl list_to_map foldr]. rewrite Hstep. clear Hstep.
    destruct (decide (k = k0)) as [-> | Hne].
    + rewrite lookup_insert_eq.
      destruct (local !! k0) as [v0|] eqn:Hl0; [| destruct (create k0 d0) as [v0|] eqn:Hc0];
        match goal with
        | |- context [foldl _ (?a, ?b) l] => destruct (IH Hnd a b k0) as [IH1 IH2]
        end; rewrite IH1, IH2, Hnone, ?lookup_insert_eq, ?Hl0; cbn [fst snd]; rewrite ?Hl0, ?Hc0;
        split; reflexivity.
    + rewrite (lookup_insert_ne _ k0 k) by congruence.
      destruct (local !! k0) as [v0|] eqn:Hl0; [| destruct (create k0 d0) as [v0|] eqn:Hc0];
        match goal with
        | |- context [foldl _ (?a, ?b) l] => destruct (IH Hnd a b k) as [IH1 IH2]
        end; rewrite IH1, IH2, ?(lookup_insert_ne _ k0 k) by congruence; cbn [fst snd];
        split; reflexivity.
Qed.

(** What the new dictionary holds for a key: the updated local object or
    a created one, for the keys received, and nothing else. *)
Lemma sync_dict_lookup (local : gmap K V) (l : list (K * D)) (k : K) :
  NoDup l.*1 ->
  sync_dict apply create local l !! k
  = match received_at l k with
    | Some d =>
        match local !! k with
        | Some v => Some (apply v d)
        | None => create k d
        end
    | None => None
    end.
Proof.
  intros Hnd. unfold sync_dict.
  destruct (sync_fold_lookup l Hnd local ∅ k) as [_ H2].
  change (snd ?x) with (x.2). rewrite H2. rewrite lookup_empty.
  destruct (received_at l k) as [d|]; [| reflexivity].
  destruct (local !! k); [reflexivity |]. destruct (create k d); reflexivity.
Qed.

(** Running the loop again on its own result changes nothing, when
    updating an object is idempotent and a created object already carries
    the received state. *)
Lemma sync_dict_idempotent (local : gmap K V) (l : list (K * D)) :
  NoDup l.*1 ->
  (forall v d, apply (apply v d) d = apply v d) ->
  (forall k d v, create k d = Some v -> apply v d = v) ->
  sync_dict apply create (sync_dict apply create local l) l = sync_dict apply create local l.
Proof.
  intros Hnd Hidem Hset. apply map_eq. intros k.
  rewrite (sync_dict_lookup (sync_dict apply create local l) l k Hnd).
  rewrite (sync_dict_lookup local l k Hnd).
  destruct (received_at l k) as [d|]; [| reflexivity].
  destruct (local !! k) as [v|].
  - rewrite Hidem. reflexivity.
  - destruct (create k d) as [v|] eqn:Hc; [| reflexivity].
    rewrite (Hset k d v Hc). reflexivity.
Qed.

End SyncDictFacts.

(** ** The state of one structure *)

Lemma get_or_idem {A} (o : option A) (x : A) : get_or o (get_or o x) = get_or o x.
Proof. destruct o; reflexivity. Qed.

Lemma apply_state_split (s : Structure) (d : StructState.t) :
  apply_state s d
  = match kind s with
    | KResourcePatch _ => s
    | _ =>
        own_state d
          (if negb (get_or (StructState.tier d) (tier s) =? tier s)
              && has_update_stats (common_state d s)
           then update_stats (common_state d s) else common_state d s)
    end.
Proof. unfold apply_state, own_state, common_state. cbv zeta. reflexivity. Qed.

Lemma has_update_stats_common (d : StructState.t) (s : Structure) :
  has_update_stats (common_state d s) = has_update_stats s.
Proof. reflexivity. Qed.

(** Reduction of the setters and projections of a structure, and nothing
    else. *)
Ltac sred :=
  lazy beta iota zeta delta
    [common_state own_state has_update_stats
     set_max_hp set_hp set_destroyed set_is_power_source set_is_power_consumer
     set_power_consumption set_is_on_grid set_is_powered set_power_source_coords
     set_connected_nodes_coords set_tier set_network_id set_kind
     grid_x grid_y max_hp hp destroyed is_power_source is_power_consumer power_consumption
     is_on_grid is_powered power_source_coords connected_nodes_coords tier network_id kind
     building_type kind_type
     Turret.set_angle Turret.set_ammo Turret.fire_timer Turret.ammo Turret.target_id
     Turret.angle Turret.range Turret.range_sq Turret.damage Turret.fire_rate
     Conveyor.orientation Conveyor.item_progress Conveyor.item_type Conveyor.item_count
     Conveyor.transfer_time Conveyor.capacity
     Drill.mining_timer Drill.output_timer Drill.resource_held_count
     Drill.resource_type_held Drill.is_on_patch Drill.speed
     CoalGenerator.coal_buffer CoalGenerator.consume_timer
     Battery.charge Battery.is_charging Battery.is_discharging].

Ltac sred_in H :=
  lazy beta iota zeta delta
    [common_state own_state has_update_stats
     set_max_hp set_hp set_destroyed set_is_power_source set_is_power_consumer
     set_power_consumption set_is_on_grid set_is_powered set_power_source_coords
     set_connected_nodes_coords set_tier set_network_id set_kind
     grid_x grid_y max_hp hp destroyed is_power_source is_power_consumer power_consumption
     is_on_grid is_powered power_source_coords connected_nodes_coords tier network_id kind
     building_type kind_type
     Turret.set_angle Turret.set_ammo Turret.fire_timer Turret.ammo Turret.target_id
     Turret.angle Turret.range Turret.range_sq Turret.damage Turret.fire_rate
     Conveyor.orientation Conveyor.item_progress Conveyor.item_type Conveyor.item_count
     Conveyor.transfer_time Conveyor.capacity
     Drill.mining_timer Drill.output_timer Drill.resource_held_count
     Drill.resource_type_held Drill.is_on_patch Drill.speed
     CoalGenerator.coal_buffer CoalGenerator.consume_timer
     Battery.charge Battery.is_charging Battery.is_discharging] in H.

Ltac destruct_structure s :=
  let k := fresh "k" in
  destruct s as [? ? ? ? ? ? ? ? ? ? ? ? ? ? k];
  destruct k as [|?|[? ? ? ? ? ?]|[? ? ? ? ? ?]|[? ? ? ? ? ? ? ?]| |[? ?]| |[? ? ?]|?].

Lemma own_state_idem (d : StructState.t) (s : Structure) :
  own_state d (own_state d s) = own_state d s.
Proof. destruct_structure s; sred; rewrite ?get_or_idem; reflexivity. Qed.

Lemma common_state_idem (d : StructState.t) (s : Structure) :
  common_state d (common_state d s) = common_state d s.
Proof. destruct s; sred; rewrite ?get_or_idem; reflexivity. Qed.

Lemma common_own_commute (d : StructState.t) (s : Structure) :
  common_state d (own_state d s) = own_state d (common_state d s).
Proof. destruct_structure s; reflexivity. Qed.

(** [common_state] leaves a structure alone when the six fields it sets
    have the values it would give them. *)
Lemma common_state_fixed (d : StructState.t) (s : Structure) :
  get_or (StructState.tier d) (tier s) = tier s ->
  get_or (StructState.hp d) (hp s) = hp s ->
  get_or (StructState.is_powered d) (is_powered s) = is_powered s ->
  get_or (StructState.is_on_grid d) (is_on_grid s) = is_on_grid s ->
  get_or (StructState.connected_nodes_coords d) [] = connected_nodes_coords s ->
  StructState.power_source_coords d = power_source_coords s ->
  common_state d s = s.
Proof.
  destruct s. sred. intros -> -> -> -> -> ->. reflexivity.
Qed.

Lemma update_stats_frame (s : Structure) :
  network_id (update_stats s) = network_id s /\ grid_x (update_stats s) = grid_x s
  /\ grid_y (update_stats s) = grid_y s /\ building_type (update_stats s) = building_type s
  /\ hp (update_stats s) = hp s /\ is_on_grid (update_stats s) = is_on_grid s
  /\ connected_nodes_coords (update_stats s) = connected_nodes_coords s
  /\ power_source_coords (update_stats s) = power_source_coords s.
Proof.
  unfold update_stats, building_type. destruct (kind s) as [| |d|c|t| | | | |] eqn:Hk;
    rewrite ?Hk; try (split_and!; reflexivity).
  - unfold Drill_update_stats. destruct (valid_index _ _); [|rewrite Hk; split_and!; reflexivity].
    destruct (DRILL_STATS !! _) as [[? ?]|]; [|rewrite Hk]; split_and!; reflexivity.
  - unfold Turret_update_stats.
    destruct (valid_index _ _); [destruct (TURRET_STATS !! _) as [[[[? ?] ?] ?]|] |];
      cbn [tier set_kind set_max_hp]; destruct (tier s =? 3); cbn; rewrite ?Hk;
      split_and!; reflexivity.
Qed.

(** [update_stats] touches [is_powered] on turrets below tier 3 only. *)
Lemma update_stats_is_powered (s : Structure) :
  is_powered (update_stats s)
  = match kind s with
    | KTurret _ => if tier s =? 3 then is_powered s else false
    | _ => is_powered s
    end.
Proof.
  unfold update_stats. destruct (kind s) as [| |d|c|t| | | | |] eqn:Hk; try reflexivity.
  - unfold Drill_update_stats. destruct (valid_index _ _); [|reflexivity].
    destruct (DRILL_STATS !! _) as [[? ?]|]; reflexivity.
  - unfold Turret_update_stats.
    destruct (valid_index _ _); [destruct (TURRET_STATS !! _) as [[[[? ?] ?] ?]|] |];
      cbn [tier set_kind set_max_hp]; destruct (tier s =? 3); reflexivity.
Qed.

Lemma own_state_frame (d : StructState.t) (s : Structure) :
  network_id (own_state d s) = network_id s /\ grid_x (own_state d s) = grid_x s
  /\ grid_y (own_state d s) = grid_y s /\ building_type (own_state d s) = building_type s
  /\ tier (own_state d s) = tier s.
Proof. destruct_structure s; split_and!; reflexivity. Qed.

(** [apply_state] keeps the identity of a structure: its id, its tile
    and its type. *)
Lemma apply_state_frame (s : Structure) (d : StructState.t) :
  network_id (apply_state s d) = network_id s /\ grid_x (apply_state s d) = grid_x s
  /\ grid_y (apply_state s d) = grid_y s
  /\ building_type (apply_state s d) = building_type s.
Proof.
  rewrite apply_state_split.
  assert (H : forall x, network_id x = network_id s -> grid_x x = grid_x s ->
                        grid_y x = grid_y s -> building_type x = building_type s ->
            network_id (own_state d x) = network_id s /\ grid_x (own_state d x) = grid_x s
            /\ grid_y (own_state d x) = grid_y s
            /\ building_type (own_state d x) = building_type s).
  { intros x H1 H2 H3 H4. destruct (own_state_frame d x) as (E1 & E2 & E3 & E4 & _).
    rewrite E1, E2, E3, E4. auto. }
  assert (Hc : network_id (common_state d s) = network_id s
               /\ grid_x (common_state d s) = grid_x s
               /\ grid_y (common_state d s) = grid_y s
               /\ building_type (common_state d s) = building_type s)
    by (split_and!; reflexivity).
  destruct Hc as (C1 & C2 & C3 & C4).
  assert (Hu : network_id (update_stats (common_state d s)) = network_id s
               /\ grid_x (update_stats (common_state d s)) = grid_x s
               /\ grid_y (update_stats (common_state d s)) = grid_y s
               /\ building_type (update_stats (common_state d s)) = building_type s).
  { destruct (update_stats_frame (common_state d s)) as (E1 & E2 & E3 & E4 & _).
    rewrite E1, E2, E3, E4. auto. }
  destruct Hu as (U1 & U2 & U3 & U4).
  destruct (kind s) eqn:Hk; try (split_and!; reflexivity);
    destruct (negb _ && _); apply H; assumption.
Qed.

Lemma apply_state_tier (s : Structure) (d : StructState.t) :
  building_type s <> BUILDING_RESOURCE ->
  tier (apply_state s d) = get_or (StructState.tier d) (tier s).
Proof.
  intros Hk. rewrite apply_state_split.
  assert (H : tier (own_state d
          (if negb (get_or (StructState.tier d) (tier s) =? tier s)
              && has_update_stats (common_state d s)
           then update_stats (common_state d s) else common_state d s))
          = get_or (StructState.tier d) (tier s)).
  { destruct (own_state_frame d
          (if negb (get_or (StructState.tier d) (tier s) =? tier s)
              && has_update_stats (common_state d s)
           then update_stats (common_state d s) else common_state d s)) as (_ & _ & _ & _ & ->).
    destruct (negb _ && _); [rewrite update_stats_tier |]; reflexivity. }
  unfold building_type in Hk.
  destruct (kind s); try exact H. exfalso. apply Hk. reflexivity.
Qed.

(** [apply_state] is idempotent, the power reset of a turret apart. *)
Lemma apply_state_idem (s : Structure) (d : StructState.t) :
  resets_power s d = false -> apply_state (apply_state s d) d = apply_state s d.
Proof.
  intros Hr.
  destruct (decide (building_type s = BUILDING_RESOURCE)) as [Hp | Hp].
  { unfold building_type in Hp. rewrite (apply_state_split s d).
    destruct (kind s) eqn:Hk; try discriminate Hp.
    rewrite apply_state_split, Hk. reflexivity. }
  assert (Hbt : building_type (apply_state s d) = building_type s)
    by apply apply_state_frame.
  assert (Ht : tier (apply_state s d) = get_or (StructState.tier d) (tier s))
    by (apply apply_state_tier; exact Hp).
  rewrite (apply_state_split (apply_state s d) d).
  rewrite Ht, get_or_idem, Z.eqb_refl. cbn [negb andb].
  set (x := if negb (get_or (StructState.tier d) (tier s) =? tier s)
               && has_update_stats (common_state d s)
            then update_stats (common_state d s) else common_state d s).
  assert (Hsplit : apply_state s d = own_state d x).
  { rewrite apply_state_split. unfold building_type in Hp.
    destruct (kind s); try reflexivity. exfalso. apply Hp. reflexivity. }
  assert (Hx : common_state d x = x).
  { subst x. destruct (negb _ && _) eqn:Hchg.
    - apply andb_true_iff in Hchg as [Hchg Hus].
      destruct (update_stats_frame (common_state d s)) as (_ & _ & _ & _ & E5 & E6 & E7 & E8).
      apply common_state_fixed.
      + rewrite update_stats_tier. cbn [tier common_state set_power_source_coords
          set_connected_nodes_coords set_is_on_grid set_is_powered set_hp set_tier].
        apply get_or_idem.
      + rewrite E5. sred. apply get_or_idem.
      + rewrite update_stats_is_powered.
        change (kind (common_state d s)) with (kind s).
        change (tier (common_state d s)) with (get_or (StructState.tier d) (tier s)).
        change (is_powered (common_state d s))
          with (get_or (StructState.is_powered d) (is_powered s)).
        unfold resets_power in Hr.
        destruct (kind s); try apply get_or_idem.
        destruct (get_or (StructState.tier d) (tier s) =? 3) eqn:H3; [apply get_or_idem |].
        destruct (StructState.tier d) as [nt|]; cbn [get_or] in *.
        * destruct (StructState.is_powered d) as [[|]|]; try reflexivity.
          rewrite H3 in Hr. rewrite andb_true_r in Hr. rewrite Hr in Hchg. discriminate.
        * rewrite Z.eqb_refl in Hchg. discriminate.
      + rewrite E6. sred. apply get_or_idem.
      + rewrite E7. reflexivity.
      + rewrite E8. reflexivity.
    - apply common_state_idem. }
  assert (Hgoal : own_state d (common_state d (apply_state s d)) = apply_state s d).
  { rewrite Hsplit, common_own_commute, Hx. apply own_state_idem. }
  destruct (kind (apply_state s d)) eqn:Hk; try exact Hgoal.
  reflexivity.
Qed.

(** ** The structures loop *)

Lemma construct_frame (cls : BuildingClass) (gx gy : Z) (o : option Z) (r : Q) :
  grid_x (construct cls gx gy o r) = gx /\ grid_y (construct cls gx gy o r) = gy
  /\ tier (construct cls gx gy o r) = 1.
Proof. destruct cls; split_and!; reflexivity. Qed.

Lemma building_info_class (t : Z) (c : Cost) (cls : BuildingClass) (gx gy : Z)
    (o : option Z) (r : Q) :
  building_info t = Some (c, cls) -> building_type (construct cls gx gy o r) = t.
Proof.
  unfold building_info.
  repeat (destruct (t =? _) eqn:E;
          [apply Z.eqb_eq in E; subst t; intros [= <- <-]; reflexivity | clear E]).
  discriminate.
Qed.

Lemma creatable_Some (d : StructState.t) (cls : BuildingClass) (gx gy : Z) :
  creatable d = Some (cls, gx, gy) ->
  exists t c, StructState.type_ d = Some t /\ building_info t = Some (c, cls)
              /\ StructState.gx d = Some gx /\ StructState.gy d = Some gy.
Proof.
  unfold creatable. destruct (StructState.type_ d) as [t|]; [|discriminate]. cbn.
  destruct (building_info t) as [[c cls']|] eqn:Hb; [|discriminate].
  destruct (StructState.gx d); [|discriminate]. destruct (StructState.gy d); [|discriminate].
  intros [= <- <- <-]. eauto 10.
Qed.

Lemma new_struct_frame (draw : string -> Q) (sid : string) (d : StructState.t)
    (cls : BuildingClass) (gx gy : Z) :
  creatable d = Some (cls, gx, gy) ->
  network_id (new_struct draw sid d cls gx gy) = sid
  /\ StructState.gx d = Some (grid_x (new_struct draw sid d cls gx gy))
  /\ StructState.gy d = Some (grid_y (new_struct draw sid d cls gx gy))
  /\ StructState.type_ d = Some (building_type (new_struct draw sid d cls gx gy)).
Proof.
  intros Hc. apply creatable_Some in Hc as (t & c & Ht & Hb & Hx & Hy).
  unfold new_struct.
  match goal with |- context [apply_state ?s d] =>
    destruct (apply_state_frame s d) as (E1 & E2 & E3 & E4); rewrite E1, E2, E3, E4;
    destruct (construct_frame cls gx gy
                (if bool_decide (StructState.type_ d = Some BUILDING_CONVEYOR)
                 then Some (get_or (StructState.orientation d) EAST) else None)
                (draw sid)) as (C1 & C2 & C3)
  end.
  split_and!.
  - reflexivity.
  - rewrite Hx. f_equal. symmetry. exact C1.
  - rewrite Hy. f_equal. symmetry. exact C2.
  - rewrite Ht. f_equal. symmetry. exact (building_info_class t c cls gx gy _ _ Hb).
Qed.

Lemma sync_structure_core (draw : string -> Q) (R : gmap string Ref) (g : Game)
    (nd : gmap string Ref) (ce : option (string * StructState.t)) (sid : string)
    (d : StructState.t) :
  is_core_entry d = true ->
  sync_structure draw R (g, nd, ce) (sid, d) = (g, nd, Some (sid, d)).
Proof. unfold is_core_entry, sync_structure. intros ->. reflexivity. Qed.

Lemma sync_structure_existing (draw : string -> Q) (R : gmap string Ref) (g : Game)
    (nd : gmap string Ref) (ce : option (string * StructState.t)) (sid : string)
    (d : StructState.t) (a : Ref) (s : Structure) :
  is_core_entry d = false -> R !! sid = Some a -> heap g !! a = Some s ->
  sync_structure draw R (g, nd, ce) (sid, d)
  = (place_on_grid (modify a (fun s => apply_state s d) g) (grid_x s) (grid_y s) a,
     <[sid := a]> nd, ce).
Proof. unfold is_core_entry, sync_structure. intros -> -> ->. reflexivity. Qed.

Lemma sync_structure_new (draw : string -> Q) (R : gmap string Ref) (g : Game)
    (nd : gmap string Ref) (ce : option (string * StructState.t)) (sid : string)
    (d : StructState.t) (cls : BuildingClass) (gx gy : Z) :
  is_core_entry d = false -> R !! sid = None -> creatable d = Some (cls, gx, gy) ->
  sync_structure draw R (g, nd, ce) (sid, d)
  = (place_on_grid (alloc (new_struct draw sid d cls gx gy) g).1 gx gy (length (heap g)),
     <[sid := length (heap g)]> nd, ce).
Proof.
  unfold is_core_entry, sync_structure, creatable, new_struct. intros -> -> Hc.
  destruct (StructState.type_ d ≫= building_info) as [[c cls']|]; [|discriminate].
  destruct (StructState.gx d); [|discriminate]. destruct (StructState.gy d); [|discriminate].
  injection Hc as -> -> ->. reflexivity.
Qed.

Lemma sync_structure_skip (draw : string -> Q) (R : gmap string Ref) (g : Game)
    (nd : gmap string Ref) (ce : option (string * StructState.t)) (sid : string)
    (d : StructState.t) :
  is_core_entry d = false -> R !! sid = None -> creatable d = None ->
  sync_structure draw R (g, nd, ce) (sid, d) = (g, nd, ce).
Proof.
  unfold is_core_entry, sync_structure, creatable. intros -> -> Hc.
  destruct (StructState.type_ d ≫= building_info) as [[c cls']|]; [|reflexivity].
  destruct (StructState.gx d); [|reflexivity]. destruct (StructState.gy d); [|reflexivity].
  discriminate.
Qed.

Lemma no_power_reset (s : Structure) (d : StructState.t) :
  StructState.type_ d = Some (building_type s) ->
  (StructState.type_ d = Some BUILDING_TURRET -> StructState.is_powered d = Some true ->
   StructState.tier d = Some 3 \/ StructState.tier d = None) ->
  resets_power s d = false.
Proof.
  intros Ht Hp. unfold resets_power. unfold building_type in Ht.
  destruct (kind s); try reflexivity.
  destruct (StructState.tier d) as [nt|]; [|reflexivity].
  destruct (StructState.is_powered d) as [[|]|]; try reflexivity.
  destruct (Hp Ht eq_refl) as [[= ->] | [=]]. apply andb_false_r.
Qed.

Lemma frame_heap_grid_base (g : Game) : g = with_grid (grid g) (with_heap (heap g) g).
Proof. destruct g; reflexivity. Qed.

Lemma frame_heap_grid_with_heap (g g1 : Game) (h : list Structure) :
  g1 = with_grid (grid g1) (with_heap (heap g1) g) ->
  with_heap h g1 = with_grid (grid (with_heap h g1)) (with_heap (heap (with_heap h g1)) g).
Proof. intros E. rewrite E. reflexivity. Qed.

Lemma frame_heap_grid_with_grid (g g1 : Game) (gr : gmap (Z * Z) Cell) :
  g1 = with_grid (grid g1) (with_heap (heap g1) g) ->
  with_grid gr g1 = with_grid (grid (with_grid gr g1)) (with_heap (heap (with_grid gr g1)) g).
Proof. intros E. rewrite E. reflexivity. Qed.

Lemma frame_heap_grid_in_bounds (g g1 : Game) (gx gy : Z) :
  g1 = with_grid (grid g1) (with_heap (heap g1) g) -> in_bounds g1 gx gy = in_bounds g gx gy.
Proof. intros E. rewrite E. reflexivity. Qed.

Lemma modify_Some (g : Game) (a : Ref) (f : Structure -> Structure) (s : Structure) :
  heap g !! a = Some s -> modify a f g = with_heap (<[a := f s]> (heap g)) g.
Proof. unfold modify. intros ->. reflexivity. Qed.

Lemma heap_with_heap (h : list Structure) (g : Game) : heap (with_heap h g) = h.
Proof. reflexivity. Qed.

Lemma grid_with_heap (h : list Structure) (g : Game) : grid (with_heap h g) = grid g.
Proof. reflexivity. Qed.

Lemma place_on_grid_heap (g : Game) (gx gy : Z) (a : Ref) :
  heap (place_on_grid g gx gy a) = heap g.
Proof. unfold place_on_grid. destruct (in_bounds g gx gy); reflexivity. Qed.

Lemma place_on_grid_grid (g : Game) (gx gy : Z) (a : Ref) :
  grid (place_on_grid g gx gy a)
  = if in_bounds g gx gy then <[(gx, gy) := CellObj a]> (grid g) else grid g.
Proof. unfold place_on_grid. destruct (in_bounds g gx gy); reflexivity. Qed.

Lemma frame_heap_grid_place (g g1 : Game) (gx gy : Z) (a : Ref) :
  g1 = with_grid (grid g1) (with_heap (heap g1) g) ->
  place_on_grid g1 gx gy a
  = with_grid (grid (place_on_grid g1 gx gy a)) (with_heap (heap (place_on_grid g1 gx gy a)) g).
Proof.
  intros E. unfold place_on_grid. destruct (in_bounds g1 gx gy); [|exact E].
  apply frame_heap_grid_with_grid. exact E.
Qed.

Lemma apply_writes_snoc (w : list (Z * Z * Ref)) (k : Z * Z) (a : Ref)
    (gr : gmap (Z * Z) Cell) :
  apply_writes (w ++ [(k, a)]) gr = <[k := CellObj a]> (apply_writes w gr).
Proof. unfold apply_writes. rewrite foldl_app. reflexivity. Qed.

Lemma writes_of_ext (g : Game) (nd nd' : gmap string Ref) (h h' : list Structure)
    (l : list (string * StructState.t)) :
  (forall e, e ∈ l -> entry_write g nd h e = entry_write g nd' h' e) ->
  writes_of g nd h l = writes_of g nd' h' l.
Proof.
  unfold writes_of. induction l as [|e l IH]; intros H; [reflexivity|].
  cbn [omap list_omap]. rewrite (H e) by (left). rewrite IH; [reflexivity|].
  intros e' He'. apply H. right. exact He'.
Qed.

Lemma writes_of_snoc (g : Game) (nd : gmap string Ref) (h : list Structure)
    (l : list (string * StructState.t)) (e : string * StructState.t) :
  writes_of g nd h (l ++ [e])
  = writes_of g nd h l ++ match entry_write g nd h e with Some w => [w] | None => [] end.
Proof.
  unfold writes_of. rewrite omap_app. cbn [omap list_omap].
  destruct (entry_write g nd h e); reflexivity.
Qed.

(** The first reading of the loop: from a consistent registry, over a
    dictionary of entries that agree with the local types. *)
Lemma structures_loop_inv (draw : string -> Q) (g : Game)
    (done : list (string * StructState.t)) :
  registry_ok g -> NoDup done.*1 ->
  (forall sid d a s, (sid, d) ∈ done -> structures g !! sid = Some a ->
     heap g !! a = Some s -> StructState.type_ d = Some (building_type s)) ->
  (forall sid d, (sid, d) ∈ done -> StructState.type_ d = Some BUILDING_TURRET ->
     StructState.is_powered d = Some true ->
     StructState.tier d = Some 3 \/ StructState.tier d = None) ->
  loop_inv g done
    (foldl (sync_structure draw (structures g)) (g, ∅, None) done).1.1
    (foldl (sync_structure draw (structures g)) (g, ∅, None) done).1.2.
Proof.
  intros Hreg. induction done as [|[sid d] done IH] using rev_ind; intros Hnd Hty Hpw.
  { cbn. unfold loop_inv. split_and!.
    - apply frame_heap_grid_base.
    - lia.
    - reflexivity.
    - intros sid a H. rewrite lookup_empty in H. discriminate.
    - intros sid d H. apply elem_of_nil in H. destruct H.
    - reflexivity. }
  rewrite fmap_app in Hnd. apply NoDup_app in Hnd as (Hnd & Hfresh & _).
  assert (Hsid : sid ∉ done.*1).
  { intros Hin. apply (Hfresh sid Hin). cbn. left. }
  specialize (IH Hnd).
  assert (IH' : loop_inv g done
            (foldl (sync_structure draw (structures g)) (g, ∅, None) done).1.1
            (foldl (sync_structure draw (structures g)) (g, ∅, None) done).1.2).
  { apply IH.
    - intros sid' d' a s Hin. apply Hty. apply elem_of_app. left. exact Hin.
    - intros sid' d' Hin. apply (Hpw sid' d'). apply elem_of_app. left. exact Hin. }
  clear IH. rewrite foldl_app. cbn [foldl].
  destruct (foldl (sync_structure draw (structures g)) (g, ∅, None) done) as [[g1 nd] ce].
  cbn [fst snd] in IH'. destruct IH' as (I1 & I2 & I3 & I4 & I5 & I6).
  assert (Hkeys : forall sid' a', nd !! sid' = Some a' -> sid' ∈ done.*1).
  { intros sid' a' H. destruct (I4 sid' a' H) as (d' & s' & Hin & _).
    exact (list_elem_of_fmap_2 fst _ _ Hin). }
  assert (Hnone : nd !! sid = None).
  { destruct (nd !! sid) as [a'|] eqn:E; [|reflexivity]. destruct Hsid. eapply Hkeys, E. }
  assert (Hdone : forall sid' d', (sid', d') ∈ done -> sid' <> sid).
  { intros sid' d' Hin ->. apply Hsid. exact (list_elem_of_fmap_2 fst _ _ Hin). }
  destruct (is_core_entry d) eqn:Hcore.
  { (* the core's entry is set aside *)
    rewrite sync_structure_core by exact Hcore. cbn [fst snd]. unfold loop_inv. split_and!.
    - exact I1.
    - exact I2.
    - intros a Ha Hun. apply I3; [exact Ha|]. intros sid' d' Hin. apply Hun.
      apply elem_of_app. left. exact Hin.
    - intros sid' a' H. destruct (I4 sid' a' H) as (d' & s' & Hin & Hrest).
      exists d', s'. split; [apply elem_of_app; left; exact Hin | exact Hrest].
    - intros sid' d' Hin Hc. apply elem_of_app in Hin as [Hin | Hin]; [apply I5; assumption|].
      apply list_elem_of_singleton in Hin. injection Hin as -> ->. congruence.
    - rewrite writes_of_snoc. unfold entry_write. cbn [snd].
      unfold is_core_entry in Hcore. rewrite Hcore. rewrite app_nil_r. exact I6. }
  destruct (structures g !! sid) as [a|] eqn:HR.
  { (* a registered id: the object is updated in place *)
    destruct (Hreg sid a HR) as (s0 & Hs0 & Hid0).
    assert (Ha : (a < length (heap g))%nat) by (eapply lookup_lt_Some, Hs0).
    assert (Hs1 : heap g1 !! a = Some s0).
    { rewrite I3; [exact Hs0 | exact Ha |]. intros sid' d' Hin Hc HR'.
      destruct (Hreg sid' a HR') as (s0' & Hs0' & Hid0'). rewrite Hs0 in Hs0'.
      injection Hs0' as <-. apply (Hdone sid' d' Hin). congruence. }
    rewrite (sync_structure_existing draw _ g1 nd ce sid d a s0 Hcore HR Hs1).
    cbn [fst snd]. rewrite (modify_Some g1 a _ s0 Hs1).
    set (s1 := apply_state s0 d).
    assert (Hty0 : StructState.type_ d = Some (building_type s0)).
    { eapply Hty; [|exact HR|exact Hs0]. apply elem_of_app. right. left. }
    assert (Hother : forall sid' a', nd !! sid' = Some a' -> a' <> a).
    { intros sid' a' H ->. destruct (I4 sid' a H) as (d' & s' & Hin & _ & Hs' & Hid' & _).
      rewrite Hs1 in Hs'. injection Hs' as <-. apply (Hdone sid' d' Hin). congruence. }
    assert (Hb : forall x y, in_bounds (with_heap (<[a:=s1]> (heap g1)) g1) x y
                             = in_bounds g x y).
    { intros x y. apply frame_heap_grid_in_bounds, frame_heap_grid_with_heap. exact I1. }
    unfold loop_inv.
    split_and!;
      [ apply frame_heap_grid_place, frame_heap_grid_with_heap; exact I1
      | rewrite ?place_on_grid_heap, ?place_on_grid_grid, ?heap_with_heap,
          ?grid_with_heap, ?Hb .. ].
    - rewrite length_insert. exact I2.
    - intros a' Ha' Hun. rewrite list_lookup_insert_ne.
      + apply I3; [exact Ha'|]. intros sid' d' Hin. apply Hun. apply elem_of_app. left. exact Hin.
      + intros <-. eapply Hun; [|exact Hcore|exact HR]. apply elem_of_app. right. left.
    - intros sid' a' H. destruct (decide (sid' = sid)) as [-> | Hne].
      + rewrite lookup_insert_eq in H. injection H as <-.
        exists d, s1. split_and!.
        * apply elem_of_app. right. left.
        * exact Hcore.
        * apply list_lookup_insert_eq. eapply lookup_lt_Some, Hs1.
        * subst s1. destruct (apply_state_frame s0 d) as (-> & _). exact Hid0.
        * subst s1. apply apply_state_idem. apply no_power_reset; [exact Hty0|].
          apply (Hpw sid d). apply elem_of_app. right. left.
        * subst s1. destruct (apply_state_frame s0 d) as (_ & _ & _ & ->). exact Hty0.
        * left. exact HR.
      + rewrite lookup_insert_ne in H by congruence.
        destruct (I4 sid' a' H) as (d' & s' & Hin & Hc' & Hs' & Hrest).
        exists d', s'. split; [apply elem_of_app; left; exact Hin|].
        split; [exact Hc'|]. split; [|exact Hrest].
        rewrite list_lookup_insert_ne; [exact Hs'|]. intros <-. exact (Hother sid' a H eq_refl).
    - intros sid' d' Hin Hc Hno. destruct (decide (sid' = sid)) as [-> | Hne].
      + rewrite lookup_insert_eq in Hno. discriminate.
      + rewrite lookup_insert_ne in Hno by congruence.
        apply elem_of_app in Hin as [Hin | Hin]; [apply (I5 sid' d'); assumption|].
        apply list_elem_of_singleton in Hin. congruence.
    - rewrite writes_of_snoc.
      rewrite (writes_of_ext g (<[sid:=a]> nd) nd (<[a:=s1]> (heap g1)) (heap g1) done).
      + unfold entry_write. cbn [fst snd]. unfold is_core_entry in Hcore.
        rewrite Hcore, lookup_insert_eq. cbn.
        rewrite list_lookup_insert_eq by (eapply lookup_lt_Some, Hs1). cbn.
        subst s1. destruct (apply_state_frame s0 d) as (_ & -> & -> & _).
        destruct (in_bounds g (grid_x s0) (grid_y s0)).
        * rewrite apply_writes_snoc, I6. reflexivity.
        * rewrite app_nil_r. exact I6.
      + intros [sid' d'] Hin. unfold entry_write. cbn [fst snd].
        destruct (bool_decide _); [reflexivity|].
        rewrite lookup_insert_ne by (intros <-; exact (Hdone sid d' Hin eq_refl)).
        destruct (nd !! sid') as [a'|] eqn:Hnd'; [|reflexivity]. cbn.
        rewrite list_lookup_insert_ne; [reflexivity|].
        intros <-. exact (Hother sid' a Hnd' eq_refl). }
  destruct (creatable d) as [[[cls gx] gy]|] eqn:Hcr.
  { (* an unknown id with what it takes: a new object *)
    rewrite (sync_structure_new draw _ g1 nd ce sid d cls gx gy Hcore HR Hcr).
    cbn [fst snd alloc].
    destruct (new_struct_frame draw sid d cls gx gy Hcr) as (N1 & N2 & N3 & N4).
    assert (N5 : apply_state (new_struct draw sid d cls gx gy) d
                 = new_struct draw sid d cls gx gy).
    { unfold new_struct. apply apply_state_idem. apply no_power_reset.
      - pose proof N4 as N4'. unfold new_struct in N4'.
        match type of N4' with context [apply_state ?x d] =>
          destruct (apply_state_frame x d) as (_ & _ & _ & E); rewrite E in N4' end.
        exact N4'.
      - apply (Hpw sid d). apply elem_of_app. right. left. }
    assert (N6 : gx = grid_x (new_struct draw sid d cls gx gy)
                 /\ gy = grid_y (new_struct draw sid d cls gx gy)).
    { apply creatable_Some in Hcr as (t & c & _ & _ & Hx & Hy).
      rewrite Hx in N2. rewrite Hy in N3. split; congruence. }
    destruct N6 as [N6 N7].
    set (s1 := new_struct draw sid d cls gx gy) in *.
    assert (Hvalid : forall sid' a', nd !! sid' = Some a' -> (a' < length (heap g1))%nat).
    { intros sid' a' H. destruct (I4 sid' a' H) as (d' & s' & _ & _ & Hs' & _).
      eapply lookup_lt_Some, Hs'. }
    assert (Hb : forall x y, in_bounds (with_heap (heap g1 ++ [s1]) g1) x y
                             = in_bounds g x y).
    { intros x y. apply frame_heap_grid_in_bounds, frame_heap_grid_with_heap. exact I1. }
    unfold loop_inv.
    split_and!;
      [ apply frame_heap_grid_place, frame_heap_grid_with_heap; exact I1
      | rewrite ?place_on_grid_heap, ?place_on_grid_grid, ?heap_with_heap,
          ?grid_with_heap, ?Hb .. ].
    - rewrite length_app. lia.
    - intros a' Ha' Hun. rewrite lookup_app_l by lia.
      apply I3; [exact Ha'|]. intros sid' d' Hin. apply Hun. apply elem_of_app. left. exact Hin.
    - intros sid' a' H. destruct (decide (sid' = sid)) as [-> | Hne].
      + rewrite lookup_insert_eq in H. injection H as <-.
        exists d, s1. split_and!.
        * apply elem_of_app. right. left.
        * exact Hcore.
        * rewrite lookup_app_r by lia. rewrite Nat.sub_diag. reflexivity.
        * exact N1.
        * exact N5.
        * exact N4.
        * right. split_and!; [exact HR | exact N2 | exact N3].
      + rewrite lookup_insert_ne in H by congruence.
        destruct (I4 sid' a' H) as (d' & s' & Hin & Hc' & Hs' & Hrest).
        exists d', s'. split; [apply elem_of_app; left; exact Hin|].
        split; [exact Hc'|]. split; [|exact Hrest].
        rewrite lookup_app_l; [exact Hs'|]. eapply lookup_lt_Some, Hs'.
    - intros sid' d' Hin Hc Hno. destruct (decide (sid' = sid)) as [-> | Hne].
      + rewrite lookup_insert_eq in Hno. discriminate.
      + rewrite lookup_insert_ne in Hno by congruence.
        apply elem_of_app in Hin as [Hin | Hin]; [apply (I5 sid' d'); assumption|].
        apply list_elem_of_singleton in Hin. congruence.
    - rewrite writes_of_snoc.
      rewrite (writes_of_ext g (<[sid:=length (heap g1)]> nd) nd (heap g1 ++ [s1]) (heap g1) done).
      + unfold entry_write. cbn [fst snd]. unfold is_core_entry in Hcore.
        rewrite Hcore, lookup_insert_eq. cbn.
        rewrite lookup_app_r by lia. rewrite Nat.sub_diag. cbn.
        rewrite <- N6, <- N7.
        destruct (in_bounds g gx gy).
        * rewrite apply_writes_snoc, I6. reflexivity.
        * rewrite app_nil_r. exact I6.
      + intros [sid' d'] Hin. unfold entry_write. cbn [fst snd].
        destruct (bool_decide _); [reflexivity|].
        rewrite lookup_insert_ne by (intros <-; exact (Hdone sid d' Hin eq_refl)).
        destruct (nd !! sid') as [a'|] eqn:Hnd'; [|reflexivity]. cbn.
        rewrite lookup_app_l by (eapply Hvalid, Hnd'). reflexivity. }
  (* an unknown id that cannot be created: skipped *)
  rewrite (sync_structure_skip draw _ g1 nd ce sid d Hcore HR Hcr). cbn [fst snd].
  unfold loop_inv. split_and!.
  - exact I1.
  - exact I2.
  - intros a Ha Hun. apply I3; [exact Ha|]. intros sid' d' Hin. apply Hun.
    apply elem_of_app. left. exact Hin.
  - intros sid' a' H. destruct (I4 sid' a' H) as (d' & s' & Hin & Hrest).
    exists d', s'. split; [apply elem_of_app; left; exact Hin | exact Hrest].
  - intros sid' d' Hin Hc Hno. apply elem_of_app in Hin as [Hin | Hin]; [apply I5; assumption|].
    apply list_elem_of_singleton in Hin. injection Hin as -> ->. split; assumption.
  - rewrite writes_of_snoc. unfold entry_write. cbn [fst snd].
    unfold is_core_entry in Hcore. rewrite Hcore, Hnone. cbn. rewrite app_nil_r. exact I6.
Qed.

(** *** The core entry *)

Lemma sync_structure_core_entry (draw : string -> Q) (R : gmap string Ref) (g : Game)
    (nd : gmap string Ref) (ce : option (string * StructState.t)) (sid : string)
    (d : StructState.t) :
  (sync_structure draw R (g, nd, ce) (sid, d)).2
  = if is_core_entry d then Some (sid, d) else ce.
Proof.
  destruct (is_core_entry d) eqn:Hc.
  - rewrite sync_structure_core by exact Hc. reflexivity.
  - destruct (R !! sid) as [a|] eqn:HR.
    + destruct (heap g !! a) as [s|] eqn:Hs.
      * rewrite (sync_structure_existing draw R g nd ce sid d a s Hc HR Hs). reflexivity.
      * unfold sync_structure. unfold is_core_entry in Hc. rewrite Hc, HR, Hs. reflexivity.
    + destruct (creatable d) as [[[cls gx] gy]|] eqn:Hcr.
      * rewrite (sync_structure_new draw R g nd ce sid d cls gx gy Hc HR Hcr). reflexivity.
      * rewrite (sync_structure_skip draw R g nd ce sid d Hc HR Hcr). reflexivity.
Qed.

Lemma last_core_entry_snoc (l : list (string * StructState.t)) (e : string * StructState.t) :
  last_core_entry (l ++ [e]) = if is_core_entry e.2 then Some e else last_core_entry l.
Proof.
  unfold last_core_entry, is_core_entry. rewrite List.filter_app. cbn [List.filter].
  destruct (bool_decide _).
  - apply last_snoc.
  - rewrite app_nil_r. reflexivity.
Qed.

Lemma loop_core_entry (draw : string -> Q) (R : gmap string Ref) (g : Game)
    (l : list (string * StructState.t)) :
  (foldl (sync_structure draw R) (g, ∅, None) l).2 = last_core_entry l.
Proof.
  induction l as [|[sid d] l IH] using rev_ind; [reflexivity|].
  rewrite foldl_app. cbn [foldl].
  destruct (foldl (sync_structure draw R) (g, ∅, None) l) as [[g1 nd] ce].
  rewrite sync_structure_core_entry, last_core_entry_snoc. cbn [snd] in *.
  rewrite IH. reflexivity.
Qed.

Lemma last_core_entry_Some (l : list (string * StructState.t)) (cid : string)
    (cd : StructState.t) :
  last_core_entry l = Some (cid, cd) -> (cid, cd) ∈ l /\ is_core_entry cd = true.
Proof.
  induction l as [|e l IH] using rev_ind; [discriminate|].
  rewrite last_core_entry_snoc. destruct (is_core_entry e.2) eqn:Hc.
  - intros [= ->]. split; [apply elem_of_app; right; left | exact Hc].
  - intros H. destruct (IH H) as [Hin Hcd]. split; [apply elem_of_app; left; exact Hin | exact Hcd].
Qed.

Lemma last_core_entry_None (l : list (string * StructState.t)) (sid : string)
    (d : StructState.t) :
  last_core_entry l = None -> (sid, d) ∈ l -> is_core_entry d = false.
Proof.
  induction l as [|e l IH] using rev_ind; [intros _ H; apply elem_of_nil in H; destruct H|].
  rewrite last_core_entry_snoc. destruct (is_core_entry e.2) eqn:Hc; [discriminate|].
  intros H Hin. apply elem_of_app in Hin as [Hin | Hin]; [apply IH; assumption|].
  apply list_elem_of_singleton in Hin. subst e. exact Hc.
Qed.

(** Two entries of a dictionary under one key are one entry. *)
Lemma NoDup_fst_eq {A B} (l : list (A * B)) (k : A) (x y : B) :
  NoDup l.*1 -> (k, x) ∈ l -> (k, y) ∈ l -> x = y.
Proof.
  intros Hnd Hx Hy. induction l as [|[k' z] l IH]; [apply elem_of_nil in Hx; destruct Hx|].
  cbn in Hnd. apply NoDup_cons in Hnd as [Hk Hnd].
  apply elem_of_cons in Hx as [Hx | Hx]; apply elem_of_cons in Hy as [Hy | Hy].
  - congruence.
  - injection Hx as -> ->. destruct Hk. exact (list_elem_of_fmap_2 fst _ _ Hy).
  - injection Hy as -> ->. destruct Hk. exact (list_elem_of_fmap_2 fst _ _ Hx).
  - apply IH; assumption.
Qed.

(** *** Grid writes *)

Lemma apply_writes_lookup (w : list (Z * Z * Ref)) (gr : gmap (Z * Z) Cell) (k : Z * Z) :
  apply_writes w gr !! k
  = match (list_to_map (reverse w) : gmap (Z * Z) Ref) !! k with
    | Some a => Some (CellObj a)
    | None => gr !! k
    end.
Proof.
  induction w as [|[k0 a0] w IH] using rev_ind; [reflexivity|].
  rewrite apply_writes_snoc, reverse_app. cbn [reverse rev_append app list_to_map foldr].
  change (rev_append [(k0, a0)] []) with [(k0, a0)]. cbn [app list_to_map foldr fst snd].
  destruct (decide (k = k0)) as [-> | Hne].
  - rewrite !lookup_insert_eq. reflexivity.
  - rewrite !lookup_insert_ne by congruence. exact IH.
Qed.

Lemma last_write_elem (w : list (Z * Z * Ref)) (k : Z * Z) (a : Ref) :
  (list_to_map (reverse w) : gmap (Z * Z) Ref) !! k = Some a -> (k, a) ∈ w.
Proof. intros H. apply elem_of_list_to_map_2 in H. rewrite elem_of_reverse in H. exact H. Qed.

Lemma apply_writes_app (w1 w2 : list (Z * Z * Ref)) (gr : gmap (Z * Z) Cell) :
  apply_writes (w1 ++ w2) gr = apply_writes w2 (apply_writes w1 gr).
Proof. unfold apply_writes. apply foldl_app. Qed.

Lemma writes_of_elem (g : Game) (nd : gmap string Ref) (h : list Structure)
    (l : list (string * StructState.t)) (k : Z * Z) (a : Ref) :
  (k, a) ∈ writes_of g nd h l ->
  exists sid d s, (sid, d) ∈ l /\ is_core_entry d = false /\ nd !! sid = Some a
                  /\ h !! a = Some s /\ k = (grid_x s, grid_y s).
Proof.
  unfold writes_of. intros H. apply list_elem_of_omap in H as ([sid d] & Hin & Hw).
  unfold entry_write in Hw. cbn [fst snd] in Hw.
  destruct (bool_decide _) eqn:Hc; [discriminate|].
  destruct (nd !! sid) as [a'|] eqn:Hnd; [|discriminate]. cbn in Hw.
  destruct (h !! a') as [s|] eqn:Hs; [|discriminate]. cbn in Hw.
  destruct (in_bounds _ _ _); [|discriminate]. injection Hw as <- <-.
  exists sid, d, s. split_and!; auto.
Qed.

(** *** The clean-up *)

Lemma modify_id (g : Game) (a : Ref) (f : Structure -> Structure) (s : Structure) :
  heap g !! a = Some s -> f s = s -> modify a f g = g.
Proof.
  intros Hs Hf. rewrite (modify_Some g a f s Hs), Hf, list_insert_id by exact Hs.
  destruct g; reflexivity.
Qed.

Lemma restore_cell_lookup_ne (g : Game) (gx gy : Z) (k : Z * Z) :
  k <> (gx, gy) -> grid (restore_cell g gx gy) !! k = grid g !! k.
Proof.
  intros Hne. unfold restore_cell. destruct (truthy _).
  - change (grid (with_grid ?x g)) with x. apply lookup_insert_ne. congruence.
  - change (grid (with_grid ?x g)) with x. apply lookup_delete_ne. congruence.
Qed.

Lemma restore_cell_with_grid (g : Game) (gx gy : Z) :
  restore_cell g gx gy = with_grid (grid (restore_cell g gx gy)) g.
Proof. unfold restore_cell. destruct (truthy _); reflexivity. Qed.

Lemma cell_is_true (c : option Cell) (a : Ref) : cell_is c a = true -> c = Some (CellObj a).
Proof.
  destruct c as [[p|b]|]; cbn; try discriminate. intros H. apply Nat.eqb_eq in H. congruence.
Qed.

Lemma clean_removed_with_grid (R : gmap string Ref) (ids : list string) (g : Game) :
  clean_removed R ids g = with_grid (grid (clean_removed R ids g)) g.
Proof.
  unfold clean_removed. generalize (core g ≫= fun c => network_id <$> heap g !! c) as cid.
  intros cid.
  assert (H : forall l g0, g0 = with_grid (grid g0) g ->
    let g1 := foldl (fun g '(sid, a) =>
           if bool_decide (sid ∈ ids) || bool_decide (cid = Some sid) then g
           else
             match heap g !! a with
             | Some old_struct =>
                 if in_bounds g (grid_x old_struct) (grid_y old_struct)
                    && cell_is (grid g !! (grid_x old_struct, grid_y old_struct)) a
                 then restore_cell g (grid_x old_struct) (grid_y old_struct) else g
             | None => g
             end) g0 l in
    g1 = with_grid (grid g1) g).
  { induction l as [|[sid a] l IH]; intros g0 E; [exact E|].
    cbn [foldl]. apply IH.
    destruct (_ || _); [exact E|]. destruct (heap g0 !! a); [|exact E].
    destruct (_ && _); [|exact E].
    rewrite restore_cell_with_grid. rewrite E at 2. reflexivity. }
  apply H. destruct g; reflexivity.
Qed.

(** The clean-up leaves a cell alone unless it holds an object whose id
    is registered and not received. *)
Lemma clean_removed_lookup (R : gmap string Ref) (ids : list string) (g : Game) (k : Z * Z) :
  (forall sid a, R !! sid = Some a -> sid ∉ ids -> grid g !! k <> Some (CellObj a)) ->
  grid (clean_removed R ids g) !! k = grid g !! k.
Proof.
  unfold clean_removed. generalize (core g ≫= fun c => network_id <$> heap g !! c) as cid.
  intros cid Hk.
  assert (H : forall l g0,
    (forall sid a, (sid, a) ∈ l -> sid ∉ ids -> grid g0 !! k <> Some (CellObj a)) ->
    grid (foldl (fun g '(sid, a) =>
           if bool_decide (sid ∈ ids) || bool_decide (cid = Some sid) then g
           else
             match heap g !! a with
             | Some old_struct =>
                 if in_bounds g (grid_x old_struct) (grid_y old_struct)
                    && cell_is (grid g !! (grid_x old_struct, grid_y old_struct)) a
                 then restore_cell g (grid_x old_struct) (grid_y old_struct) else g
             | None => g
             end) g0 l) !! k = grid g0 !! k).
  { induction l as [|[sid a] l IH]; intros g0 Hl; [reflexivity|].
    cbn [foldl].
    set (g1 := if bool_decide (sid ∈ ids) || bool_decide (cid = Some sid) then g0
               else match heap g0 !! a with
                    | Some old_struct =>
                        if in_bounds g0 (grid_x old_struct) (grid_y old_struct)
                           && cell_is (grid g0 !! (grid_x old_struct, grid_y old_struct)) a
                        then restore_cell g0 (grid_x old_struct) (grid_y old_struct) else g0
                    | None => g0
                    end).
    assert (E : grid g1 !! k = grid g0 !! k).
    { subst g1. destruct (bool_decide (sid ∈ ids)) eqn:Hin; [reflexivity|].
      cbn [orb]. destruct (bool_decide (cid = Some sid)); [reflexivity|].
      destruct (heap g0 !! a) as [old|]; [|reflexivity].
      destruct (in_bounds _ _ _); [|reflexivity]. cbn [andb].
      destruct (cell_is _ a) eqn:Hc; [|reflexivity].
      apply cell_is_true in Hc.
      destruct (decide (k = (grid_x old, grid_y old))) as [-> | Hne].
      - exfalso. apply (Hl sid a); [left | | exact Hc].
        apply bool_decide_eq_false in Hin. exact Hin.
      - apply restore_cell_lookup_ne. exact Hne. }
    rewrite IH; [exact E|]. intros sid' a' Hin' Hno. rewrite E. apply (Hl sid' a'); [right; exact Hin' | exact Hno]. }
  apply H. intros sid a Hin. apply (Hk sid a). apply elem_of_map_to_list. exact Hin.
Qed.

(** Nothing is cleaned when every registered id is received. *)
Lemma clean_removed_nothing (R : gmap string Ref) (ids : list string) (g : Game) :
  (forall sid a, R !! sid = Some a -> sid ∈ ids) -> clean_removed R ids g = g.
Proof.
  intros Hall. rewrite clean_removed_with_grid.
  assert (E : grid (clean_removed R ids g) = grid g).
  { apply map_eq. intros k. apply clean_removed_lookup. intros sid a HR Hno.
    destruct Hno. eapply Hall, HR. }
  rewrite E. destruct g; reflexivity.
Qed.

(** *** The loop over settled objects *)

Lemma writes_of_bounds (g g' : Game) (nd : gmap string Ref) (h : list Structure)
    (l : list (string * StructState.t)) :
  (forall x y, in_bounds g' x y = in_bounds g x y) ->
  writes_of g' nd h l = writes_of g nd h l.
Proof.
  intros Hb. unfold writes_of. induction l as [|e l IH]; [reflexivity|].
  cbn [omap list_omap]. rewrite IH.
  assert (E : entry_write g' nd h e = entry_write g nd h e).
  { unfold entry_write. destruct (bool_decide _); [reflexivity|].
    destruct (nd !! e.1); [|reflexivity]. cbn. destruct (h !! _); [|reflexivity]. cbn.
    rewrite Hb. reflexivity. }
  rewrite E. reflexivity.
Qed.

Lemma place_on_grid_with_grid (g : Game) (gr : gmap (Z * Z) Cell) (gx gy : Z) (a : Ref) :
  place_on_grid (with_grid gr g) gx gy a
  = with_grid (if in_bounds g gx gy then <[(gx, gy) := CellObj a]> gr else gr) g.
Proof.
  unfold place_on_grid. change (in_bounds (with_grid gr g) gx gy) with (in_bounds g gx gy).
  destruct (in_bounds g gx gy); reflexivity.
Qed.

(** When every registered object already shows the state of its entry,
    the loop only repeats its grid writes. *)
Lemma settled_loop (draw : string -> Q) (g : Game) (R : gmap string Ref)
    (l : list (string * StructState.t)) :
  (forall sid d, (sid, d) ∈ l -> is_core_entry d = false ->
     match R !! sid with
     | Some a => exists s, heap g !! a = Some s /\ apply_state s d = s
     | None => creatable d = None
     end) ->
  (foldl (sync_structure draw R) (g, ∅, None) l).1.1
  = with_grid (apply_writes (writes_of g R (heap g) l) (grid g)) g
  /\ (forall sid a, (foldl (sync_structure draw R) (g, ∅, None) l).1.2 !! sid = Some a ->
        R !! sid = Some a /\ exists d, (sid, d) ∈ l /\ is_core_entry d = false)
  /\ (forall sid d, (sid, d) ∈ l -> is_core_entry d = false ->
        (foldl (sync_structure draw R) (g, ∅, None) l).1.2 !! sid = R !! sid).
Proof.
  induction l as [|[sid d] l IH] using rev_ind; intros Hset.
  { cbn. split_and!.
    - destruct g; reflexivity.
    - intros sid a H. rewrite lookup_empty in H. discriminate.
    - intros sid d H. apply elem_of_nil in H. destruct H. }
  destruct IH as (J1 & J2 & J3).
  { intros sid' d' Hin. apply Hset. apply elem_of_app. left. exact Hin. }
  rewrite foldl_app. cbn [foldl].
  destruct (foldl (sync_structure draw R) (g, ∅, None) l) as [[g1 nd] ce].
  cbn [fst snd] in *. rewrite writes_of_snoc.
  assert (Hold : forall sid' a' (nd' : gmap string Ref),
            (forall x, x <> sid -> nd' !! x = nd !! x) -> sid' <> sid ->
            nd' !! sid' = Some a' ->
            R !! sid' = Some a' /\ exists d', (sid', d') ∈ l ++ [(sid, d)]
                                              /\ is_core_entry d' = false).
  { intros sid' a' nd' Hnd' Hne H. rewrite Hnd' in H by exact Hne.
    destruct (J2 sid' a' H) as (HR & d' & Hin & Hc). split; [exact HR|].
    exists d'. split; [apply elem_of_app; left; exact Hin | exact Hc]. }
  destruct (is_core_entry d) eqn:Hcore.
  { rewrite sync_structure_core by exact Hcore. cbn [fst snd].
    unfold entry_write. cbn [fst snd]. unfold is_core_entry in Hcore. rewrite Hcore.
    rewrite app_nil_r. split_and!.
    - exact J1.
    - intros sid' a' H. destruct (J2 sid' a' H) as (HR & d' & Hin & Hc). split; [exact HR|].
      exists d'. split; [apply elem_of_app; left; exact Hin | exact Hc].
    - intros sid' d' Hin Hc. apply elem_of_app in Hin as [Hin | Hin]; [eapply J3; eassumption|].
      apply list_elem_of_singleton in Hin. injection Hin as -> ->.
      unfold is_core_entry in Hc. congruence. }
  pose proof (Hset sid d (proj2 (elem_of_app _ _ _) (or_intror (list_elem_of_here _ _))) Hcore)
    as Hthis.
  destruct (R !! sid) as [a|] eqn:HR.
  - destruct Hthis as (s & Hs & Hfix).
    assert (Hs1 : heap g1 !! a = Some s) by (rewrite J1; exact Hs).
    rewrite (sync_structure_existing draw R g1 nd ce sid d a s Hcore HR Hs1). cbn [fst snd].
    rewrite (modify_id g1 a _ s Hs1 Hfix). rewrite J1 at 1. rewrite place_on_grid_with_grid.
    unfold entry_write. cbn [fst snd]. unfold is_core_entry in Hcore. rewrite Hcore, HR. cbn.
    rewrite Hs. cbn. split_and!.
    + destruct (in_bounds g (grid_x s) (grid_y s)).
      * rewrite apply_writes_snoc. reflexivity.
      * rewrite app_nil_r. reflexivity.
    + intros sid' a' H. destruct (decide (sid' = sid)) as [-> | Hne].
      * rewrite lookup_insert_eq in H. injection H as <-. split; [exact HR|].
        exists d. split; [apply elem_of_app; right; left | exact Hcore].
      * eapply Hold; [|exact Hne|exact H]. intros x Hx. apply lookup_insert_ne. congruence.
    + intros sid' d' Hin Hc. destruct (decide (sid' = sid)) as [-> | Hne].
      * rewrite lookup_insert_eq. symmetry. exact HR.
      * rewrite lookup_insert_ne by congruence.
        apply elem_of_app in Hin as [Hin | Hin]; [eapply J3; eassumption|].
        apply list_elem_of_singleton in Hin. congruence.
  - rewrite (sync_structure_skip draw R g1 nd ce sid d Hcore HR Hthis). cbn [fst snd].
    unfold entry_write. cbn [fst snd]. unfold is_core_entry in Hcore. rewrite Hcore, HR. cbn.
    rewrite app_nil_r. split_and!.
    + exact J1.
    + intros sid' a' H. destruct (decide (sid' = sid)) as [-> | Hne].
      * destruct (J2 sid a' H) as (HR' & _). congruence.
      * eapply Hold; [|exact Hne|exact H]. reflexivity.
    + intros sid' d' Hin Hc. apply elem_of_app in Hin as [Hin | Hin]; [eapply J3; eassumption|].
      apply list_elem_of_singleton in Hin. injection Hin as -> ->. rewrite HR.
      destruct (nd !! sid) as [a'|] eqn:E; [|reflexivity].
      destruct (J2 sid a' E) as (HR' & _). congruence.
Qed.

(** *** A second run of the structures section *)

Lemma game_eta_structures (g : Game) (h : list Structure) (dict : gmap string Ref)
    (gr : gmap (Z * Z) Cell) :
  heap g = h -> structures g = dict ->
  with_heap h (with_structures dict (with_grid gr g)) = with_grid gr g.
Proof. intros <- <-. destruct g; reflexivity. Qed.

Lemma sync_structures_unfold (draw : string -> Q) (g : Game) (snap : Snapshot.t) :
  sync_structures draw g snap
  = let r := foldl (sync_structure draw (structures g)) (g, ∅, None)
               (Snapshot.structures snap) in
    let c := sync_core r.1.1 r.1.2 r.2 in
    override_core_hp
      (with_structures c.2
         (clean_removed (structures g) (Snapshot.structures snap).*1 c.1)) snap.
Proof.
  unfold sync_structures.
  destruct (foldl _ _ _) as [[g1 nd] ce]. cbn [fst snd].
  destruct (sync_core g1 nd ce) as [g2 d2]. reflexivity.
Qed.

Lemma modify_None (g : Game) (a : Ref) (f : Structure -> Structure) :
  heap g !! a = None -> modify a f g = g.
Proof. unfold modify. intros ->. reflexivity. Qed.

Lemma sync_core_update (g : Game) (nd : gmap string Ref) (cid : string)
    (cd : StructState.t) (c : Ref) (s : Structure) :
  core g = Some c -> heap g !! c = Some s -> network_id s = cid ->
  sync_core g nd (Some (cid, cd))
  = (place_on_grid (modify c (fun s => apply_state s cd) g) (grid_x s) (grid_y s) c,
     <[cid := c]> nd).
Proof.
  intros Hc Hs Hid. unfold sync_core. rewrite Hc. cbn [mbind option_bind].
  rewrite Hs. cbn [mbind option_bind].
  rewrite bool_decide_eq_true_2 by exact Hid. reflexivity.
Qed.

Lemma sync_core_no_match (g : Game) (cid : string) :
  (forall c s, core g = Some c -> heap g !! c = Some s -> network_id s <> cid) ->
  (core g ≫= fun c => heap g !! c ≫= fun s =>
     if bool_decide (network_id s = cid) then Some (c, s) else None) = None.
Proof.
  intros Hno. destruct (core g) as [c|]; [|reflexivity]. cbn [mbind option_bind].
  destruct (heap g !! c) as [s|] eqn:Hs; [|reflexivity]. cbn [mbind option_bind].
  rewrite bool_decide_eq_false_2; [reflexivity|]. eapply Hno; [reflexivity | exact Hs].
Qed.

Lemma sync_core_create (g : Game) (nd : gmap string Ref) (cid : string)
    (cd : StructState.t) (gx gy : Z) :
  (forall c s, core g = Some c -> heap g !! c = Some s -> network_id s <> cid) ->
  StructState.gx cd = Some gx -> StructState.gy cd = Some gy ->
  sync_core g nd (Some (cid, cd))
  = (place_on_grid
       (with_core (Some (length (heap g)))
          (alloc (apply_state (set_network_id cid (Core_init gx gy)) cd) g).1)
       gx gy (length (heap g)),
     <[cid := length (heap g)]> nd).
Proof.
  intros Hno Hx Hy. unfold sync_core. rewrite (sync_core_no_match g cid Hno), Hx, Hy.
  reflexivity.
Qed.

Lemma sync_core_skip (g : Game) (nd : gmap string Ref) (cid : string) (cd : StructState.t) :
  (forall c s, core g = Some c -> heap g !! c = Some s -> network_id s <> cid) ->
  StructState.gx cd = None \/ StructState.gy cd = None ->
  sync_core g nd (Some (cid, cd)) = (g, nd).
Proof.
  intros Hno Hxy. unfold sync_core. rewrite (sync_core_no_match g cid Hno).
  destruct Hxy as [-> | ->]; [reflexivity|]. destruct (StructState.gx cd); reflexivity.
Qed.

Lemma sync_structures_settled (draw : string -> Q) (g : Game) (snap : Snapshot.t)
    (g4 g' : Game) :
  settled_world g snap g4 ->
  heap g' = heap g4 -> structures g' = structures g4 -> core g' = core g4 ->
  (forall x y, in_bounds g' x y = in_bounds g x y) ->
  (forall k, grid g' !! k = grid g4 !! k
             \/ (grid g' !! k = grid g !! k /\ forall a, grid g !! k <> Some (CellObj a))) ->
  sync_structures draw g' snap = with_grid (grid g4) g'.
Proof.
  intros (S0 & S1 & S2 & S3 & S4) Hh Hd Hc Hb Hg.
  rewrite sync_structures_unfold. cbv zeta.
  pose proof (loop_core_entry draw (structures g') g' (Snapshot.structures snap)) as Hce.
  destruct (settled_loop draw g' (structures g') (Snapshot.structures snap)) as (J1 & J2 & J3).
  { intros sid d Hin Hcore. rewrite Hd, Hh. apply S1; assumption. }
  destruct (foldl (sync_structure draw (structures g')) (g', ∅, None)
              (Snapshot.structures snap)) as [[g1 nd] ce].
  cbn [fst snd] in *. subst ce.
  rewrite (writes_of_bounds g g') in J1 by exact Hb. rewrite Hd, Hh in J1.
  specialize (S4 (grid g') Hg).
  set (W := writes_of g (structures g4) (heap g4) (Snapshot.structures snap)) in *.
  assert (Hclean : forall gx, clean_removed (structures g')
                                (Snapshot.structures snap).*1 gx = gx).
  { intros gx. apply clean_removed_nothing. intros sid a HR. rewrite Hd in HR.
    destruct (S2 sid a HR) as [(d & Hin & _) | (cd & Hl)].
    - exact (list_elem_of_fmap_2 fst _ _ Hin).
    - apply last_core_entry_Some in Hl as [Hin _]. exact (list_elem_of_fmap_2 fst _ _ Hin). }
  rewrite Hclean.
  assert (Hnd : forall sid,
            (forall cd, last_core_entry (Snapshot.structures snap) <> Some (sid, cd)) ->
            nd !! sid = structures g4 !! sid).
  { intros sid Hnot. destruct (nd !! sid) as [a|] eqn:E.
    - destruct (J2 sid a E) as (HR & _). rewrite <- Hd. symmetry. exact HR.
    - destruct (structures g4 !! sid) as [a|] eqn:E4; [|reflexivity].
      destruct (S2 sid a E4) as [(d & Hin & Hcore) | (cd & Hl)].
      + rewrite (J3 sid d Hin Hcore), Hd, E4 in E. discriminate.
      + destruct (Hnot cd Hl). }
  unfold core_write in S4.
  destruct (last_core_entry (Snapshot.structures snap)) as [[cid cd]|] eqn:Hl.
  - destruct S3 as [(c & s & Hcore & Hs & Hid & Hreg & Hfix) | (Hxy & Hreg & Hno)].
    + (* the core carries the id of the entry: it is updated again *)
      rewrite Hcore, Hs, bool_decide_eq_true_2 in S4 by exact Hid. cbn [andb] in S4.
      assert (Hs1 : heap g1 !! c = Some s) by (rewrite J1; cbn; rewrite Hh; exact Hs).
      assert (Hc1 : core g1 = Some c) by (rewrite J1; cbn; rewrite Hc; exact Hcore).
      rewrite (sync_core_update g1 nd cid cd c s Hc1 Hs1 Hid). cbn [fst snd].
      rewrite (modify_Some g1 c _ s Hs1). rewrite J1.
      change (with_heap ?h (with_grid ?gr g')) with (with_grid gr (with_heap h g')).
      rewrite place_on_grid_with_grid.
      change (in_bounds (with_heap ?h g') ?x ?y) with (in_bounds g' x y). rewrite Hb.
      assert (Hgrid : (if in_bounds g (grid_x s) (grid_y s)
                       then <[(grid_x s, grid_y s):=CellObj c]> (apply_writes W (grid g'))
                       else apply_writes W (grid g')) = grid g4).
      { rewrite <- S4. destruct (in_bounds g (grid_x s) (grid_y s)).
        - rewrite apply_writes_snoc. reflexivity.
        - rewrite app_nil_r. reflexivity. }
      rewrite Hgrid.
      assert (Hdict : <[cid:=c]> nd = structures g4).
      { apply map_eq. intros sid. destruct (decide (sid = cid)) as [-> | Hne].
        - rewrite lookup_insert_eq. symmetry. exact Hreg.
        - rewrite lookup_insert_ne by congruence. apply Hnd. intros cd' [= E]. congruence. }
      rewrite Hdict. unfold override_core_hp.
      change (core (with_structures ?d (with_grid ?gr (with_heap ?h g')))) with (core g').
      rewrite Hc, Hcore.
      rewrite (modify_Some _ c _ (apply_state s cd)).
      2:{ cbn. apply list_lookup_insert_eq. rewrite Hh. eapply lookup_lt_Some, Hs. }
      cbn [heap with_heap with_structures with_grid]. rewrite Hfix.
      rewrite list_insert_insert_eq, Hh, (list_insert_id _ _ _ Hs).
      rewrite <- Hh, <- Hd. destruct g'; reflexivity.
    + (* the core entry cannot be used: nothing happens *)
      assert (Hno1 : forall c s, core g1 = Some c -> heap g1 !! c = Some s ->
                                 network_id s <> cid).
      { intros c s. rewrite J1. cbn. rewrite Hc, Hh. intros H1 H2.
        apply (Hno c s H1 H2). }
      rewrite (sync_core_skip g1 nd cid cd Hno1 Hxy). cbn [fst snd].
      assert (Hcw : apply_writes W (grid g') = grid g4).
      { rewrite <- S4. destruct (core g4) as [c|]; [|rewrite app_nil_r; reflexivity].
        destruct (heap g4 !! c) as [s|] eqn:Hs; [|rewrite app_nil_r; reflexivity].
        rewrite bool_decide_eq_false_2 by (eapply Hno; [reflexivity|exact Hs]).
        cbn [andb]. rewrite app_nil_r. reflexivity. }
      assert (Hdict : nd = structures g4).
      { apply map_eq. intros sid. destruct (decide (sid = cid)) as [-> | Hne].
        - rewrite Hreg. destruct (nd !! cid) as [a|] eqn:E; [|reflexivity].
          destruct (J2 cid a E) as (HR & _). rewrite Hd, Hreg in HR. discriminate.
        - apply Hnd. intros cd' [= E]. congruence. }
      rewrite J1, Hcw, Hdict. unfold override_core_hp.
      change (core (with_structures ?d (with_grid ?gr g'))) with (core g').
      rewrite Hc. destruct (core g4) as [c|] eqn:Hcg.
      * destruct (heap g4 !! c) as [s|] eqn:Hs.
        -- destruct (Hno c s eq_refl Hs) as [_ Hfix].
           rewrite (modify_id _ c _ s); [| rewrite <- Hh in Hs; exact Hs | exact Hfix].
           rewrite <- Hd. destruct g'; reflexivity.
        -- rewrite modify_None by (rewrite <- Hh in Hs; exact Hs).
           rewrite <- Hd. destruct g'; reflexivity.
      * rewrite <- Hd. destruct g'; reflexivity.
  - (* no core entry: the core is already gone *)
    assert (Hc1 : core g1 = None) by (rewrite J1; cbn; rewrite Hc; exact S3).
    unfold sync_core. rewrite Hc1. cbn [fst snd].
    assert (Hdict : nd = structures g4).
    { apply map_eq. intros sid. apply Hnd. intros cd'. discriminate. }
    rewrite app_nil_r in S4.
    rewrite J1, S4, Hdict. unfold override_core_hp.
    change (core (with_structures ?d (with_grid ?gr g'))) with (core g').
    rewrite Hc, S3. rewrite <- Hd. destruct g'; reflexivity.
Qed.

(** *** The core and its hp *)

Lemma override_hp_frame (snap : Snapshot.t) (s : Structure) :
  network_id (override_hp snap s) = network_id s /\ grid_x (override_hp snap s) = grid_x s
  /\ grid_y (override_hp snap s) = grid_y s /\ kind (override_hp snap s) = kind s.
Proof. split_and!; reflexivity. Qed.

Lemma override_hp_idem (snap : Snapshot.t) (s : Structure) :
  override_hp snap (override_hp snap s) = override_hp snap s.
Proof.
  destruct s. unfold override_hp. sred. rewrite !get_or_idem. reflexivity.
Qed.

Lemma apply_state_core (s : Structure) (d : StructState.t) :
  kind s = KCore -> apply_state s d = own_state d (common_state d s).
Proof.
  intros Hk. rewrite apply_state_split, Hk.
  unfold has_update_stats. change (kind (common_state d s)) with (kind s). rewrite Hk.
  rewrite andb_false_r. reflexivity.
Qed.

Lemma apply_state_kind_core (s : Structure) (d : StructState.t) :
  kind s = KCore -> kind (apply_state s d) = KCore.
Proof.
  intros Hk. rewrite (apply_state_core s d Hk). destruct s as [? ? ? ? ? ? ? ? ? ? ? ? ? ? k]. simpl in Hk. subst k.
  reflexivity.
Qed.

(** The core section applied again to the core it has left: the object
    does not change. *)
Lemma core_settles (snap : Snapshot.t) (s : Structure) (cd : StructState.t) :
  kind s = KCore ->
  override_hp snap (apply_state (override_hp snap (apply_state s cd)) cd)
  = override_hp snap (apply_state s cd).
Proof.
  intros Hk.
  rewrite (apply_state_core (override_hp snap (apply_state s cd)) cd)
    by (apply apply_state_kind_core; exact Hk).
  rewrite (apply_state_core s cd Hk).
  destruct s as [? ? ? ? ? ? ? ? ? ? ? ? ? ? k]. simpl in Hk. subst k. unfold override_hp. sred.
  destruct (Snapshot.core_hp snap), (Snapshot.core_max_hp snap),
    (StructState.hp cd), (StructState.max_hp cd), (StructState.tier cd),
    (StructState.is_powered cd), (StructState.is_on_grid cd); reflexivity.
Qed.

(** *** The first run of the structures section *)

Lemma place_on_grid_eq (g : Game) (gx gy : Z) (a : Ref) :
  place_on_grid g gx gy a
  = with_grid (if in_bounds g gx gy then <[(gx, gy) := CellObj a]> (grid g) else grid g) g.
Proof.
  unfold place_on_grid. destruct (in_bounds g gx gy); [reflexivity | destruct g; reflexivity].
Qed.

Lemma settled_grid (g g2 : Game) (R : gmap string Ref) (ids : list string)
    (W : list (Z * Z * Ref)) :
  (forall k a, (list_to_map (reverse W) : gmap (Z * Z) Ref) !! k = Some a ->
               grid g2 !! k = Some (CellObj a)) ->
  (forall k, (list_to_map (reverse W) : gmap (Z * Z) Ref) !! k = None ->
             (forall a, grid g !! k <> Some (CellObj a)) -> grid g2 !! k = grid g !! k) ->
  (forall k a sid, (k, a) ∈ W -> R !! sid = Some a -> sid ∈ ids) ->
  forall gr : gmap (Z * Z) Cell,
    (forall k, gr !! k = grid (clean_removed R ids g2) !! k
               \/ (gr !! k = grid g !! k /\ forall a, grid g !! k <> Some (CellObj a))) ->
    apply_writes W gr = grid (clean_removed R ids g2).
Proof.
  intros H1 H2 H3 gr Hgr. apply map_eq. intros k. rewrite apply_writes_lookup.
  destruct ((list_to_map (reverse W) : gmap (Z * Z) Ref) !! k) as [a|] eqn:Hlw.
  - rewrite clean_removed_lookup; [symmetry; apply H1; exact Hlw|].
    intros sid a' HR Hno Hcell. rewrite (H1 k a Hlw) in Hcell. injection Hcell as <-.
    apply Hno. eapply H3; [apply last_write_elem; exact Hlw | exact HR].
  - destruct (Hgr k) as [E | [E Hfree]]; [exact E|].
    rewrite E. symmetry. rewrite clean_removed_lookup; [apply H2; assumption|].
    intros sid a' HR Hno Hcell. rewrite (H2 k Hlw Hfree) in Hcell. exact (Hfree a' Hcell).
Qed.

Lemma settled_world_intro (g g1 : Game) (snap : Snapshot.t) (h4 : list Structure)
    (d4 : gmap string Ref) (g4grid : gmap (Z * Z) Cell) (c4 : option Ref) :
  g1 = with_grid (grid g1) (with_heap (heap g1) g) ->
  (forall sid d, (sid, d) ∈ Snapshot.structures snap -> is_core_entry d = false ->
        match d4 !! sid with
        | Some a => exists s, h4 !! a = Some s /\ apply_state s d = s
        | None => creatable d = None
        end) ->
  (forall sid a, d4 !! sid = Some a ->
        (exists d, (sid, d) ∈ Snapshot.structures snap /\ is_core_entry d = false)
        \/ (exists cd, last_core_entry (Snapshot.structures snap) = Some (sid, cd))) ->
  match last_core_entry (Snapshot.structures snap) with
  | Some (cid, cd) =>
      (exists c s, c4 = Some c /\ h4 !! c = Some s /\ network_id s = cid
                   /\ d4 !! cid = Some c /\ override_hp snap (apply_state s cd) = s)
      \/ ((StructState.gx cd = None \/ StructState.gy cd = None)
          /\ d4 !! cid = None
          /\ forall c s, c4 = Some c -> h4 !! c = Some s ->
                network_id s <> cid /\ override_hp snap s = s)
  | None => c4 = None
  end ->
  (forall gr : gmap (Z * Z) Cell,
        (forall k, gr !! k = g4grid !! k
                   \/ (gr !! k = grid g !! k /\ forall a, grid g !! k <> Some (CellObj a))) ->
        apply_writes
          (writes_of g d4 h4 (Snapshot.structures snap)
           ++ match last_core_entry (Snapshot.structures snap), c4 with
              | Some (cid, _), Some c =>
                  match h4 !! c with
                  | Some s =>
                      if bool_decide (network_id s = cid) && in_bounds g (grid_x s) (grid_y s)
                      then [(grid_x s, grid_y s, c)] else []
                  | None => []
                  end
              | _, _ => []
              end) gr
        = g4grid) ->
  settled_world g snap
    (with_core c4 (with_structures d4 (with_grid g4grid (with_heap h4 g1)))).
Proof.
  intros E S1 S2 S3 S4. unfold settled_world, core_write. split_and!.
  - rewrite E. reflexivity.
  - exact S1.
  - exact S2.
  - exact S3.
  - exact S4.
Qed.

Lemma override_core_hp_Some (g : Game) (snap : Snapshot.t) (c : Ref) :
  core g = Some c -> override_core_hp g snap = modify c (override_hp snap) g.
Proof. unfold override_core_hp. intros ->. reflexivity. Qed.

Lemma override_core_hp_None (g : Game) (snap : Snapshot.t) :
  core g = None -> override_core_hp g snap = g.
Proof. unfold override_core_hp. intros ->. reflexivity. Qed.

Lemma sync_core_absent_Some (g : Game) (nd : gmap string Ref) (c : Ref) (s : Structure) :
  core g = Some c -> heap g !! c = Some s ->
  sync_core g nd None
  = (with_core None
       (if in_bounds g (grid_x s) (grid_y s) && cell_is (grid g !! (grid_x s, grid_y s)) c
        then restore_cell g (grid_x s) (grid_y s) else g), nd).
Proof. unfold sync_core. intros -> ->. reflexivity. Qed.

Lemma sync_core_absent_None (g : Game) (nd : gmap string Ref) :
  core g = None -> sync_core g nd None = (g, nd).
Proof. unfold sync_core. intros ->. reflexivity. Qed.

Lemma restore_if_with_grid (g : Game) (b : bool) (gx gy : Z) :
  (if b then restore_cell g gx gy else g)
  = with_grid (grid (if b then restore_cell g gx gy else g)) g.
Proof. destruct b; [apply restore_cell_with_grid | destruct g; reflexivity]. Qed.

Lemma settled_grid_writes (g g2 : Game) (R : gmap string Ref) (ids : list string)
    (W : list (Z * Z * Ref)) :
  grid g2 = apply_writes W (grid g) ->
  (forall k a sid, (k, a) ∈ W -> R !! sid = Some a -> sid ∈ ids) ->
  forall gr : gmap (Z * Z) Cell,
    (forall k, gr !! k = grid (clean_removed R ids g2) !! k
               \/ (gr !! k = grid g !! k /\ forall a, grid g !! k <> Some (CellObj a))) ->
    apply_writes W gr = grid (clean_removed R ids g2).
Proof.
  intros Hg2 H3. apply settled_grid.
  - intros k a Hlw. rewrite Hg2, apply_writes_lookup, Hlw. reflexivity.
  - intros k Hlw _. rewrite Hg2, apply_writes_lookup, Hlw. reflexivity.
  - exact H3.
Qed.

(** The structures section leaves a settled world, from a consistent
    registry, a live core, types that agree and a snapshot whose powered
    turrets are at tier 3. *)
Lemma sync_structures_settles (draw : string -> Q) (g : Game) (snap : Snapshot.t) :
  registry_ok g -> core_ok g -> types_agree g snap -> powered_turrets_tier3 snap ->
  NoDup (Snapshot.structures snap).*1 ->
  settled_world g snap (sync_structures draw g snap).
Proof.
  intros Hreg Hcore Hty Hpw Hnd.
  pose proof (structures_loop_inv draw g (Snapshot.structures snap) Hreg Hnd Hty Hpw) as Hinv.
  pose proof (loop_core_entry draw (structures g) g (Snapshot.structures snap)) as Hce.
  rewrite sync_structures_unfold. cbv zeta.
  destruct (foldl (sync_structure draw (structures g)) (g, ∅, None)
              (Snapshot.structures snap)) as [[g1 nd] ce].
  cbn [fst snd] in *. subst ce. destruct Hinv as (I1 & I2 & I3 & I4 & I5 & I6).
  set (E := Snapshot.structures snap) in *.
  assert (Hcore1 : core g1 = core g) by (rewrite I1; reflexivity).
  assert (Hb1 : forall x y, in_bounds g1 x y = in_bounds g x y).
  { intros x y. apply frame_heap_grid_in_bounds. exact I1. }
  assert (HU : forall c s, core g = Some c -> heap g !! c = Some s -> kind s = KCore ->
                           heap g1 !! c = Some s).
  { intros c s Hc Hs Hk. rewrite I3; [exact Hs | eapply lookup_lt_Some, Hs |].
    intros sid d Hin Hnc HR. pose proof (Hty sid d c s Hin HR Hs) as Ht.
    unfold building_type in Ht. rewrite Hk in Ht. unfold is_core_entry in Hnc.
    apply bool_decide_eq_false in Hnc. apply Hnc. exact Ht. }
  assert (HV : forall sid a s, nd !! sid = Some a -> heap g1 !! a = Some s ->
                               building_type s <> BUILDING_CORE).
  { intros sid a s Ha Hs Hbt. destruct (I4 sid a Ha) as (d & s' & _ & Hnc & Hs' & _ & _ & Ht & _).
    rewrite Hs in Hs'. injection Hs' as <-. unfold is_core_entry in Hnc.
    apply bool_decide_eq_false in Hnc. apply Hnc. rewrite Ht, Hbt. reflexivity. }
  assert (Hentry : forall sid d a, (sid, d) ∈ E -> nd !! sid = Some a ->
                     exists s, heap g1 !! a = Some s /\ apply_state s d = s
                               /\ network_id s = sid).
  { intros sid d a Hin Ha. destruct (I4 sid a Ha) as (d' & s & Hin' & _ & Hs & Hid & Hfix & _).
    rewrite (NoDup_fst_eq E sid d d' Hnd Hin Hin'). eauto. }
  assert (Hentry' : forall sid a, nd !! sid = Some a -> exists s, heap g1 !! a = Some s).
  { intros sid a Ha. destruct (I4 sid a Ha) as (d & s & _ & _ & Hs & _). eauto. }
  assert (Huntouched : forall sid a s, structures g !! sid = Some a -> heap g !! a = Some s ->
                         sid ∉ E.*1 -> heap g1 !! a = Some s).
  { intros sid a s HR Hs Hno. rewrite I3; [exact Hs | eapply lookup_lt_Some, Hs |].
    intros sid' d' Hin _ HR'. destruct (Hreg sid a HR) as (s1 & Hs1 & Hid1).
    destruct (Hreg sid' a HR') as (s2 & Hs2 & Hid2). rewrite Hs1 in Hs2. injection Hs2 as <-.
    apply Hno. rewrite <- Hid1, Hid2. exact (list_elem_of_fmap_2 fst _ _ Hin). }
  assert (HW : forall k a sid, (k, a) ∈ writes_of g nd (heap g1) E ->
                               structures g !! sid = Some a -> sid ∈ E.*1).
  { intros k a sid Hin HR. apply writes_of_elem in Hin as (sid' & d & s & Hin & _ & Ha & Hs & _).
    destruct (decide (sid ∈ E.*1)) as [Hyes | Hno]; [exact Hyes|].
    destruct (Hreg sid a HR) as (s0 & Hs0 & Hid0).
    pose proof (Huntouched sid a s0 HR Hs0 Hno) as Hs1. rewrite Hs in Hs1. injection Hs1 as ->.
    destruct (Hentry sid' d a Hin Ha) as (s' & Hs' & _ & Hid'). rewrite Hs in Hs'.
    injection Hs' as <-. rewrite <- Hid0, Hid'. exact (list_elem_of_fmap_2 fst _ _ Hin). }
  assert (HS1 : forall (h4 : list Structure),
            (forall sid a, nd !! sid = Some a -> h4 !! a = heap g1 !! a) ->
            forall sid d, (sid, d) ∈ E -> is_core_entry d = false ->
              match nd !! sid with
              | Some a => exists s, h4 !! a = Some s /\ apply_state s d = s
              | None => creatable d = None
              end).
  { intros h4 Hh4 sid d Hin Hnc. destruct (nd !! sid) as [a|] eqn:Ha.
    - destruct (Hentry sid d a Hin Ha) as (s & Hs & Hfix & _). exists s.
      rewrite (Hh4 sid a Ha). auto.
    - apply (I5 sid d Hin Hnc Ha). }
  assert (HS2 : forall sid a, nd !! sid = Some a ->
            exists d, (sid, d) ∈ E /\ is_core_entry d = false).
  { intros sid a Ha. destruct (I4 sid a Ha) as (d & s & Hin & Hnc & _). eauto. }
  assert (Hwr : forall (d4 : gmap string Ref) (h4 : list Structure),
            (forall sid d, (sid, d) ∈ E -> is_core_entry d = false -> d4 !! sid = nd !! sid) ->
            (forall sid a, nd !! sid = Some a ->
               exists s s', h4 !! a = Some s /\ heap g1 !! a = Some s'
                            /\ grid_x s = grid_x s' /\ grid_y s = grid_y s') ->
            writes_of g d4 h4 E = writes_of g nd (heap g1) E).
  { intros d4 h4 Hd4 Hh4. apply writes_of_ext. intros [sid d] Hin. unfold entry_write.
    cbn [fst snd]. destruct (bool_decide _) eqn:Hc; [reflexivity|].
    rewrite (Hd4 sid d Hin Hc). destruct (nd !! sid) as [a|] eqn:Ha; [|reflexivity].
    destruct (Hh4 sid a Ha) as (s & s' & E1 & E2 & E3 & E4).
    cbn [mbind option_bind]. rewrite E1, E2. cbn [mbind option_bind].
    rewrite E3, E4. reflexivity. }
  assert (Hlw1 : forall k, grid g1 !! k
            = match (list_to_map (reverse (writes_of g nd (heap g1) E)) : gmap (Z * Z) Ref) !! k
              with Some a => Some (CellObj a) | None => grid g !! k end).
  { intros k. rewrite I6. apply apply_writes_lookup. }
  assert (Hcases : (exists c0 s0, core g = Some c0 /\ heap g !! c0 = Some s0 /\ kind s0 = KCore)
                   \/ core g = None).
  { destruct (core g) as [c0|] eqn:Hcg; [|right; reflexivity].
    destruct (Hcore c0 Hcg) as (s0 & Hs0 & Hk0). left. exists c0, s0. auto. }
  destruct (last_core_entry E) as [[cid cd]|] eqn:Hl.
  - destruct (last_core_entry_Some E cid cd Hl) as [Hcin Hcc].
    assert (Hcid_nd : nd !! cid = None).
    { destruct (nd !! cid) as [a|] eqn:Ha; [|reflexivity].
      destruct (HS2 cid a Ha) as (d & Hin & Hnc).
      rewrite (NoDup_fst_eq E cid d cd Hnd Hin Hcin) in Hnc. congruence. }
    assert (Hne : forall sid d, (sid, d) ∈ E -> is_core_entry d = false -> sid <> cid).
    { intros sid d Hin Hnc ->. rewrite (NoDup_fst_eq E cid d cd Hnd Hin Hcin) in Hnc.
      congruence. }
    assert (Hmatch :
      (exists c s, core g = Some c /\ heap g !! c = Some s /\ kind s = KCore
                   /\ network_id s = cid)
      \/ (forall c s, core g1 = Some c -> heap g1 !! c = Some s -> network_id s <> cid)).
    { destruct (core g) as [c|] eqn:Hcg.
      - destruct (Hcore c Hcg) as (s0 & Hs0 & Hk0).
        destruct (decide (network_id s0 = cid)) as [Hid | Hnid].
        + left. exists c, s0. auto.
        + right. intros c' s'. rewrite Hcore1. intros [= <-] Hs'.
          rewrite (HU c s0 eq_refl Hs0 Hk0) in Hs'. congruence.
      - right. intros c' s'. rewrite Hcore1. discriminate. }
    destruct Hmatch as [(c & s0 & Hcg & Hs0 & Hk0 & Hid) | Hno].
    + (* the local core carries the id: it is updated *)
      pose proof (HU c s0 Hcg Hs0 Hk0) as Hs1.
      assert (Hc1 : core g1 = Some c) by (rewrite Hcore1; exact Hcg).
      rewrite (sync_core_update g1 nd cid cd c s0 Hc1 Hs1 Hid). cbn [fst snd].
      rewrite (modify_Some g1 c _ s0 Hs1). rewrite place_on_grid_eq.
      change (in_bounds (with_heap ?h g1) ?x ?y) with (in_bounds g1 x y). rewrite Hb1.
      change (grid (with_heap ?h g1)) with (grid g1).
      match goal with |- context [clean_removed ?r ?i ?x] =>
        set (g2 := x); rewrite (clean_removed_with_grid r i g2);
        set (G3 := grid (clean_removed r i g2)) end.
      unfold override_core_hp.
      change (core (with_structures (<[cid:=c]> nd) (with_grid G3 g2))) with (core g1).
      rewrite Hc1.
      rewrite (modify_Some _ c _ (apply_state s0 cd)).
      2:{ change (heap (with_structures (<[cid:=c]> nd) (with_grid G3 g2)))
            with (<[c:=apply_state s0 cd]> (heap g1)).
          apply list_lookup_insert_eq. eapply lookup_lt_Some, Hs1. }
      change (heap (with_structures (<[cid:=c]> nd) (with_grid G3 g2)))
        with (<[c:=apply_state s0 cd]> (heap g1)).
      rewrite list_insert_insert_eq.
      set (s4 := override_hp snap (apply_state s0 cd)).
      assert (Hother : forall sid a, nd !! sid = Some a -> a <> c).
      { intros sid a Ha ->. apply (HV sid c s0 Ha Hs1). unfold building_type.
        rewrite Hk0. reflexivity. }
      change (settled_world g snap
                (with_core (core g1)
                   (with_structures (<[cid:=c]> nd)
                      (with_grid G3 (with_heap (<[c:=s4]> (heap g1)) g1))))).
      apply settled_world_intro; [exact I1 | | | | ]; fold E.
      * intros sid d Hin Hnc. rewrite lookup_insert_ne by (intros <-; exact (Hne _ d Hin Hnc eq_refl)).
        apply HS1; [|exact Hin|exact Hnc]. intros sid' a' Ha'.
        apply list_lookup_insert_ne. intros <-. exact (Hother sid' c Ha' eq_refl).
      * intros sid a Ha. destruct (decide (sid = cid)) as [-> | Hnes].
        -- right. eauto.
        -- rewrite lookup_insert_ne in Ha by congruence. left. eapply HS2, Ha.
      * rewrite Hl. left. exists c, s4. split_and!.
        -- exact Hc1.
        -- apply list_lookup_insert_eq. eapply lookup_lt_Some, Hs1.
        -- subst s4. destruct (override_hp_frame snap (apply_state s0 cd)) as (-> & _).
           destruct (apply_state_frame s0 cd) as (-> & _). exact Hid.
        -- apply lookup_insert_eq.
        -- subst s4. apply core_settles. exact Hk0.
      * rewrite Hl, Hc1. rewrite list_lookup_insert_eq by (eapply lookup_lt_Some, Hs1).
        assert (Hxy : grid_x s4 = grid_x s0 /\ grid_y s4 = grid_y s0 /\ network_id s4 = cid).
        { subst s4. destruct (override_hp_frame snap (apply_state s0 cd)) as (-> & -> & -> & _).
          destruct (apply_state_frame s0 cd) as (-> & -> & -> & _). auto. }
        destruct Hxy as (-> & -> & Hid4).
        rewrite bool_decide_eq_true_2 by exact Hid4. cbn [andb].
        rewrite (Hwr (<[cid:=c]> nd) (<[c:=s4]> (heap g1))).
        2:{ intros sid d Hin Hnc. apply lookup_insert_ne. intros <-.
            exact (Hne _ d Hin Hnc eq_refl). }
        2:{ intros sid a Ha. destruct (Hentry' sid a Ha) as (s & Hs).
            exists s, s. rewrite list_lookup_insert_ne by (intros <-; exact (Hother sid c Ha eq_refl)).
            auto. }
        subst G3. apply (settled_grid_writes g g2 (structures g) E.*1).
        -- subst g2. change (grid (with_grid ?x ?y)) with x.
           destruct (in_bounds g (grid_x s0) (grid_y s0)).
           ++ rewrite apply_writes_snoc, I6. reflexivity.
           ++ rewrite app_nil_r. exact I6.
        -- intros k a sid Hin HR. apply elem_of_app in Hin as [Hin | Hin].
           ++ eapply HW; eassumption.
           ++ assert (a = c) as ->.
              { destruct (in_bounds g (grid_x s0) (grid_y s0));
                  [apply list_elem_of_singleton in Hin; congruence
                  | apply elem_of_nil in Hin; destruct Hin]. }
              destruct (Hreg sid c HR) as (s' & Hs' & Hid'). rewrite Hs0 in Hs'.
              injection Hs' as <-. rewrite <- Hid', Hid.
              exact (list_elem_of_fmap_2 fst _ _ Hcin).
    + assert (Hskip : StructState.gx cd = None \/ StructState.gy cd = None ->
        settled_world g snap
          (override_core_hp
             (with_structures (sync_core g1 nd (Some (cid, cd))).2
                (clean_removed (structures g) E.*1 (sync_core g1 nd (Some (cid, cd))).1))
             snap)).
      { intros Hxy. rewrite (sync_core_skip g1 nd cid cd Hno Hxy). cbn [fst snd].
        rewrite (clean_removed_with_grid _ _ g1).
        set (G3 := grid (clean_removed (structures g) E.*1 g1)).
        assert (HG3 : forall gr : gmap (Z * Z) Cell,
                  (forall k, gr !! k = G3 !! k
                     \/ (gr !! k = grid g !! k /\ forall a, grid g !! k <> Some (CellObj a))) ->
                  apply_writes (writes_of g nd (heap g1) E) gr = G3).
        { subst G3. apply (settled_grid_writes g g1 (structures g) E.*1); [exact I6 | exact HW]. }
        destruct Hcases as [(c0 & s0 & Hcg & Hs0 & Hk0) | Hcg].
        - pose proof (HU c0 s0 Hcg Hs0 Hk0) as Hs1.
          assert (Hc1 : core g1 = Some c0) by (rewrite Hcore1; exact Hcg).
          rewrite (override_core_hp_Some _ snap c0) by exact Hc1.
          rewrite (modify_Some _ c0 _ s0) by exact Hs1.
          set (s4 := override_hp snap s0).
          assert (Hother : forall sid a, nd !! sid = Some a -> a <> c0).
          { intros sid a Ha ->. apply (HV sid c0 s0 Ha Hs1). unfold building_type.
            rewrite Hk0. reflexivity. }
          change (settled_world g snap
                    (with_core (core g1)
                       (with_structures nd
                          (with_grid G3 (with_heap (<[c0:=s4]> (heap g1)) g1))))).
          apply settled_world_intro; [exact I1 | | | | ]; fold E.
          + apply HS1. intros sid' a' Ha'. apply list_lookup_insert_ne. intros <-.
            exact (Hother sid' c0 Ha' eq_refl).
          + intros sid a Ha. left. eapply HS2, Ha.
          + rewrite Hl. right. split_and!; [exact Hxy | exact Hcid_nd |].
            intros c s Hc Hs. rewrite Hc1 in Hc. injection Hc as <-.
            rewrite list_lookup_insert_eq in Hs by (eapply lookup_lt_Some, Hs1).
            injection Hs as <-. split.
            * subst s4. destruct (override_hp_frame snap s0) as (-> & _).
              exact (Hno c0 s0 Hc1 Hs1).
            * subst s4. apply override_hp_idem.
          + rewrite Hl, Hc1. rewrite list_lookup_insert_eq by (eapply lookup_lt_Some, Hs1).
            rewrite bool_decide_eq_false_2.
            2:{ subst s4. destruct (override_hp_frame snap s0) as (-> & _).
                exact (Hno c0 s0 Hc1 Hs1). }
            cbn [andb]. rewrite app_nil_r.
            rewrite (Hwr nd (<[c0:=s4]> (heap g1))); [exact HG3 | reflexivity |].
            intros sid a Ha. destruct (Hentry' sid a Ha) as (s & Hs).
            exists s, s. rewrite list_lookup_insert_ne by (intros <-; exact (Hother sid c0 Ha eq_refl)).
            auto.
        - assert (Hc1 : core g1 = None) by (rewrite Hcore1; exact Hcg).
          rewrite override_core_hp_None by exact Hc1.
          change (settled_world g snap
                    (with_core (core g1)
                       (with_structures nd (with_grid G3 (with_heap (heap g1) g1))))).
          apply settled_world_intro; [exact I1 | | | | ]; fold E.
          + apply HS1. reflexivity.
          + intros sid a Ha. left. eapply HS2, Ha.
          + rewrite Hl. right. split_and!; [exact Hxy | exact Hcid_nd |].
            intros c s Hc. rewrite Hc1 in Hc. discriminate.
          + rewrite Hl, Hc1. rewrite app_nil_r. exact HG3. }
      destruct (StructState.gx cd) as [gx|] eqn:Hx;
        [destruct (StructState.gy cd) as [gy|] eqn:Hy |].
      * (* no local core with the id, coordinates given: a new core *)
        rewrite (sync_core_create g1 nd cid cd gx gy Hno Hx Hy). cbn [fst snd alloc].
        set (n := length (heap g1)).
        set (s_new := apply_state (set_network_id cid (Core_init gx gy)) cd).
        rewrite place_on_grid_eq.
        change (in_bounds (with_core ?c (with_heap ?h g1)) ?x ?y) with (in_bounds g1 x y).
        rewrite Hb1.
        change (grid (with_core ?c (with_heap ?h g1))) with (grid g1).
        match goal with |- context [clean_removed ?r ?i ?x] =>
          set (g2 := x); rewrite (clean_removed_with_grid r i g2);
          set (G3 := grid (clean_removed r i g2)) end.
        rewrite (override_core_hp_Some _ snap n) by reflexivity.
        assert (Hn : (heap g1 ++ [s_new]) !! n = Some s_new).
        { subst n. rewrite lookup_app_r by lia. rewrite Nat.sub_diag. reflexivity. }
        rewrite (modify_Some _ n _ s_new) by exact Hn.
        change (heap (with_structures (<[cid:=n]> nd) (with_grid G3 g2)))
          with (heap g1 ++ [s_new]).
        set (s4 := override_hp snap s_new).
        assert (Hvalid : forall sid a, nd !! sid = Some a -> (a < n)%nat).
        { intros sid a Ha. destruct (Hentry' sid a Ha) as (s & Hs).
          eapply lookup_lt_Some, Hs. }
        assert (Hk_new : kind (set_network_id cid (Core_init gx gy)) = KCore) by reflexivity.
        assert (Hxy : grid_x s4 = gx /\ grid_y s4 = gy /\ network_id s4 = cid).
        { subst s4 s_new.
          match goal with |- context [apply_state ?x cd] =>
            destruct (override_hp_frame snap (apply_state x cd)) as (-> & -> & -> & _);
            destruct (apply_state_frame x cd) as (-> & -> & -> & _) end.
          split_and!; reflexivity. }
        destruct Hxy as (Hx4 & Hy4 & Hid4).
        change (settled_world g snap
                  (with_core (Some n)
                     (with_structures (<[cid:=n]> nd)
                        (with_grid G3 (with_heap (<[n:=s4]> (heap g1 ++ [s_new])) g1))))).
        apply settled_world_intro; [exact I1 | | | | ]; fold E.
        -- intros sid d Hin Hnc.
           rewrite lookup_insert_ne by (intros <-; exact (Hne _ d Hin Hnc eq_refl)).
           apply HS1; [|exact Hin|exact Hnc]. intros sid' a' Ha'.
           pose proof (Hvalid sid' a' Ha') as Hlt.
           rewrite list_lookup_insert_ne by lia. apply lookup_app_l. exact Hlt.
        -- intros sid a Ha. destruct (decide (sid = cid)) as [-> | Hnes].
           ++ right. eauto.
           ++ rewrite lookup_insert_ne in Ha by congruence. left. eapply HS2, Ha.
        -- rewrite Hl. left. exists n, s4. split_and!.
           ++ reflexivity.
           ++ apply list_lookup_insert_eq. eapply lookup_lt_Some, Hn.
           ++ exact Hid4.
           ++ apply lookup_insert_eq.
           ++ subst s4 s_new. apply core_settles. exact Hk_new.
        -- rewrite Hl. rewrite list_lookup_insert_eq by (eapply lookup_lt_Some, Hn).
           rewrite Hx4, Hy4. rewrite bool_decide_eq_true_2 by exact Hid4. cbn [andb].
           rewrite (Hwr (<[cid:=n]> nd) (<[n:=s4]> (heap g1 ++ [s_new]))).
           2:{ intros sid d Hin Hnc. apply lookup_insert_ne. intros <-.
               exact (Hne _ d Hin Hnc eq_refl). }
           2:{ intros sid a Ha. destruct (Hentry' sid a Ha) as (s & Hs).
               pose proof (Hvalid sid a Ha) as Hlt.
               exists s, s. rewrite list_lookup_insert_ne by lia.
               rewrite lookup_app_l by exact Hlt. auto. }
           subst G3. apply (settled_grid_writes g g2 (structures g) E.*1).
           ++ subst g2. change (grid (with_grid ?x ?y)) with x.
              destruct (in_bounds g gx gy).
              ** rewrite apply_writes_snoc, I6. reflexivity.
              ** rewrite app_nil_r. exact I6.
           ++ intros k a sid Hin HR. apply elem_of_app in Hin as [Hin | Hin].
              ** eapply HW; eassumption.
              ** assert (a = n) as ->.
                 { destruct (in_bounds g gx gy);
                     [apply list_elem_of_singleton in Hin; congruence
                     | apply elem_of_nil in Hin; destruct Hin]. }
                 destruct (Hreg sid n HR) as (s' & Hs' & _).
                 apply lookup_lt_Some in Hs'. subst n. lia.
      * apply Hskip. right. reflexivity.
      * apply Hskip. left. reflexivity.
  - (* no core entry: the local core goes *)
    assert (HG3 : forall g2 : Game,
              (forall k a, (list_to_map (reverse (writes_of g nd (heap g1) E))
                              : gmap (Z * Z) Ref) !! k = Some a ->
                           grid g2 !! k = Some (CellObj a)) ->
              (forall k, (list_to_map (reverse (writes_of g nd (heap g1) E))
                            : gmap (Z * Z) Ref) !! k = None ->
                         (forall a, grid g !! k <> Some (CellObj a)) ->
                         grid g2 !! k = grid g !! k) ->
              forall gr : gmap (Z * Z) Cell,
                (forall k, gr !! k = grid (clean_removed (structures g) E.*1 g2) !! k
                   \/ (gr !! k = grid g !! k /\ forall a, grid g !! k <> Some (CellObj a))) ->
                apply_writes (writes_of g nd (heap g1) E ++ []) gr
                = grid (clean_removed (structures g) E.*1 g2)).
    { intros g2 H1 H2. rewrite app_nil_r.
      apply (settled_grid g g2 (structures g) E.*1); [exact H1 | exact H2 | exact HW]. }
    destruct Hcases as [(c0 & s0 & Hcg & Hs0 & Hk0) | Hcg].
    + pose proof (HU c0 s0 Hcg Hs0 Hk0) as Hs1.
      assert (Hc1 : core g1 = Some c0) by (rewrite Hcore1; exact Hcg).
      rewrite (sync_core_absent_Some g1 nd c0 s0 Hc1 Hs1). cbn [fst snd]. rewrite Hb1.
      set (b := in_bounds g (grid_x s0) (grid_y s0)
                && cell_is (grid g1 !! (grid_x s0, grid_y s0)) c0).
      rewrite (restore_if_with_grid g1 b).
      set (G2 := grid (if b then restore_cell g1 (grid_x s0) (grid_y s0) else g1)).
      set (g2 := with_core None (with_grid G2 g1)).
      rewrite (clean_removed_with_grid _ _ g2).
      set (G3 := grid (clean_removed (structures g) E.*1 g2)).
      rewrite override_core_hp_None by reflexivity.
      assert (Hother : forall sid a, nd !! sid = Some a -> a <> c0).
      { intros sid a Ha ->. apply (HV sid c0 s0 Ha Hs1). unfold building_type.
        rewrite Hk0. reflexivity. }
      assert (HG2 : forall k, grid g1 !! k <> Some (CellObj c0) -> G2 !! k = grid g1 !! k).
      { intros k Hk. subst G2. destruct b eqn:Hbv; [|reflexivity].
        subst b. apply andb_true_iff in Hbv as [_ Hcell]. apply cell_is_true in Hcell.
        apply restore_cell_lookup_ne. intros ->. exact (Hk Hcell). }
      change (settled_world g snap
                (with_core None
                   (with_structures nd (with_grid G3 (with_heap (heap g1) g1))))).
      apply settled_world_intro; [exact I1 | | | | ]; fold E.
      * apply HS1. reflexivity.
      * intros sid a Ha. left. eapply HS2, Ha.
      * rewrite Hl. reflexivity.
      * rewrite Hl. subst G3. apply HG3.
        -- intros k a Hlw. change (grid g2) with G2.
           assert (Hk1 : grid g1 !! k = Some (CellObj a)) by (rewrite Hlw1, Hlw; reflexivity).
           rewrite HG2; [exact Hk1|]. rewrite Hk1. intros [= ->].
           apply last_write_elem, writes_of_elem in Hlw as (sid & d & s & _ & _ & Ha & _).
           exact (Hother sid c0 Ha eq_refl).
        -- intros k Hlw Hfree. change (grid g2) with G2.
           assert (Hk1 : grid g1 !! k = grid g !! k) by (rewrite Hlw1, Hlw; reflexivity).
           rewrite HG2; [exact Hk1|]. rewrite Hk1. apply Hfree.
    + assert (Hc1 : core g1 = None) by (rewrite Hcore1; exact Hcg).
      rewrite (sync_core_absent_None g1 nd Hc1). cbn [fst snd].
      rewrite (clean_removed_with_grid _ _ g1).
      set (G3 := grid (clean_removed (structures g) E.*1 g1)).
      rewrite override_core_hp_None by exact Hc1.
      change (settled_world g snap
                (with_core (core g1)
                   (with_structures nd (with_grid G3 (with_heap (heap g1) g1))))).
      apply settled_world_intro; [exact I1 | | | | ]; fold E.
      * apply HS1. reflexivity.
      * intros sid a Ha. left. eapply HS2, Ha.
      * rewrite Hl. exact Hc1.
      * rewrite Hl. subst G3. apply HG3.
        -- intros k a Hlw. rewrite Hlw1, Hlw. reflexivity.
        -- intros k Hlw _. rewrite Hlw1, Hlw. reflexivity.
Qed.

(** ** The other sections of [apply_full_snapshot] *)

Lemma apply_basic_state_settled (snap : Snapshot.t) (g : Game) :
  basic_settled snap g -> apply_basic_state g snap = g.
Proof.
  intros (H1 & H2 & H3 & H4 & H5 & H6 & H7 & H8). unfold apply_basic_state.
  rewrite H1. destruct g. cbn in *. rewrite H2, H3, H4, H5, H6, H7, H8. reflexivity.
Qed.

Lemma apply_basic_state_settles (snap : Snapshot.t) (g : Game) :
  basic_settled snap (apply_basic_state g snap).
Proof. unfold basic_settled, apply_basic_state. cbn. rewrite !get_or_idem. split_and!; reflexivity. Qed.

Lemma apply_base_terrain_eq (parse : string -> option (Z * Z)) (g : Game) (snap : Snapshot.t) :
  apply_base_terrain parse g snap
  = if bool_decide (base_terrain g = ∅)
       || bool_decide (is_Some (Snapshot.game_mode_for_save snap))
    then with_grid (rebuilt_terrain parse g snap).2
           (with_base_terrain (rebuilt_terrain parse g snap).1 g)
    else g.
Proof.
  unfold apply_base_terrain, rebuilt_terrain. destruct (_ || _); [|reflexivity].
  destruct (Snapshot.base_terrain snap); [reflexivity|].
  destruct (mapM _ _); [|reflexivity]. destruct (build_terrain g _). reflexivity.
Qed.

Lemma build_terrain_bounds (g g' : Game) (entries : list (Z * Z * string)) :
  (forall x y, in_bounds g' x y = in_bounds g x y) ->
  build_terrain g' entries = build_terrain g entries.
Proof.
  intros Hb. unfold build_terrain. generalize (∅ : gmap (Z * Z) string, ∅ : gmap (Z * Z) Cell).
  induction entries as [|[[gx gy] r] l IH]; intros acc; [reflexivity|].
  cbn [foldl]. destruct acc as [bt gr]. rewrite Hb. apply IH.
Qed.

Lemma rebuilt_terrain_bounds (parse : string -> option (Z * Z)) (g g' : Game)
    (snap : Snapshot.t) :
  (forall x y, in_bounds g' x y = in_bounds g x y) ->
  rebuilt_terrain parse g' snap = rebuilt_terrain parse g snap.
Proof.
  intros Hb. unfold rebuilt_terrain. destruct (Snapshot.base_terrain snap); [reflexivity|].
  destruct (mapM _ _); [|reflexivity]. apply build_terrain_bounds. exact Hb.
Qed.

(** A rebuilt grid holds resource patches and nothing else. *)
Lemma build_terrain_no_object (g : Game) (entries : list (Z * Z * string)) (k : Z * Z)
    (a : Ref) :
  (build_terrain g entries).2 !! k <> Some (CellObj a).
Proof.
  unfold build_terrain.
  assert (H : forall (acc : gmap (Z * Z) string * gmap (Z * Z) Cell),
            acc.2 !! k <> Some (CellObj a) ->
            (foldl (fun '(bt, gr) '(gx, gy, r) =>
               (<[(gx, gy) := r]> bt,
                if in_bounds g gx gy
                then <[(gx, gy) := CellPatch (ResourcePatch_init gx gy r)]> gr else gr))
              acc entries).2 !! k <> Some (CellObj a)).
  { induction entries as [|[[gx gy] r] l IH]; intros [bt gr] Hacc; [exact Hacc|].
    cbn [foldl]. apply IH. cbn [snd] in *. destruct (in_bounds g gx gy); [|exact Hacc].
    destruct (decide (k = (gx, gy))) as [-> | Hne].
    - rewrite lookup_insert_eq. discriminate.
    - rewrite lookup_insert_ne by congruence. exact Hacc. }
  apply H. cbn. rewrite lookup_empty. discriminate.
Qed.

Lemma rebuilt_terrain_no_object (parse : string -> option (Z * Z)) (g : Game)
    (snap : Snapshot.t) (k : Z * Z) (a : Ref) :
  (rebuilt_terrain parse g snap).2 !! k <> Some (CellObj a).
Proof.
  unfold rebuilt_terrain.
  destruct (Snapshot.base_terrain snap); [cbn; rewrite lookup_empty; discriminate|].
  destruct (mapM _ _); [apply build_terrain_no_object|].
  cbn. rewrite lookup_empty. discriminate.
Qed.

Lemma Player_apply_state_idem (p : Player.t) (d : PlayerState.t) :
  Player_apply_state (Player_apply_state p d) d = Player_apply_state p d.
Proof.
  destruct p as [pid wx wy vx vy nm ci col x]. destruct d as [did dx dy dn dc].
  unfold Player_apply_state. cbn.
  destruct dc as [c|]; cbn.
  - destruct (c =? ci) eqn:E; cbn.
    + rewrite E. cbn. rewrite !get_or_idem. reflexivity.
    + rewrite Z.eqb_refl. cbn. rewrite !get_or_idem. reflexivity.
  - rewrite Z.eqb_refl. cbn. rewrite Z.eqb_refl. cbn. rewrite !get_or_idem. reflexivity.
Qed.

Lemma create_player_settled (g : Game) (pid : Z) (d : PlayerState.t) (p : Player.t) :
  create_player g pid d = Some p -> Player_apply_state p d = p.
Proof.
  unfold create_player. intros [= <-]. unfold Player_apply_state, Player_init. cbn.
  rewrite !get_or_idem, Z.eqb_refl. reflexivity.
Qed.

Lemma Enemy_apply_state_idem (e : Enemy.t) (d : EnemyState.t) :
  Enemy_apply_state (Enemy_apply_state e d) d = Enemy_apply_state e d.
Proof. destruct e. unfold Enemy_apply_state. cbn. rewrite !get_or_idem. reflexivity. Qed.

Lemma Projectile_apply_state_idem (p : Projectile.t) (d : ProjectileState.t) :
  Projectile_apply_state (Projectile_apply_state p d) d = Projectile_apply_state p d.
Proof. destruct p. unfold Projectile_apply_state. cbn. rewrite !get_or_idem. reflexivity. Qed.

Lemma apply_base_terrain_frame (parse : string -> option (Z * Z)) (g : Game)
    (snap : Snapshot.t) :
  apply_base_terrain parse g snap
  = with_grid (grid (apply_base_terrain parse g snap))
      (with_base_terrain (base_terrain (apply_base_terrain parse g snap)) g).
Proof.
  rewrite apply_base_terrain_eq. destruct (_ || _); [reflexivity | destruct g; reflexivity].
Qed.

Lemma create_enemy_settled (g : Game) (eid : string) (d : EnemyState.t) (e : Enemy.t) :
  create_enemy g eid d = Some e -> Enemy_apply_state e d = e.
Proof. unfold create_enemy. intros [= <-]. apply Enemy_apply_state_idem. Qed.

Lemma create_projectile_settled (pid : string) (d : ProjectileState.t) (p : Projectile.t) :
  create_projectile pid d = Some p -> Projectile_apply_state p d = p.
Proof.
  unfold create_projectile.
  destruct (ProjectileState.x d), (ProjectileState.y d), (ProjectileState.vx d),
    (ProjectileState.vy d); try discriminate.
  intros [= <-]. apply Projectile_apply_state_idem.
Qed.

Lemma sync_players_settled (g0 g : Game) (snap : Snapshot.t) :
  NoDup (Snapshot.players snap).*1 ->
  map_width_px g = map_width_px g0 -> map_height_px g = map_height_px g0 ->
  players g = players (sync_players g0 snap) ->
  sync_players g snap = g.
Proof.
  intros Hnd Hw Hh Hp. unfold sync_players in *. cbn [players with_players] in Hp.
  assert (Hc : create_player g = create_player g0).
  { unfold create_player. rewrite Hw, Hh. reflexivity. }
  rewrite Hc, Hp.
  rewrite sync_dict_idempotent;
    [| exact Hnd | apply Player_apply_state_idem | apply create_player_settled].
  rewrite <- Hp. destruct g; reflexivity.
Qed.

Lemma sync_enemies_settled (g0 g : Game) (snap : Snapshot.t) :
  NoDup (Snapshot.enemies snap).*1 ->
  map_width_px g = map_width_px g0 -> map_height_px g = map_height_px g0 ->
  enemies g = enemies (sync_enemies g0 snap) ->
  sync_enemies g snap = g.
Proof.
  intros Hnd Hw Hh Hp. unfold sync_enemies in *. cbn [enemies with_enemies] in Hp.
  assert (Hc : create_enemy g = create_enemy g0).
  { unfold create_enemy. rewrite Hw, Hh. reflexivity. }
  rewrite Hc, Hp.
  rewrite sync_dict_idempotent;
    [| exact Hnd | apply Enemy_apply_state_idem | apply create_enemy_settled].
  rewrite <- Hp. destruct g; reflexivity.
Qed.

Lemma sync_projectiles_settled (g0 g : Game) (snap : Snapshot.t) :
  NoDup (Snapshot.projectiles snap).*1 ->
  projectiles g = projectiles (sync_projectiles g0 snap) ->
  sync_projectiles g snap = g.
Proof.
  intros Hnd Hp. unfold sync_projectiles in *. cbn [projectiles with_projectiles] in Hp.
  rewrite Hp.
  rewrite sync_dict_idempotent;
    [| exact Hnd | apply Projectile_apply_state_idem | apply create_projectile_settled].
  rewrite <- Hp. destruct g; reflexivity.
Qed.

(** ** Applying a snapshot twice *)

(** The terrain section on a world that went through the whole of
    [apply_full_snapshot]: it leaves the world alone, or it rebuilds the
    grid that the first run had rebuilt. *)
Lemma apply_base_terrain_again (parse : string -> option (Z * Z)) (snap : Snapshot.t)
    (g1 g6 : Game) (gr4 : gmap (Z * Z) Cell) :
  (forall x y, in_bounds g6 x y = in_bounds g1 x y) ->
  base_terrain g6 = base_terrain (apply_base_terrain parse g1 snap) ->
  grid g6 = gr4 ->
  exists Ga,
    apply_base_terrain parse g6 snap = with_grid Ga g6
    /\ forall k, Ga !! k = gr4 !! k
         \/ (Ga !! k = grid (apply_base_terrain parse g1 snap) !! k
             /\ forall a, grid (apply_base_terrain parse g1 snap) !! k <> Some (CellObj a)).
Proof.
  intros Hb6 Hbt6 Hgr6.
  rewrite (apply_base_terrain_eq parse g6).
  rewrite (rebuilt_terrain_bounds parse g1 g6 snap Hb6).
  rewrite (apply_base_terrain_eq parse g1) in *.
  destruct (bool_decide (base_terrain g6 = ∅)
            || bool_decide (is_Some (Snapshot.game_mode_for_save snap))) eqn:C6.
  - destruct (bool_decide (base_terrain g1 = ∅)
              || bool_decide (is_Some (Snapshot.game_mode_for_save snap))) eqn:C1.
    + exists (rebuilt_terrain parse g1 snap).2. split.
      * change (base_terrain (with_grid ?x (with_base_terrain ?y g1))) with y in Hbt6.
        rewrite <- Hbt6. destruct g6; reflexivity.
      * intros k. right. split; [reflexivity|].
        intros a. apply rebuilt_terrain_no_object.
    + exfalso. rewrite Hbt6 in C6. rewrite C6 in C1. discriminate.
  - exists (grid g6). split; [destruct g6; reflexivity|].
    intros k. left. rewrite Hgr6. reflexivity.
Qed.

Lemma apply_full_snapshot_settled (parse : string -> option (Z * Z)) (draw : string -> Q)
    (snap : Snapshot.t) (g1 g2 g3 g4 g5 g6 : Game) :
  snapshot_keys_distinct snap ->
  basic_settled snap g1 ->
  g2 = apply_base_terrain parse g1 snap ->
  g3 = sync_players g2 snap ->
  settled_world g3 snap g4 ->
  g5 = sync_enemies g4 snap ->
  g6 = sync_projectiles g5 snap ->
  apply_full_snapshot parse draw g6 snap = g6.
Proof.
  intros (NDp & NDs & NDe & NDj) B1 P2 P3 SW P5 P6.
  pose proof (apply_base_terrain_frame parse g1 snap) as F2. rewrite <- P2 in F2.
  assert (F3 : g3 = with_players (players g3) g2) by (rewrite P3; reflexivity).
  pose proof SW as (F4 & _).
  assert (F5 : g5 = with_enemies (enemies g5) g4) by (rewrite P5; reflexivity).
  assert (F6 : g6 = with_projectiles (projectiles g6) g5) by (rewrite P6; reflexivity).
  assert (H63 : g6 = with_projectiles (projectiles g6) (with_enemies (enemies g5)
                  (with_core (core g4) (with_structures (structures g4)
                     (with_grid (grid g4) (with_heap (heap g4) g3)))))).
  { rewrite F6 at 1. rewrite F5 at 1. rewrite F4 at 1. reflexivity. }
  assert (H31 : g3 = with_players (players g3)
                  (with_grid (grid g2) (with_base_terrain (base_terrain g2) g1))).
  { rewrite F3 at 1. rewrite F2 at 1. reflexivity. }
  assert (B6 : basic_settled snap g6).
  { unfold basic_settled in *. rewrite H63, H31. exact B1. }
  assert (Hb3 : forall x y, in_bounds g3 x y = in_bounds g1 x y).
  { intros x y. rewrite H31. reflexivity. }
  assert (Hb6 : forall x y, in_bounds g6 x y = in_bounds g1 x y).
  { intros x y. rewrite <- Hb3. rewrite H63. reflexivity. }
  assert (Hbt6 : base_terrain g6 = base_terrain g2).
  { rewrite H63, F3. reflexivity. }
  assert (Hgr6 : grid g6 = grid g4) by (rewrite H63; reflexivity).
  assert (Hgr3 : grid g3 = grid g2) by (rewrite F3; reflexivity).
  assert (Hw6 : map_width_px g6 = map_width_px g2 /\ map_height_px g6 = map_height_px g2).
  { rewrite H63, F3. split; reflexivity. }
  assert (Hw64 : map_width_px g6 = map_width_px g4 /\ map_height_px g6 = map_height_px g4).
  { rewrite F6, F5. split; reflexivity. }
  assert (Hpl6 : players g6 = players g3) by (rewrite H63; reflexivity).
  assert (Hen6 : enemies g6 = enemies g5) by (rewrite F6; reflexivity).
  assert (Hh6 : heap g6 = heap g4 /\ structures g6 = structures g4 /\ core g6 = core g4).
  { rewrite F6, F5. split_and!; reflexivity. }
  destruct Hw6 as [Hw6 Hh6']. destruct Hw64 as [Hw64 Hh64].
  destruct Hh6 as (Hh6 & Hd6 & Hc6).
  unfold apply_full_snapshot. cbv zeta.
  rewrite (apply_basic_state_settled snap g6 B6).
  destruct (apply_base_terrain_again parse snap g1 g6 (grid g4) Hb6) as (Ga & -> & HGa).
  { rewrite Hbt6, P2. reflexivity. }
  { exact Hgr6. }
  rewrite <- P2 in HGa. rewrite <- Hgr3 in HGa.
  rewrite (sync_players_settled g2 (with_grid Ga g6) snap NDp);
    [| exact Hw6 | exact Hh6' | rewrite <- P3; exact Hpl6].
  rewrite (sync_structures_settled draw g3 snap g4 (with_grid Ga g6) SW);
    [| exact Hh6 | exact Hd6 | exact Hc6
     | intros x y; rewrite Hb3; exact (Hb6 x y) | exact HGa].
  assert (E6 : with_grid (grid g4) (with_grid Ga g6) = g6).
  { rewrite <- Hgr6. destruct g6; reflexivity. }
  rewrite E6.
  rewrite (sync_enemies_settled g4 g6 snap NDe);
    [| exact Hw64 | exact Hh64 | rewrite <- P5; exact Hen6].
  apply (sync_projectiles_settled g5 g6 snap NDj). rewrite <- P6. reflexivity.
Qed.

(** Applying the same full snapshot a second time changes nothing, for a
    snapshot whose dictionaries have each key once and whose powered
    turrets are at tier 3, applied to a world whose registry and core are
    consistent and whose objects have the types the snapshot gives them. *)
Theorem apply_full_snapshot_idempotent (parse : string -> option (Z * Z))
    (draw : string -> Q) (g : Game) (snap : Snapshot.t) :
  snapshot_keys_distinct snap -> registry_ok g -> core_ok g -> types_agree g snap ->
  powered_turrets_tier3 snap ->
  apply_full_snapshot parse draw (apply_full_snapshot parse draw g snap) snap
  = apply_full_snapshot parse draw g snap.
Proof.
  intros ND Hreg Hcore Hty Hpw.
  pose proof ND as (_ & NDs & _).
  apply (apply_full_snapshot_settled parse draw snap
           (apply_basic_state g snap)
           (apply_base_terrain parse (apply_basic_state g snap) snap)
           (sync_players (apply_base_terrain parse (apply_basic_state g snap) snap) snap)
           (sync_structures draw
              (sync_players (apply_base_terrain parse (apply_basic_state g snap) snap) snap)
              snap)
           (sync_enemies
              (sync_structures draw
                 (sync_players (apply_base_terrain parse (apply_basic_state g snap) snap) snap)
                 snap) snap)); try reflexivity.
  - exact ND.
  - apply apply_basic_state_settles.
  - pose proof (apply_base_terrain_frame parse (apply_basic_state g snap) snap) as F2.
    set (g2 := apply_base_terrain parse (apply_basic_state g snap) snap) in *.
    clearbody g2.
    assert (F : heap (sync_players g2 snap) = heap g
                /\ structures (sync_players g2 snap) = structures g
                /\ core (sync_players g2 snap) = core g).
    { unfold sync_players. rewrite F2. split_and!; reflexivity. }
    destruct F as (Hh3 & Hd3 & Hc3).
    apply sync_structures_settles; [| | | exact Hpw | exact NDs].
    + intros sid a. rewrite Hd3, Hh3. apply Hreg.
    + intros c. rewrite Hc3, Hh3. apply Hcore.
    + intros sid d a s. rewrite Hd3, Hh3. apply Hty.
Qed.

Lemma apply_state_idem_witness :
  resets_power (Turret_init 5 5 0) powered_tier3_turret = false
  /\ apply_state (apply_state (Turret_init 5 5 0) powered_tier3_turret) powered_tier3_turret
     = apply_state (Turret_init 5 5 0) powered_tier3_turret.
Proof. split; [reflexivity | apply apply_state_idem; reflexivity]. Defined.

(** Applying to a structure the state it has itself changes nothing. *)
Lemma apply_state_get_state (s : Structure) : apply_state s (get_state s) = s.
Proof.
  rewrite apply_state_split.
  assert (Ht : StructState.tier (get_state s) = Some (tier s)).
  { unfold get_state. destruct (kind s); reflexivity. }
  rewrite Ht. cbn [get_or]. rewrite Z.eqb_refl. cbn [negb andb].
  destruct_structure s; reflexivity.
Qed.

Lemma powered_turrets_tier3_Forall (snap : Snapshot.t) :
  Forall (fun e : string * StructState.t =>
            StructState.type_ e.2 = Some BUILDING_TURRET ->
            StructState.is_powered e.2 = Some true ->
            StructState.tier e.2 = Some 3 \/ StructState.tier e.2 = None)
    (Snapshot.structures snap) ->
  powered_turrets_tier3 snap.
Proof.
  intros H sid d Hin. rewrite Forall_forall in H. exact (H (sid, d) Hin).
Qed.

Lemma apply_full_snapshot_idempotent_witness :
  snapshot_keys_distinct (snapshot_of battle_world)
  /\ registry_ok (Game_init 1280 768 ModeClient)
  /\ core_ok (Game_init 1280 768 ModeClient)
  /\ types_agree (Game_init 1280 768 ModeClient) (snapshot_of battle_world)
  /\ powered_turrets_tier3 (snapshot_of battle_world)
  /\ apply_full_snapshot parse_decimal_key no_draw
       (apply_full_snapshot parse_decimal_key no_draw (Game_init 1280 768 ModeClient)
          (snapshot_of battle_world)) (snapshot_of battle_world)
     = apply_full_snapshot parse_decimal_key no_draw (Game_init 1280 768 ModeClient)
         (snapshot_of battle_world).
Proof.
  assert (H1 : snapshot_keys_distinct (snapshot_of battle_world)).
  { unfold snapshot_keys_distinct. split_and!; vm_compute;
      repeat (apply NoDup_cons; split;
              [rewrite ?elem_of_cons, elem_of_nil; intuition discriminate|]);
      apply NoDup_nil_2. }
  assert (H2 : registry_ok (Game_init 1280 768 ModeClient)).
  { intros sid a H. change (structures (Game_init 1280 768 ModeClient))
      with (∅ : gmap string Ref) in H. rewrite lookup_empty in H. discriminate. }
  assert (H3 : core_ok (Game_init 1280 768 ModeClient)).
  { intros c H. discriminate. }
  assert (H4 : types_agree (Game_init 1280 768 ModeClient) (snapshot_of battle_world)).
  { intros sid d a s _ H. change (structures (Game_init 1280 768 ModeClient))
      with (∅ : gmap string Ref) in H. rewrite lookup_empty in H. discriminate. }
  assert (H5 : powered_turrets_tier3 (snapshot_of battle_world)).
  { apply powered_turrets_tier3_Forall. vm_compute.
    repeat (apply Forall_cons; split; [intros _ [=]|]). apply Forall_nil_2. }
  split_and!; try assumption.
  apply apply_full_snapshot_idempotent; assumption.
Defined.

(** ** What the sections keep and what they drop *)

Lemma received_lookup {K D} `{Countable K} (l : list (K * D)) (k : K) (d : D) :
  NoDup l.*1 -> (k, d) ∈ l -> (list_to_map l : gmap K D) !! k = Some d.
Proof. intros Hnd Hin. apply elem_of_list_to_map_1; assumption. Qed.

(** The players section: an id that the snapshot lacks is dropped from
    the local dictionary, and an id that it has is present afterwards with
    the received position and name -- whether the player was known or is
    new. *)
Theorem sync_players_spec (g : Game) (snap : Snapshot.t) (pid : Z) :
  NoDup (Snapshot.players snap).*1 ->
  (pid ∉ (Snapshot.players snap).*1 -> players (sync_players g snap) !! pid = None)
  /\ (forall d, (pid, d) ∈ Snapshot.players snap ->
        exists p, players (sync_players g snap) !! pid = Some p
                  /\ (forall x, PlayerState.x d = Some x -> Player.world_x p = x)
                  /\ (forall y, PlayerState.y d = Some y -> Player.world_y p = y)
                  /\ (forall n, PlayerState.name d = Some n -> Player.name p = n)
                  /\ (forall c, PlayerState.color_idx d = Some c -> Player.color_index p = c)).
Proof.
  intros Hnd. unfold sync_players. cbn [players with_players].
  rewrite (sync_dict_lookup _ _ _ _ pid Hnd). split.
  - intros Hno. rewrite (not_elem_of_list_to_map_1 _ _ Hno). reflexivity.
  - intros d Hin. rewrite (received_lookup _ _ _ Hnd Hin).
    destruct (players g !! pid) as [p|].
    + exists (Player_apply_state p d). split; [reflexivity|].
      destruct p as [id0 wx wy vx vy nm ci col x0]. destruct d as [did dx dy dn dc].
      unfold Player_apply_state. cbn.
      destruct dc as [c|]; cbn; [destruct (c =? ci) eqn:E; cbn |].
      * apply Z.eqb_eq in E. subst c.
        split_and!; intros ? [= ->]; reflexivity.
      * split_and!; intros ? [= ->]; reflexivity.
      * rewrite Z.eqb_refl. cbn. split_and!; intros ? [=]; subst; reflexivity.
    + eexists. split; [reflexivity|]. destruct d as [did dx dy dn dc]. cbn.
      split_and!; intros ? [= ->]; reflexivity.
Qed.

Lemma sync_players_spec_witness :
  NoDup (Snapshot.players (snapshot_of battle_world)).*1
  /\ (1 ∉ (Snapshot.players (snapshot_of battle_world)).*1 ->
      players (sync_players demo_world (snapshot_of battle_world)) !! 1 = None).
Proof.
  assert (H : NoDup (Snapshot.players (snapshot_of battle_world)).*1).
  { vm_compute. repeat (apply NoDup_cons; split;
      [rewrite ?elem_of_cons, elem_of_nil; intuition discriminate|]). apply NoDup_nil_2. }
  split; [exact H|]. apply (sync_players_spec demo_world (snapshot_of battle_world) 1 H).
Defined.

(** The projectiles section: an id that the snapshot lacks is dropped; an
    unknown id whose entry misses a coordinate or a velocity is skipped;
    a known id keeps its object (and with it the damage and the target),
    moved to the received position. *)
Theorem sync_projectiles_spec (g : Game) (snap : Snapshot.t) (pid : string) :
  NoDup (Snapshot.projectiles snap).*1 ->
  (pid ∉ (Snapshot.projectiles snap).*1 -> projectiles (sync_projectiles g snap) !! pid = None)
  /\ (forall d, (pid, d) ∈ Snapshot.projectiles snap -> projectiles g !! pid = None ->
        (ProjectileState.x d = None \/ ProjectileState.y d = None
         \/ ProjectileState.vx d = None \/ ProjectileState.vy d = None) ->
        projectiles (sync_projectiles g snap) !! pid = None)
  /\ (forall d p, (pid, d) ∈ Snapshot.projectiles snap -> projectiles g !! pid = Some p ->
        exists p', projectiles (sync_projectiles g snap) !! pid = Some p'
                   /\ Projectile.damage p' = Projectile.damage p
                   /\ Projectile.target_enemy_id p' = Projectile.target_enemy_id p
                   /\ Projectile.world_x p' = get_or (ProjectileState.x d) (Projectile.world_x p)
                   /\ Projectile.world_y p' = get_or (ProjectileState.y d) (Projectile.world_y p)).
Proof.
  intros Hnd. unfold sync_projectiles. cbn [projectiles with_projectiles].
  rewrite (sync_dict_lookup _ _ _ _ pid Hnd). split_and!.
  - intros Hno. rewrite (not_elem_of_list_to_map_1 _ _ Hno). reflexivity.
  - intros d Hin Hloc Hmiss. rewrite (received_lookup _ _ _ Hnd Hin), Hloc.
    unfold create_projectile.
    destruct Hmiss as [-> | [-> | [-> | ->]]]; [reflexivity | | |];
      destruct (ProjectileState.x d); try reflexivity;
      destruct (ProjectileState.y d); try reflexivity;
      destruct (ProjectileState.vx d); reflexivity.
  - intros d p Hin Hloc. rewrite (received_lookup _ _ _ Hnd Hin), Hloc.
    eexists. split; [reflexivity|]. destruct p. split_and!; reflexivity.
Qed.

Lemma sync_projectiles_spec_witness :
  NoDup (Snapshot.projectiles (snapshot_of battle_world)).*1
  /\ ("p_2" ∉ (Snapshot.projectiles (snapshot_of battle_world)).*1 ->
      projectiles (sync_projectiles battle_world (snapshot_of battle_world)) !! "p_2" = None).
Proof.
  assert (H : NoDup (Snapshot.projectiles (snapshot_of battle_world)).*1).
  { vm_compute. repeat (apply NoDup_cons; split;
      [rewrite ?elem_of_cons, elem_of_nil; intuition discriminate|]). apply NoDup_nil_2. }
  split; [exact H|].
  apply (sync_projectiles_spec battle_world (snapshot_of battle_world) "p_2" H).
Defined.

Lemma settled_world_registry (g : Game) (snap : Snapshot.t) (g4 : Game) (sid : string)
    (a : Ref) :
  settled_world g snap g4 -> structures g4 !! sid = Some a ->
  sid ∈ (Snapshot.structures snap).*1 /\ is_Some (heap g4 !! a).
Proof.
  intros (_ & S1 & S2 & S3 & _) Ha.
  destruct (S2 sid a Ha) as [(d & Hin & Hnc) | (cd & Hl)].
  - split; [exact (list_elem_of_fmap_2 fst _ _ Hin)|].
    specialize (S1 sid d Hin Hnc). rewrite Ha in S1. destruct S1 as (s & -> & _). eauto.
  - rewrite Hl in S3. pose proof (last_core_entry_Some _ _ _ Hl) as [Hin _].
    split; [exact (list_elem_of_fmap_2 fst _ _ Hin)|].
    destruct S3 as [(c & s & _ & Hs & _ & Hreg & _) | (_ & Hreg & _)].
    + rewrite Ha in Hreg. injection Hreg as ->. rewrite Hs. eauto.
    + rewrite Ha in Hreg. discriminate.
Qed.

(** After a full snapshot is applied, the registry holds ids of the
    snapshot only, each leading to a live object: a structure that the
    snapshot no longer lists is gone from the registry. *)
Theorem apply_full_snapshot_registry (parse : string -> option (Z * Z))
    (draw : string -> Q) (g : Game) (snap : Snapshot.t) (sid : string) (a : Ref) :
  NoDup (Snapshot.structures snap).*1 -> registry_ok g -> core_ok g -> types_agree g snap ->
  powered_turrets_tier3 snap ->
  structures (apply_full_snapshot parse draw g snap) !! sid = Some a ->
  sid ∈ (Snapshot.structures snap).*1
  /\ is_Some (heap (apply_full_snapshot parse draw g snap) !! a).
Proof.
  intros NDs Hreg Hcore Hty Hpw. unfold apply_full_snapshot. cbv zeta.
  pose proof (apply_base_terrain_frame parse (apply_basic_state g snap) snap) as F2.
  set (g2 := apply_base_terrain parse (apply_basic_state g snap) snap) in *.
  clearbody g2.
  assert (F : heap (sync_players g2 snap) = heap g
              /\ structures (sync_players g2 snap) = structures g
              /\ core (sync_players g2 snap) = core g).
  { unfold sync_players. rewrite F2. split_and!; reflexivity. }
  destruct F as (Hh3 & Hd3 & Hc3).
  assert (SW : settled_world (sync_players g2 snap) snap
                 (sync_structures draw (sync_players g2 snap) snap)).
  { apply sync_structures_settles; [| | | exact Hpw | exact NDs].
    - intros sid' a'. rewrite Hd3, Hh3. apply Hreg.
    - intros c. rewrite Hc3, Hh3. apply Hcore.
    - intros sid' d a' s. rewrite Hd3, Hh3. apply Hty. }
  set (g4 := sync_structures draw (sync_players g2 snap) snap) in *. clearbody g4.
  change (structures (sync_projectiles (sync_enemies g4 snap) snap)) with (structures g4).
  change (heap (sync_projectiles (sync_enemies g4 snap) snap)) with (heap g4).
  apply (settled_world_registry (sync_players g2 snap) snap g4). exact SW.
Qed.

(** The sample snapshot and the new world meet the conditions. *)
Lemma battle_snapshot_keys_distinct : snapshot_keys_distinct (snapshot_of battle_world).
Proof.
  unfold snapshot_keys_distinct. split_and!; vm_compute;
    repeat (apply NoDup_cons; split;
            [rewrite ?elem_of_cons, elem_of_nil; intuition discriminate|]);
    apply NoDup_nil_2.
Qed.

Lemma battle_snapshot_turrets : powered_turrets_tier3 (snapshot_of battle_world).
Proof.
  apply powered_turrets_tier3_Forall. vm_compute.
  repeat (apply Forall_cons; split; [intros _ [=]|]). apply Forall_nil_2.
Qed.

Lemma Game_init_consistent (sw sh : Z) (mode : Mode) (snap : Snapshot.t) :
  registry_ok (Game_init sw sh mode) /\ core_ok (Game_init sw sh mode)
  /\ types_agree (Game_init sw sh mode) snap.
Proof.
  split_and!.
  - intros sid a H. change (structures (Game_init sw sh mode)) with (∅ : gmap string Ref) in H.
    rewrite lookup_empty in H. discriminate.
  - intros c H. discriminate.
  - intros sid d a s _ H.
    change (structures (Game_init sw sh mode)) with (∅ : gmap string Ref) in H.
    rewrite lookup_empty in H. discriminate.
Qed.

Lemma apply_full_snapshot_registry_witness :
  NoDup (Snapshot.structures (snapshot_of battle_world)).*1
  /\ registry_ok (Game_init 1280 768 ModeClient)
  /\ core_ok (Game_init 1280 768 ModeClient)
  /\ types_agree (Game_init 1280 768 ModeClient) (snapshot_of battle_world)
  /\ powered_turrets_tier3 (snapshot_of battle_world)
  /\ structures joined_world !! "18_12_1" = Some 0%nat
  /\ "18_12_1" ∈ (Snapshot.structures (snapshot_of battle_world)).*1
  /\ is_Some (heap joined_world !! 0%nat).
Proof.
  destruct battle_snapshot_keys_distinct as (_ & H1 & _).
  destruct (Game_init_consistent 1280 768 ModeClient (snapshot_of battle_world))
    as (H2 & H3 & H4).
  pose proof battle_snapshot_turrets as H5.
  assert (H6 : structures joined_world !! "18_12_1" = Some 0%nat) by (vm_compute; reflexivity).
  split_and!; try assumption;
    apply (apply_full_snapshot_registry parse_decimal_key no_draw
             (Game_init 1280 768 ModeClient) (snapshot_of battle_world) "18_12_1" 0%nat
             H1 H2 H3 H4 H5 H6).
Defined.

(** ** From a world to its snapshot and back *)

Lemma states_keys {K V D} (f : V -> D) (l : list (K * V)) :
  ((fun '(k, v) => (k, f v)) <$> l).*1 = l.*1.
Proof. induction l as [|[k v] l IH]; [reflexivity|]. cbn. rewrite IH. reflexivity. Qed.

Lemma states_lookup {K V D} `{Countable K} (f : V -> D) (m : gmap K V) (k : K) :
  (list_to_map ((fun '(k, v) => (k, f v)) <$> map_to_list m) : gmap K D) !! k
  = f <$> m !! k.
Proof.
  assert (E : ((fun '(k, v) => (k, f v)) <$> map_to_list m) = prod_map id f <$> map_to_list m).
  { apply list_fmap_ext. intros i [k' v] _. reflexivity. }
  rewrite E, list_to_map_fmap, list_to_map_to_list, lookup_fmap. reflexivity.
Qed.

Lemma omap_keys_NoDup {K V D} (f : K * V -> option (K * D)) (l : list (K * V)) :
  (forall x y, f x = Some y -> y.1 = x.1) -> NoDup l.*1 -> NoDup (omap f l).*1.
Proof.
  intros Hf. induction l as [|x l IH]; intros Hnd; [constructor|].
  cbn in Hnd. apply NoDup_cons in Hnd as [Hx Hnd]. cbn [omap list_omap].
  destruct (f x) as [y|] eqn:Hy; [|apply IH; exact Hnd].
  cbn. apply NoDup_cons. split; [|apply IH; exact Hnd].
  intros Hin. apply Hx. apply list_elem_of_fmap in Hin as ([k d] & Hk & Hin).
  apply list_elem_of_omap in Hin as (x' & Hin' & Hfx'). cbn in Hk.
  pose proof (Hf x y Hy) as E1. pose proof (Hf x' _ Hfx') as E2. cbn in E2.
  assert (E : x.1 = x'.1) by congruence. rewrite E.
  apply list_elem_of_fmap_2. exact Hin'.
Qed.

Lemma snapshot_structures_NoDup (g : Game) : NoDup (snapshot_structures g).*1.
Proof.
  unfold snapshot_structures. apply omap_keys_NoDup; [|apply NoDup_fst_map_to_list].
  intros [sid a] y. destruct (heap g !! a); [|discriminate].
  destruct (_ =? _); [discriminate|]. intros [= <-]. reflexivity.
Qed.

Lemma snapshot_structures_elem (g : Game) (sid : string) (d : StructState.t) :
  (sid, d) ∈ snapshot_structures g
  <-> exists a s, structures g !! sid = Some a /\ heap g !! a = Some s
                  /\ building_type s <> BUILDING_RESOURCE /\ d = get_state s.
Proof.
  unfold snapshot_structures. rewrite list_elem_of_omap. split.
  - intros ([sid' a] & Hin & Hf). apply elem_of_map_to_list in Hin.
    destruct (heap g !! a) as [s|] eqn:Hs; [|discriminate].
    destruct (building_type s =? BUILDING_RESOURCE) eqn:Hb; [discriminate|].
    injection Hf as -> <-. apply Z.eqb_neq in Hb. eauto 10.
  - intros (a & s & Ha & Hs & Hb & ->). exists (sid, a). split.
    + apply elem_of_map_to_list. exact Ha.
    + cbv beta iota. unfold Ref in *. rewrite Hs. apply Z.eqb_neq in Hb. rewrite Hb. reflexivity.
Qed.

Lemma get_state_frame (s : Structure) :
  StructState.type_ (get_state s) = Some (building_type s)
  /\ StructState.gx (get_state s) = Some (grid_x s)
  /\ StructState.gy (get_state s) = Some (grid_y s)
  /\ StructState.tier (get_state s) = Some (tier s)
  /\ StructState.is_powered (get_state s) = Some (is_powered s)
  /\ StructState.hp (get_state s) = Some (hp s)
  /\ StructState.max_hp (get_state s) = Some (max_hp s).
Proof. unfold get_state. destruct (kind s); split_and!; reflexivity. Qed.

Lemma creatable_get_state (s : Structure) :
  building_type s <> BUILDING_CORE -> building_type s <> BUILDING_RESOURCE ->
  exists cls, creatable (get_state s) = Some (cls, grid_x s, grid_y s).
Proof.
  intros Hc Hr. unfold creatable.
  destruct (get_state_frame s) as (-> & -> & -> & _). cbn [mbind option_bind].
  unfold building_type in *.
  destruct (kind s); try (eexists; reflexivity); exfalso; [apply Hc | apply Hr]; reflexivity.
Qed.

(** An object that already shows the state of another object of the same
    id, type and tile has the same serialised state. *)
Lemma settled_get_state (s s0 : Structure) :
  apply_state s (get_state s0) = s ->
  network_id s = network_id s0 -> building_type s = building_type s0 ->
  grid_x s = grid_x s0 -> grid_y s = grid_y s0 ->
  building_type s0 <> BUILDING_RESOURCE ->
  get_state s = get_state s0.
Proof.
  intros Hfix Hid Hbt Hx Hy Hr.
  assert (Ht : tier s = tier s0).
  { rewrite <- Hfix at 1. rewrite apply_state_tier by (rewrite Hbt; exact Hr).
    destruct (get_state_frame s0) as (_ & _ & _ & -> & _). reflexivity. }
  rewrite apply_state_split in Hfix.
  destruct (get_state_frame s0) as (_ & _ & _ & Htd & _).
  rewrite Htd in Hfix. cbn [get_or] in Hfix. rewrite Ht, Z.eqb_refl in Hfix.
  cbn [negb andb] in Hfix. rewrite <- Hfix. clear Hfix Htd.
  unfold building_type in *.
  destruct s0 as [x0 y0 mh0 h0 de0 ips0 ipc0 pc0 iog0 ip0 psc0 cnc0 t0 nid0 k0].
  destruct s as [x1 y1 mh1 h1 de1 ips1 ipc1 pc1 iog1 ip1 psc1 cnc1 t1 nid1 k1].
  cbn in Hid, Hx, Hy, Ht. subst.
  destruct k0 as [|?|[? ? ? ? ? ?]|[? ? ? ? ? ?]|[? ? ? ? ? ? ? ?]| |[? ?]| |[? ? ?]|?];
    destruct k1 as [|?|[? ? ? ? ? ?]|[? ? ? ? ? ?]|[? ? ? ? ? ? ? ?]| |[? ?]| |[? ? ?]|?];
    cbn in Hbt; try discriminate Hbt; try reflexivity.
  exfalso. apply Hr. reflexivity.
Qed.

Lemma core_round_trip (snap : Snapshot.t) (s0 : Structure) :
  building_type s0 = BUILDING_CORE ->
  Snapshot.core_hp snap = Some (hp s0) -> Snapshot.core_max_hp snap = Some (max_hp s0) ->
  get_state
    (override_hp snap
       (apply_state (set_network_id (network_id s0) (Core_init (grid_x s0) (grid_y s0)))
          (get_state s0)))
  = get_state s0.
Proof.
  intros Hbt Hhp Hmhp.
  rewrite apply_state_core by reflexivity.
  unfold override_hp. rewrite Hhp, Hmhp. unfold building_type in Hbt.
  destruct s0 as [x0 y0 mh0 h0 de0 ips0 ipc0 pc0 iog0 ip0 psc0 cnc0 t0 nid0 k0].
  destruct k0 as [|?|[? ? ? ? ? ?]|[? ? ? ? ? ?]|[? ? ? ? ? ? ? ?]| |[? ?]| |[? ? ?]|?];
    cbn in Hbt; try discriminate Hbt.
  reflexivity.
Qed.

Lemma get_full_snapshot_fields (g : Game) (snap : Snapshot.t) :
  get_full_snapshot g = Some snap ->
  Snapshot.structures snap = snapshot_structures g
  /\ Snapshot.players snap
     = ((fun '(pid, p) => (pid, Player_get_state p)) <$> map_to_list (players g))
  /\ Snapshot.enemies snap
     = ((fun '(eid, e) => (eid, Enemy_get_state e)) <$> map_to_list (enemies g))
  /\ Snapshot.projectiles snap
     = ((fun '(pid, p) => (pid, Projectile_get_state p)) <$> map_to_list (projectiles g))
  /\ Snapshot.core_hp snap
     = Some (match core g ≫= fun c => heap g !! c with Some c => hp c | None => 0%Q end)
  /\ Snapshot.core_max_hp snap
     = Some (match core g ≫= fun c => heap g !! c with
             | Some c => max_hp c | None => CORE_HP end)
  /\ Snapshot.resources snap = Some (resources g)
  /\ Snapshot.wave_number snap = Some (wave_number g)
  /\ Snapshot.wave_timer snap = Some (wave_timer g)
  /\ Snapshot.in_wave snap = Some (in_wave g)
  /\ Snapshot.game_over snap = Some (game_over g)
  /\ Snapshot.game_won snap = Some (game_won g)
  /\ Snapshot.next_enemy_id snap = Some (next_enemy_id g)
  /\ Snapshot.next_projectile_id snap = Some (next_projectile_id g).
Proof.
  unfold get_full_snapshot. destruct (is_client g); [discriminate|].
  intros [= <-]. split_and!; reflexivity.
Qed.

Lemma structure_of_Some (g : Game) (sid : string) (s : Structure) :
  structure_of g sid = Some s
  <-> exists a, structures g !! sid = Some a /\ heap g !! a = Some s.
Proof.
  unfold structure_of. split.
  - destruct (@lookup _ _ _ _ sid (structures g)) as [a|]; intros Hs; [|discriminate].
    exists a. split; [reflexivity | exact Hs].
  - intros (a & Ha & Hs). unfold Ref in *. rewrite Ha. exact Hs.
Qed.

Lemma loop_round_trip (src g3 g1 : Game) (nd : gmap string Ref) (sid : string) :
  serialisable src -> structures g3 = ∅ ->
  loop_inv g3 (snapshot_structures src) g1 nd ->
  (forall s, structure_of src sid = Some s -> building_type s <> BUILDING_CORE) ->
  structure_state (with_structures nd g1) sid = structure_state src sid.
Proof.
  intros Hser H0 (_ & _ & _ & I4 & I5 & _) Hnc.
  unfold structure_state. unfold structure_of at 1 2.
  change (structures (with_structures nd g1)) with nd.
  change (heap (with_structures nd g1)) with (heap g1). unfold Ref in *.
  destruct (nd !! sid) as [a|] eqn:Hnd.
  - destruct (I4 sid a Hnd) as (d & s & Hin & Hcore & Hs & Hid & Hfix & Hty & Hpos).
    apply snapshot_structures_elem in Hin as (a0 & s0 & Ha0 & Hs0 & Hr & ->).
    unfold Ref in *. cbn [mbind option_bind]. rewrite Hs, Ha0. cbn [mbind option_bind]. rewrite Hs0.
    cbn [fmap option_fmap option_map]. f_equal.
    destruct Hpos as [Hpos | (_ & Hx & Hy)];
      [rewrite H0, lookup_empty in Hpos; discriminate|].
    destruct (get_state_frame s0) as (Ht0 & Hx0 & Hy0 & _).
    destruct (ser_registry _ Hser sid a0 Ha0) as (s0' & Hs0' & Hid0).
    unfold Ref in *. apply settled_get_state; try assumption; congruence.
  - cbn [mbind option_bind fmap option_fmap option_map].
    destruct (_ !! sid) as [a0|] eqn:Ha0 in |- *; [|reflexivity]. exfalso.
    unfold Ref in *.
    destruct (ser_registry _ Hser sid a0 Ha0) as (s0 & Hs0 & Hid0).
    assert (Hnp : building_type s0 <> BUILDING_RESOURCE) by (eapply ser_no_patch; eauto).
    assert (Hin : (sid, get_state s0) ∈ snapshot_structures src).
    { apply snapshot_structures_elem. exists a0, s0. split_and!; try done. }
    assert (Hnc' : building_type s0 <> BUILDING_CORE).
    { apply Hnc. apply structure_of_Some. eauto. }
    clear Hnc. rename Hnc' into Hnc.
    assert (Hce : is_core_entry (get_state s0) = false).
    { unfold is_core_entry. destruct (get_state_frame s0) as (-> & _).
      apply bool_decide_eq_false. congruence. }
    destruct (I5 sid _ Hin Hce Hnd) as (_ & Hcr).
    destruct (creatable_get_state s0 Hnc Hnp) as (cls & Hcls). congruence.
Qed.

Lemma structure_state_core_created (g1 : Game) (nd : gmap string Ref) (cid : string)
    (nc : Structure) (gx gy : Z) (snap : Snapshot.t) (sid : string) :
  (forall k a, nd !! k = Some a -> (a < length (heap g1))%nat) ->
  structure_state
    (override_core_hp
       (with_structures (<[cid := length (heap g1)]> nd)
          (place_on_grid (with_core (Some (length (heap g1))) (alloc nc g1).1)
             gx gy (length (heap g1)))) snap) sid
  = if decide (sid = cid) then Some (get_state (override_hp snap nc))
    else structure_state (with_structures nd g1) sid.
Proof.
  intros Hlt.
  assert (Hn : (heap g1 ++ [nc]) !! length (heap g1) = Some nc).
  { rewrite lookup_app_r by lia. rewrite Nat.sub_diag. reflexivity. }
  assert (E : forall gr,
    structure_state
      (override_core_hp
         (with_structures (<[cid := length (heap g1)]> nd)
            (with_grid gr (with_core (Some (length (heap g1))) (alloc nc g1).1))) snap) sid
    = if decide (sid = cid) then Some (get_state (override_hp snap nc))
      else structure_state (with_structures nd g1) sid).
  { intros gr. rewrite (override_core_hp_Some _ _ (length (heap g1))) by reflexivity.
    rewrite (modify_Some _ _ _ nc) by exact Hn.
    unfold structure_state, structure_of.
    change (structures (with_heap ?h (with_structures ?d ?g))) with d.
    change (heap (with_heap ?h ?g)) with h.
    destruct (decide (sid = cid)) as [->|Hne].
    - rewrite lookup_insert_eq. cbn [mbind option_bind].
      change (heap (with_structures ?d (with_grid ?gr (with_core ?c (alloc nc g1).1))))
        with (heap g1 ++ [nc]).
      rewrite list_lookup_insert_eq by (rewrite length_app; cbn; lia). reflexivity.
    - rewrite lookup_insert_ne by congruence.
      change (heap (with_structures ?d (with_grid ?gr (with_core ?c (alloc nc g1).1))))
        with (heap g1 ++ [nc]).
      change (structures (with_structures nd g1)) with nd.
      change (heap (with_structures nd g1)) with (heap g1).
      unfold Ref in *.
      destruct (nd !! sid) as [a|] eqn:Ha; [|reflexivity]. cbn [mbind option_bind].
      pose proof (Hlt _ _ Ha).
      rewrite list_lookup_insert_ne by lia. rewrite lookup_app_l by lia. reflexivity. }
  unfold place_on_grid. destruct (in_bounds _ gx gy).
  - apply E.
  - rewrite <- (E (grid g1)). reflexivity.
Qed.

Lemma sync_structures_round_trip (draw : string -> Q) (src g3 : Game) (snap : Snapshot.t)
    (sid : string) :
  serialisable src -> get_full_snapshot src = Some snap ->
  structures g3 = ∅ -> core g3 = None ->
  structure_state (sync_structures draw g3 snap) sid = structure_state src sid.
Proof.
  intros Hser Hsnap H0 Hc0.
  destruct (get_full_snapshot_fields _ _ Hsnap) as (HE & _ & _ & _ & Hhp & Hmhp & _).
  rewrite sync_structures_unfold. cbv zeta. rewrite HE.
  assert (Hinv : loop_inv g3 (snapshot_structures src)
            (foldl (sync_structure draw (structures g3)) (g3, ∅, None)
               (snapshot_structures src)).1.1
            (foldl (sync_structure draw (structures g3)) (g3, ∅, None)
               (snapshot_structures src)).1.2).
  { apply structures_loop_inv.
    - intros k a Hk. rewrite H0, lookup_empty in Hk. discriminate.
    - apply snapshot_structures_NoDup.
    - intros k d a s _ Hk. rewrite H0, lookup_empty in Hk. discriminate.
    - intros k d Hin Hty Hpw.
      apply snapshot_structures_elem in Hin as (a0 & s0 & Ha0 & Hs0 & Hr & ->).
      destruct (get_state_frame s0) as (Ht0 & _ & _ & Htier & Hpw0 & _).
      left. rewrite Htier. f_equal. eapply ser_turrets; eauto; congruence. }
  pose proof (loop_core_entry draw (structures g3) g3 (snapshot_structures src)) as Hce.
  destruct (foldl (sync_structure draw (structures g3)) (g3, ∅, None)
              (snapshot_structures src)) as [[g1 nd] ce].
  cbn [fst snd] in Hinv, Hce |- *. subst ce.
  assert (Hclean : forall g, clean_removed (structures g3) (snapshot_structures src).*1 g = g).
  { intros g. apply clean_removed_nothing. intros k a Hk.
    rewrite H0, lookup_empty in Hk. discriminate. }
  rewrite Hclean.
  assert (Hc1 : core g1 = None).
  { destruct Hinv as (-> & _). exact Hc0. }
  assert (Hlt : forall k a, nd !! k = Some a -> (a < length (heap g1))%nat).
  { intros k a Hk. destruct Hinv as (_ & _ & _ & I4 & _).
    destruct (I4 k a Hk) as (d & s & _ & _ & Hs & _). eapply lookup_lt_Some; eauto. }
  destruct (last_core_entry (snapshot_structures src)) as [[cid cd]|] eqn:Hlast.
  - destruct (last_core_entry_Some _ _ _ Hlast) as [Hin Hcore].
    apply snapshot_structures_elem in Hin as (ac & sc & Hac & Hsc & Hr' & ->).
    destruct (get_state_frame sc) as (Htc & Hxc & Hyc & _).
    assert (Hbc : building_type sc = BUILDING_CORE).
    { unfold is_core_entry in Hcore. apply bool_decide_eq_true in Hcore. congruence. }
    assert (Hcs : core src = Some ac) by (eapply ser_core; eauto).
    destruct (ser_registry _ Hser cid ac Hac) as (sc' & Hsc' & Hidc).
    assert (sc' = sc) by congruence. subst sc'.
    rewrite (sync_core_create g1 nd cid _ (grid_x sc) (grid_y sc)); try assumption;
      [|intros c s Hc; rewrite Hc1 in Hc; discriminate].
    cbn [fst snd]. rewrite structure_state_core_created by exact Hlt.
    destruct (decide (sid = cid)) as [->|Hne].
    + unfold structure_state, structure_of. unfold Ref in *. rewrite Hac. cbn [mbind option_bind].
      rewrite Hsc. cbn [fmap option_fmap option_map]. f_equal.
      rewrite <- Hidc. apply core_round_trip; [exact Hbc | |].
      * rewrite Hhp, Hcs. cbn [mbind option_bind]. rewrite Hsc. reflexivity.
      * rewrite Hmhp, Hcs. cbn [mbind option_bind]. rewrite Hsc. reflexivity.
    + apply (loop_round_trip src g3); try assumption.
      intros s Hs Hb. apply structure_of_Some in Hs as (a & Ha & Hs).
      assert (Hcs' : core src = Some a) by (eapply ser_core; eauto).
      assert (a = ac) by congruence. subst a.
      destruct (ser_registry _ Hser sid ac Ha) as (s' & Hs' & Hid'). congruence.
  - rewrite sync_core_absent_None by exact Hc1. cbn [fst snd].
    rewrite override_core_hp_None by exact Hc1.
    apply (loop_round_trip src g3); try assumption.
    intros s Hs Hb. apply structure_of_Some in Hs as (a & Ha & Hs).
    assert (Hin : (sid, get_state s) ∈ snapshot_structures src).
    { apply snapshot_structures_elem. exists a, s. split_and!; try done.
      eapply ser_no_patch; eauto. }
    pose proof (last_core_entry_None _ _ _ Hlast Hin) as Hf.
    unfold is_core_entry in Hf. apply bool_decide_eq_false in Hf. apply Hf.
    destruct (get_state_frame s) as (-> & _). congruence.
Qed.

Lemma states_NoDup {K V D} `{Countable K} (f : V -> D) (m : gmap K V) :
  NoDup ((fun '(k, v) => (k, f v)) <$> map_to_list m).*1.
Proof. rewrite states_keys. apply NoDup_fst_map_to_list. Qed.

Lemma sync_players_round_trip (src g : Game) (snap : Snapshot.t) (pid : Z) :
  serialisable src -> get_full_snapshot src = Some snap -> players g = ∅ ->
  Player_get_state <$> players (sync_players g snap) !! pid
  = Player_get_state <$> players src !! pid.
Proof.
  intros Hser Hsnap H0.
  destruct (get_full_snapshot_fields _ _ Hsnap) as (_ & HP & _).
  unfold sync_players. cbn [players with_players].
  rewrite sync_dict_lookup by (rewrite HP; apply states_NoDup).
  rewrite HP, states_lookup, H0, lookup_empty.
  destruct (players src !! pid) as [p|] eqn:Hp; [|reflexivity].
  rewrite <- (ser_players _ Hser pid p Hp). destruct p. reflexivity.
Qed.

Lemma sync_enemies_round_trip (src g : Game) (snap : Snapshot.t) (eid : string) :
  serialisable src -> get_full_snapshot src = Some snap -> enemies g = ∅ ->
  Enemy_get_state <$> enemies (sync_enemies g snap) !! eid
  = Enemy_get_state <$> enemies src !! eid.
Proof.
  intros Hser Hsnap H0.
  destruct (get_full_snapshot_fields _ _ Hsnap) as (_ & _ & HE & _).
  unfold sync_enemies. cbn [enemies with_enemies].
  rewrite sync_dict_lookup by (rewrite HE; apply states_NoDup).
  rewrite HE, states_lookup, H0, lookup_empty.
  destruct (enemies src !! eid) as [e|] eqn:He; [|reflexivity].
  rewrite <- (ser_enemies _ Hser eid e He). destruct e. reflexivity.
Qed.

Lemma sync_projectiles_round_trip (src g : Game) (snap : Snapshot.t) (pid : string) :
  serialisable src -> get_full_snapshot src = Some snap -> projectiles g = ∅ ->
  Projectile_get_state <$> projectiles (sync_projectiles g snap) !! pid
  = Projectile_get_state <$> projectiles src !! pid.
Proof.
  intros Hser Hsnap H0.
  destruct (get_full_snapshot_fields _ _ Hsnap) as (_ & _ & _ & HP & _).
  unfold sync_projectiles. cbn [projectiles with_projectiles].
  rewrite sync_dict_lookup by (rewrite HP; apply states_NoDup).
  rewrite HP, states_lookup, H0, lookup_empty.
  destruct (projectiles src !! pid) as [p|] eqn:Hp; [|reflexivity].
  rewrite <- (ser_projectiles _ Hser pid p Hp). destruct p. reflexivity.
Qed.

Lemma structures_frame_refl (g : Game) : structures_frame g g.
Proof. unfold structures_frame. destruct g; reflexivity. Qed.

Lemma structures_frame_trans (g g1 g2 : Game) :
  structures_frame g g1 -> structures_frame g1 g2 -> structures_frame g g2.
Proof.
  unfold structures_frame. intros H1 H2. rewrite H1 in H2.
  etransitivity; [exact H2|]. destruct g; reflexivity.
Qed.

Lemma structures_frame_heap (g : Game) (h : list Structure) :
  structures_frame g (with_heap h g).
Proof. unfold structures_frame. destruct g; reflexivity. Qed.

Lemma structures_frame_grid (g : Game) (gr : gmap (Z * Z) Cell) :
  structures_frame g (with_grid gr g).
Proof. unfold structures_frame. destruct g; reflexivity. Qed.

Lemma structures_frame_core (g : Game) (c : option Ref) :
  structures_frame g (with_core c g).
Proof. unfold structures_frame. destruct g; reflexivity. Qed.

Lemma structures_frame_structures (g : Game) (d : gmap string Ref) :
  structures_frame g (with_structures d g).
Proof. unfold structures_frame. destruct g; reflexivity. Qed.

Lemma modify_structures_frame (g : Game) (a : Ref) (f : Structure -> Structure) :
  structures_frame g (modify a f g).
Proof.
  unfold modify. destruct (heap g !! a);
    [apply structures_frame_heap | apply structures_frame_refl].
Qed.

Lemma place_on_grid_structures_frame (g : Game) (gx gy : Z) (a : Ref) :
  structures_frame g (place_on_grid g gx gy a).
Proof.
  unfold place_on_grid. destruct (in_bounds g gx gy);
    [apply structures_frame_grid | apply structures_frame_refl].
Qed.

Lemma restore_cell_structures_frame (g : Game) (gx gy : Z) :
  structures_frame g (restore_cell g gx gy).
Proof. unfold restore_cell. destruct (truthy _); apply structures_frame_grid. Qed.

Lemma sync_structure_structures_frame (draw : string -> Q) (R : gmap string Ref)
    (acc : Game * gmap string Ref * option (string * StructState.t))
    (e : string * StructState.t) :
  structures_frame acc.1.1 (sync_structure draw R acc e).1.1.
Proof.
  destruct acc as [[g nd] ce]. destruct e as [sid d]. unfold sync_structure. cbn [fst snd].
  destruct (bool_decide _); [apply structures_frame_refl|].
  destruct (R !! sid) as [a|].
  - destruct (heap g !! a) as [s|]; [|apply structures_frame_refl]. cbn [fst snd].
    eapply structures_frame_trans;
      [apply modify_structures_frame | apply place_on_grid_structures_frame].
  - destruct (StructState.type_ d ≫= building_info) as [[? cls]|];
      [|apply structures_frame_refl].
    destruct (StructState.gx d) as [gx|]; [|apply structures_frame_refl].
    destruct (StructState.gy d) as [gy|]; [|apply structures_frame_refl].
    unfold alloc. cbn [fst snd].
    eapply structures_frame_trans;
      [apply structures_frame_heap | apply place_on_grid_structures_frame].
Qed.

Lemma structures_loop_frame (draw : string -> Q) (R : gmap string Ref)
    (l : list (string * StructState.t))
    (acc : Game * gmap string Ref * option (string * StructState.t)) :
  structures_frame acc.1.1 (foldl (sync_structure draw R) acc l).1.1.
Proof.
  revert acc. induction l as [|e l IH]; intros acc; [apply structures_frame_refl|].
  cbn [foldl]. eapply structures_frame_trans; [|apply IH].
  apply sync_structure_structures_frame.
Qed.

Lemma sync_core_structures_frame (g : Game) (nd : gmap string Ref)
    (ce : option (string * StructState.t)) :
  structures_frame g (sync_core g nd ce).1.
Proof.
  unfold sync_core. destruct ce as [[cid cd]|].
  - destruct (core g ≫= _) as [[c s]|]; cbn [fst].
    + eapply structures_frame_trans;
        [apply modify_structures_frame | apply place_on_grid_structures_frame].
    + destruct (StructState.gx cd) as [gx|]; [|apply structures_frame_refl].
      destruct (StructState.gy cd) as [gy|]; [|apply structures_frame_refl].
      unfold alloc. cbn [fst snd].
      eapply structures_frame_trans; [|apply place_on_grid_structures_frame].
      eapply structures_frame_trans; [apply structures_frame_heap | apply structures_frame_core].
  - destruct (core g) as [c|]; [|apply structures_frame_refl]. cbn [fst].
    eapply structures_frame_trans; [|apply structures_frame_core].
    destruct (heap g !! c) as [s|]; [|apply structures_frame_refl].
    destruct (_ && _); [apply restore_cell_structures_frame | apply structures_frame_refl].
Qed.

Lemma clean_removed_structures_frame (R : gmap string Ref) (ids : list string) (g : Game) :
  structures_frame g (clean_removed R ids g).
Proof.
  rewrite clean_removed_with_grid. apply structures_frame_grid.
Qed.

(** The structures section changes the heap, the grid, the registry and
    [self.core], and nothing else. *)
Lemma sync_structures_structures_frame (draw : string -> Q) (g : Game) (snap : Snapshot.t) :
  structures_frame g (sync_structures draw g snap).
Proof.
  rewrite sync_structures_unfold. cbv zeta.
  eapply structures_frame_trans;
    [apply (structures_loop_frame draw (structures g) (Snapshot.structures snap) (g, ∅, None))|].
  eapply structures_frame_trans; [apply sync_core_structures_frame|].
  eapply structures_frame_trans; [apply clean_removed_structures_frame|].
  eapply structures_frame_trans; [apply structures_frame_structures|].
  unfold override_core_hp.
  destruct (core _); [apply modify_structures_frame | apply structures_frame_refl].
Qed.

(** Structures survive serialisation: a world whose registry is
    keyed by id, holds no resource patch, registers no core other than
    [self.core] and powers no turret below tier 3 is rebuilt by a client
    with an empty registry so that every id has the serialised state it
    has on the host -- the core with the hit points of the host's core --
    and an id the host does not have stays absent. *)
Theorem snapshot_round_trip_structures (parse : string -> option (Z * Z))
    (draw : string -> Q) (src dst : Game) (snap : Snapshot.t) (sid : string) :
  serialisable src -> get_full_snapshot src = Some snap ->
  structures dst = ∅ -> core dst = None ->
  structure_state (apply_full_snapshot parse draw dst snap) sid = structure_state src sid.
Proof.
  intros Hser Hsnap H0 Hc0. unfold apply_full_snapshot. cbv zeta.
  rewrite <- (sync_structures_round_trip draw src
                (sync_players (apply_base_terrain parse (apply_basic_state dst snap) snap) snap)
                snap sid Hser Hsnap).
  - reflexivity.
  - rewrite apply_base_terrain_frame. exact H0.
  - rewrite apply_base_terrain_frame. exact Hc0.
Qed.

(** Players, enemies, projectiles and the scalar state survive
    serialisation: on a client without entities of its own the snapshot
    of a host whose dictionaries are keyed by id leaves, under every id,
    the serialised state the host has there, and the resources, the wave
    fields and the id counters of the host. *)
Theorem snapshot_round_trip_entities (parse : string -> option (Z * Z))
    (draw : string -> Q) (src dst : Game) (snap : Snapshot.t) :
  serialisable src -> get_full_snapshot src = Some snap ->
  players dst = ∅ -> enemies dst = ∅ -> projectiles dst = ∅ ->
  let dst' := apply_full_snapshot parse draw dst snap in
  (forall pid, Player_get_state <$> players dst' !! pid
               = Player_get_state <$> players src !! pid)
  /\ (forall eid, Enemy_get_state <$> enemies dst' !! eid
                  = Enemy_get_state <$> enemies src !! eid)
  /\ (forall pid, Projectile_get_state <$> projectiles dst' !! pid
                  = Projectile_get_state <$> projectiles src !! pid)
  /\ resources dst' = resources src
  /\ wave_number dst' = wave_number src /\ wave_timer dst' = wave_timer src
  /\ in_wave dst' = in_wave src
  /\ game_over dst' = game_over src /\ game_won dst' = game_won src
  /\ next_enemy_id dst' = next_enemy_id src
  /\ next_projectile_id dst' = next_projectile_id src.
Proof.
  intros Hser Hsnap Hp He Hj. cbv zeta. unfold apply_full_snapshot. cbv zeta.
  destruct (get_full_snapshot_fields _ _ Hsnap)
    as (_ & _ & _ & _ & _ & _ & Hres & Hwn & Hwt & Hiw & Hgo & Hgw & Hne & Hnp).
  set (g2 := apply_base_terrain parse (apply_basic_state dst snap) snap).
  assert (F2 : g2 = with_grid (grid g2) (with_base_terrain (base_terrain g2)
                                           (apply_basic_state dst snap))).
  { apply apply_base_terrain_frame. }
  clearbody g2.
  pose proof (sync_players_round_trip src g2 snap) as RP.
  pose proof (sync_structures_structures_frame draw (sync_players g2 snap) snap) as F4.
  set (g3 := sync_players g2 snap) in *.
  assert (F3 : g3 = with_players (players g3) g2) by reflexivity.
  clearbody g3.
  set (g4 := sync_structures draw g3 snap) in *. clearbody g4.
  unfold structures_frame in F4.
  pose proof (sync_enemies_round_trip src g4 snap) as RE.
  set (g5 := sync_enemies g4 snap) in *.
  assert (F5 : g5 = with_enemies (enemies g5) g4) by reflexivity.
  clearbody g5.
  pose proof (sync_projectiles_round_trip src g5 snap) as RJ.
  set (g6 := sync_projectiles g5 snap) in *.
  assert (F6 : g6 = with_projectiles (projectiles g6) g5) by reflexivity.
  clearbody g6.
  assert (Hp2 : players g2 = ∅) by (rewrite F2; exact Hp).
  assert (He4 : enemies g4 = ∅) by (rewrite F4, F3, F2; exact He).
  assert (Hj5 : projectiles g5 = ∅) by (rewrite F5, F4, F3, F2; exact Hj).
  split; [intros pid; rewrite <- (RP pid Hser Hsnap Hp2); rewrite F6, F5, F4; reflexivity|].
  split; [intros eid; rewrite <- (RE eid Hser Hsnap He4); rewrite F6; reflexivity|].
  split; [intros pid; exact (RJ pid Hser Hsnap Hj5)|].
  rewrite F6, F5, F4, F3, F2. unfold apply_basic_state.
  rewrite Hres, Hwn, Hwt, Hiw, Hgo, Hgw, Hne, Hnp.
  split_and!; reflexivity.
Qed.

Lemma forallb_map_to_list {K V} `{Countable K} (f : K * V -> bool) (m : gmap K V) (k : K)
    (v : V) :
  forallb f (map_to_list m) = true -> m !! k = Some v -> f (k, v) = true.
Proof.
  intros Hall Hk. rewrite forallb_forall in Hall. apply Hall.
  apply list_elem_of_In. apply elem_of_map_to_list. exact Hk.
Qed.

Lemma serialisable_b_sound (g : Game) : serialisable_b g = true -> serialisable g.
Proof.
  unfold serialisable_b. rewrite !andb_true_iff. intros [[[Hs Hp] He] Hj].
  assert (S : forall sid a, structures g !! sid = Some a ->
     exists s, heap g !! a = Some s /\ network_id s = sid
       /\ building_type s <> BUILDING_RESOURCE
       /\ (building_type s = BUILDING_CORE -> core g = Some a)
       /\ (building_type s = BUILDING_TURRET -> is_powered s = true -> tier s = 3)).
  { intros sid a Ha. pose proof (forallb_map_to_list _ _ _ _ Hs Ha) as Hc.
    cbv beta iota in Hc. unfold Ref in *.
    destruct (heap g !! a) as [s|]; [|discriminate]. exists s.
    rewrite !andb_true_iff in Hc. destruct Hc as [[[H1 H2] H3] H4].
    apply bool_decide_eq_true in H1. apply negb_true_iff, Z.eqb_neq in H2.
    split_and!; try done.
    - intros Hb. apply Z.eqb_eq in Hb. rewrite Hb in H3. cbn in H3.
      apply bool_decide_eq_true in H3. exact H3.
    - intros Hb Hpw. apply Z.eqb_eq in Hb. rewrite Hb, Hpw in H4. cbn in H4.
      apply Z.eqb_eq in H4. exact H4. }
  split.
  - intros sid a Ha. destruct (S sid a Ha) as (s & ? & ? & _). eauto.
  - intros sid a s Ha Hs'. destruct (S sid a Ha) as (s' & ? & ? & ? & _).
    unfold Ref in *. congruence.
  - intros sid a s Ha Hs'. destruct (S sid a Ha) as (s' & ? & ? & ? & Hc & _).
    unfold Ref in *. assert (s' = s) by congruence. subst. exact Hc.
  - intros sid a s Ha Hs'. destruct (S sid a Ha) as (s' & ? & ? & ? & _ & Ht).
    unfold Ref in *. assert (s' = s) by congruence. subst. exact Ht.
  - intros pid p Hk. pose proof (forallb_map_to_list _ _ _ _ Hp Hk) as Hc.
    apply Z.eqb_eq in Hc. exact Hc.
  - intros eid e Hk. pose proof (forallb_map_to_list _ _ _ _ He Hk) as Hc.
    apply bool_decide_eq_true in Hc. exact Hc.
  - intros pid p Hk. pose proof (forallb_map_to_list _ _ _ _ Hj Hk) as Hc.
    apply bool_decide_eq_true in Hc. exact Hc.
Qed.

Lemma battle_world_serialisable : serialisable battle_world.
Proof. apply serialisable_b_sound. vm_compute. reflexivity. Qed.

Lemma battle_world_snapshot : get_full_snapshot battle_world = Some (snapshot_of battle_world).
Proof.
  unfold snapshot_of. destruct (get_full_snapshot battle_world) eqn:E; [reflexivity|].
  exfalso. vm_compute in E. discriminate.
Qed.

Lemma snapshot_round_trip_structures_witness :
  serialisable battle_world
  /\ get_full_snapshot battle_world = Some (snapshot_of battle_world)
  /\ structures (Game_init 1280 768 ModeClient) = ∅
  /\ core (Game_init 1280 768 ModeClient) = None
  /\ structure_state
       (apply_full_snapshot parse_decimal_key no_draw (Game_init 1280 768 ModeClient)
          (snapshot_of battle_world)) "20_15_7"
     = structure_state battle_world "20_15_7".
Proof.
  split; [exact battle_world_serialisable|].
  split; [exact battle_world_snapshot|].
  split; [reflexivity|]. split; [reflexivity|].
  apply (snapshot_round_trip_structures parse_decimal_key no_draw battle_world
           (Game_init 1280 768 ModeClient) (snapshot_of battle_world) "20_15_7").
  - exact battle_world_serialisable.
  - exact battle_world_snapshot.
  - reflexivity.
  - reflexivity.
Defined.

Lemma snapshot_round_trip_entities_witness :
  serialisable battle_world
  /\ get_full_snapshot battle_world = Some (snapshot_of battle_world)
  /\ players (Game_init 1280 768 ModeClient) = ∅
  /\ enemies (Game_init 1280 768 ModeClient) = ∅
  /\ projectiles (Game_init 1280 768 ModeClient) = ∅
  /\ resources (apply_full_snapshot parse_decimal_key no_draw (Game_init 1280 768 ModeClient)
                  (snapshot_of battle_world))
     = resources battle_world.
Proof.
  split; [exact battle_world_serialisable|].
  split; [exact battle_world_snapshot|].
  split; [reflexivity|]. split; [reflexivity|]. split; [reflexivity|].
  apply (snapshot_round_trip_entities parse_decimal_key no_draw battle_world
           (Game_init 1280 768 ModeClient) (snapshot_of battle_world)
           battle_world_serialisable battle_world_snapshot eq_refl eq_refl eq_refl).
Defined.

(** ** Upgrades through the player action *)

Lemma apply_upgrade_success (s : Structure) :
  can_upgrade s = true -> snd (apply_upgrade s) = true.
Proof. intros H. unfold apply_upgrade. rewrite H. reflexivity. Qed.

Lemma update_stats_ids (s : Structure) :
  network_id (update_stats s) = network_id s /\ grid_x (update_stats s) = grid_x s
  /\ grid_y (update_stats s) = grid_y s
  /\ building_type (update_stats s) = building_type s.
Proof.
  unfold update_stats, building_type.
  destruct (kind s) as [| |d|c|t| | | | |] eqn:Hk; rewrite ?Hk; try (split_and!; reflexivity).
  - unfold Drill_update_stats. destruct (valid_index _ _); [|rewrite Hk; split_and!; reflexivity].
    destruct (DRILL_STATS !! _) as [[? ?]|]; [|rewrite Hk]; split_and!; reflexivity.
  - unfold Turret_update_stats.
    destruct (valid_index _ _); [destruct (TURRET_STATS !! _) as [[[[? ?] ?] ?]|] |];
      cbn [tier set_kind set_max_hp]; destruct (tier s =? 3); cbn; rewrite ?Hk;
      split_and!; reflexivity.
Qed.

(** An upgrade keeps the id, the tile and the type of the structure, and
    raises the tier by one. *)
Lemma apply_upgrade_ids (s : Structure) :
  can_upgrade s = true ->
  network_id (apply_upgrade s).1 = network_id s /\ grid_x (apply_upgrade s).1 = grid_x s
  /\ grid_y (apply_upgrade s).1 = grid_y s
  /\ building_type (apply_upgrade s).1 = building_type s
  /\ tier (apply_upgrade s).1 = tier s + 1.
Proof.
  intros Hcan. unfold apply_upgrade. rewrite Hcan. cbn [negb fst].
  set (s1 := set_tier (tier s + 1) s).
  set (s2 := if has_update_stats s1 then update_stats s1 else s1).
  assert (H2 : network_id s2 = network_id s /\ grid_x s2 = grid_x s /\ grid_y s2 = grid_y s
               /\ building_type s2 = building_type s /\ tier s2 = tier s + 1).
  { unfold s2. destruct (has_update_stats s1).
    - destruct (update_stats_ids s1) as (-> & -> & -> & ->). rewrite update_stats_tier.
      split_and!; reflexivity.
    - split_and!; reflexivity. }
  clearbody s2.
  destruct (Qltb 0 _ && Qltb _ 1); exact H2.
Qed.

Lemma deduct_cost_notin (c : Cost) (m : gmap string Z) (r : string) :
  r ∉ c.*1 -> deduct_cost c m !! r = m !! r.
Proof.
  unfold deduct_cost. revert m. induction c as [|[r' a] c IH]; intros m Hnot; [reflexivity|].
  cbn [foldl]. rewrite IH.
  - apply lookup_alter_ne. intros ->. apply Hnot. cbn. left.
  - intros Hin. apply Hnot. cbn. right. exact Hin.
Qed.

Lemma deduct_cost_in (c : Cost) (m : gmap string Z) (r : string) (amount : Z) :
  NoDup c.*1 -> (r, amount) ∈ c ->
  deduct_cost c m !! r = (fun v => v - amount) <$> m !! r.
Proof.
  unfold deduct_cost. revert m. induction c as [|[r' a] c IH]; intros m Hnd Hin.
  - inversion Hin.
  - cbn in Hnd. apply NoDup_cons in Hnd as [Hnot Hnd]. cbn [foldl].
    apply elem_of_cons in Hin as [Heq | Hin].
    + injection Heq as -> ->.
      change (foldl _ ?x c) with (deduct_cost c x).
      rewrite deduct_cost_notin by exact Hnot. apply lookup_alter_eq.
    + assert (r <> r').
      { intros ->. apply Hnot. apply list_elem_of_fmap. exists (r', amount).
        split; [reflexivity | exact Hin]. }
      rewrite (IH _ Hnd Hin). rewrite lookup_alter_ne by congruence. reflexivity.
Qed.

(** What is affordable can be paid: no resource that was not negative
    becomes negative. *)
Lemma deduct_cost_nonneg (c : Cost) (m : gmap string Z) :
  NoDup c.*1 -> affordable m c = true ->
  (forall r v, m !! r = Some v -> 0 <= v) ->
  forall r v, deduct_cost c m !! r = Some v -> 0 <= v.
Proof.
  intros Hnd Haff Hm r v Hv.
  destruct (decide (r ∈ c.*1)) as [Hin | Hnot].
  - apply list_elem_of_fmap in Hin as ([r' a] & -> & Hin). cbn in Hv.
    rewrite (deduct_cost_in _ _ _ _ Hnd Hin) in Hv.
    unfold affordable in Haff. rewrite forallb_forall in Haff.
    specialize (Haff _ (proj1 (list_elem_of_In _ _) Hin)). cbn in Haff.
    apply Z.leb_le in Haff.
    destruct (m !! r') as [v0|]; [|discriminate]. cbn in Hv, Haff.
    injection Hv as <-. lia.
  - rewrite deduct_cost_notin in Hv by exact Hnot. eauto.
Qed.

Lemma _update_power_lists_add_frame (g : Game) (a : Ref) :
  let g' := _update_power_lists_add g a in
  resources g' = resources g /\ heap g' = heap g /\ grid g' = grid g
  /\ structures g' = structures g /\ core g' = core g /\ is_client g' = is_client g.
Proof.
  unfold _update_power_lists_add. destruct (is_client g) eqn:Hc; [rewrite Hc; done|].
  destruct (heap g !! a) as [obj|]; [|rewrite Hc; done].
  destruct (is_power_node obj && _); destruct (is_power_consumer obj && _);
    destruct g; cbn in *; rewrite ?Hc; done.
Qed.

Lemma _update_power_lists_remove_frame' (g : Game) (a : Ref) :
  let g' := _update_power_lists_remove g a in
  resources g' = resources g /\ heap g' = heap g /\ grid g' = grid g
  /\ structures g' = structures g /\ core g' = core g /\ is_client g' = is_client g.
Proof.
  unfold _update_power_lists_remove. destruct (is_client g) eqn:Hc; [rewrite Hc; done|].
  destruct (heap g !! a) as [obj|]; [|rewrite Hc; done].
  destruct (is_power_node obj && _); destruct (is_power_consumer obj && _);
    destruct g; cbn in *; rewrite ?Hc; done.
Qed.

(** The upgrade action either refuses without a change or upgrades the
    structure on the tile in place. *)
Lemma action_upgrade_structure_cases (g : Game) (player_id gx gy : Z) :
  action_upgrade_structure g player_id gx gy = (g, false)
  \/ exists player a target cost,
       is_client g = false /\ players g !! player_id = Some player
       /\ get_structure_at g gx gy = Some (CellObj a) /\ heap g !! a = Some target
       /\ out_of_build_radius player gx gy = false
       /\ can_upgrade target = true /\ get_next_upgrade_cost target = Some cost
       /\ affordable (resources g) cost = true
       /\ (action_upgrade_structure g player_id gx gy).2 = true
       /\ let g' := (action_upgrade_structure g player_id gx gy).1 in
          resources g' = deduct_cost cost (resources g)
          /\ heap g' = <[a := (apply_upgrade target).1]> (heap g)
          /\ grid g' = grid g /\ structures g' = structures g /\ core g' = core g.
Proof.
  unfold action_upgrade_structure.
  destruct (is_client g) eqn:Hcl; [left; reflexivity|].
  destruct (players g !! player_id) as [player|] eqn:Hp; [|left; reflexivity].
  destruct (get_structure_at g gx gy) as [[p|a]|] eqn:Hat; [left; reflexivity| |left; reflexivity].
  destruct (heap g !! a) as [target|] eqn:Ha; [|left; reflexivity].
  destruct (out_of_build_radius player gx gy) eqn:Hr; [left; reflexivity|].
  destruct (can_upgrade target) eqn:Hcan; [|left; reflexivity]. cbn [negb].
  destruct (get_next_upgrade_cost target) as [cost|] eqn:Hcost; [|left; reflexivity].
  destruct (affordable (resources g) cost) eqn:Haff; [|left; reflexivity]. cbn [negb].
  right. exists player, a, target, cost.
  pose proof (apply_upgrade_success target Hcan) as Hs.
  destruct (apply_upgrade target) as [t' ok]. cbn [fst snd] in Hs |- *. subst ok.
  set (g1 := with_resources (deduct_cost cost (resources g)) g).
  assert (Ha1 : heap g1 !! a = Some target) by exact Ha.
  rewrite (modify_Some g1 a _ target Ha1).
  set (g2 := with_heap (<[a:=t']> (heap g1)) g1).
  destruct (negb _ && negb _); cbn [fst snd]; cbv zeta.
  - destruct (_update_power_lists_remove_frame' g2 a) as (R1 & R2 & R3 & R4 & R5 & _).
    destruct (_update_power_lists_add_frame (_update_power_lists_remove g2 a) a)
      as (A1 & A2 & A3 & A4 & A5 & _).
    cbv zeta in *. rewrite A1, A2, A3, A4, A5, R1, R2, R3, R4, R5.
    split_and!; try reflexivity; assumption.
  - split_and!; try reflexivity; assumption.
Qed.

(** A refused upgrade changes nothing: the world that comes back with
    [False] is the world that went in, resources included. *)
Theorem action_upgrade_structure_refused_unchanged (g : Game) (player_id gx gy : Z) :
  snd (action_upgrade_structure g player_id gx gy) = false ->
  fst (action_upgrade_structure g player_id gx gy) = g.
Proof.
  intros Hf.
  destruct (action_upgrade_structure_cases g player_id gx gy)
    as [-> | (player & a & target & cost & _ & _ & _ & _ & _ & _ & _ & _ & Ht & _)].
  - reflexivity.
  - rewrite Ht in Hf. discriminate.
Qed.

(** A successful upgrade takes exactly the cost of the next tier from the
    resources, replaces the structure on the tile by its upgrade -- same
    id, same tile, one tier up -- and leaves every other object, the grid
    and the registry as they were. *)
Theorem action_upgrade_structure_success (g : Game) (player_id gx gy : Z) :
  snd (action_upgrade_structure g player_id gx gy) = true ->
  let g' := fst (action_upgrade_structure g player_id gx gy) in
  exists a target target' cost,
    get_structure_at g gx gy = Some (CellObj a) /\ heap g !! a = Some target
    /\ get_next_upgrade_cost target = Some cost
    /\ resources g' = deduct_cost cost (resources g)
    /\ heap g' !! a = Some target'
    /\ tier target' = tier target + 1
    /\ network_id target' = network_id target
    /\ grid_x target' = grid_x target /\ grid_y target' = grid_y target
    /\ building_type target' = building_type target
    /\ (forall b, b <> a -> heap g' !! b = heap g !! b)
    /\ grid g' = grid g /\ structures g' = structures g.
Proof.
  intros Ht. cbv zeta.
  destruct (action_upgrade_structure_cases g player_id gx gy)
    as [E | (player & a & target & cost & _ & _ & Hat & Ha & _ & Hcan & Hcost & _ & _ & Hg')].
  - rewrite E in Ht. discriminate.
  - cbv zeta in Hg'. destruct Hg' as (Hres & Hheap & Hgrid & Hreg & _).
    destruct (apply_upgrade_ids target Hcan) as (I1 & I2 & I3 & I4 & I5).
    exists a, target, (apply_upgrade target).1, cost.
    split_and!; try assumption.
    + rewrite Hheap. apply list_lookup_insert_eq. eapply lookup_lt_Some; eauto.
    + intros b Hb. rewrite Hheap. apply list_lookup_insert_ne. congruence.
Qed.

(** A conveyor next to the player and an empty purse: the upgrade is
    refused and nothing changes. *)
Lemma action_upgrade_structure_refused_unchanged_witness :
  snd (action_upgrade_structure (with_resources ∅ blocked_conveyor_world) 0 20 12) = false
  /\ fst (action_upgrade_structure (with_resources ∅ blocked_conveyor_world) 0 20 12)
     = with_resources ∅ blocked_conveyor_world.
Proof.
  split; [vm_compute; reflexivity|].
  apply (action_upgrade_structure_refused_unchanged
           (with_resources ∅ blocked_conveyor_world) 0 20 12).
  vm_compute. reflexivity.
Defined.

(** The same conveyor with the resources of a new game is upgraded. *)
Lemma action_upgrade_structure_success_witness :
  snd (action_upgrade_structure blocked_conveyor_world 0 20 12) = true
  /\ exists a target target' cost,
       get_structure_at blocked_conveyor_world 20 12 = Some (CellObj a)
       /\ heap blocked_conveyor_world !! a = Some target
       /\ get_next_upgrade_cost target = Some cost
       /\ resources (fst (action_upgrade_structure blocked_conveyor_world 0 20 12))
          = deduct_cost cost (resources blocked_conveyor_world)
       /\ heap (fst (action_upgrade_structure blocked_conveyor_world 0 20 12)) !! a
          = Some target'
       /\ tier target' = tier target + 1
       /\ network_id target' = network_id target
       /\ grid_x target' = grid_x target /\ grid_y target' = grid_y target
       /\ building_type target' = building_type target
       /\ (forall b, b <> a ->
             heap (fst (action_upgrade_structure blocked_conveyor_world 0 20 12)) !! b
             = heap blocked_conveyor_world !! b)
       /\ grid (fst (action_upgrade_structure blocked_conveyor_world 0 20 12))
          = grid blocked_conveyor_world
       /\ structures (fst (action_upgrade_structure blocked_conveyor_world 0 20 12))
          = structures blocked_conveyor_world.
Proof.
  split; [vm_compute; reflexivity|].
  apply (action_upgrade_structure_success blocked_conveyor_world 0 20 12).
  vm_compute. reflexivity.
Defined.

(** ** Placement that succeeds *)

Lemma setup_on_patch_frame (g : Game) (s : Structure) :
  network_id (setup_on_patch g s) = network_id s
  /\ grid_x (setup_on_patch g s) = grid_x s /\ grid_y (setup_on_patch g s) = grid_y s
  /\ building_type (setup_on_patch g s) = building_type s
  /\ tier (setup_on_patch g s) = tier s
  /\ hp (setup_on_patch g s) = hp s /\ max_hp (setup_on_patch g s) = max_hp s.
Proof.
  unfold setup_on_patch, building_type. destruct (kind s) eqn:Hk; rewrite ?Hk;
    try (split_and!; reflexivity).
  destruct (base_terrain g !! _) as [p|]; [destruct (_ || _)|]; cbn; rewrite ?Hk;
    split_and!; reflexivity.
Qed.

Lemma construct_network_id (cls : BuildingClass) (gx gy : Z) (o : option Z) (r : Q) :
  network_id (construct cls gx gy o r)
  = structure_id gx gy (building_type (construct cls gx gy o r)).
Proof. destruct cls; reflexivity. Qed.

Lemma construct_is_Drill (cls : BuildingClass) (gx gy : Z) (o : option Z) (r : Q) :
  is_Drill (construct cls gx gy o r) = is_ClsDrill cls.
Proof. destruct cls; reflexivity. Qed.

Lemma construct_hp (cls : BuildingClass) (gx gy : Z) (o : option Z) (r : Q) :
  hp (construct cls gx gy o r) = max_hp (construct cls gx gy o r)
  /\ (0 < max_hp (construct cls gx gy o r))%Q.
Proof. destruct cls; split; reflexivity. Qed.

Lemma _update_power_lists_add_bounds (g : Game) (a : Ref) (x y : Z) :
  in_bounds (_update_power_lists_add g a) x y = in_bounds g x y.
Proof.
  unfold _update_power_lists_add. destruct (is_client g); [reflexivity|].
  destruct (heap g !! a) as [obj|]; [|reflexivity].
  destruct (is_power_node obj && _); destruct (is_power_consumer obj && _); reflexivity.
Qed.

Lemma _update_power_lists_add_players (g : Game) (a : Ref) :
  players (_update_power_lists_add g a) = players g.
Proof.
  unfold _update_power_lists_add. destruct (is_client g); [reflexivity|].
  destruct (heap g !! a) as [obj|]; [|reflexivity].
  destruct (is_power_node obj && _); destruct (is_power_consumer obj && _); reflexivity.
Qed.

(** Adding a freshly allocated object on an authoritative world whose
    tile is free, or holds a patch under a drill: nothing is removed, the
    object takes the tile and its id. *)
Lemma _add_structure_to_game_fresh (g : Game) (new : Structure) :
  is_client g = false -> in_bounds g (grid_x new) (grid_y new) = true ->
  (forall b, grid g !! (grid_x new, grid_y new) = Some (CellObj b) ->
     is_Drill new = true
     /\ exists ex, heap g !! b = Some ex /\ is_ResourcePatch ex = true) ->
  exists g' s,
    _add_structure_to_game (alloc new g).1 (length (heap g)) = (g', true)
    /\ heap g' = heap g ++ [s]
    /\ grid g' = <[(grid_x new, grid_y new) := CellObj (length (heap g))]> (grid g)
    /\ structures g' = <[network_id new := length (heap g)]> (structures g)
    /\ resources g' = resources g /\ core g' = core g
    /\ (forall x y, in_bounds g' x y = in_bounds g x y)
    /\ players g' = players g
    /\ (is_Drill new = false -> s = new)
    /\ network_id s = network_id new
    /\ grid_x s = grid_x new /\ grid_y s = grid_y new
    /\ building_type s = building_type new /\ tier s = tier new
    /\ hp s = hp new /\ max_hp s = max_hp new.
Proof.
  intros Hcl Hin Hcell.
  unfold _add_structure_to_game, alloc. cbn [fst].
  set (g2 := with_heap (heap g ++ [new]) g).
  assert (Hn : heap g2 !! length (heap g) = Some new).
  { unfold g2. change (heap (with_heap ?h _)) with h.
    rewrite lookup_app_r by lia. rewrite Nat.sub_diag. reflexivity. }
  unfold Ref in *. rewrite Hn.
  change (in_bounds g2 (grid_x new) (grid_y new)) with (in_bounds g (grid_x new) (grid_y new)).
  rewrite Hin. cbn [negb].
  change (grid g2) with (grid g).
  set (g1 := match grid g !! (grid_x new, grid_y new) with
             | Some (CellObj b) => _
             | _ => g2 end).
  assert (E1 : g1 = g2).
  { unfold g1. destruct (grid g !! (grid_x new, grid_y new)) as [[p|b]|] eqn:Hc; try reflexivity.
    destruct (Hcell b eq_refl) as (Hd & ex & Hex & Hpatch).
    assert (Hex2 : heap g2 !! b = Some ex).
    { unfold g2. change (heap (with_heap ?h _)) with h.
      rewrite lookup_app_l by (eapply lookup_lt_Some; exact Hex). exact Hex. }
    unfold Ref in *. rewrite Hex2.
    assert (Ht : (building_type ex =? BUILDING_RESOURCE) = true).
    { unfold is_ResourcePatch in Hpatch. unfold building_type.
      destruct (kind ex); try discriminate. reflexivity. }
    rewrite Ht. rewrite andb_false_r. reflexivity. }
  rewrite E1. clearbody g1. clear g1 E1.
  set (g3 := with_structures _ (with_grid _ g2)).
  assert (Hcl3 : is_client g3 = false) by exact Hcl.
  rewrite Hcl3.
  destruct (_update_power_lists_add_frame g3 (length (heap g))) as (A1 & A2 & A3 & A4 & A5 & A6).
  cbv zeta in A1, A2, A3, A4, A5, A6.
  set (g4 := _update_power_lists_add g3 (length (heap g))) in *.
  rewrite A6, Hcl3. cbn [negb]. rewrite andb_true_r.
  assert (Hn4 : heap g4 !! length (heap g) = Some new) by (rewrite A2; exact Hn).
  destruct (is_Drill new) eqn:Hd.
  - exists (modify (length (heap g)) (setup_on_patch g4) g4), (setup_on_patch g4 new).
    rewrite (modify_Some g4 _ _ new Hn4).
    change (heap (with_heap ?h _)) with h. change (grid (with_heap _ ?x)) with (grid x).
    change (structures (with_heap _ ?x)) with (structures x).
    change (resources (with_heap _ ?x)) with (resources x).
    change (core (with_heap _ ?x)) with (core x).
    rewrite A1, A2, A3, A4, A5.
    destruct (setup_on_patch_frame g4 new) as (F1 & F2 & F3 & F4 & F5 & F6 & F7).
    split_and!; try reflexivity; try assumption; try discriminate;
      try (intros x y; apply (_update_power_lists_add_bounds g3)).
    + unfold g3, g2. change (heap (with_structures _ (with_grid _ (with_heap ?h _)))) with h.
      assert (L : length (heap g) = (length (heap g) + 0)%nat) by lia.
      rewrite L at 1. rewrite insert_app_r. reflexivity.
    + exact (_update_power_lists_add_players g3 (length (heap g))).
  - exists g4, new. rewrite A1, A2, A3, A4, A5.
    split_and!; try reflexivity.
    + intros x y; apply (_update_power_lists_add_bounds g3).
    + exact (_update_power_lists_add_players g3 (length (heap g))).
Qed.


Lemma cell_is_patch_obj (g : Game) (b : Ref) :
  cell_is_patch g (Some (CellObj b)) = true ->
  exists ex, heap g !! b = Some ex /\ is_ResourcePatch ex = true.
Proof.
  unfold cell_is_patch, cell_structure.
  destruct (heap g !! b) as [ex|]; [eauto | discriminate].
Qed.

(** The placement action either refuses without a change or builds:
    the cost is paid, a new object is appended to the heap and takes the
    tile and its id. *)
Lemma action_place_structure_cases (g : Game) (player_id b_type gx gy orientation : Z)
    (rnd : Q) :
  action_place_structure g player_id b_type gx gy orientation rnd = (g, false)
  \/ exists cost cls s,
       building_info b_type = Some (cost, cls)
       /\ is_client g = false /\ in_bounds g gx gy = true
       /\ affordable (resources g) cost = true
       /\ (grid g !! (gx, gy) = None
           \/ cls = ClsDrill /\ cell_is_patch g (grid g !! (gx, gy)) = true)
       /\ (action_place_structure g player_id b_type gx gy orientation rnd).2 = true
       /\ let g' := (action_place_structure g player_id b_type gx gy orientation rnd).1 in
          resources g' = deduct_cost cost (resources g)
          /\ heap g' = heap g ++ [s]
          /\ grid g' = <[(gx, gy) := CellObj (length (heap g))]> (grid g)
          /\ structures g' = <[structure_id gx gy b_type := length (heap g)]> (structures g)
          /\ core g' = core g
          /\ (forall x y, in_bounds g' x y = in_bounds g x y)
          /\ network_id s = structure_id gx gy b_type
          /\ grid_x s = gx /\ grid_y s = gy /\ building_type s = b_type /\ tier s = 1
          /\ hp s = max_hp s /\ (0 < max_hp s)%Q.
Proof.
  unfold action_place_structure, action_place_structure_with.
  destruct (is_client g) eqn:Hcl; [left; reflexivity|].
  destruct (players g !! player_id) as [player|] eqn:Hp; [|left; reflexivity].
  destruct (building_info b_type) as [[cost cls]|] eqn:Hb; [|left; reflexivity].
  destruct (b_type =? BUILDING_NONE); [left; reflexivity|].
  destruct (in_bounds g gx gy) eqn:Hin; [|left; reflexivity]. cbn [negb].
  destruct (affordable (resources g) cost) eqn:Haff; [|left; reflexivity]. cbn [negb].
  destruct (out_of_build_radius player gx gy); [left; reflexivity|].
  assert (Hat : get_structure_at g gx gy = grid g !! (gx, gy)).
  { unfold get_structure_at. rewrite Hin. reflexivity. }
  rewrite Hat.
  destruct (negb _) eqn:Hok; [left; reflexivity|].
  apply negb_false_iff in Hok.
  right. unfold instantiate_real.
  set (new := construct cls gx gy (Some orientation) rnd).
  destruct (construct_frame cls gx gy (Some orientation) rnd) as (Cx & Cy & Ct).
  pose proof (building_info_class b_type cost cls gx gy (Some orientation) rnd Hb) as Cb.
  pose proof (construct_network_id cls gx gy (Some orientation) rnd) as Cn.
  pose proof (construct_is_Drill cls gx gy (Some orientation) rnd) as Cd.
  destruct (construct_hp cls gx gy (Some orientation) rnd) as (Ch & Cm).
  fold new in Cx, Cy, Ct, Cb, Cn, Cd, Ch, Cm. rewrite Cb in Cn.
  set (g1 := with_resources (deduct_cost cost (resources g)) g).
  assert (Hfree : grid g !! (gx, gy) = None
                  \/ cls = ClsDrill /\ cell_is_patch g (grid g !! (gx, gy)) = true).
  { apply orb_true_iff in Hok as [Hok | Hok].
    - apply andb_true_iff in Hok as [Hc Hpatch]. right. split; [|exact Hpatch].
      destruct cls; try discriminate. reflexivity.
    - apply andb_true_iff in Hok as [Hemp _]. apply bool_decide_eq_true in Hemp.
      left. exact Hemp. }
  destruct (_add_structure_to_game_fresh g1 new) as
    (g' & s & Hadd & Hheap & Hgrid & Hreg & Hres & Hcore & Hbd & _ & _
     & S1 & S2 & S3 & S4 & S5 & S6 & S7).
  { exact Hcl. }
  { rewrite Cx, Cy. exact Hin. }
  { rewrite Cx, Cy. change (grid g1) with (grid g). change (heap g1) with (heap g).
    intros b Hcell. destruct Hfree as [Hnone | [-> Hpatch]].
    - unfold Ref in *. rewrite Hnone in Hcell. discriminate Hcell.
    - split; [reflexivity|]. unfold Ref in *. rewrite Hcell in Hpatch.
      exact (cell_is_patch_obj g b Hpatch). }
  exists cost, cls, s.
  unfold alloc in *. cbn [fst snd] in Hadd |- *.
  change (length (heap g1)) with (length (heap g)) in *.
  unfold Ref in *. rewrite Hadd. cbn [fst snd]. cbv zeta.
  rewrite Hheap, Hgrid, Hreg, Hres, Hcore, S1, S2, S3, S4, S5, S6, S7, Cx, Cy, Cn, Cb, Ct.
  split_and!; try reflexivity; try assumption.
Qed.

(** A placement that succeeds pays exactly the build cost, appends one
    object -- of the requested type, at the requested tile, at tier 1 and
    with full hit points -- to the world, puts it on its tile and
    registers it under its id; every other tile, every other object and
    every other id stay as they were. *)
Theorem action_place_structure_success (g : Game) (player_id b_type gx gy orientation : Z)
    (rnd : Q) :
  snd (action_place_structure g player_id b_type gx gy orientation rnd) = true ->
  let g' := fst (action_place_structure g player_id b_type gx gy orientation rnd) in
  exists cost cls s,
    building_info b_type = Some (cost, cls) /\ in_bounds g gx gy = true
    /\ resources g' = deduct_cost cost (resources g)
    /\ get_structure_at g' gx gy = Some (CellObj (length (heap g)))
    /\ heap g' !! length (heap g) = Some s
    /\ building_type s = b_type /\ grid_x s = gx /\ grid_y s = gy /\ tier s = 1
    /\ hp s = max_hp s
    /\ structures g' !! network_id s = Some (length (heap g))
    /\ (forall k, k <> (gx, gy) -> grid g' !! k = grid g !! k)
    /\ (forall b, (b < length (heap g))%nat -> heap g' !! b = heap g !! b)
    /\ (forall sid, sid <> network_id s -> structures g' !! sid = structures g !! sid).
Proof.
  intros Ht. cbv zeta.
  destruct (action_place_structure_cases g player_id b_type gx gy orientation rnd)
    as [E | (cost & cls & s & Hb & _ & Hin & _ & _ & _ & Hg')].
  - rewrite E in Ht. discriminate.
  - cbv zeta in Hg'.
    destruct Hg' as (Hres & Hheap & Hgrid & Hreg & Hcore & Hbd
                     & S1 & S2 & S3 & S4 & S5 & S6 & _).
    exists cost, cls, s.
    assert (Hin' : in_bounds
              (action_place_structure g player_id b_type gx gy orientation rnd).1 gx gy = true).
    { rewrite Hbd. exact Hin. }
    split_and!; try assumption.
    + unfold get_structure_at. rewrite Hin', Hgrid. apply lookup_insert_eq.
    + rewrite Hheap. rewrite lookup_app_r by lia. rewrite Nat.sub_diag. reflexivity.
    + rewrite Hreg, S1. apply lookup_insert_eq.
    + intros k Hk. rewrite Hgrid. apply lookup_insert_ne. congruence.
    + intros b Hlt. rewrite Hheap. apply lookup_app_l. exact Hlt.
    + intros sid Hs. rewrite Hreg. apply lookup_insert_ne. rewrite <- S1. congruence.
Qed.

(** A wall on a free tile next to the player of a new world. *)
Lemma action_place_structure_success_witness :
  snd (action_place_structure demo_world 0 BUILDING_WALL 20 12 EAST 0) = true
  /\ exists cost cls s,
       building_info BUILDING_WALL = Some (cost, cls) /\ in_bounds demo_world 20 12 = true
       /\ resources (fst (action_place_structure demo_world 0 BUILDING_WALL 20 12 EAST 0))
          = deduct_cost cost (resources demo_world)
       /\ get_structure_at (fst (action_place_structure demo_world 0 BUILDING_WALL 20 12 EAST 0))
            20 12 = Some (CellObj (length (heap demo_world)))
       /\ heap (fst (action_place_structure demo_world 0 BUILDING_WALL 20 12 EAST 0))
            !! length (heap demo_world) = Some s
       /\ building_type s = BUILDING_WALL /\ grid_x s = 20 /\ grid_y s = 12 /\ tier s = 1
       /\ hp s = max_hp s
       /\ structures (fst (action_place_structure demo_world 0 BUILDING_WALL 20 12 EAST 0))
            !! network_id s = Some (length (heap demo_world))
       /\ (forall k, k <> (20, 12) ->
             grid (fst (action_place_structure demo_world 0 BUILDING_WALL 20 12 EAST 0)) !! k
             = grid demo_world !! k)
       /\ (forall b, (b < length (heap demo_world))%nat ->
             heap (fst (action_place_structure demo_world 0 BUILDING_WALL 20 12 EAST 0)) !! b
             = heap demo_world !! b)
       /\ (forall sid, sid <> network_id s ->
             structures (fst (action_place_structure demo_world 0 BUILDING_WALL 20 12 EAST 0))
               !! sid = structures demo_world !! sid).
Proof.
  split; [vm_compute; reflexivity|].
  apply (action_place_structure_success demo_world 0 BUILDING_WALL 20 12 EAST 0).
  vm_compute. reflexivity.
Defined.

(** ** Resources never go negative *)

Lemma building_info_cost (b_type : Z) (c : Cost) (cls : BuildingClass) :
  building_info b_type = Some (c, cls) ->
  NoDup c.*1 /\ forall r a, (r, a) ∈ c -> 0 <= a.
Proof.
  unfold building_info.
  repeat (destruct (b_type =? _);
          [intros [= <- <-]; split;
           [cbn; repeat (apply NoDup_cons_2;
                         [cbn; rewrite ?elem_of_cons, elem_of_nil; intuition discriminate|]);
            apply NoDup_nil_2
           |intros r a H; cbn in H;
            repeat (apply elem_of_cons in H as [H | H]; [simplify_eq; lia|]);
            by apply elem_of_nil in H] |]).
  discriminate.
Qed.

Lemma upgrade_cost_NoDup (s : Structure) (c : Cost) :
  get_next_upgrade_cost s = Some c -> NoDup c.*1.
Proof.
  unfold get_next_upgrade_cost. destruct (can_upgrade s); [|discriminate].
  unfold upgrade_cost. destruct (kind s); cbn; try discriminate;
    repeat (destruct (_ =? _);
            [intros [= <-]; cbn;
             repeat (apply NoDup_cons_2;
                     [cbn; rewrite ?elem_of_cons, elem_of_nil; intuition discriminate|]);
             apply NoDup_nil_2 |]);
    discriminate.
Qed.

Lemma refund_removed_nonneg (c : Cost) (m : gmap string Z) :
  (forall r a, (r, a) ∈ c -> 0 <= a) ->
  (forall r v, m !! r = Some v -> 0 <= v) ->
  forall r v, refund_removed c m !! r = Some v -> 0 <= v.
Proof.
  unfold refund_removed. revert m. induction c as [|[r' a] c IH]; intros m Hc Hm; [exact Hm|].
  cbn [foldl]. apply IH.
  - intros r a0 Hin. apply (Hc r a0). right. exact Hin.
  - intros r v. destruct (decide (r = r')) as [->|Hne].
    + rewrite lookup_insert_eq. intros [= <-].
      assert (Ha : 0 <= a) by (apply (Hc r' a); left).
      rewrite refund_amount_floor by exact Ha.
      assert (0 <= a / 2) by (apply Z.div_pos; lia).
      destruct (m !! r') as [v0|] eqn:E; cbn; [specialize (Hm _ _ E)|]; lia.
    + rewrite lookup_insert_ne by congruence. apply Hm.
Qed.

Lemma _remove_structure_from_game_resources (g : Game) (a : Ref) :
  resources (_remove_structure_from_game g a) = resources g.
Proof.
  unfold _remove_structure_from_game. destruct (heap g !! a) as [s|]; [|reflexivity].
  set (g1 := with_structures _ g).
  assert (E2 : resources (if is_client g1 then g1 else _update_power_lists_remove g1 a)
               = resources g).
  { destruct (is_client g1); [reflexivity|].
    destruct (_update_power_lists_remove_frame' g1 a) as (R1 & _). exact R1. }
  destruct (_ && _); [|exact E2].
  destruct (restore_cell_frame (if is_client g1 then g1 else _update_power_lists_remove g1 a)
              (grid_x s) (grid_y s)) as [-> _]. exact E2.
Qed.

(** The removal either changes nothing or credits the refund of the
    removed structure. *)
Lemma action_remove_structure_resources (g : Game) (player_id gx gy : Z) :
  resources (action_remove_structure g player_id gx gy).1 = resources g
  \/ exists s, resources (action_remove_structure g player_id gx gy).1
               = refund_removed (cost s) (resources g).
Proof.
  unfold action_remove_structure.
  destruct (is_client g); [left; reflexivity|].
  destruct (players g !! player_id) as [player|]; [|left; reflexivity].
  destruct (get_structure_at g gx gy) as [[p|a]|]; [left; reflexivity| |left; reflexivity].
  destruct (heap g !! a) as [s|] eqn:Ha; [|left; reflexivity].
  destruct (_ || _); [left; reflexivity|].
  destruct (out_of_build_radius player gx gy); [left; reflexivity|].
  right. exists s. cbn [fst]. rewrite _remove_structure_from_game_resources. reflexivity.
Qed.

(** No player action drives a resource below zero: a placement and an
    upgrade are paid only when every amount is covered, and a removal
    only adds. *)
Theorem player_actions_keep_resources_nonneg (g : Game)
    (player_id b_type gx gy orientation : Z) (rnd : Q) :
  (forall r v, resources g !! r = Some v -> 0 <= v) ->
  (forall r v,
     resources (action_place_structure g player_id b_type gx gy orientation rnd).1 !! r
     = Some v -> 0 <= v)
  /\ (forall r v, resources (action_remove_structure g player_id gx gy).1 !! r = Some v ->
        0 <= v)
  /\ (forall r v, resources (action_upgrade_structure g player_id gx gy).1 !! r = Some v ->
        0 <= v).
Proof.
  intros Hg. split_and!.
  - destruct (action_place_structure_cases g player_id b_type gx gy orientation rnd)
      as [-> | (cost & cls & s & Hb & _ & _ & Haff & _ & _ & Hg')]; [exact Hg|].
    cbv zeta in Hg'. destruct Hg' as (-> & _).
    destruct (building_info_cost _ _ _ Hb) as [Hnd _].
    apply deduct_cost_nonneg; assumption.
  - destruct (action_remove_structure_resources g player_id gx gy) as [-> | [s ->]];
      [exact Hg|].
    apply refund_removed_nonneg; [apply cost_nonneg | exact Hg].
  - destruct (action_upgrade_structure_cases g player_id gx gy)
      as [-> | (player & a & target & cost & _ & _ & _ & _ & _ & _ & Hcost & Haff & _ & Hg')];
      [exact Hg|].
    cbv zeta in Hg'. destruct Hg' as (-> & _).
    apply deduct_cost_nonneg; [eapply upgrade_cost_NoDup; eauto | exact Haff | exact Hg].
Qed.

Lemma player_actions_keep_resources_nonneg_witness :
  (forall r v, resources demo_world !! r = Some v -> 0 <= v)
  /\ forall r v,
       resources (action_place_structure demo_world 0 BUILDING_WALL 20 12 EAST 0).1 !! r
       = Some v -> 0 <= v.
Proof.
  assert (H : forall r v, resources demo_world !! r = Some v -> 0 <= v).
  { intros r v. change (resources demo_world)
      with (<[RES_COPPER := STARTING_COPPER]> (<[RES_COAL := STARTING_COAL]> ∅ : gmap string Z)).
    intros Hl. apply lookup_insert_Some in Hl as [[_ <-] | [_ Hl]]; [vm_compute; discriminate|].
    apply lookup_insert_Some in Hl as [[_ <-] | [_ Hl]]; [vm_compute; discriminate|].
    rewrite lookup_empty in Hl. discriminate. }
  split; [exact H|].
  exact (proj1 (player_actions_keep_resources_nonneg demo_world 0 BUILDING_WALL 20 12 EAST 0 H)).
Defined.

(** ** The registry and the core under the player actions *)

Lemma restore_cell_heap (g : Game) (gx gy : Z) :
  heap (restore_cell g gx gy) = heap g /\ core (restore_cell g gx gy) = core g.
Proof. unfold restore_cell. destruct (truthy _); split; reflexivity. Qed.

Lemma _remove_structure_from_game_frame (g : Game) (a : Ref) (s : Structure) :
  heap g !! a = Some s ->
  heap (_remove_structure_from_game g a) = heap g
  /\ core (_remove_structure_from_game g a) = core g
  /\ structures (_remove_structure_from_game g a) = delete (network_id s) (structures g).
Proof.
  intros Ha. unfold _remove_structure_from_game. unfold Ref in *. rewrite Ha.
  set (g1 := with_structures _ g).
  set (g2 := if is_client g1 then g1 else _update_power_lists_remove g1 a).
  assert (E2 : heap g2 = heap g /\ core g2 = core g
               /\ structures g2 = delete (network_id s) (structures g)).
  { unfold g2. destruct (is_client g1); [split_and!; reflexivity|].
    destruct (_update_power_lists_remove_frame' g1 a) as (_ & R2 & _ & R4 & R5 & _).
    cbv zeta in *. rewrite R2, R4, R5. split_and!; reflexivity. }
  destruct (_ && _); [|exact E2].
  destruct (restore_cell_heap g2 (grid_x s) (grid_y s)) as [-> ->].
  destruct (restore_cell_frame g2 (grid_x s) (grid_y s)) as [_ ->]. exact E2.
Qed.

(** The removal either changes nothing or takes a structure other than
    the core out of the registry, leaving the heap as it is. *)
Lemma action_remove_structure_cases (g : Game) (player_id gx gy : Z) :
  action_remove_structure g player_id gx gy = (g, false)
  \/ exists a s,
       heap g !! a = Some s /\ building_type s <> BUILDING_CORE
       /\ heap (action_remove_structure g player_id gx gy).1 = heap g
       /\ core (action_remove_structure g player_id gx gy).1 = core g
       /\ structures (action_remove_structure g player_id gx gy).1
          = delete (network_id s) (structures g).
Proof.
  unfold action_remove_structure.
  destruct (is_client g); [left; reflexivity|].
  destruct (players g !! player_id) as [player|]; [|left; reflexivity].
  destruct (get_structure_at g gx gy) as [[p|a]|]; [left; reflexivity| |left; reflexivity].
  destruct (heap g !! a) as [s|] eqn:Ha; [|left; reflexivity].
  destruct (building_type s =? BUILDING_CORE) eqn:Hc; [left; reflexivity|].
  destruct (building_type s =? BUILDING_RESOURCE); [left; reflexivity|]. cbn [orb].
  destruct (out_of_build_radius player gx gy); [left; reflexivity|].
  right. exists a, s. cbn [fst]. apply Z.eqb_neq in Hc.
  set (g1 := with_resources _ g).
  destruct (_remove_structure_from_game_frame g1 a s Ha) as (-> & -> & ->).
  split_and!; try reflexivity; assumption.
Qed.

Lemma core_cannot_upgrade (s : Structure) : kind s = KCore -> can_upgrade s = false.
Proof.
  intros Hk. unfold can_upgrade, max_tier, upgrade_cost. rewrite Hk.
  destruct (tier s <? 1); reflexivity.
Qed.

Lemma building_info_not_core (b_type : Z) (c : Cost) (cls : BuildingClass) :
  building_info b_type = Some (c, cls) -> b_type <> BUILDING_CORE.
Proof. intros H ->. discriminate H. Qed.

(** The consistency that the snapshot code relies on is an invariant of
    the three player actions: afterwards every registered id still leads
    to a live object carrying this id, and [self.core] is still a live
    core. *)
Theorem player_actions_keep_registry (g : Game) (player_id b_type gx gy orientation : Z)
    (rnd : Q) :
  registry_ok g -> core_ok g ->
  (registry_ok (action_place_structure g player_id b_type gx gy orientation rnd).1
   /\ core_ok (action_place_structure g player_id b_type gx gy orientation rnd).1)
  /\ (registry_ok (action_remove_structure g player_id gx gy).1
      /\ core_ok (action_remove_structure g player_id gx gy).1)
  /\ (registry_ok (action_upgrade_structure g player_id gx gy).1
      /\ core_ok (action_upgrade_structure g player_id gx gy).1).
Proof.
  intros Hreg Hcore. split_and!.
  - destruct (action_place_structure_cases g player_id b_type gx gy orientation rnd)
      as [-> | (cost & cls & s & _ & _ & _ & _ & _ & _ & Hg')]; [exact Hreg|].
    cbv zeta in Hg'. destruct Hg' as (_ & Hh & _ & Hs & _ & _ & Hid & _).
    intros sid a. rewrite Hs, Hh. intros Hl.
    apply lookup_insert_Some in Hl as [[<- <-] | [Hne Hl]].
    + exists s. split; [|exact Hid].
      rewrite lookup_app_r by lia. rewrite Nat.sub_diag. reflexivity.
    + destruct (Hreg sid a Hl) as (s0 & Hs0 & Hid0). exists s0. split; [|exact Hid0].
      rewrite lookup_app_l by (eapply lookup_lt_Some; exact Hs0). exact Hs0.
  - destruct (action_place_structure_cases g player_id b_type gx gy orientation rnd)
      as [-> | (cost & cls & s & _ & _ & _ & _ & _ & _ & Hg')]; [exact Hcore|].
    cbv zeta in Hg'. destruct Hg' as (_ & Hh & _ & _ & Hc & _).
    intros c. rewrite Hc, Hh. intros Hl.
    destruct (Hcore c Hl) as (s0 & Hs0 & Hk). exists s0. split; [|exact Hk].
    rewrite lookup_app_l by (eapply lookup_lt_Some; exact Hs0). exact Hs0.
  - destruct (action_remove_structure_cases g player_id gx gy)
      as [-> | (a & s & _ & _ & Hh & _ & Hs)]; [exact Hreg|].
    intros sid b. rewrite Hs, Hh. intros Hl.
    apply lookup_delete_Some in Hl as [_ Hl]. exact (Hreg sid b Hl).
  - destruct (action_remove_structure_cases g player_id gx gy)
      as [-> | (a & s & _ & _ & Hh & Hc & _)]; [exact Hcore|].
    intros c. rewrite Hc, Hh. apply Hcore.
  - destruct (action_upgrade_structure_cases g player_id gx gy)
      as [-> | (player & a & target & cost & _ & _ & _ & Ha & _ & Hcan & _ & _ & _ & Hg')];
      [exact Hreg|].
    cbv zeta in Hg'. destruct Hg' as (_ & Hh & _ & Hs & _).
    destruct (apply_upgrade_ids target Hcan) as (I1 & _).
    intros sid b. rewrite Hs, Hh. intros Hl.
    destruct (Hreg sid b Hl) as (s0 & Hs0 & Hid0).
    destruct (decide (b = a)) as [->|Hne].
    + exists (apply_upgrade target).1. split.
      * apply list_lookup_insert_eq. eapply lookup_lt_Some; exact Ha.
      * rewrite I1. unfold Ref in *. congruence.
    + exists s0. split; [|exact Hid0]. rewrite list_lookup_insert_ne by congruence. exact Hs0.
  - destruct (action_upgrade_structure_cases g player_id gx gy)
      as [-> | (player & a & target & cost & _ & _ & _ & Ha & _ & Hcan & _ & _ & _ & Hg')];
      [exact Hcore|].
    cbv zeta in Hg'. destruct Hg' as (_ & Hh & _ & _ & Hc).
    intros c. rewrite Hc, Hh. intros Hl.
    destruct (Hcore c Hl) as (s0 & Hs0 & Hk). exists s0. split; [|exact Hk].
    rewrite list_lookup_insert_ne; [exact Hs0|].
    intros ->. unfold Ref in *. assert (target = s0) by congruence. subst.
    rewrite (core_cannot_upgrade s0 Hk) in Hcan. discriminate.
Qed.

(** ** The new world *)

(** [max(lo, min(x, hi))] lies between the bounds when they are in
    order. *)
Lemma clamp_bounds (lo hi x : Q) :
  (lo <= hi)%Q -> (lo <= pymax lo (pymin x hi) /\ pymax lo (pymin x hi) <= hi)%Q.
Proof.
  intros H. unfold pymax, pymin.
  destruct (Qltb hi x) eqn:E1.
  - destruct (Qltb lo hi) eqn:E2; [lra|]. apply Qltb_false_iff in E2. lra.
  - apply Qltb_false_iff in E1.
    destruct (Qltb lo x) eqn:E2; [apply Qltb_iff in E2; lra | lra].
Qed.

(** The world after the deterministic part of [setup_world]. *)
Lemma setup_world_core_world (g : Game) (name : string) (color_index : Z) :
  is_client g = false -> 0 < grid_width g -> 0 < grid_height g ->
  let core_gx := Z.max 0 (Z.min (grid_width g / 2) (grid_width g - 1)) in
  let core_gy := Z.max 0 (Z.min (grid_height g - 4) (grid_height g - 1)) in
  let c := length (heap g) in
  let g' := setup_world_core g name color_index in
  heap g' = heap g ++ [Core_init core_gx core_gy]
  /\ core g' = Some c
  /\ structures g' = {[structure_id core_gx core_gy BUILDING_CORE := c]}
  /\ grid g' = {[(core_gx, core_gy) := CellObj c]}
  /\ (forall x y, in_bounds g' x y = in_bounds g x y)
  /\ in_bounds g core_gx core_gy = true
  /\ exists p, players g' = {[0 := p]} /\ Player.name p = name /\ Player.player_id p = 0
       /\ Player.world_x p
          = pymax (inject_Z TILE_SIZE)
              (pymin (grid_to_world_center core_gx (core_gy - 2)).1
                 (inject_Z (map_width_px g) - inject_Z TILE_SIZE))
       /\ Player.world_y p
          = pymax (inject_Z TILE_SIZE)
              (pymin (grid_to_world_center core_gx (core_gy - 2)).2
                 (inject_Z (map_height_px g) - inject_Z TILE_SIZE)).
Proof.
  intros Hcl Hw Hh. cbv zeta. unfold setup_world_core. rewrite Hcl.
  set (cx := Z.max 0 (Z.min (grid_width g / 2) (grid_width g - 1))).
  set (cy := Z.max 0 (Z.min (grid_height g - 4) (grid_height g - 1))).
  assert (Hin : in_bounds g cx cy = true).
  { unfold in_bounds. assert (0 <= grid_width g / 2) by (apply Z.div_pos; lia).
    apply andb_true_iff; split; [apply andb_true_iff; split; [apply andb_true_iff; split|]|];
      lia. }
  set (g0 := with_players ∅ (with_projectiles ∅ (with_enemies ∅ (with_structures ∅
               (with_base_terrain ∅ (with_grid ∅ g)))))).
  unfold alloc. cbv beta iota zeta.
  change (heap g0) with (heap g).
  set (new := Core_init cx cy).
  destruct (_add_structure_to_game_fresh (with_core (Some (length (heap g))) g0) new)
    as (g' & s & Hadd & Hheap & Hgrid & Hreg & Hres & Hcore & Hbd & Hpl & Hs & _).
  { exact Hcl. }
  { exact Hin. }
  { intros b Hb. change (grid (with_core _ g0)) with (∅ : gmap (Z * Z) Cell) in Hb.
    rewrite lookup_empty in Hb. discriminate Hb. }
  change (alloc new (with_core (Some (length (heap g))) g0)).1
    with (with_core (Some (length (heap g))) (with_heap (heap g ++ [new]) g0)) in Hadd.
  change (heap (with_core (Some (length (heap g))) g0)) with (heap g) in *.
  unfold Ref in *. rewrite Hadd. cbn [fst snd].
  rewrite (Hs eq_refl) in Hheap.
  destruct (grid_to_world_center cx (cy - 2)) as [px py] eqn:Hc. cbn [fst snd].
  change (heap (with_players ?p ?x)) with (heap x).
  change (core (with_players ?p ?x)) with (core x).
  change (structures (with_players ?p ?x)) with (structures x).
  change (grid (with_players ?p ?x)) with (grid x).
  rewrite Hheap, Hcore, Hreg, Hgrid.
  split_and!; try reflexivity; try assumption.
  match goal with |- context [<[0 := ?p]> _] => exists p end.
  split; [|split_and!; reflexivity].
  change (players (with_players ?p _)) with p. rewrite Hpl.
  change (players (with_core _ g0)) with (∅ : gmap Z Player.t).
  apply insert_empty.
Qed.

(** A new world on a grid of at least one tile: the core has its full
    hit points, stands on a tile of the grid and is the only registered
    structure; the registry and the core are consistent; and player 0
    stands at least one tile away from the edges of a map of at least two
    tiles. *)
Theorem setup_world_core_spec (g : Game) (name : string) (color_index : Z) :
  is_client g = false -> 0 < grid_width g -> 0 < grid_height g ->
  let g' := setup_world_core g name color_index in
  (exists c s,
     core g' = Some c /\ heap g' !! c = Some s /\ kind s = KCore
     /\ hp s = CORE_HP /\ max_hp s = CORE_HP
     /\ in_bounds g' (grid_x s) (grid_y s) = true
     /\ get_structure_at g' (grid_x s) (grid_y s) = Some (CellObj c)
     /\ structures g' = {[network_id s := c]})
  /\ registry_ok g' /\ core_ok g'
  /\ exists p,
       players g' = {[0 := p]} /\ Player.name p = name
       /\ (2 * TILE_SIZE <= map_width_px g ->
            (inject_Z TILE_SIZE <= Player.world_x p
             /\ Player.world_x p <= inject_Z (map_width_px g) - inject_Z TILE_SIZE)%Q)
       /\ (2 * TILE_SIZE <= map_height_px g ->
            (inject_Z TILE_SIZE <= Player.world_y p
             /\ Player.world_y p <= inject_Z (map_height_px g) - inject_Z TILE_SIZE)%Q).
Proof.
  intros Hcl Hw Hh. cbv zeta.
  destruct (setup_world_core_world g name color_index Hcl Hw Hh)
    as (Hheap & Hcore & Hreg & Hgrid & Hbd & Hin & p & Hp & Hname & _ & Hx & Hy).
  set (cx := Z.max 0 (Z.min (grid_width g / 2) (grid_width g - 1))) in *.
  set (cy := Z.max 0 (Z.min (grid_height g - 4) (grid_height g - 1))) in *.
  set (g' := setup_world_core g name color_index) in *. clearbody g'.
  assert (Hc : heap g' !! length (heap g) = Some (Core_init cx cy)).
  { rewrite Hheap. rewrite lookup_app_r by lia. rewrite Nat.sub_diag. reflexivity. }
  split_and!.
  - exists (length (heap g)), (Core_init cx cy).
    split_and!; try reflexivity; try assumption.
    + change (grid_x (Core_init cx cy)) with cx. change (grid_y (Core_init cx cy)) with cy.
      rewrite Hbd. exact Hin.
    + change (grid_x (Core_init cx cy)) with cx. change (grid_y (Core_init cx cy)) with cy.
      unfold get_structure_at. rewrite Hbd, Hin, Hgrid. apply lookup_singleton_eq.
  - intros sid a. rewrite Hreg. intros Hl.
    apply lookup_singleton_Some in Hl as [<- <-].
    exists (Core_init cx cy). split; [exact Hc | reflexivity].
  - intros c. rewrite Hcore. intros [= <-].
    exists (Core_init cx cy). split; [exact Hc | reflexivity].
  - exists p. split_and!; try assumption.
    + intros Hm. rewrite Hx. apply clamp_bounds.
      assert (E : (inject_Z (2 * TILE_SIZE) <= inject_Z (map_width_px g))%Q)
        by (rewrite <- Zle_Qle; exact Hm).
      rewrite inject_Z_mult in E. change (inject_Z 2) with 2%Q in E. lra.
    + intros Hm. rewrite Hy. apply clamp_bounds.
      assert (E : (inject_Z (2 * TILE_SIZE) <= inject_Z (map_height_px g))%Q)
        by (rewrite <- Zle_Qle; exact Hm).
      rewrite inject_Z_mult in E. change (inject_Z 2) with 2%Q in E. lra.
Qed.

Lemma demo_world_consistent : registry_ok demo_world /\ core_ok demo_world.
Proof.
  destruct (setup_world_core_world (Game_init 1280 768 ModeSp) "Player0" 0)
    as (Hheap & Hcore & Hreg & _); [reflexivity | reflexivity | reflexivity |].
  fold demo_world in Hheap, Hcore, Hreg. split.
  - intros sid a. rewrite Hreg. intros Hl. apply lookup_singleton_Some in Hl as [<- <-].
    eexists. split; [rewrite Hheap; reflexivity | reflexivity].
  - intros c. rewrite Hcore. intros [= <-].
    eexists. split; [rewrite Hheap; reflexivity | reflexivity].
Qed.

Lemma setup_world_core_spec_witness :
  is_client (Game_init 1280 768 ModeSp) = false
  /\ 0 < grid_width (Game_init 1280 768 ModeSp)
  /\ 0 < grid_height (Game_init 1280 768 ModeSp)
  /\ registry_ok (setup_world_core (Game_init 1280 768 ModeSp) "Player0" 0)
  /\ core_ok (setup_world_core (Game_init 1280 768 ModeSp) "Player0" 0).
Proof.
  assert (H1 : is_client (Game_init 1280 768 ModeSp) = false) by reflexivity.
  assert (H2 : 0 < grid_width (Game_init 1280 768 ModeSp)) by reflexivity.
  assert (H3 : 0 < grid_height (Game_init 1280 768 ModeSp)) by reflexivity.
  split_and!; try assumption.
  - exact (proj1 (proj2 (setup_world_core_spec (Game_init 1280 768 ModeSp) "Player0" 0
                           H1 H2 H3))).
  - exact (proj1 (proj2 (proj2 (setup_world_core_spec (Game_init 1280 768 ModeSp) "Player0" 0
                                  H1 H2 H3)))).
Defined.

Lemma player_actions_keep_registry_witness :
  registry_ok demo_world /\ core_ok demo_world
  /\ registry_ok (action_place_structure demo_world 0 BUILDING_WALL 20 12 EAST 0).1
  /\ core_ok (action_place_structure demo_world 0 BUILDING_WALL 20 12 EAST 0).1.
Proof.
  destruct demo_world_consistent as [H1 H2].
  split; [exact H1|]. split; [exact H2|].
  exact (proj1 (player_actions_keep_registry demo_world 0 BUILDING_WALL 20 12 EAST 0 H1 H2)).
Defined.

(** ** Invariants of the wave director *)

Lemma wave_management_inv (g : Game) (d : Draws) :
  0 <= wave_number g <= max_waves g ->
  enemies_spawned_this_wave g <= enemies_to_spawn_this_wave g ->
  let g' := wave_management g d in
  max_waves g' = max_waves g /\ game_over g' = game_over g /\ game_won g' = game_won g
  /\ wave_number g <= wave_number g' <= wave_number g + 1
  /\ wave_number g' <= max_waves g
  /\ enemies_spawned_this_wave g' <= enemies_to_spawn_this_wave g'
  /\ (wave_number g' = wave_number g ->
      enemies_to_spawn_this_wave g' = enemies_to_spawn_this_wave g
      /\ enemies_spawned_this_wave g <= enemies_spawned_this_wave g'
         <= enemies_spawned_this_wave g + 1)
  /\ (wave_number g' = wave_number g + 1 ->
      enemies_to_spawn_this_wave g' = 10 + 5 * wave_number g'
      /\ current_enemy_hp g'
         = ENEMY_START_HP + (wave_number g' - 1) * ENEMY_HP_INCREASE_PER_WAVE).
Proof.
  intros Hn Hs. cbv zeta. unfold wave_management.
  destruct (negb (game_over g) && negb (game_won g)); [|split_and!; try reflexivity; lia].
  set (g1 := with_wave_timer (wave_timer g - dt g)%Q g).
  set (g2 := if negb (in_wave g1) && Qleb (wave_timer g1) 0 && (wave_number g1 <? max_waves g1)
             then _ else g1).
  assert (F2 : max_waves g2 = max_waves g /\ game_over g2 = game_over g
               /\ game_won g2 = game_won g
               /\ enemies_spawned_this_wave g2 <= enemies_to_spawn_this_wave g2
               /\ (wave_number g2 = wave_number g
                   /\ enemies_to_spawn_this_wave g2 = enemies_to_spawn_this_wave g
                   /\ enemies_spawned_this_wave g2 = enemies_spawned_this_wave g
                   \/ wave_number g2 = wave_number g + 1
                      /\ wave_number g < max_waves g
                      /\ enemies_spawned_this_wave g2 = 0
                      /\ enemies_to_spawn_this_wave g2 = 10 + 5 * wave_number g2
                      /\ current_enemy_hp g2
                         = ENEMY_START_HP + (wave_number g2 - 1) * ENEMY_HP_INCREASE_PER_WAVE)).
  { unfold g2. destruct (_ && Qleb _ _) eqn:E1; cbn [andb].
    - destruct (wave_number g1 <? max_waves g1) eqn:E2.
      + apply Z.ltb_lt in E2. change (wave_number g1) with (wave_number g) in *.
        change (max_waves g1) with (max_waves g) in *.
        split_and!; try reflexivity.
        * cbn. lia.
        * right. cbn. split_and!; try reflexivity; lia.
      + split_and!; try reflexivity; [exact Hs|]. left. split_and!; reflexivity.
    - split_and!; try reflexivity; [exact Hs|]. left. split_and!; reflexivity. }
  clearbody g2. clear g1.
  destruct F2 as (M2 & O2 & W2 & S2 & C2).
  set (g3 := if in_wave g2 && (enemies_spawned_this_wave g2 <? enemies_to_spawn_this_wave g2)
             then _ else g2).
  assert (F3 : max_waves g3 = max_waves g2 /\ game_over g3 = game_over g2
               /\ game_won g3 = game_won g2 /\ wave_number g3 = wave_number g2
               /\ current_enemy_hp g3 = current_enemy_hp g2
               /\ enemies_to_spawn_this_wave g3 = enemies_to_spawn_this_wave g2
               /\ enemies_spawned_this_wave g2 <= enemies_spawned_this_wave g3
                  <= enemies_spawned_this_wave g2 + 1
               /\ enemies_spawned_this_wave g3 <= enemies_to_spawn_this_wave g3).
  { unfold g3. destruct (in_wave g2); cbn [andb]; cbv iota;
      [|split_and!; try reflexivity; lia].
    destruct (enemies_spawned_this_wave g2 <? enemies_to_spawn_this_wave g2) eqn:E;
      cbv iota; [|split_and!; try reflexivity; lia].
    apply Z.ltb_lt in E.
    set (g2a := with_enemy_spawn_timer (enemy_spawn_timer g2 - dt g2)%Q g2).
    destruct (Qleb (enemy_spawn_timer g2a) 0); cbv iota;
      [|split_and!; try reflexivity; unfold g2a; cbn; lia].
    destruct (spawn_enemy_wave_fields g2a d) as (K1 & K2 & K3 & K4 & K5 & K6 & K7 & K8 & K9).
    cbv zeta in K1, K2, K3, K4, K5, K6, K7, K8, K9.
    set (g2b := spawn_enemy g2a d) in *. clearbody g2b.
    cbn [max_waves game_over game_won wave_number current_enemy_hp
           enemies_to_spawn_this_wave enemies_spawned_this_wave
           with_enemy_spawn_timer with_enemies_spawned_this_wave].
    rewrite K2, K3, K5, K6, K7, K8, K9.
    change (enemies_to_spawn_this_wave g2a) with (enemies_to_spawn_this_wave g2).
    change (enemies_spawned_this_wave g2a) with (enemies_spawned_this_wave g2).
    split_and!; try reflexivity; lia. }
  clearbody g3. destruct F3 as (M3 & O3 & W3 & N3 & H3 & T3 & P3 & S3).
  assert (F4 : forall g4 : Game,
             g4 = with_wave_timer WAVE_COOLDOWN (with_in_wave false g3) \/ g4 = g3 ->
             max_waves g4 = max_waves g3 /\ game_over g4 = game_over g3
             /\ game_won g4 = game_won g3 /\ wave_number g4 = wave_number g3
             /\ current_enemy_hp g4 = current_enemy_hp g3
             /\ enemies_to_spawn_this_wave g4 = enemies_to_spawn_this_wave g3
             /\ enemies_spawned_this_wave g4 = enemies_spawned_this_wave g3).
  { intros g4 [-> | ->]; split_and!; reflexivity. }
  match goal with |- context [if ?c then ?a else ?b] =>
    destruct (F4 (if c then a else b)) as (M4 & O4 & W4 & N4 & H4 & T4 & P4);
      [destruct c; [left | right]; reflexivity|]
  end.
  rewrite M4, O4, W4, N4, H4, T4, P4, M3, O3, W3, N3, H3, T3, M2, O2, W2.
  split_and!; try reflexivity; lia.
Qed.

Section TickInvariants.

Variable simulate_entities : Game -> Game * bool.
Variable client_animate : Game -> Game.
Hypothesis Hkept : wave_fields_kept simulate_entities.

(** The wave counters stay within their bounds through a tick of the
    authoritative side: the wave number never decreases, grows by at most
    one and never passes [max_waves]; within a wave the number of spawned
    enemies grows by at most one and never passes the quota of the wave,
    which is [10 + 5 * wave_number] from the tick that starts the wave;
    and the terminal flags, once set, stay set. *)
Theorem update_wave_invariants (g : Game) (d : Draws) :
  network_mode g <> ModeClient ->
  0 <= wave_number g <= max_waves g ->
  enemies_spawned_this_wave g <= enemies_to_spawn_this_wave g ->
  let g' := update simulate_entities client_animate g d in
  max_waves g' = max_waves g
  /\ wave_number g <= wave_number g' <= wave_number g + 1
  /\ wave_number g' <= max_waves g'
  /\ enemies_spawned_this_wave g' <= enemies_to_spawn_this_wave g'
  /\ (wave_number g' = wave_number g ->
      enemies_to_spawn_this_wave g' = enemies_to_spawn_this_wave g
      /\ enemies_spawned_this_wave g <= enemies_spawned_this_wave g'
         <= enemies_spawned_this_wave g + 1)
  /\ (wave_number g' = wave_number g + 1 ->
      enemies_to_spawn_this_wave g' = 10 + 5 * wave_number g')
  /\ (game_over g = true -> game_over g' = true)
  /\ (game_won g = true -> game_won g' = true).
Proof.
  intros Hmode Hn Hs. cbv zeta. unfold update.
  destruct (running g); cbn [negb]; [|split_and!; try reflexivity; try lia; tauto].
  destruct (network_mode g) eqn:Hm; try congruence.
  all: destruct (simulate_entities g) as [g1 core_destroyed] eqn:Hsim;
    pose proof (Hkept g) as K; rewrite Hsim in K; cbn [fst] in K;
    destruct K as (Kn & Kt & Ki & Ko & Kw & Km & Kd & Kts & Ksp & Kst);
    destruct (wave_management_inv g1 d) as (M & O & W & N1 & N2 & S & Q1 & Q2);
    [rewrite Kn, Km; exact Hn | rewrite Kts, Ksp; exact Hs |];
    cbv zeta in M, O, W, N1, N2, S, Q1, Q2;
    set (g2 := wave_management g1 d) in *; clearbody g2;
    rewrite Kn, Km, ?Kts, ?Ksp, ?Ko, ?Kw in *;
    set (g3 := if core_destroyed && negb (game_over g2) then with_game_over true g2 else g2);
    assert (F3 : max_waves g3 = max_waves g2 /\ wave_number g3 = wave_number g2
                 /\ enemies_to_spawn_this_wave g3 = enemies_to_spawn_this_wave g2
                 /\ enemies_spawned_this_wave g3 = enemies_spawned_this_wave g2
                 /\ game_won g3 = game_won g2
                 /\ (game_over g2 = true -> game_over g3 = true))
      by (unfold g3; destruct (core_destroyed && negb (game_over g2));
          split_and!; try reflexivity; tauto);
    clearbody g3; destruct F3 as (M3 & N3 & T3 & P3 & W3 & O3);
    match goal with |- context [if ?c then ?a else g3] =>
      assert (F4 : max_waves (if c then a else g3) = max_waves g3
                   /\ wave_number (if c then a else g3) = wave_number g3
                   /\ enemies_to_spawn_this_wave (if c then a else g3)
                      = enemies_to_spawn_this_wave g3
                   /\ enemies_spawned_this_wave (if c then a else g3)
                      = enemies_spawned_this_wave g3
                   /\ game_over (if c then a else g3) = game_over g3
                   /\ (game_won g3 = true -> game_won (if c then a else g3) = true))
        by (destruct c; [destruct (_ && no_enemies g3)|];
            split_and!; try reflexivity; tauto);
      destruct F4 as (M4 & N4 & T4 & P4 & O4 & W4);
      set (g4 := if c then a else g3) in *; clearbody g4
    end;
    rewrite M4, N4, T4, P4, O4, M3, N3, T3, P3, M;
    split_and!; try lia; try tauto;
    [ intros E; apply O3; rewrite O; exact E
    | intros E; apply W4; rewrite W3, W; exact E ].
Qed.

End TickInvariants.

Lemma idle_entities_kept : wave_fields_kept idle_entities.
Proof. intros g. cbn. split_and!; reflexivity. Qed.

(** The first tick after the cooldown of a new world. *)
Lemma update_wave_invariants_witness :
  network_mode cooldown_over_world <> ModeClient
  /\ 0 <= wave_number cooldown_over_world <= max_waves cooldown_over_world
  /\ enemies_spawned_this_wave cooldown_over_world
     <= enemies_to_spawn_this_wave cooldown_over_world
  /\ wave_number (update idle_entities id cooldown_over_world sample_draws)
     <= max_waves (update idle_entities id cooldown_over_world sample_draws)
  /\ enemies_spawned_this_wave (update idle_entities id cooldown_over_world sample_draws)
     <= enemies_to_spawn_this_wave (update idle_entities id cooldown_over_world sample_draws).
Proof.
  assert (H1 : network_mode cooldown_over_world <> ModeClient) by discriminate.
  assert (H2 : 0 <= wave_number cooldown_over_world <= max_waves cooldown_over_world)
    by (split; apply Z.leb_le; vm_compute; reflexivity).
  assert (H3 : enemies_spawned_this_wave cooldown_over_world
               <= enemies_to_spawn_this_wave cooldown_over_world)
    by (apply Z.leb_le; vm_compute; reflexivity).
  split; [exact H1|]. split; [exact H2|]. split; [exact H3|].
  destruct (update_wave_invariants idle_entities id idle_entities_kept cooldown_over_world
              sample_draws H1 H2 H3) as (_ & _ & A & B & _).
  split; [exact A | exact B].
Defined.

(** ** Spawning *)

Lemma enemy_id_of_inj (n m : Z) : enemy_id_of n = enemy_id_of m -> n = m.
Proof.
  unfold enemy_id_of. intros H. cbn in H. injection H as H.
  apply (inj pretty). exact H.
Qed.

(** On the authoritative side with a live core, a spawn adds exactly one
    enemy under an id that no enemy has: the ids handed out so far are
    [e_k] with [k] up to the counter, and the new one is [e_(counter+1)].
    The enemy starts with the hit points of the wave and the centre of
    the core as its target; the others are untouched. *)
Theorem spawn_enemy_fresh (g : Game) (d : Draws) (c : Ref) (core_obj : Structure) :
  is_client g = false -> core g = Some c -> heap g !! c = Some core_obj ->
  (forall eid, is_Some (enemies g !! eid) ->
     exists k, eid = enemy_id_of k /\ k <= next_enemy_id g) ->
  let g' := spawn_enemy g d in
  let nid := enemy_id_of (next_enemy_id g + 1) in
  enemies g !! nid = None
  /\ next_enemy_id g' = next_enemy_id g + 1
  /\ (exists e, enemies g' !! nid = Some e /\ Enemy.network_id e = nid
                /\ Enemy.hp e = inject_Z (current_enemy_hp g)
                /\ Enemy.max_hp e = inject_Z (current_enemy_hp g)
                /\ Enemy.destroyed e = false
                /\ Enemy.target_core_coords e = center core_obj)
  /\ (forall eid, eid <> nid -> enemies g' !! eid = enemies g !! eid)
  /\ size (enemies g') = S (size (enemies g))
  /\ (forall eid, is_Some (enemies g' !! eid) ->
        exists k, eid = enemy_id_of k /\ k <= next_enemy_id g').
Proof.
  intros Hcl Hc Hh Hids. cbv zeta.
  assert (Hfresh : enemies g !! enemy_id_of (next_enemy_id g + 1) = None).
  { destruct (enemies g !! enemy_id_of (next_enemy_id g + 1)) as [e|] eqn:E; [|reflexivity].
    destruct (Hids _ (ex_intro _ e E)) as (k & Hk & Hle).
    apply enemy_id_of_inj in Hk. lia. }
  unfold spawn_enemy. rewrite Hcl, Hc. unfold Ref in *. rewrite Hh.
  destruct (draw_edge d);
    cbn [enemies next_enemy_id with_enemies with_next_enemy_id];
    (split_and!;
     [ exact Hfresh
     | reflexivity
     | eexists; split; [apply lookup_insert_eq | split_and!; reflexivity]
     | intros eid Hne; apply lookup_insert_ne; congruence
     | rewrite map_size_insert_None by exact Hfresh; reflexivity
     | intros eid [e He]; apply lookup_insert_Some in He as [[<- _] | [_ He]];
       [ exists (next_enemy_id g + 1); split; [reflexivity | lia]
       | destruct (Hids _ (ex_intro _ e He)) as (k & Hk & Hle); exists k;
         split; [exact Hk | lia] ] ]).
Qed.

(** The first spawn in a new world. *)
Lemma spawn_enemy_fresh_witness :
  is_client demo_world = false /\ core demo_world = Some 0%nat
  /\ size (enemies (spawn_enemy demo_world sample_draws)) = 1%nat.
Proof.
  assert (H1 : is_client demo_world = false) by reflexivity.
  assert (H2 : core demo_world = Some 0%nat) by reflexivity.
  split; [exact H1|]. split; [exact H2|].
  destruct (spawn_enemy_fresh demo_world sample_draws 0%nat (Core_init 20 15) H1 H2 eq_refl)
    as (_ & _ & _ & _ & Hsz & _).
  - intros eid [e He]. change (enemies demo_world) with (∅ : gmap string Enemy.t) in He.
    rewrite lookup_empty in He. discriminate He.
  - rewrite Hsz. reflexivity.
Defined.

(** ** Items are neither created nor lost in transport *)

Lemma held_total_insert (item : string) (h : list Structure) (a : nat) (s s' : Structure) :
  h !! a = Some s ->
  held_total item (<[a := s']> h) = held_total item h - items_held item s + items_held item s'.
Proof.
  unfold held_total. revert a. induction h as [|x h IH]; intros a Ha; [discriminate|].
  destruct a as [|a].
  - change ((x :: h) !! 0%nat) with (Some x) in Ha. injection Ha as ->.
    change (<[0%nat := s']> (s :: h)) with (s' :: h). cbn [foldr]. lia.
  - change ((x :: h) !! S a) with (h !! a) in Ha.
    change (<[S a := s']> (x :: h)) with (x :: <[a := s']> h). cbn [foldr].
    rewrite (IH a Ha). lia.
Qed.

Lemma stock_modify (item : string) (g : Game) (a : Ref) (f : Structure -> Structure)
    (s : Structure) :
  heap g !! a = Some s ->
  stock item (modify a f g) = stock item g - items_held item s + items_held item (f s).
Proof.
  intros Ha. rewrite (modify_Some g a f s Ha). unfold stock.
  change (resources (with_heap _ g)) with (resources g).
  change (heap (with_heap ?h g)) with h.
  unfold Ref in *. rewrite (held_total_insert item (heap g) a s (f s) Ha). lia.
Qed.

Lemma stock_with_resources (item : string) (g : Game) (m : gmap string Z) :
  stock item (with_resources m g)
  = stock item g - default 0 (resources g !! item) + default 0 (m !! item).
Proof.
  unfold stock. change (heap (with_resources m g)) with (heap g).
  change (resources (with_resources m g)) with m. lia.
Qed.

(** What an offered item does: a refusal changes nothing; an acceptance
    adds one item of the offered type to the stock, leaves the stock of
    every other type alone, and the receiver holds no more than its
    capacity afterwards. *)
Theorem try_accept_item_stock (g : Game) (target : Cell) (item : string) :
  (snd (try_accept_item g target item) = false -> fst (try_accept_item g target item) = g)
  /\ (snd (try_accept_item g target item) = true ->
      stock item (fst (try_accept_item g target item)) = stock item g + 1
      /\ (forall other, other <> item ->
            stock other (fst (try_accept_item g target item)) = stock other g)
      /\ exists b t', target = CellObj b
           /\ heap (fst (try_accept_item g target item)) !! b = Some t'
           /\ within_capacity t').
Proof.
  unfold try_accept_item.
  destruct target as [p|b]; [split; [reflexivity | discriminate]|].
  destruct (heap g !! b) as [t|] eqn:Hb; [|split; [reflexivity | discriminate]].
  assert (Hlt : (b < length (heap g))%nat) by (eapply lookup_lt_Some; exact Hb).
  destruct (kind t) as [|r|dr|c|tu| |cg| |bt|rc] eqn:Hk;
    try (split; [reflexivity | discriminate]).
  - (* core *)
    destruct (bool_decide _) eqn:Hin; [|split; [reflexivity | discriminate]].
    apply bool_decide_eq_true in Hin as [v Hv].
    split; [discriminate|]. intros _. cbn [fst]. split_and!.
    + rewrite stock_with_resources. rewrite lookup_alter_eq, Hv. cbn. lia.
    + intros other Hne. rewrite stock_with_resources.
      rewrite lookup_alter_ne by congruence. lia.
    + exists b, t. split_and!; [reflexivity | exact Hb |].
      unfold within_capacity. rewrite Hk. exact I.
  - (* conveyor *)
    destruct (Conveyor.item_count c <? Conveyor.capacity c) eqn:Hcap;
      [|split; [reflexivity | discriminate]].
    apply Z.ltb_lt in Hcap.
    destruct (Conveyor.item_count c =? 0) eqn:Hz.
    + apply Z.eqb_eq in Hz. split; [discriminate|]. intros _. cbn [fst]. split_and!.
      * rewrite (stock_modify _ _ _ _ t Hb). unfold items_held. cbn [kind set_kind].
        rewrite Hk. cbn. rewrite (bool_decide_eq_true_2 (Some item = Some item)) by reflexivity.
        destruct (bool_decide _); lia.
      * intros other Hne. rewrite (stock_modify _ _ _ _ t Hb). unfold items_held.
        cbn [kind set_kind]. rewrite Hk. cbn.
        rewrite (bool_decide_eq_false_2 (Some item = Some other)) by congruence.
        destruct (bool_decide _); lia.
      * eexists b, _. split_and!; [reflexivity | |].
        -- rewrite (modify_Some _ _ _ t Hb). change (heap (with_heap ?h g)) with h.
           apply list_lookup_insert_eq. exact Hlt.
        -- unfold within_capacity. cbn. lia.
    + destruct (bool_decide (Conveyor.item_type c = Some item)) eqn:Hty;
        [|split; [reflexivity | discriminate]].
      apply bool_decide_eq_true in Hty.
      split; [discriminate|]. intros _. cbn [fst]. split_and!.
      * rewrite (stock_modify _ _ _ _ t Hb). unfold items_held. cbn [kind set_kind].
        rewrite Hk. cbn. rewrite !bool_decide_eq_true_2 by exact Hty. lia.
      * intros other Hne. rewrite (stock_modify _ _ _ _ t Hb). unfold items_held.
        cbn [kind set_kind]. rewrite Hk. cbn.
        rewrite !bool_decide_eq_false_2 by congruence. lia.
      * eexists b, _. split_and!; [reflexivity | |].
        -- rewrite (modify_Some _ _ _ t Hb). change (heap (with_heap ?h g)) with h.
           apply list_lookup_insert_eq. exact Hlt.
        -- unfold within_capacity. cbn. lia.
  - (* turret *)
    destruct (String.eqb item RES_COPPER) eqn:Hit; cbn [andb];
      [|split; [reflexivity | discriminate]].
    destruct (tier t <? 3); cbn [andb]; [|split; [reflexivity | discriminate]].
    destruct (Turret.ammo tu <? TURRET_AMMO_CAPACITY) eqn:Hcap;
      [|split; [reflexivity | discriminate]].
    apply Z.ltb_lt in Hcap. apply String.eqb_eq in Hit. subst item.
    split; [discriminate|]. intros _. cbn [fst]. split_and!.
    + rewrite (stock_modify _ _ _ _ t Hb). unfold items_held. cbn [kind set_kind].
      rewrite Hk. cbn. lia.
    + intros other Hne. rewrite (stock_modify _ _ _ _ t Hb). unfold items_held.
      cbn [kind set_kind]. rewrite Hk.
      assert (E : String.eqb other RES_COPPER = false) by (apply String.eqb_neq; exact Hne).
      rewrite E. lia.
    + eexists b, _. split_and!; [reflexivity | |].
      * rewrite (modify_Some _ _ _ t Hb). change (heap (with_heap ?h g)) with h.
        apply list_lookup_insert_eq. exact Hlt.
      * unfold within_capacity. cbn. lia.
  - (* coal generator *)
    destruct (String.eqb item RES_COAL) eqn:Hit; [|split; [reflexivity | discriminate]].
    destruct (CoalGenerator.coal_buffer cg <? COALGENERATOR_INPUT_CAP) eqn:Hcap;
      [|split; [reflexivity | discriminate]].
    apply Z.ltb_lt in Hcap. apply String.eqb_eq in Hit. subst item.
    split; [discriminate|]. intros _. cbn [fst]. split_and!.
    + rewrite (stock_modify _ _ _ _ t Hb). unfold items_held. cbn [kind set_kind].
      rewrite Hk. cbn. lia.
    + intros other Hne. rewrite (stock_modify _ _ _ _ t Hb). unfold items_held.
      cbn [kind set_kind]. rewrite Hk.
      assert (E : String.eqb other RES_COAL = false) by (apply String.eqb_neq; exact Hne).
      rewrite E. lia.
    + eexists b, _. split_and!; [reflexivity | |].
      * rewrite (modify_Some _ _ _ t Hb). change (heap (with_heap ?h g)) with h.
        apply list_lookup_insert_eq. exact Hlt.
      * unfold within_capacity. cbn. lia.
Qed.

(** A copper item offered to the core of a new world. *)
Lemma try_accept_item_stock_witness :
  snd (try_accept_item demo_world (CellObj 0%nat) RES_COPPER) = true
  /\ stock RES_COPPER (fst (try_accept_item demo_world (CellObj 0%nat) RES_COPPER))
     = stock RES_COPPER demo_world + 1.
Proof.
  assert (H : snd (try_accept_item demo_world (CellObj 0%nat) RES_COPPER) = true)
    by (vm_compute; reflexivity).
  split; [exact H|].
  exact (proj1 (proj2 (try_accept_item_stock demo_world (CellObj 0%nat) RES_COPPER) H)).
Defined.

Lemma items_held_map_conveyor (item : string) (f : Conveyor.data -> Conveyor.data)
    (s : Structure) :
  (forall c, Conveyor.item_type (f c) = Conveyor.item_type c
             /\ Conveyor.item_count (f c) = Conveyor.item_count c) ->
  items_held item (map_conveyor f s) = items_held item s.
Proof.
  intros Hf. unfold map_conveyor, items_held.
  destruct (kind s) as [|r|dr|c|tu| |cg| |bt|rc] eqn:Hk; rewrite ?Hk; try reflexivity.
  cbn [kind set_kind]. destruct (Hf c) as [-> ->]. reflexivity.
Qed.

(** The holder of the offered item keeps its item type while the
    receiver takes the item, also when it offers the item to itself. *)
Lemma try_accept_item_sender (g : Game) (target : Cell) (item : string) (a : Ref)
    (c : Conveyor.data) :
  conveyor_at g a = Some c -> Conveyor.item_type c = Some item -> 0 < Conveyor.item_count c ->
  exists c', conveyor_at (fst (try_accept_item g target item)) a = Some c'
             /\ Conveyor.item_type c' = Some item /\ 0 < Conveyor.item_count c'.
Proof.
  intros Hc Hty Hpos.
  assert (Hsame : exists c', conveyor_at g a = Some c'
                    /\ Conveyor.item_type c' = Some item /\ 0 < Conveyor.item_count c')
    by eauto.
  unfold try_accept_item.
  destruct target as [p|b]; [exact Hsame|].
  destruct (heap g !! b) as [t|] eqn:Hb; [|exact Hsame].
  assert (Hother : forall f, (forall k, kind t <> KConveyor k) ->
            exists c', conveyor_at (modify b f g) a = Some c'
                       /\ Conveyor.item_type c' = Some item /\ 0 < Conveyor.item_count c').
  { intros f Hk. unfold conveyor_at. rewrite modify_lookup.
    case_decide as Hab; [|exact Hsame]. subst. exfalso.
    apply conveyor_at_Some in Hc as (s & Hs & Hks). unfold Ref in *.
    rewrite Hb in Hs. injection Hs as <-. exact (Hk c Hks). }
  destruct (kind t) as [|r|dr|k|tu| |cg| |bt|rc] eqn:Hk; cbn [fst]; try exact Hsame.
  - destruct (bool_decide _); exact Hsame.
  - destruct (_ <? _); [|exact Hsame].
    destruct (decide (a = b)) as [->|Hne].
    + apply conveyor_at_Some in Hc as (s & Hs & Hks). unfold Ref in *.
      rewrite Hb in Hs. injection Hs as <-. rewrite Hk in Hks. injection Hks as ->.
      destruct (Conveyor.item_count c =? 0) eqn:Hz; [apply Z.eqb_eq in Hz; lia|].
      rewrite bool_decide_eq_true_2 by exact Hty. cbn [fst].
      unfold conveyor_at. rewrite modify_lookup_eq. unfold Ref in *. rewrite Hb. cbn.
      eexists. split; [reflexivity|]. cbn. split; [exact Hty | lia].
    + assert (Hne' : forall f, exists c',
                 conveyor_at (modify b f g) a = Some c'
                 /\ Conveyor.item_type c' = Some item /\ 0 < Conveyor.item_count c').
      { intros f. unfold conveyor_at. rewrite modify_lookup_ne by exact Hne. exact Hsame. }
      destruct (_ =? 0); [apply Hne'|]. destruct (bool_decide _); [apply Hne' | exact Hsame].
  - destruct (_ && _); [|exact Hsame]. destruct (_ && _); [|exact Hsame].
    cbn [fst]. apply Hother. intros k; discriminate.
  - destruct (String.eqb _ _); [|exact Hsame]. destruct (_ <? _); [|exact Hsame].
    cbn [fst]. apply Hother. intros k; discriminate.
Qed.

(** A push either fails and changes nothing, or moves one item of the
    belt's type into the stock of the receiver. *)
Lemma Conveyor_try_push_item_stock (g g2 : Game) (a : Ref) (pushed : bool) :
  Conveyor_try_push_item g a = Some (g2, pushed) ->
  (pushed = false -> g2 = g)
  /\ (pushed = true ->
      exists item c2,
        conveyor_at g2 a = Some c2 /\ Conveyor.item_type c2 = Some item
        /\ 0 < Conveyor.item_count c2
        /\ stock item g2 = stock item g + 1
        /\ forall other, other <> item -> stock other g2 = stock other g).
Proof.
  unfold Conveyor_try_push_item.
  destruct (heap g !! a) as [s|] eqn:Hs; [|intros [= <- <-]; split; [reflexivity | discriminate]].
  destruct (kind s) as [|r|dr|c|tu| |cg| |bt|rc] eqn:Hk;
    try (intros [= <- <-]; split; [reflexivity | discriminate]).
  destruct (Conveyor.item_type c) as [item|] eqn:Hty;
    [|intros [= <- <-]; split; [reflexivity | discriminate]].
  destruct (Conveyor.item_count c <=? 0) eqn:Hz;
    [intros [= <- <-]; split; [reflexivity | discriminate]|].
  apply Z.leb_gt in Hz.
  destruct (get_neighbor g s _) as [[target|]|]; try discriminate;
    [|intros [= <- <-]; split; [reflexivity | discriminate]].
  intros [= Hpush].
  destruct (try_accept_item_stock g target item) as [Hrej Hacc].
  assert (Hc : conveyor_at g a = Some c) by (apply conveyor_at_Some; eauto).
  destruct (try_accept_item_sender g target item a c Hc Hty Hz) as (c2 & Hc2 & Hty2 & Hpos2).
  rewrite Hpush in Hrej, Hacc, Hc2. cbn [fst snd] in Hrej, Hacc, Hc2.
  split; [exact Hrej|]. intros Hp. destruct (Hacc Hp) as (St & Sother & _).
  exists item, c2. split_and!; assumption.
Qed.

Lemma map_conveyor_conveyor (f : Conveyor.data -> Conveyor.data) (s : Structure)
    (c : Conveyor.data) :
  kind s = KConveyor c -> map_conveyor f s = set_kind (KConveyor (f c)) s.
Proof. intros Hk. unfold map_conveyor. rewrite Hk. reflexivity. Qed.

Lemma items_held_conveyor (item : string) (s : Structure) (c : Conveyor.data) :
  kind s = KConveyor c ->
  items_held item s
  = if bool_decide (Conveyor.item_type c = Some item) then Conveyor.item_count c else 0.
Proof. intros Hk. unfold items_held. rewrite Hk. reflexivity. Qed.

(** The belt after a delivery: one item fewer of its type, and the type
    forgotten with the last item. *)
Lemma items_held_after_push (item it : string) (s : Structure) (c : Conveyor.data) :
  kind s = KConveyor c -> Conveyor.item_type c = Some it -> 0 < Conveyor.item_count c ->
  items_held item
    (map_conveyor
       (fun c => if 0 <? Conveyor.item_count c
                 then Conveyor.set_item_progress (pymax 0 (Conveyor.item_progress c - 1)%Q) c
                 else Conveyor.set_item_type None (Conveyor.set_item_progress 0 c))
       (map_conveyor (fun c => Conveyor.set_item_count (Conveyor.item_count c - 1) c) s))
  = items_held item s - (if decide (item = it) then 1 else 0).
Proof.
  intros Hk Hty Hpos.
  rewrite (map_conveyor_conveyor _ s c Hk).
  set (c1 := Conveyor.set_item_count (Conveyor.item_count c - 1) c).
  rewrite (map_conveyor_conveyor _ (set_kind (KConveyor c1) s) c1 eq_refl).
  match goal with |- context [set_kind (KConveyor ?c3) (set_kind (KConveyor c1) s)] =>
    rewrite (items_held_conveyor item (set_kind (KConveyor c3) (set_kind (KConveyor c1) s))
               c3 eq_refl)
  end.
  rewrite (items_held_conveyor item s c Hk). unfold c1.
  cbn [Conveyor.item_count Conveyor.set_item_count].
  destruct (0 <? Conveyor.item_count c - 1) eqn:E.
  - cbn. rewrite Hty. destruct (decide (item = it)) as [->|Hne].
    + rewrite bool_decide_eq_true_2 by reflexivity. lia.
    + rewrite bool_decide_eq_false_2 by congruence. lia.
  - apply Z.ltb_ge in E. cbn. rewrite Hty.
    rewrite (bool_decide_eq_false_2 (None = Some item)) by discriminate.
    destruct (decide (item = it)) as [->|Hne].
    + rewrite bool_decide_eq_true_2 by reflexivity. lia.
    + rewrite bool_decide_eq_false_2 by congruence. lia.
Qed.

(** A tick of a conveyor neither creates nor loses an item of any type:
    what leaves the belt arrives at the receiver -- in the resource
    counter of the core, on the next belt, in a turret's magazine or in a
    generator's buffer. *)
Theorem Conveyor_update_conserves (g g' : Game) (a : Ref) (item : string) :
  Conveyor_update g a = Some g' -> stock item g' = stock item g.
Proof.
  unfold Conveyor_update, Conveyor_update_traced.
  destruct (heap g !! a) as [s|] eqn:Hs; [|intros [= <-]; reflexivity].
  destruct (kind s) as [|r|dr|c|tu| |cg| |bt|rc] eqn:Hk; try (intros [= <-]; reflexivity).
  destruct (_ && _); [|intros [= <-]; reflexivity].
  set (g1 := modify a _ g).
  assert (S1 : forall it, stock it g1 = stock it g).
  { intros it. unfold g1. rewrite (stock_modify _ _ _ _ s Hs).
    rewrite items_held_map_conveyor by (intros k; split; reflexivity). lia. }
  destruct (Qleb 1 _); [|intros [= <-]; apply S1].
  destruct (Conveyor_try_push_item g1 a) as [[g2 [|]]|] eqn:Hpush; [| |discriminate].
  - intros [= <-].
    destruct (Conveyor_try_push_item_stock _ _ _ _ Hpush) as [_ Hacc].
    destruct (Hacc eq_refl) as (it & c2 & Hc2 & Hty2 & Hpos2 & St & Sother).
    apply conveyor_at_Some in Hc2 as (s2 & Hs2 & Hk2).
    match goal with |- context [modify a ?f4 (modify a ?f3 g2)] =>
      assert (Hs3 : heap (modify a f3 g2) !! a = Some (f3 s2))
        by (rewrite modify_lookup_eq; unfold Ref in *; rewrite Hs2; reflexivity);
      rewrite (stock_modify item _ a f4 _ Hs3), (stock_modify item _ a f3 s2 Hs2)
    end.
    rewrite (items_held_after_push item it s2 c2 Hk2 Hty2 Hpos2).
    destruct (decide (item = it)) as [->|Hne].
    + rewrite St, S1. lia.
    + rewrite (Sother item Hne), S1. lia.
  - intros [= <-].
    destruct (Conveyor_try_push_item_stock _ _ _ _ Hpush) as [Hrej _].
    rewrite (Hrej eq_refl).
    destruct (heap g1 !! a) as [s1|] eqn:Hs1.
    + rewrite (stock_modify _ _ _ _ s1 Hs1).
      rewrite items_held_map_conveyor by (intros k; split; reflexivity).
      rewrite S1. lia.
    + rewrite modify_None by exact Hs1. apply S1.
Qed.

(** The conveyor that feeds the core delivers its first item: the copper
    on the belt and in the counter stay 197 together. *)
Lemma Conveyor_update_conserves_witness :
  exists g', Conveyor_update feeding_conveyor_world 1%nat = Some g'
             /\ stock RES_COPPER g' = stock RES_COPPER feeding_conveyor_world.
Proof.
  eexists. split; [vm_compute; reflexivity|].
  apply (Conveyor_update_conserves feeding_conveyor_world _ 1%nat RES_COPPER).
  vm_compute. reflexivity.
Defined.

(** ** The node a consumer is attached to *)

Lemma find_closest_fold (g : Game) (consumer : Structure) (l : list Ref)
    (best : option Ref) (m : Q) :
  let step := fun '(closest_node, min_dist_sq) n =>
                match heap g !! n with
                | Some node =>
                    let d_sq := distance_sq (center_x consumer) (center_y consumer)
                                  (center_x node) (center_y node) in
                    if Qleb d_sq (POWER_RADIUS * POWER_RADIUS) && Qltb d_sq min_dist_sq
                    then (Some n, d_sq) else (closest_node, min_dist_sq)
                | None => (closest_node, min_dist_sq)
                end in
  let r := foldl step (best, m) l in
  (r.2 <= m)%Q
  /\ (forall n node, n ∈ l -> heap g !! n = Some node ->
        (distance_sq (center_x consumer) (center_y consumer) (center_x node) (center_y node)
         <= POWER_RADIUS * POWER_RADIUS)%Q ->
        (r.2 <= distance_sq (center_x consumer) (center_y consumer)
                  (center_x node) (center_y node))%Q)
  /\ (r = (best, m)
      \/ exists n node, r.1 = Some n /\ n ∈ l /\ heap g !! n = Some node
           /\ r.2 = distance_sq (center_x consumer) (center_y consumer)
                      (center_x node) (center_y node)
           /\ (r.2 <= POWER_RADIUS * POWER_RADIUS)%Q /\ (r.2 < m)%Q).
Proof.
  cbv zeta. revert best m. induction l as [|n l IH]; intros best m.
  - cbn. split_and!; [lra | intros ? ? Hin; inversion Hin | left; reflexivity].
  - cbn [foldl].
    destruct (heap g !! n) as [node|] eqn:Hn.
    + set (d := distance_sq (center_x consumer) (center_y consumer)
                  (center_x node) (center_y node)).
      destruct (Qleb d (POWER_RADIUS * POWER_RADIUS) && Qltb d m) eqn:Hc.
      * apply andb_true_iff in Hc as [Hr Hlt].
        apply Qleb_iff in Hr. apply Qltb_iff in Hlt.
        destruct (IH (Some n) d) as (I1 & I2 & I3).
        split_and!.
        -- lra.
        -- intros n' node' Hin Hn' Hr'.
           apply elem_of_cons in Hin as [-> | Hin]; [|eauto].
           unfold Ref in *. rewrite Hn in Hn'. injection Hn' as <-. exact I1.
        -- right. destruct I3 as [-> | (n' & node' & E1 & Hin & Hn' & E2 & Hr' & Hlt')].
           ++ exists n, node. cbn. split_and!; try reflexivity; try assumption. left.
           ++ exists n', node'. split_and!; try assumption; [right; exact Hin | lra].
      * destruct (IH best m) as (I1 & I2 & I3).
        split_and!.
        -- exact I1.
        -- intros n' node' Hin Hn' Hr'.
           apply elem_of_cons in Hin as [-> | Hin]; [|eauto].
           unfold Ref in *. rewrite Hn in Hn'. injection Hn' as <-. fold d. fold d in Hr'.
           apply andb_false_iff in Hc as [Hc | Hc].
           ++ apply not_true_iff_false in Hc. exfalso. apply Hc. apply Qleb_iff. exact Hr'.
           ++ apply Qltb_false_iff in Hc. lra.
        -- destruct I3 as [-> | (n' & node' & E1 & Hin & Hn' & E2 & Hr' & Hlt')];
             [left; reflexivity | right].
           exists n', node'. split_and!; try assumption. right. exact Hin.
    + destruct (IH best m) as (I1 & I2 & I3).
      split_and!.
      * exact I1.
      * intros n' node' Hin Hn' Hr'.
        apply elem_of_cons in Hin as [-> | Hin]; [|eauto].
        unfold Ref in *. rewrite Hn in Hn'. discriminate Hn'.
      * destruct I3 as [-> | (n' & node' & E1 & Hin & Hn' & E2 & Hr' & Hlt')];
          [left; reflexivity | right].
        exists n', node'. split_and!; try assumption. right. exact Hin.
Qed.

(** [find_closest_node_in_set] returns a node of the set that lies within
    the power radius of the consumer and is at least as close as every
    other node of the set; it returns nothing exactly when no node of the
    set lies within the radius. *)
Theorem find_closest_node_in_set_spec (g : Game) (consumer : Structure) (nodes : list Ref) :
  match find_closest_node_in_set g consumer nodes with
  | Some n =>
      n ∈ nodes
      /\ exists node,
           heap g !! n = Some node
           /\ (distance_sq (center_x consumer) (center_y consumer)
                 (center_x node) (center_y node) <= POWER_RADIUS * POWER_RADIUS)%Q
           /\ forall n' node', n' ∈ nodes -> heap g !! n' = Some node' ->
                (distance_sq (center_x consumer) (center_y consumer)
                   (center_x node) (center_y node)
                 <= distance_sq (center_x consumer) (center_y consumer)
                      (center_x node') (center_y node'))%Q
  | None =>
      forall n' node', n' ∈ nodes -> heap g !! n' = Some node' ->
        ~ (distance_sq (center_x consumer) (center_y consumer)
             (center_x node') (center_y node') <= POWER_RADIUS * POWER_RADIUS)%Q
  end.
Proof.
  unfold find_closest_node_in_set.
  destruct (find_closest_fold g consumer nodes None (POWER_RADIUS * POWER_RADIUS + 1)%Q)
    as (I1 & I2 & I3).
  cbv zeta in I1, I2, I3.
  match type of I1 with (snd ?r <= _)%Q => set (res := r) in * end.
  destruct I3 as [E | (n & node & E1 & Hin & Hn & E2 & Hr & Hlt)].
  - rewrite E. cbn [fst]. intros n' node' Hin Hn' Hr'.
    specialize (I2 n' node' Hin Hn' Hr'). rewrite E in I2. cbn [snd] in I2. lra.
  - rewrite E1. split; [exact Hin|]. exists node. split; [exact Hn|]. rewrite <- E2.
    split; [exact Hr|]. intros n' node' Hin' Hn'.
    destruct (Qlt_le_dec (POWER_RADIUS * POWER_RADIUS)
                (distance_sq (center_x consumer) (center_y consumer)
                   (center_x node') (center_y node'))) as [Hfar | Hnear].
    + lra.
    + exact (I2 n' node' Hin' Hn' Hnear).
Qed.

(** ** Battery charge stays between empty and full *)

Lemma pymin_le_both (a b : Q) : (pymin a b <= a /\ pymin a b <= b)%Q.
Proof.
  unfold pymin. destruct (Qltb b a) eqn:E.
  - apply Qltb_iff in E. lra.
  - apply Qltb_false_iff in E. lra.
Qed.

Lemma EPS_pos : (0 < EPS)%Q.
Proof. reflexivity. Qed.

Section ObjectInvariant.

Variable P : Structure -> Prop.

Lemma modify_all_objects (g : Game) (b : Ref) (f : Structure -> Structure) :
  (forall s, heap g !! b = Some s -> P s -> P (f s)) ->
  all_objects P g -> all_objects P (modify b f g).
Proof.
  intros Hf Hinv a s Hs. rewrite modify_lookup in Hs. case_decide as Hab.
  - subst. destruct (heap g !! b) as [s0|] eqn:E; [|discriminate].
    cbn in Hs. injection Hs as <-. apply Hf; [reflexivity|]. eapply Hinv; eauto.
  - eapply Hinv; eauto.
Qed.

Lemma foldl_all_objects {A} (step : Game -> A -> Game) :
  (forall g x, all_objects P g -> all_objects P (step g x)) ->
  forall l g, all_objects P g -> all_objects P (foldl step g l).
Proof.
  intros Hstep. induction l as [|x l IH]; intros g Hinv; [exact Hinv|].
  cbn [foldl]. apply IH, Hstep, Hinv.
Qed.

(** The mutations of the search and of the reset keep [P]. *)
Hypothesis P_on_grid : forall v s, P s -> P (set_is_on_grid v s).
Hypothesis P_append : forall c s, P s -> P (append_coords c s).
Hypothesis P_reset_node : forall s, P s -> P (reset_node s).
Hypothesis P_reset_consumer : forall s, P s -> P (reset_consumer s).

Lemma visit_neighbor_all_objects (cur : Ref) (depth : Z)
    (acc : Game * list (Ref * Z) * list Ref) (off : Z * Z) :
  all_objects P acc.1.1 -> all_objects P (visit_neighbor cur depth acc off).1.1.
Proof.
  destruct acc as [[g q] v]. destruct off as [dx dy]. cbn [fst]. intros Hinv.
  unfold visit_neighbor.
  destruct ((dx =? 0) && (dy =? 0)); [exact Hinv|].
  destruct (heap g !! cur) as [current_node|]; [|exact Hinv].
  destruct (get_structure_at g _ _) as [[p|b]|]; try exact Hinv.
  destruct (heap g !! b) as [neighbor|]; [|exact Hinv].
  destruct (_ && Qleb _ _); [|exact Hinv]. cbn [fst].
  set (g1 := if coords_in (center neighbor) (connected_nodes_coords current_node)
             then g else modify cur (append_coords (center neighbor)) g).
  assert (Hinv1 : all_objects P g1).
  { unfold g1. destruct (coords_in _ _); [exact Hinv|].
    apply modify_all_objects; [|exact Hinv]. intros s _. apply P_append. }
  clearbody g1.
  destruct (heap g1 !! b) as [nb|]; [|exact Hinv1].
  destruct (coords_in _ _); [exact Hinv1|].
  apply modify_all_objects; [|exact Hinv1]. intros s _. apply P_append.
Qed.

Lemma bfs_all_objects (fuel : nat) :
  forall g queue visited network processed,
    all_objects P g -> all_objects P (bfs fuel g queue visited network processed).1.1.
Proof.
  induction fuel as [|fuel IH]; intros g queue visited network processed Hinv; [exact Hinv|].
  cbn [bfs]. destruct queue as [|[cur depth] rest]; [exact Hinv|].
  assert (H1 : all_objects P (modify cur (set_is_on_grid true) g))
    by (apply modify_all_objects; [intros s _; apply P_on_grid | exact Hinv]).
  destruct (POWER_SEARCH_DEPTH_LIMIT <=? depth); [apply IH; exact H1|].
  assert (H2 : forall offs acc, all_objects P acc.1.1 ->
             all_objects P (foldl (visit_neighbor cur depth) acc offs).1.1).
  { induction offs as [|off offs IHo]; intros acc Ha; [exact Ha|].
    cbn [foldl]. apply IHo. apply visit_neighbor_all_objects. exact Ha. }
  specialize (H2 search_offsets (modify cur (set_is_on_grid true) g, rest, visited) H1).
  destruct (foldl _ _ search_offsets) as [[g2 queue'] visited']. apply IH. exact H2.
Qed.

Lemma power_networks_all_objects (g : Game) :
  all_objects P g -> all_objects P (power_networks g).1.
Proof.
  intros Hinv. unfold power_networks.
  set (g1 := foldl (fun g a => modify a reset_node g) g (power_nodes g)).
  set (g2 := foldl (fun g a => modify a reset_consumer g) g1 (power_consumers g)).
  assert (H1 : all_objects P g1).
  { apply foldl_all_objects; [|exact Hinv]. intros g' a H'.
    apply modify_all_objects; [intros s _; apply P_reset_node | exact H']. }
  assert (H2 : all_objects P g2).
  { apply foldl_all_objects; [|exact H1]. intros g' a H'.
    apply modify_all_objects; [intros s _; apply P_reset_consumer | exact H']. }
  clearbody g2. clear g1 H1.
  assert (H3 : forall seeds acc, all_objects P acc.1.1 ->
             all_objects P (foldl discover acc seeds).1.1).
  { induction seeds as [|seed seeds IH]; intros acc Ha; [exact Ha|].
    cbn [foldl]. apply IH. destruct acc as [[g' processed] nets]. cbn [fst] in Ha |- *.
    unfold discover. destruct (ref_in seed processed); [exact Ha|].
    pose proof (bfs_all_objects (bfs_fuel g') g' [(seed, 0)] [seed] [] processed Ha) as H.
    destruct (bfs _ _ _ _ _ _) as [[g'' network] processed']. exact H. }
  specialize (H3 (List.filter (fun a => match heap g2 !! a with
                                         | Some n => is_seed n | None => false end)
                    (power_nodes g2)) (g2, [], []) H2).
  destruct (foldl discover _ _) as [[g3 processed] nets]. exact H3.
Qed.

End ObjectInvariant.

Lemma charge_ok_keeps (s s' : Structure) :
  charge s' = charge s -> charge_ok s -> charge_ok s'.
Proof. unfold charge_ok. intros ->. tauto. Qed.

Lemma charge_map_battery (f : Battery.data -> Battery.data) (s : Structure) :
  (forall b, Battery.charge (f b) = Battery.charge b) -> charge (map_battery f s) = charge s.
Proof.
  intros Hf. unfold map_battery, charge.
  destruct (kind s) eqn:Hk; rewrite ?Hk; try reflexivity. cbn. apply Hf.
Qed.

Lemma charge_reset_node (s : Structure) : charge (reset_node s) = charge s.
Proof.
  unfold reset_node. destruct (is_power_storage _); [|reflexivity].
  rewrite charge_map_battery by reflexivity. reflexivity.
Qed.

Lemma charge_set_charge (v : Q) (c d : option bool) (s : Structure) :
  charge_ok s -> (0 <= v <= Battery.capacity)%Q -> charge_ok (set_charge v c d s).
Proof.
  intros Hs Hv. unfold set_charge, map_battery, charge_ok, charge.
  destruct (kind s) eqn:Hk; rewrite ?Hk; unfold charge_ok, charge in Hs; rewrite ?Hk in Hs;
    try exact Hs.
  cbn. exact Hv.
Qed.

Lemma apply_discharge_charge_ok (fraction : Q) (g : Game) (b : Ref) :
  (0 <= fraction <= 1)%Q ->
  all_objects charge_ok g -> all_objects charge_ok (apply_discharge fraction g b).
Proof.
  intros Hf Hinv. unfold apply_discharge.
  destruct (heap g !! b) as [battery|] eqn:Hb; [|exact Hinv].
  destruct (Qltb EPS _) eqn:E; [|exact Hinv].
  apply Qltb_iff in E. pose proof EPS_pos as He.
  apply modify_all_objects; [|exact Hinv].
  intros s Hs Hok. unfold Ref in *. rewrite Hb in Hs. injection Hs as <-.
  apply charge_set_charge; [exact Hok|].
  destruct Hok as [H0 H1].
  unfold discharge_capability in *.
  destruct (pymin_le_both (charge battery) (Battery.discharge_rate * dt g)%Q) as [Hc _].
  set (cap := pymin (charge battery) (Battery.discharge_rate * dt g)%Q) in *.
  assert (Hcap : (0 < cap)%Q).
  { destruct (Qlt_le_dec 0 cap) as [?|Hle]; [assumption|]. exfalso.
    assert ((cap * fraction <= 0)%Q) by nra. lra. }
  assert (Hle : (cap * fraction <= cap)%Q).
  { nra. }
  lra.
Qed.

Lemma apply_charge_charge_ok (fraction : Q) (g : Game) (b : Ref) :
  (0 <= fraction <= 1)%Q ->
  all_objects charge_ok g -> all_objects charge_ok (apply_charge fraction g b).
Proof.
  intros Hf Hinv. unfold apply_charge.
  destruct (heap g !! b) as [battery|] eqn:Hb; [|exact Hinv].
  destruct (Qltb EPS _) eqn:E; [|exact Hinv].
  apply Qltb_iff in E. pose proof EPS_pos as He.
  apply modify_all_objects; [|exact Hinv].
  intros s Hs Hok. unfold Ref in *. rewrite Hb in Hs. injection Hs as <-.
  apply charge_set_charge; [exact Hok|].
  destruct Hok as [H0 H1].
  unfold charge_headroom in *.
  destruct (pymin_le_both (Battery.capacity - charge battery)%Q
              (Battery.charge_rate * dt g)%Q) as [Hc _].
  set (room := pymin (Battery.capacity - charge battery)%Q (Battery.charge_rate * dt g)%Q) in *.
  assert (Hroom : (0 < room)%Q).
  { destruct (Qlt_le_dec 0 room) as [?|Hle]; [assumption|]. exfalso.
    assert ((room * fraction <= 0)%Q) by nra. lra. }
  assert (Hle : (room * fraction <= room)%Q).
  { nra. }
  lra.
Qed.

(** The share of the available amount that a network moves is between
    nothing and all of it. *)
Lemma fraction_bounds (amount available : Q) :
  (EPS < amount)%Q -> (EPS < available)%Q -> (amount <= available)%Q ->
  (0 <= amount / available <= 1)%Q.
Proof.
  intros Ha Hv Hle. pose proof EPS_pos as He. split.
  - apply Qle_shift_div_l; lra.
  - apply Qle_shift_div_r; lra.
Qed.

Lemma settle_amounts_bounds (g : Game) (network : list Ref) :
  ((settle_amounts g network).1 <= total_available_charge_room g network
   \/ (settle_amounts g network).1 <= 0)%Q
  /\ ((settle_amounts g network).2 <= total_available_discharge_amount g network
      \/ (settle_amounts g network).2 <= 0)%Q.
Proof.
  unfold settle_amounts.
  destruct (is_power_sufficient g network).
  - destruct (Qltb _ (- EPS)).
    + cbn [fst snd]. split; [right; lra | left; apply pymin_le_both].
    + destruct (Qltb EPS _); cbn [fst snd].
      * split; [left; apply pymin_le_both | right; lra].
      * split; right; lra.
  - cbn [fst snd]. split; [left; apply pymin_le_both | right; lra].
Qed.

Lemma settle_network_charge_ok (g : Game) (network : list Ref) :
  all_objects charge_ok g -> all_objects charge_ok (settle_network g network).
Proof.
  intros Hinv. unfold settle_network.
  destruct (settle_amounts_bounds g network) as [Bc Bd].
  destruct (settle_amounts g network) as [actual_charge actual_discharge].
  cbn [fst snd] in Bc, Bd.
  set (room := total_available_charge_room g network) in *.
  set (avail := total_available_discharge_amount g network) in *.
  clearbody room avail.
  set (g1 := if is_power_sufficient g network then _ else _).
  assert (H1 : all_objects charge_ok g1).
  { unfold g1. destruct (is_power_sufficient g network).
    - apply foldl_all_objects; [|exact Hinv]. intros g' [c n] H'.
      destruct (heap g' !! n); [|exact H'].
      apply modify_all_objects; [|exact H']. intros obj _. apply charge_ok_keeps. reflexivity.
    - apply foldl_all_objects; [|exact Hinv]. intros g' [c n] H'.
      apply modify_all_objects; [|exact H']. intros obj _. apply charge_ok_keeps. reflexivity. }
  clearbody g1.
  pose proof EPS_pos as He.
  set (g2 := if Qltb EPS actual_discharge && Qltb EPS avail then _ else g1).
  assert (H2 : all_objects charge_ok g2).
  { unfold g2. destruct (Qltb EPS actual_discharge) eqn:E1; [|exact H1].
    destruct (Qltb EPS avail) eqn:E2; [|exact H1]. cbn [andb].
    apply Qltb_iff in E1. apply Qltb_iff in E2.
    apply foldl_all_objects; [|exact H1]. intros g' b.
    apply apply_discharge_charge_ok. apply fraction_bounds; try assumption.
    destruct Bd; lra. }
  clearbody g2.
  destruct (Qltb EPS actual_charge) eqn:E1; [|exact H2].
  destruct (Qltb EPS room) eqn:E2; [|exact H2]. cbn [andb].
  apply Qltb_iff in E1. apply Qltb_iff in E2.
  apply foldl_all_objects; [|exact H2]. intros g' b.
  apply apply_charge_charge_ok. apply fraction_bounds; try assumption.
  destruct Bc; lra.
Qed.

(** No battery is charged beyond its capacity or discharged below zero:
    if every charge lies between 0 and the capacity, it still does after
    a run of the power update, whatever the tick length; and
    [Battery.update] keeps it there. *)
Theorem update_power_grid_charge_bounds (g : Game) :
  all_objects charge_ok g ->
  all_objects charge_ok (update_power_grid g)
  /\ forall a, all_objects charge_ok (Battery_update g a).
Proof.
  intros Hinv. split.
  - unfold update_power_grid. destruct (is_client g); [exact Hinv|].
    assert (H : all_objects charge_ok (power_networks g).1).
    { apply power_networks_all_objects; try assumption.
      - intros v s. apply charge_ok_keeps. reflexivity.
      - intros c s. apply charge_ok_keeps. reflexivity.
      - intros s. apply charge_ok_keeps. apply charge_reset_node.
      - intros s. apply charge_ok_keeps. reflexivity. }
    destruct (power_networks g) as [g3 nets]. cbn [fst] in H.
    revert g3 H. induction nets as [|net nets IH]; intros g3 H; [exact H|].
    cbn [foldl]. apply IH. apply settle_network_charge_ok. exact H.
  - intros a. unfold Battery_update. apply modify_all_objects; [|exact Hinv].
    intros s _ Hs. unfold charge_ok, charge, map_battery in *.
    destruct (kind s) eqn:Hk; rewrite ?Hk; try exact Hs. cbn.
    apply (clamp_bounds 0 Battery.capacity). discriminate.
Qed.

Lemma all_objects_Forall (P : Structure -> Prop) (g : Game) :
  Forall P (heap g) -> all_objects P g.
Proof. intros H a s Hs. rewrite Forall_lookup in H. exact (H a s Hs). Qed.

Lemma battery_world_charge_ok : all_objects charge_ok battery_world.
Proof.
  apply all_objects_Forall.
  assert (E : charge <$> heap battery_world = [0%Q; 0%Q; 0%Q]) by (vm_compute; reflexivity).
  apply Forall_forall. intros s Hs.
  assert (Hc : charge s ∈ charge <$> heap battery_world)
    by (apply list_elem_of_fmap_2; exact Hs).
  rewrite E in Hc. unfold charge_ok.
  repeat (apply elem_of_cons in Hc as [-> | Hc]; [split; discriminate|]).
  inversion Hc.
Qed.

(** A generator charging an empty battery for one tick. *)
Lemma update_power_grid_charge_bounds_witness :
  all_objects charge_ok battery_world
  /\ all_objects charge_ok (update_power_grid battery_world).
Proof.
  split; [exact battery_world_charge_ok|].
  exact (proj1 (update_power_grid_charge_bounds battery_world battery_world_charge_ok)).
Defined.

(** ** The search of a network terminates *)

Lemma ref_in_app (a : Ref) (l1 l2 : list Ref) :
  ref_in a (l1 ++ l2) = ref_in a l1 || ref_in a l2.
Proof. unfold ref_in. apply existsb_app. Qed.

Lemma ref_in_singleton (a b : Ref) : ref_in a [b] = Nat.eqb a b.
Proof. unfold ref_in. cbn. apply orb_false_r. Qed.

(** Marking a node that was not visited takes exactly one node out of
    the unvisited ones. *)
Lemma filter_mark (b : nat) (visited : list Ref) (l : list nat) :
  NoDup l -> b ∈ l -> ref_in b visited = false ->
  S (length (List.filter (fun a => negb (ref_in a (visited ++ [b]))) l))
  = length (List.filter (fun a => negb (ref_in a visited)) l).
Proof.
  intros Hnd Hin Hb. induction l as [|x l IH]; [inversion Hin|].
  apply NoDup_cons in Hnd as [Hx Hnd]. cbn [List.filter].
  rewrite ref_in_app, ref_in_singleton.
  apply elem_of_cons in Hin as [<- | Hin].
  - rewrite Hb, Nat.eqb_refl. cbn. f_equal.
    clear IH. induction l as [|y l IH]; [reflexivity|].
    cbn [List.filter]. rewrite ref_in_app, ref_in_singleton.
    assert (Hy : Nat.eqb y b = false).
    { apply Nat.eqb_neq. intros ->. apply Hx. left. }
    rewrite Hy, orb_false_r.
    apply NoDup_cons in Hnd as [_ Hnd].
    assert (Hx' : b ∉ l) by (intros H; apply Hx; right; exact H).
    destruct (negb (ref_in y visited)); cbn; rewrite (IH Hx' Hnd); reflexivity.
  - assert (Hxb : Nat.eqb x b = false).
    { apply Nat.eqb_neq. intros ->. contradiction. }
    rewrite Hxb, orb_false_r.
    destruct (negb (ref_in x visited)); cbn; rewrite <- (IH Hnd Hin); reflexivity.
Qed.

Lemma unvisited_mark (g : Game) (visited : list Ref) (b : Ref) (s : Structure) :
  heap g !! b = Some s -> ref_in b visited = false ->
  S (unvisited g (set_add b visited)) = unvisited g visited.
Proof.
  intros Hb Hv. unfold unvisited, set_add. rewrite Hv.
  apply filter_mark; [apply NoDup_seq | | exact Hv].
  apply elem_of_seq. apply lookup_lt_Some in Hb. lia.
Qed.

Lemma unvisited_le (g : Game) (visited : list Ref) :
  (unvisited g visited <= length (heap g))%nat.
Proof.
  unfold unvisited.
  etransitivity; [apply List.filter_length_le|]. rewrite length_seq. reflexivity.
Qed.

Lemma modify_length (g : Game) (a : Ref) (f : Structure -> Structure) :
  length (heap (modify a f g)) = length (heap g).
Proof.
  unfold modify. destruct (heap g !! a); [|reflexivity].
  change (heap (with_heap ?h g)) with h. apply length_insert.
Qed.

Lemma unvisited_modify (g : Game) (a : Ref) (f : Structure -> Structure)
    (visited : list Ref) :
  unvisited (modify a f g) visited = unvisited g visited.
Proof. unfold unvisited. rewrite modify_length. reflexivity. Qed.

(** A round of the neighbour loop queues a node only when it marks it:
    the unvisited nodes and the queue together do not grow. *)
Lemma visit_neighbor_measure (cur : Ref) (depth : Z)
    (acc : Game * list (Ref * Z) * list Ref) (off : Z * Z) :
  let r := visit_neighbor cur depth acc off in
  (unvisited r.1.1 r.2 + length r.1.2 = unvisited acc.1.1 acc.2 + length acc.1.2)%nat.
Proof.
  cbv zeta. destruct acc as [[g q] v]. destruct off as [dx dy]. cbn [fst snd].
  unfold visit_neighbor.
  destruct ((dx =? 0) && (dy =? 0)); [reflexivity|].
  destruct (heap g !! cur) as [current_node|]; [|reflexivity].
  destruct (get_structure_at g _ _) as [[p|b]|]; try reflexivity.
  destruct (heap g !! b) as [neighbor|] eqn:Hb; [|reflexivity].
  destruct (is_power_node neighbor && negb (ref_in b v) && Qleb _ _) eqn:Hc; [|reflexivity].
  apply andb_true_iff in Hc as [Hc _]. apply andb_true_iff in Hc as [_ Hv].
  apply negb_true_iff in Hv. cbn [fst snd].
  set (g1 := if coords_in _ _ then g else modify cur _ g).
  assert (L1 : forall w, unvisited g1 w = unvisited g w).
  { intros w. unfold g1. destruct (coords_in _ _); [reflexivity|]. apply unvisited_modify. }
  clearbody g1.
  set (g2 := match heap g1 !! b with Some nb => _ | None => g1 end).
  assert (L2 : forall w, unvisited g2 w = unvisited g w).
  { intros w. unfold g2. destruct (heap g1 !! b) as [nb|]; [|apply L1].
    destruct (coords_in _ _); [apply L1|]. rewrite unvisited_modify. apply L1. }
  clearbody g2. rewrite L2, length_app. cbn [length].
  pose proof (unvisited_mark g v b neighbor Hb Hv). lia.
Qed.

Lemma foldl_visit_neighbor_measure (cur : Ref) (depth : Z) (offs : list (Z * Z)) :
  forall acc,
    let r := foldl (visit_neighbor cur depth) acc offs in
    (unvisited r.1.1 r.2 + length r.1.2 = unvisited acc.1.1 acc.2 + length acc.1.2)%nat.
Proof.
  cbv zeta. induction offs as [|off offs IH]; intros acc; [reflexivity|].
  cbn [foldl]. rewrite IH. apply visit_neighbor_measure.
Qed.

(** Once the fuel covers the unvisited nodes and the queue, more fuel
    changes nothing: the queue runs empty first. *)
Lemma bfs_fuel_enough (fuel : nat) :
  forall (g : Game) (queue : list (Ref * Z)) (visited network processed : list Ref) (k : nat),
    (unvisited g visited + length queue <= fuel)%nat ->
    bfs (fuel + k) g queue visited network processed
    = bfs fuel g queue visited network processed.
Proof.
  induction fuel as [|fuel IH]; intros g queue visited network processed k Hm.
  - destruct queue as [|x queue]; [|cbn in Hm; lia].
    destruct k; reflexivity.
  - change (S fuel + k)%nat with (S (fuel + k)). cbn [bfs].
    destruct queue as [|[cur depth] rest]; [reflexivity|].
    cbn [length] in Hm.
    destruct (POWER_SEARCH_DEPTH_LIMIT <=? depth).
    + apply IH. rewrite unvisited_modify. lia.
    + pose proof (foldl_visit_neighbor_measure cur depth search_offsets
                    (modify cur (set_is_on_grid true) g, rest, visited)) as Hf.
      cbv zeta in Hf. cbn [fst snd] in Hf. rewrite unvisited_modify in Hf.
      destruct (foldl _ _ search_offsets) as [[g2 queue'] visited']. cbn [fst snd] in Hf.
      apply IH. lia.
Qed.

(** The search of one network, as [update_power_grid] starts it from a
    seed, always ends with an empty queue: every node is queued at most
    once, so the bound [S (length (heap g))] on the rounds of the
    [while queue:] loop is never the reason why the search stops -- any
    larger bound gives the same world, the same network and the same
    set of processed nodes. *)
Theorem power_search_terminates (g : Game) (seed : Ref) (processed : list Ref) (k : nat) :
  bfs (bfs_fuel g + k) g [(seed, 0)] [seed] [] processed
  = bfs (bfs_fuel g) g [(seed, 0)] [seed] [] processed.
Proof.
  apply bfs_fuel_enough. unfold bfs_fuel. cbn [length].
  pose proof (unvisited_le g [seed]). lia.
Qed.

(** ** Damage *)

Lemma Qsum_from (l : list Q) (acc : Q) : (foldl Qplus acc l == acc + Qsum l)%Q.
Proof.
  unfold Qsum. revert acc. induction l as [|a l IH]; intros acc.
  - cbn. ring.
  - cbn [foldl]. rewrite (IH (acc + a)%Q), (IH (0 + a)%Q). ring.
Qed.

Lemma Qsum_cons (a : Q) (l : list Q) : (Qsum (a :: l) == a + Qsum l)%Q.
Proof. unfold Qsum at 1. cbn [foldl]. rewrite Qsum_from. ring. Qed.

Lemma Qsum_nonneg (l : list Q) : Forall (fun a => (0 <= a)%Q) l -> (0 <= Qsum l)%Q.
Proof.
  induction 1 as [|a l Ha Hl IH]; [discriminate|]. rewrite Qsum_cons. lra.
Qed.

(** One hit on an object that can be damaged. *)
Lemma take_damage_hit (over : bool) (amount : Q) (s : Structure) :
  (building_type s = BUILDING_CORE -> over = false) ->
  let r := take_damage over amount s in
  building_type r.1 = building_type s /\ max_hp r.1 = max_hp s
  /\ ((hp s - amount <= 0)%Q -> hp r.1 = 0%Q /\ destroyed r.1 = true /\ r.2 = true)
  /\ ((0 < hp s - amount)%Q ->
      hp r.1 = (hp s - amount)%Q /\ destroyed r.1 = destroyed s /\ r.2 = false).
Proof.
  intros Hcore. cbv zeta. unfold take_damage.
  destruct ((building_type s =? BUILDING_CORE) && over) eqn:E.
  { apply andb_true_iff in E as [E1 E2]. apply Z.eqb_eq in E1.
    rewrite (Hcore E1) in E2. discriminate. }
  cbn [hp set_hp].
  destruct (Qleb (hp s - amount) 0) eqn:Hle; cbn [fst snd].
  - apply Qleb_iff in Hle. split_and!; try reflexivity.
    + intros _. split_and!; reflexivity.
    + intros H. lra.
  - assert (Hgt : (0 < hp s - amount)%Q).
    { destruct (Qlt_le_dec 0 (hp s - amount)) as [?|H]; [assumption|].
      apply Qleb_iff in H. congruence. }
    split_and!; try reflexivity.
    + intros H. lra.
    + intros _. split_and!; reflexivity.
Qed.

Lemma take_hits_dead (over : bool) (amounts : list Q) (s : Structure) :
  (building_type s = BUILDING_CORE -> over = false) ->
  Forall (fun a => (0 <= a)%Q) amounts ->
  (hp s == 0)%Q -> destroyed s = true ->
  (hp (take_hits over amounts s) == 0)%Q /\ destroyed (take_hits over amounts s) = true.
Proof.
  intros Hcore Hall. revert s Hcore. induction Hall as [|a l Ha Hl IH]; intros s Hcore Hhp Hd.
  - split; assumption.
  - unfold take_hits. cbn [foldl]. fold (take_hits over l (take_damage over a s).1).
    destruct (take_damage_hit over a s Hcore) as (Hb & _ & Hdead & _).
    cbv zeta in Hb, Hdead. destruct Hdead as (H0 & H1 & _); [lra|].
    apply IH; [rewrite Hb; exact Hcore | rewrite H0; reflexivity | exact H1].
Qed.

(** Hits add up: a series of hits on an object that can be damaged
    leaves it with its hit points less the total, untouched otherwise,
    as long as the total stays below its hit points; once the total
    reaches them it is destroyed with 0 hit points -- never with negative
    ones -- whatever the order and the size of the hits. *)
Theorem take_hits_total (over : bool) (amounts : list Q) (s : Structure) :
  (building_type s = BUILDING_CORE -> over = false) ->
  Forall (fun a => (0 <= a)%Q) amounts ->
  let s' := take_hits over amounts s in
  ((Qsum amounts < hp s)%Q ->
   (hp s' == hp s - Qsum amounts)%Q /\ destroyed s' = destroyed s)
  /\ ((hp s <= Qsum amounts)%Q -> amounts <> [] ->
      (hp s' == 0)%Q /\ destroyed s' = true).
Proof.
  intros Hcore Hall. cbv zeta. revert s Hcore.
  induction Hall as [|a l Ha Hl IH]; intros s Hcore.
  - split.
    + intros _. cbn. split; [unfold Qsum; cbn; ring | reflexivity].
    + intros _ H. contradiction.
  - unfold take_hits. cbn [foldl]. fold (take_hits over l (take_damage over a s).1).
    destruct (take_damage_hit over a s Hcore) as (Hb & _ & Hdead & Hlive).
    cbv zeta in Hb, Hdead, Hlive.
    assert (Hcore1 : building_type (take_damage over a s).1 = BUILDING_CORE -> over = false)
      by (rewrite Hb; exact Hcore).
    pose proof (Qsum_nonneg l Hl) as Hsum.
    destruct (IH (take_damage over a s).1 Hcore1) as [IH1 IH2].
    rewrite Qsum_cons. split.
    + intros Hlt. destruct Hlive as (H0 & H1 & _); [lra|].
      rewrite H0, H1 in IH1. destruct IH1 as [E1 E2]; [lra|].
      split; [rewrite E1; ring | exact E2].
    + intros Hge _.
      destruct (Qlt_le_dec 0 (hp s - a)) as [Hpos | Hneg].
      * destruct Hlive as (H0 & H1 & _); [exact Hpos|].
        apply IH2; [rewrite H0; lra|].
        intros ->. unfold Qsum in Hge. cbn in Hge. lra.
      * destruct Hdead as (H0 & H1 & _); [exact Hneg|].
        apply take_hits_dead; [exact Hcore1 | exact Hl | rewrite H0; reflexivity | exact H1].
Qed.

(** A wall of 400 hit points under hits of 200, 150 and 100. *)
Lemma take_hits_total_witness :
  (building_type (Wall_init 3 4) = BUILDING_CORE -> false = false)
  /\ Forall (fun a => (0 <= a)%Q) [200%Q; 150%Q; 100%Q]
  /\ (hp (take_hits false [200%Q; 150%Q; 100%Q] (Wall_init 3 4)) == 0)%Q
  /\ destroyed (take_hits false [200%Q; 150%Q; 100%Q] (Wall_init 3 4)) = true.
Proof.
  assert (H1 : building_type (Wall_init 3 4) = BUILDING_CORE -> false = false)
    by (intros _; reflexivity).
  assert (H2 : Forall (fun a => (0 <= a)%Q) [200%Q; 150%Q; 100%Q])
    by (repeat constructor; discriminate).
  split; [exact H1|]. split; [exact H2|].
  apply (proj2 (take_hits_total false [200%Q; 150%Q; 100%Q] (Wall_init 3 4) H1 H2)).
  - vm_compute. discriminate.
  - discriminate.
Defined.

(** ** Tiles and positions *)

Lemma Qfloor_unique (x : Q) (z : Z) :
  (inject_Z z <= x)%Q -> (x < inject_Z (z + 1))%Q -> Qfloor x = z.
Proof.
  intros Hle Hlt.
  assert (H1 : z <= Qfloor x).
  { rewrite <- (Qfloor_Z z). apply Qfloor_resp_le. exact Hle. }
  assert (H2 : Qfloor x < z + 1).
  { rewrite Zlt_Qlt. eapply Qle_lt_trans; [apply Qfloor_le | exact Hlt]. }
  lia.
Qed.

Lemma Qfloor_bounds (x : Q) (z : Z) :
  Qfloor x = z <-> (inject_Z z <= x /\ x < inject_Z (z + 1))%Q.
Proof.
  split.
  - intros <-. split; [apply Qfloor_le | apply Qlt_floor].
  - intros [H1 H2]. apply Qfloor_unique; assumption.
Qed.

(** The tile of a coordinate along one axis. *)
Lemma tile_of_coordinate (x : Q) (gx : Z) :
  Qfloor (x / inject_Z TILE_SIZE) = gx
  <-> (inject_Z (gx * TILE_SIZE) <= x /\ x < inject_Z (gx * TILE_SIZE) + inject_Z TILE_SIZE)%Q.
Proof.
  rewrite Qfloor_bounds. rewrite inject_Z_mult, inject_Z_plus.
  change (inject_Z TILE_SIZE) with 32%Q. change (inject_Z 1) with 1%Q.
  split; intros [H1 H2].
  - split.
    + apply (Qmult_le_r _ _ 32) in H1; [|reflexivity].
      assert (E : (x / 32 * 32 == x)%Q) by (field; discriminate). lra.
    + apply (Qmult_lt_r _ _ 32) in H2; [|reflexivity].
      assert (E : (x / 32 * 32 == x)%Q) by (field; discriminate). lra.
  - split.
    + apply Qle_shift_div_l; [reflexivity | exact H1].
    + apply Qlt_shift_div_r; [reflexivity | lra].
Qed.

(** [world_to_grid] gives the tile that contains the point: the tile
    [(gx, gy)] is the answer exactly for the points of the square that
    starts at its corner [grid_to_world gx gy] and is [TILE_SIZE] wide; in
    particular the corner and the centre of a tile lead back to the
    tile. *)
Theorem world_to_grid_tile (x y : Q) (gx gy : Z) :
  (world_to_grid x y = (gx, gy)
   <-> (inject_Z (grid_to_world gx gy).1 <= x
        /\ x < inject_Z (grid_to_world gx gy).1 + inject_Z TILE_SIZE
        /\ inject_Z (grid_to_world gx gy).2 <= y
        /\ y < inject_Z (grid_to_world gx gy).2 + inject_Z TILE_SIZE)%Q)
  /\ world_to_grid (inject_Z (grid_to_world gx gy).1) (inject_Z (grid_to_world gx gy).2)
     = (gx, gy)
  /\ world_to_grid (grid_to_world_center gx gy).1 (grid_to_world_center gx gy).2 = (gx, gy).
Proof.
  assert (Hiff : forall x y,
    world_to_grid x y = (gx, gy)
    <-> (inject_Z (grid_to_world gx gy).1 <= x
         /\ x < inject_Z (grid_to_world gx gy).1 + inject_Z TILE_SIZE
         /\ inject_Z (grid_to_world gx gy).2 <= y
         /\ y < inject_Z (grid_to_world gx gy).2 + inject_Z TILE_SIZE)%Q).
  { intros x' y'. unfold world_to_grid, grid_to_world. cbn [fst snd]. split.
    - intros [= H1 H2]. apply tile_of_coordinate in H1, H2. tauto.
    - intros (A & B & C & D). f_equal; apply tile_of_coordinate; split; assumption. }
  split; [apply Hiff|]. split.
  - apply Hiff. change (inject_Z TILE_SIZE) with 32%Q. lra.
  - apply Hiff. unfold grid_to_world_center, grid_to_world. cbn [fst snd].
    rewrite !inject_Z_mult. change (inject_Z TILE_SIZE) with 32%Q. lra.
Qed.

(** ** Players stay on the map *)

Lemma clamp_inside (lo hi x : Q) :
  (lo <= x)%Q -> (x <= hi)%Q -> (pymax lo (pymin x hi) == x)%Q.
Proof.
  intros H1 H2. unfold pymax, pymin.
  destruct (Qltb hi x) eqn:E1.
  - apply Qltb_iff in E1. lra.
  - destruct (Qltb lo x) eqn:E2; [reflexivity|]. apply Qltb_false_iff in E2. lra.
Qed.

(** Whatever the input, the tick length and the square root in use,
    [Player.update] leaves the player at least one radius away from
    every edge of a map that is at least two radii wide and high; a
    player who does not move and stands inside these bounds stays in
    place; and nothing but the position changes. *)
Theorem Player_update_in_map (sqrt : Q -> Q) (dt : Q) (w h : Z) (p : Player.t) :
  (2 * PLAYER_RADIUS <= inject_Z w)%Q -> (2 * PLAYER_RADIUS <= inject_Z h)%Q ->
  let p' := Player_update sqrt dt (Some (w, h)) p in
  (PLAYER_RADIUS <= Player.world_x p' /\ Player.world_x p' <= inject_Z w - PLAYER_RADIUS)%Q
  /\ (PLAYER_RADIUS <= Player.world_y p' /\ Player.world_y p' <= inject_Z h - PLAYER_RADIUS)%Q
  /\ ((Player.move_x p == 0)%Q -> (Player.move_y p == 0)%Q ->
      ((PLAYER_RADIUS <= Player.world_x p <= inject_Z w - PLAYER_RADIUS)%Q ->
       (Player.world_x p' == Player.world_x p)%Q)
      /\ ((PLAYER_RADIUS <= Player.world_y p <= inject_Z h - PLAYER_RADIUS)%Q ->
          (Player.world_y p' == Player.world_y p)%Q))
  /\ Player.player_id p' = Player.player_id p /\ Player.name p' = Player.name p
  /\ Player.color_index p' = Player.color_index p
  /\ Player.move_x p' = Player.move_x p /\ Player.move_y p' = Player.move_y p.
Proof.
  intros Hw Hh. cbv zeta. unfold Player_update.
  set (m := (Player.move_x p * Player.move_x p + Player.move_y p * Player.move_y p)%Q).
  destruct (Qltb EPS m) eqn:Em.
  - cbn [Player.world_x Player.world_y Player.set_world_x Player.set_world_y
           Player.player_id Player.name Player.color_index Player.move_x Player.move_y].
    split; [apply clamp_bounds; lra|]. split; [apply clamp_bounds; lra|].
    split; [|split_and!; reflexivity].
    intros Hx Hy. exfalso. apply Qltb_iff in Em. unfold m in Em. rewrite Hx, Hy in Em.
    pose proof EPS_pos. lra.
  - cbn [Player.world_x Player.world_y Player.set_world_x Player.set_world_y
           Player.player_id Player.name Player.color_index Player.move_x Player.move_y].
    split; [apply clamp_bounds; lra|]. split; [apply clamp_bounds; lra|].
    split; [|split_and!; reflexivity].
    intros _ _. split; intros [H1 H2].
    + rewrite clamp_inside; [ring | lra | lra].
    + rewrite clamp_inside; [ring | lra | lra].
Qed.

(** A player walking right on the default map. *)
Lemma Player_update_in_map_witness :
  (2 * PLAYER_RADIUS <= inject_Z 1280)%Q /\ (2 * PLAYER_RADIUS <= inject_Z 608)%Q
  /\ (Player.world_x
        (Player_update (fun x => x) (1 # 60) (Some (1280%Z, 608%Z))
           (Player.Make 0 1270 300 1 0 "Player0" 0 0 0))
      <= inject_Z 1280 - PLAYER_RADIUS)%Q.
Proof.
  assert (H1 : (2 * PLAYER_RADIUS <= inject_Z 1280)%Q) by discriminate.
  assert (H2 : (2 * PLAYER_RADIUS <= inject_Z 608)%Q) by discriminate.
  split; [exact H1|]. split; [exact H2|].
  exact (proj2 (proj1 (Player_update_in_map (fun x => x) (1 # 60) 1280 608
                         (Player.Make 0 1270 300 1 0 "Player0" 0 0 0) H1 H2))).
Defined.

(** ** Projectiles *)

(** A hit on an enemy: the hit points go down by the amount but not
    below zero; the enemy is destroyed, and on the authoritative side
    rewarded with 10 copper, exactly when they reach zero. *)
Lemma Enemy_take_damage_spec (g g' : Game) (eid : string) (e : Enemy.t) (amount : Q) :
  Enemy_take_damage g eid e amount = Some g' ->
  projectiles g' = projectiles g /\ heap g' = heap g /\ structures g' = structures g
  /\ exists e',
       enemies g' = <[eid := e']> (enemies g)
       /\ (0 <= Enemy.hp e')%Q
       /\ Enemy.network_id e' = Enemy.network_id e /\ Enemy.max_hp e' = Enemy.max_hp e
       /\ ((0 < Enemy.hp e - amount)%Q ->
           Enemy.hp e' = (Enemy.hp e - amount)%Q /\ Enemy.destroyed e' = Enemy.destroyed e
           /\ resources g' = resources g)
       /\ ((Enemy.hp e - amount <= 0)%Q ->
           Enemy.hp e' = 0%Q /\ Enemy.destroyed e' = true
           /\ (is_client g = true -> resources g' = resources g)
           /\ (is_client g = false ->
               exists v, resources g !! RES_COPPER = Some v
                         /\ resources g' = <[RES_COPPER := v + 10]> (resources g))).
Proof.
  unfold Enemy_take_damage. cbn [Enemy.hp Enemy.set_hp].
  destruct (Qleb (Enemy.hp e - amount) 0) eqn:Hle.
  - apply Qleb_iff in Hle.
    destruct (is_client g) eqn:Hcl.
    + intros [= <-]. split_and!; try reflexivity.
      eexists. split; [reflexivity|]. cbn. split_and!; try reflexivity; try discriminate.
      * intros H. lra.
      * intros _. split_and!; try reflexivity. discriminate.
    + destruct (resources g !! RES_COPPER) as [v|] eqn:Hv; [|discriminate].
      intros [= <-]. split_and!; try reflexivity.
      eexists. split; [reflexivity|]. cbn. split_and!; try reflexivity; try discriminate.
      * intros H. lra.
      * intros _. split_and!; try reflexivity; [discriminate|].
        intros _. exists v. split; reflexivity.
  - assert (Hgt : (0 < Enemy.hp e - amount)%Q).
    { destruct (Qlt_le_dec 0 (Enemy.hp e - amount)) as [?|H]; [assumption|].
      apply Qleb_iff in H. congruence. }
    intros [= <-]. split_and!; try reflexivity.
    eexists. split; [reflexivity|]. cbn. split_and!; try reflexivity.
    + lra.
    + intros _. split_and!; reflexivity.
    + intros H. lra.
Qed.

(** One tick of a projectile.  A destroyed projectile is inert.  A live
    one moves by its velocity and ages by the tick; if it is still alive
    afterwards it is inside the map with lifetime left and has changed
    nothing else; and the only other things a tick can change are its
    target -- a live enemy, hit once with the damage of the projectile,
    which destroys the projectile -- and the copper reward for a kill. *)
Theorem Projectile_update_spec (g g' : Game) (pid : string) (p : Projectile.t) :
  projectiles g !! pid = Some p -> Projectile_update g pid = Some g' ->
  (Projectile.destroyed p = true -> g' = g)
  /\ (Projectile.destroyed p = false ->
      heap g' = heap g /\ structures g' = structures g
      /\ (forall q, q <> pid -> projectiles g' !! q = projectiles g !! q)
      /\ exists p',
           projectiles g' !! pid = Some p'
           /\ Projectile.world_x p' = (Projectile.world_x p + Projectile.vx p * dt g)%Q
           /\ Projectile.world_y p' = (Projectile.world_y p + Projectile.vy p * dt g)%Q
           /\ Projectile.lifetime p' = (Projectile.lifetime p - dt g)%Q
           /\ (Projectile.destroyed p' = false ->
               inside_map g (Projectile.world_x p') (Projectile.world_y p') = true
               /\ (0 < Projectile.lifetime p')%Q)
           /\ ((enemies g' = enemies g /\ resources g' = resources g)
               \/ exists eid target target',
                    Projectile.target_enemy_id p = Some eid
                    /\ enemies g !! eid = Some target /\ Enemy.destroyed target = false
                    /\ Projectile.destroyed p' = true
                    /\ enemies g' = <[eid := target']> (enemies g)
                    /\ (0 <= Enemy.hp target')%Q
                    /\ ((0 < Enemy.hp target - Projectile.damage p)%Q ->
                        Enemy.hp target' = (Enemy.hp target - Projectile.damage p)%Q
                        /\ Enemy.destroyed target' = false /\ resources g' = resources g)
                    /\ ((Enemy.hp target - Projectile.damage p <= 0)%Q ->
                        Enemy.hp target' = 0%Q /\ Enemy.destroyed target' = true
                        /\ (is_client g = false ->
                            exists v, resources g !! RES_COPPER = Some v
                                      /\ resources g' = <[RES_COPPER := v + 10]> (resources g))))).
Proof.
  intros Hp. unfold Projectile_update. rewrite Hp.
  destruct (Projectile.destroyed p) eqn:Hd.
  { intros [= <-]. split; [reflexivity | discriminate]. }
  set (p1 := Projectile_advance (dt g) p).
  set (g1 := with_projectiles (<[pid := p1]> (projectiles g)) g).
  intros Hupd. split; [discriminate|]. intros _.
  assert (Hother : forall (pp : Projectile.t) (gg : Game) q,
             projectiles gg = projectiles g1 -> q <> pid ->
             projectiles (with_projectiles (<[pid := pp]> (projectiles gg)) gg) !! q
             = projectiles g !! q).
  { intros pp gg q E Hq. change (projectiles (with_projectiles ?m _)) with m.
    rewrite lookup_insert_ne by congruence. rewrite E. unfold g1.
    change (projectiles (with_projectiles ?m _)) with m.
    apply lookup_insert_ne. congruence. }
  destruct (match Projectile_target g1 p1 with
            | Some (eid, target) => _ | None => None end) as [[eid target]|] eqn:Hhit.
  - (* a hit *)
    assert (Ht : Projectile.target_enemy_id p = Some eid
                 /\ enemies g !! eid = Some target /\ Enemy.destroyed target = false).
    { unfold Projectile_target in Hhit.
      change (Projectile.target_enemy_id p1) with (Projectile.target_enemy_id p) in Hhit.
      change (enemies g1) with (enemies g) in Hhit.
      destruct (Projectile.target_enemy_id p) as [eid0|]; [|discriminate].
      destruct (String.eqb eid0 ""); [discriminate|].
      destruct (enemies g !! eid0) as [t0|] eqn:Et; [|discriminate]. cbn in Hhit.
      destruct (negb (Enemy.destroyed t0)) eqn:En; [|discriminate]. cbn [andb] in Hhit.
      destruct (Qltb _ HIT_RADIUS_SQ); [|discriminate].
      injection Hhit as <- <-. apply negb_true_iff in En. split_and!; try reflexivity.
      - exact Et.
      - exact En. }
    destruct Ht as (Ht1 & Ht2 & Ht3).
    destruct (Enemy_take_damage g1 eid target (Projectile.damage p1)) as [g2|] eqn:Hdmg;
      [|discriminate].
    cbn in Hupd. injection Hupd as <-.
    destruct (Enemy_take_damage_spec _ _ _ _ _ Hdmg)
      as (Fp & Fh & Fs & e' & Fe & Fhp & _ & _ & Flive & Fdead).
    split_and!.
    + exact Fh.
    + exact Fs.
    + intros q Hq. apply Hother; assumption.
    + exists (Projectile_set_destroyed true p1).
      split; [change (projectiles (with_projectiles ?m _)) with m; apply lookup_insert_eq|].
      split_and!; try reflexivity; [discriminate|].
      right. exists eid, target, e'.
      change (Projectile.damage p1) with (Projectile.damage p) in *.
      change (enemies g1) with (enemies g) in Fe.
      change (resources g1) with (resources g) in *.
      change (is_client g1) with (is_client g) in *.
      change (enemies (with_projectiles _ g2)) with (enemies g2).
      change (resources (with_projectiles _ g2)) with (resources g2).
      split_and!; try assumption; try reflexivity.
      * intros H. destruct (Flive H) as (A & B & C). rewrite B. split_and!; assumption.
      * intros H. destruct (Fdead H) as (A & B & _ & D). split_and!; assumption.
  - (* no hit *)
    destruct (Qleb (Projectile.lifetime p1) 0
              || negb (inside_map g1 (Projectile.world_x p1) (Projectile.world_y p1)))
      eqn:Hend; injection Hupd as <-.
    + split_and!; try reflexivity.
      * intros q Hq. apply Hother; [reflexivity | exact Hq].
      * exists (Projectile_set_destroyed true p1).
        split; [change (projectiles (with_projectiles ?m _)) with m; apply lookup_insert_eq|].
        split_and!; try reflexivity; [discriminate|]. left. split; reflexivity.
    + apply orb_false_iff in Hend as [Hl Hin]. apply negb_false_iff in Hin.
      split_and!; try reflexivity.
      * intros q Hq. unfold g1. change (projectiles (with_projectiles ?m _)) with m.
        apply lookup_insert_ne. congruence.
      * exists p1.
        split; [unfold g1; change (projectiles (with_projectiles ?m _)) with m;
                apply lookup_insert_eq|].
        split_and!; try reflexivity.
        -- intros _. split; [exact Hin|].
           destruct (Qlt_le_dec 0 (Projectile.lifetime p1)) as [?|H]; [assumption|].
           apply Qleb_iff in H. congruence.
        -- left. split; reflexivity.
Qed.

(** The projectile of the battle world, one tick on. *)
Lemma Projectile_update_spec_witness :
  exists p g',
    projectiles battle_world !! "p_1" = Some p
    /\ Projectile_update battle_world "p_1" = Some g'
    /\ (Projectile.destroyed p = false ->
        heap g' = heap battle_world /\ structures g' = structures battle_world).
Proof.
  eexists. eexists. split; [vm_compute; reflexivity|].
  split; [vm_compute; reflexivity|].
  intros Hd.
  match goal with |- heap ?x = _ /\ _ =>
    destruct (Projectile_update_spec battle_world x "p_1" _ eq_refl eq_refl) as [_ H]
  end.
  destruct (H Hd) as (A & B & _). split; [exact A | exact B].
Defined.

(** ** Objects sit in the cells of their coordinates

    The invariant [grid_coords_ok], on which the cell clause of the
    removal rests, holds of a newly set up world and is kept by each of
    the three player actions, whatever their outcome. *)

Lemma grid_coords_ok_setup_world_core (g : Game) (name : string) (color_index : Z) :
  is_client g = false -> 0 < grid_width g -> 0 < grid_height g ->
  grid_coords_ok (setup_world_core g name color_index).
Proof.
  intros Hc Hw Hh.
  pose proof (setup_world_core_world g name color_index Hc Hw Hh) as H. cbv zeta in H.
  destruct H as (Hheap & _ & _ & Hgrid & _).
  intros gx gy a Ha. rewrite Hgrid in Ha.
  apply lookup_singleton_Some in Ha as [Hk Hv].
  injection Hk as <- <-. injection Hv as <-.
  eexists. split; [rewrite Hheap; apply list_lookup_middle; reflexivity |].
  split; reflexivity.
Qed.

Lemma grid_coords_ok_place (g : Game) (player_id b_type gx gy orientation : Z) (rnd : Q) :
  grid_coords_ok g ->
  grid_coords_ok (action_place_structure g player_id b_type gx gy orientation rnd).1.
Proof.
  intros Hok.
  destruct (action_place_structure_cases g player_id b_type gx gy orientation rnd)
    as [-> | (cost & cls & s & _ & _ & _ & _ & _ & _ & H)]; [exact Hok |].
  cbv zeta in H. destruct H as (_ & Hheap & Hgrid & _ & _ & _ & _ & Hx & Hy & _).
  intros x y a Ha. rewrite Hgrid in Ha. rewrite Hheap.
  destruct (decide ((x, y) = (gx, gy))) as [Heq | Hne].
  - injection Heq as -> ->. rewrite lookup_insert_eq in Ha. injection Ha as <-.
    exists s. split; [apply list_lookup_middle; reflexivity | split; assumption].
  - rewrite lookup_insert_ne in Ha by congruence.
    destruct (Hok x y a Ha) as (s0 & Hs0 & Hxy). exists s0.
    split; [apply lookup_app_l_Some; exact Hs0 | exact Hxy].
Qed.

Lemma grid_coords_ok_remove (g : Game) (player_id gx gy : Z) :
  grid_coords_ok g -> grid_coords_ok (action_remove_structure g player_id gx gy).1.
Proof.
  intros Hok. unfold action_remove_structure.
  destruct (is_client g); [exact Hok |].
  destruct (players g !! player_id) as [player|]; [| exact Hok].
  destruct (get_structure_at g gx gy) as [[p | a]|]; [exact Hok | | exact Hok].
  destruct (heap g !! a) as [s|] eqn:Hs; [| exact Hok].
  destruct ((building_type s =? BUILDING_CORE) || (building_type s =? BUILDING_RESOURCE));
    [exact Hok |].
  destruct (out_of_build_radius player gx gy); [exact Hok |].
  cbn [fst].
  set (g1 := with_resources (refund_removed (cost s) (resources g)) g).
  assert (Hh1 : heap g1 !! a = Some s) by exact Hs.
  pose proof (_remove_structure_from_game_effect g1 a s Hh1) as He. cbv zeta in He.
  destruct He as (_ & Hheap' & _ & Hgrid').
  change (heap g1) with (heap g) in Hheap'.
  change (grid g1) with (grid g) in Hgrid'.
  intros x y b Hb. rewrite Hheap'. rewrite Hgrid' in Hb.
  destruct (in_bounds g1 (grid_x s) (grid_y s) && cell_is _ a); [| exact (Hok x y b Hb)].
  destruct (truthy _).
  - destruct (decide ((x, y) = (grid_x s, grid_y s))) as [Heq | Hne].
    + rewrite Heq, lookup_insert_eq in Hb. discriminate.
    + rewrite lookup_insert_ne in Hb by congruence. exact (Hok x y b Hb).
  - apply lookup_delete_Some in Hb as [_ Hb]. exact (Hok x y b Hb).
Qed.

Lemma grid_coords_ok_upgrade (g : Game) (player_id gx gy : Z) :
  grid_coords_ok g -> grid_coords_ok (action_upgrade_structure g player_id gx gy).1.
Proof.
  intros Hok.
  destruct (action_upgrade_structure_cases g player_id gx gy)
    as [-> | (player & a & target & cost & _ & _ & _ & Ht & _ & Hcan & _ & _ & _ & H)];
    [exact Hok |].
  cbv zeta in H. destruct H as (_ & Hheap & Hgrid & _).
  intros x y b Hb. rewrite Hgrid in Hb. rewrite Hheap.
  destruct (Hok x y b Hb) as (s0 & Hs0 & Hx & Hy).
  destruct (decide (b = a)) as [-> | Hne].
  - exists (apply_upgrade target).1.
    split; [apply list_lookup_insert_eq; eapply lookup_lt_Some; exact Ht |].
    destruct (apply_upgrade_ids target Hcan) as (_ & Hx' & Hy' & _).
    unfold Ref in *. rewrite Ht in Hs0. injection Hs0 as <-.
    rewrite Hx', Hy'. split; assumption.
  - exists s0. split; [| split; assumption].
    rewrite list_lookup_insert_ne by congruence. exact Hs0.
Qed.

(** The worlds that the player actions build from a new world have
    their objects in the cells of their coordinates. *)
Lemma demo_world_grid_coords_ok : grid_coords_ok demo_world.
Proof. apply grid_coords_ok_setup_world_core; [reflexivity | reflexivity | reflexivity]. Qed.

(** ** What a snapshot does not carry *)

(** C2 (counterexample).  The client that joins [battle_world] through a
    full snapshot gets the projectile "p_1" with damage 0 and no target,
    where the source has damage 30 and the target "e_1", and a drill that
    no longer knows it stands on a patch: these fields are not part of
    the serialised state, and they are not visual. *)
Lemma round_trip_loses_damage_and_patch :
  get_full_snapshot battle_world = Some (snapshot_of battle_world)
  /\ Projectile.damage <$> projectiles battle_world !! "p_1" = Some 30%Q
  /\ Projectile.damage <$> projectiles joined_world !! "p_1" = Some 0%Q
  /\ Projectile.target_enemy_id <$> projectiles battle_world !! "p_1" = Some (Some "e_1")
  /\ Projectile.target_enemy_id <$> projectiles joined_world !! "p_1" = Some None
  /\ (structure_of battle_world "18_12_1" ≫= fun s =>
        match kind s with KDrill d => Some (Drill.is_on_patch d) | _ => None end) = Some true
  /\ (structure_of joined_world "18_12_1" ≫= fun s =>
        match kind s with KDrill d => Some (Drill.is_on_patch d) | _ => None end) = Some false.
Proof. vm_compute. repeat split; reflexivity. Qed.

(** C8 (counterexample).  A snapshot with one entry, a turret at tier 2
    flagged as powered, applied to a new world: the first application
    creates the turret at tier 1, sets [is_powered] and then runs
    [update_stats] for the new tier, which clears the flag; the second
    application finds the tier unchanged and leaves the flag set. *)
Lemma second_application_powers_turret :
  is_powered <$> structure_of applied_once "5_5_3" = Some false
  /\ is_powered <$> structure_of applied_twice "5_5_3" = Some true.
Proof. vm_compute. split; reflexivity. Qed.
